(* ===== verification/_CoqProject ===== *)
-Q . S2P
Prelude.v
RustStd.v
AgentApi.v
Bpf.v
ConnTracer.v
ConnConcurrent.v
CacheManager.v
CacheWatch.v
Program.v
ServiceMap.v
Registry.v
Collector.v
ProgManager.v
ManagerConcurrent.v
AgentService.v
AgentAsync.v
Rpc.v
Server.v
Cli.v
CliAgent.v
SocketData.v
SocketTracer.v
SocketProbes.v
SocketProps.v
SocketLayout.v
SocketTyped.v
SocketThreads.v
SocketFilters.v
SocketSession.v
SocketUser.v
PerfStream.v
SocketMain.v
PerfArray.v
Bitfield.v
KernelLayout.v
KernelMemory.v
ConnBindings.v
SocketBindings.v
ConnMemory.v
SocketMemory.v
EndToEnd.v
PollConcurrent.v
BuildTasks.v
Startup.v
