(* ===== verification/Prelude.v ===== *)
(** * eBPFConductor

    eBPFConductor runs an agent on every node of a Kubernetes cluster.  eBPF
    programs attached to the kernel record connections in maps and send events
    to user space; programs inside the agent poll those maps, name the workloads
    behind the addresses and publish metrics; a command line client talks to the
    agent over a Unix socket.  This library models the repository's own code,
    function by function, and proves what makes each part correct.

    Parts of the program and files of the library

    - [Prelude]: Rust's [Result] and early return as a state-and-error monad [M],
      machine integers as [Z] with [wrapu]/[wraps], hash maps as [gmap] with an
      arbitrary iteration order ([HashIter]), strings, sums; the tactics
      [run_inv], [stable_auto], [holds_auto] and their hint databases.
    - [RustStd]: the formatting, parsing, [Ipv4Addr] and byte-order functions of
      Rust's standard library that the code calls.
    - [AgentApi]: src/agent-api/src/lib.rs and the messages of agent.v1.rs.
    - [Bpf]: BPF maps as the kernel documents them, parameters of everything
      that uses them.
    - [ConnTracer]: src/ebpf/conn-tracer/conn-tracer-ebpf/src/main.rs, the two
      probes that fill the CONNECTIONS map, and the structures of
      conn-tracer-common; [ConnConcurrent]: the same probes as programs over
      single map operations, running on several CPUs at once.
    - [CacheManager], [CacheWatch]: src/agent/src/managers/cache.rs, from pod
      addresses to workloads through chains of owners, and the nine watcher tasks
      that fill the tables, as a transition system.
    - [Program]: src/agent/src/progs/types.rs, the trait [Program] as a class with
      the laws its clients rely on.
    - [ServiceMap]: src/agent/src/progs/service_map/program.rs, the built-in
      program; it implements [Program] and discharges the laws.
    - [Registry]: src/agent/src/managers/registry.rs and common/types.rs, over a
      heap of shared programs.
    - [Collector]: src/agent/src/collector/mod.rs, a scrape of the metrics.
    - [ProgManager]: src/agent/src/managers/prog.rs, the life cycle of programs
      and of the tasks spawned for them, as a transition system;
      [ManagerConcurrent]: the same methods for several requests at once, one
      access to shared state at a time.
    - [AgentService], [Server]: the handlers of src/agent/src/server/rpc.rs, the
      listeners and the start-up of src/agent/src/server.
    - [Rpc]: the stubs of src/agent-api/src/agent.v1.rs and the channel of lib.rs,
      between the client and the service.
    - [Startup]: the agent's arguments and environment (main.rs, utils.rs), its
      image manager, and the user space of the connection tracer.
    - [Cli], [CliAgent]: src/agent-cli/src, arguments, requests and tables, and
      the commands over the stubs in front of a running agent.
    - [SocketData], [SocketTracer], [SocketProbes], [SocketProps]:
      src/ebpf/socket-tracer/socket-tracer-ebpf/src, the tracer of socket system
      calls: data and maps, its library (lib.rs, filters.rs, helpers.rs,
      protocols.rs), the probes (kprobes), and properties of whole runs;
      [SocketTyped]: in every run the events have fields of their types;
      [SocketThreads]: the pending arguments of several threads;
      [SocketSession]: one connection from its opening to its close, with any
      probes in between.
    - [SocketLayout], [SocketUser]: the events as bytes, and
      src/ebpf/socket-tracer/socket-tracer/src, which attaches the probes and
      reads the events; [PerfStream]: probes, rings and reading tasks at once;
      [SocketMain]: [main] and its loaders from start-up to Ctrl-C.
    - [PerfArray]: the perf event array and the bounded read of helpers.rs.
    - [Bitfield], [KernelLayout]: the bit field unit of the kernel bindings
      (vmlinux.rs of both tracers) and the layout of repr(C) declarations.
    - [ConnBindings], [SocketBindings]: the declarations of the two bindings that
      the probes use, [tcp_sock], [task_struct], [sock] and the message and
      address structures, with everything they contain by value.
    - [KernelMemory], [ConnMemory], [SocketMemory]: the reads of the probes as
      bytes of memory at the offsets of that layout.
    - [EndToEnd], [PollConcurrent]: the connection tracer and the service map put
      together, with probes and polls one after the other and step by step at the
      same time.
    - [BuildTasks]: the xtask programs.

    The parts interact as in the code.  [ConnTracer] writes the kernel map that
    [ServiceMap] polls; [ServiceMap] asks [CacheManager] for workloads;
    [Registry], [Collector] and [ProgManager] see programs only through
    [Program]; [AgentService] calls [ProgManager]; [Cli] calls the service, in
    [Rpc] through the stubs; the kernel records of [ConnTracer] and [SocketTracer]
    are computed from memory in [ConnMemory] and [SocketMemory];
    [SocketUser] attaches the probes of [SocketProbes] and reads what they send,
    in [PerfStream] through the rings of every CPU.
    Shared objects are shared in the model: a program behind an [Arc] is a
    location of a heap, a clone of the cache manager is a handle to one set of
    tables, and BPF maps are one state that probes and agent both change.

    What the theorems show

    - Connections in the kernel: every reachable content of the maps is well
      formed, whatever the interleaving of the probes, and the life of an
      outgoing connection is recorded under one identity; probes on several CPUs
      that do not share a socket have the effect of running one at a time.
    - Service map: a poll returns the sums it should, changes neither more nor
      less of the kernel's map than it should and conserves bytes modulo 2^64;
      initialisation, the loop and its signals, the metrics, and a race of poll
      and stop.
    - From kernel memory to a report: an outgoing connection is reported with the
      addresses, port and byte count of the kernel's [tcp_sock]; an accepted one
      with its port's bytes exchanged.  Polls and probes running at once count
      every byte once unless a key comes back after its removal; the two ways in
      which that happens, an accepted connection and an evicted socket, are
      theorems of their own.
    - Owners: a pod is attributed to the last controller of its chain; the walk
      ends when the chain does, with a bound, and does not end on a cycle.
    - Watchers: what the shared tables hold over every interleaving; one stream
      error stops the attribution of pods; a pod seen before its owner stays
      attributed to itself.
    - Registries and listing: insertion and listing are exact on every branch
      and independent of iteration order.
    - Program manager: an invariant of all interleavings of requests, each
      interrupted at every access to shared state, with task turns, scrapes,
      shutdowns and kernel activity; an unload whose task existed when the signal
      was sent is never stranded; the coarser transition system is a part of the
      finer one; what an unload does that overlaps with a load (wait for a task
      nobody has signalled, answer while the program is about to run), and what
      repeated loads and a zero period do.
    - RPC service: the handlers refine the manager's transition system; each
      outcome of a load; listing; the client's tables show what the agent has.
    - Stubs: a call of the client is a call of the handler, what is refused on the
      way leaves the agent alone, and the manager's invariant holds over every
      sequence of calls; interceptors run between the two ends.
    - Bindings: bit fields read back what was written, independently and as a
      shift and mask; every field lies inside its object at its alignment; the
      bindings of both tracers are well formed and agree where both read.
    - Socket tracer: over all runs, what is sent is bounded and counters stay as
      they were created; chunks put together are the message; accept and close
      open and forget a connection, and the events of its opening, data and close
      agree; the arguments of a call are matched with its return thread by thread,
      and it is said exactly which returns leave them behind; filters; the events
      survive their encoding;
      which probes the loaders attach where, which calls go untraced for that
      and other reasons (vectors in user memory among them); what reaches the log
      through the rings, in order and at most once, and which samples are read
      past their end; the life of [main] and its loaders.

    Parameters and their laws

    Code that is not in the repository is a parameter: the kernel's answers to a
    probe (memory reads, clock, current task), BPF hash and LRU maps
    ([HashLaws], [LruLaws]: an update or deletion succeeds or fails, and an LRU
    map may evict any entry; [RoomLaws]: below its capacity it does not), the
    aya iterator, pinned maps and loader calls, the reply of bpfman, Kubernetes
    objects, streams and stores ([Reflector]), the [fnv] hash, the metrics
    encoder, the tonic library ([TonicLaws]: a unary call carries messages
    within the limits and refuses others; [Intercepting]: what an interceptor
    does to a request), the kernel helpers of [PerfArray],
    the size of a perf ring, what loading an object pins, the processes the
    build tasks start, tokio's [Notify] ([NotifyLaws]), and its broadcast
    channel ([Broadcast]: a receiver that is not behind by more than the
    capacity gets every signal in order). Every law has an instance in the
    library ([bounded_hash], [bounded_broadcast], [fifo_notify] and the
    examples), which the witnesses use. The types of the kernel's answers to the
    socket tracer ([kernel_typed]) hold of every memory of bytes
    ([memory_kernel_typed]).

    Bounds

    The loops of the eBPF programs are bounded in the source; the model's
    recursion runs on the same constants (CHUNK_LIMIT 84, LOOP_LIMIT 882,
    PROTOCOL_VEC_LIMIT 3).  The walk over owners is unbounded in the source; its
    model takes fuel, a theorem gives an amount that is enough whenever
    controllers decrease in some rank, and the specification is an equivalence
    that fixes the result for every amount.  Integers wrap where the code's
    types do.

    Granularity

    In [ProgManager] a method up to its await, a turn of a task and a scrape are
    single steps; in [ManagerConcurrent] a step of a method is one access to
    shared state, and the runs of [ProgManager] are proved to be runs of it; the
    service, the stubs and the client are stated over [ProgManager].  Within one
    program the two lock sections of a poll
    are separated, and the race with stop between them is a theorem.  The probes
    of the connection tracer interleave at single map operations; a poll
    interleaves with them and with other polls at its locks, the items of its
    iterator and the lookup and removal of each entry.  That an uninterrupted run
    of those steps is the probe or the poll of [ConnTracer] and [ServiceMap] is
    proved.  The probes of the socket tracer run to their end before the next one
    starts, but what they write to the rings goes there one event at a time,
    between the turns of the reading tasks.

    Layouts are those of x86-64 and are evaluated, not assumed; a unary nat is
    never larger than the size of a structure.

    Not modelled

    The types of the kernel bindings that the probes do not reach: both files are
    generated from a kernel's type information and declare thousands of types
    that no line of the program mentions.  Terminal output and logging, which
    compute nothing, and the parsing of arguments that clap derives. *)
From stdpp Require Import base gmap strings list fin_maps pretty.
From Stdlib Require Import ZArith Lia Ascii.

(** ** Notations, scope and automation databases *)

Declare Scope rust_scope.
Delimit Scope rust_scope with rust.

Create HintDb rust.
Create HintDb rust_pres.
Create HintDb rust_rw.

(** ** Rust's [Result] *)

Inductive result (E A : Type) : Type :=
  | Ok (a : A)
  | Err (e : E).
Arguments Ok {E A} a.
Arguments Err {E A} e.

Global Instance result_ret {E} : MRet (result E) := λ A x, Ok x.
Global Instance result_bind {E} : MBind (result E) := λ A B f r,
  match r with Ok a => f a | Err e => Err e end.
Global Instance result_fmap {E} : FMap (result E) := λ A B f r,
  match r with Ok a => Ok (f a) | Err e => Err e end.

(** [r.map_err(f)] *)
Definition map_err {E F A} (f : E → F) (r : result E A) : result F A :=
  match r with Ok a => Ok a | Err e => Err (f e) end.

(** [o.ok_or(e)] *)
Definition ok_or {E A} (e : E) (o : option A) : result E A :=
  match o with Some a => Ok a | None => Err e end.

(** [r.ok()] *)
Definition ok {E A} (r : result E A) : option A :=
  match r with Ok a => Some a | Err _ => None end.

Definition is_ok {E A} (r : result E A) : bool :=
  match r with Ok _ => true | Err _ => false end.

(** ** State and errors

    [M S E A] is code that reads and writes a state [S] and may return early
    with an error [E].  An early return keeps what was written before it, as
    the [?] operator does: there is no rollback. *)

Definition M (S E A : Type) : Type := S → result E A * S.

Section monad.
Context {S E : Type}.

Global Instance M_ret : MRet (M S E) := λ A x s, (Ok x, s).
Global Instance M_bind : MBind (M S E) := λ A B f m s,
    match m s with
    | (Ok a, s') => f a s'
    | (Err e, s') => (Err e, s')
    end.

Definition throw {A} (e : E) : M S E A := λ s, (Err e, s).
Definition lift {A} (r : result E A) : M S E A := λ s, (r, s).
Definition gets {A} (f : S → A) : M S E A := λ s, (Ok (f s), s).
Definition modify (f : S → S) : M S E unit := λ s, (Ok (), f s).

(** [let r = m;] without [?]: the error is a value. *)
Definition attempt {A} (m : M S E A) : M S E (result E A) := λ s,
    let (r, s') := m s in (Ok r, s').
End monad.

(** The final state and the value of a run. *)
Definition state_of {S E A} (m : M S E A) (s : S) : S := snd (m s).
Definition value_of {S E A} (m : M S E A) (s : S) : result E A := fst (m s).

(** Inversion of a run that returned [Ok]. *)
Section inversion.
Context {S E A B : Type}.

Lemma bind_ok (m : M S E A) (f : A → M S E B) s b s' :
  (m ≫= f) s = (Ok b, s') → ∃ a s1, m s = (Ok a, s1) ∧ f a s1 = (Ok b, s').
Proof.
  unfold mbind, M_bind. destruct (m s) as [[a|e] s1] eqn:E1; [|done]. eauto.
Qed.

Lemma lift_ok (r : result E A) (s : S) a s' : lift r s = (Ok a, s') → r = Ok a ∧ s' = s.
Proof. unfold lift. by intros [= -> ->]. Qed.

Lemma gets_ok (f : S → A) s a s' : (gets f : M S E A) s = (Ok a, s') → a = f s ∧ s' = s.
Proof. unfold gets. by intros [= -> ->]. Qed.

Lemma ret_ok (x : A) s a s' : (mret x : M S E A) s = (Ok a, s') → a = x ∧ s' = s.
Proof. unfold mret, M_ret. by intros [= -> ->]. Qed.

Lemma modify_ok (f : S → S) s a s' : (modify f : M S E unit) s = (Ok a, s') → s' = f s.
Proof. unfold modify. by intros [= _ <-]. Qed.

Lemma attempt_ok (m : M S E A) s r s' : attempt m s = (Ok r, s') → m s = (r, s').
Proof. unfold attempt. destruct (m s). by intros [= -> ->]. Qed.
End inversion.

Ltac run_inv :=
  repeat match goal with
  | H : (_ ≫= _) _ = (Ok _, _) |- _ =>
      let a := fresh "a" in let s1 := fresh "s" in let H1 := fresh "H" in
      apply bind_ok in H as (a & s1 & H1 & H)
  | H : lift _ _ = (Ok _, _) |- _ => apply lift_ok in H as [H ->]
  | H : gets _ _ = (Ok _, _) |- _ => apply gets_ok in H as [-> ->]
  | H : mret _ _ = (Ok _, _) |- _ => apply ret_ok in H as [-> ->]
  | H : mret _ _ = (Ok _, _) |- _ => apply ret_ok in H as [_ ->]
  | H : modify _ _ = (Ok _, _) |- _ => apply modify_ok in H as ->
  | H : attempt _ _ = (Ok _, _) |- _ => apply attempt_ok in H
  | H : throw _ _ = (Ok _, _) |- _ => discriminate H
  | H : ok_or _ (Some _) = Ok _ |- _ => injection H as <-
  | H : ?r = Ok ?a, H' : ?r = Ok ?b |- _ => rewrite H' in H; injection H as <-
  | u : unit |- _ => destruct u
  end; simpl in *.

(** [stable R m]: running [m] moves the state along the preorder [R], whatever
    [m] returns.  With [R s s' := I s → I s'] this is the preservation of an
    invariant; with [R s s' := f s' = f s] it is a frame property. *)
Definition stable {S E A} (R : relation S) (m : M S E A) : Prop :=
  ∀ s, R s (state_of m s).

Section stable.
Context {S E : Type} (R : relation S) `{!PreOrder R}.

Lemma stable_ret {A} (x : A) : stable R (mret x : M S E A).
Proof. intros s. reflexivity. Qed.

Lemma stable_throw {A} (e : E) : stable R (throw e : M S E A).
Proof. intros s. reflexivity. Qed.

Lemma stable_lift {A} (r : result E A) : stable R (lift r : M S E A).
Proof. intros s. reflexivity. Qed.

Lemma stable_gets {A} (f : S → A) : stable R (gets f : M S E A).
Proof. intros s. reflexivity. Qed.

Lemma stable_modify (f : S → S) : (∀ s, R s (f s)) → stable R (modify f : M S E unit).
Proof. intros H s. apply H. Qed.

Lemma stable_bind {A B} (m : M S E A) (f : A → M S E B) :
  stable R m → (∀ a, stable R (f a)) → stable R (m ≫= f).
Proof.
  intros Hm Hf s. specialize (Hm s). revert Hm.
  unfold state_of, mbind, M_bind. destruct (m s) as [[a|e] s'] eqn:?; simpl; [|done].
  intros Hm. transitivity s'; [done|]. apply (Hf a s').
Qed.

Lemma stable_attempt {A} (m : M S E A) : stable R m → stable R (attempt m).
Proof.
  intros Hm s. specialize (Hm s). revert Hm.
  unfold state_of, attempt. destruct (m s) as [r s']; simpl. done.
Qed.

Lemma stable_ext {A} (m m' : M S E A) : (∀ s, m s = m' s) → stable R m → stable R m'.
Proof. intros Heq Hm s. unfold state_of. rewrite <- Heq. apply Hm. Qed.
End stable.

#[export] Hint Resolve stable_ret stable_throw stable_lift stable_gets
  stable_bind stable_attempt : rust_pres.

(** An invariant as a preorder. *)
Definition keeps {S} (I : S → Prop) : relation S := λ s s', I s → I s'.

Global Instance keeps_preorder {S} (I : S → Prop) : PreOrder (keeps I).
Proof. split; unfold keeps; repeat intro; auto. Qed.

(** What is known of the value read or computed before the rest of a run. *)
Lemma stable_lift_bind {S E A B} (R : relation S) `{!PreOrder R} (r : result E A)
    (f : A → M S E B) :
  (∀ a, r = Ok a → stable R (f a)) → stable R (lift r ≫= f).
Proof.
  intros Hf s. unfold state_of, mbind, M_bind, lift.
  destruct r as [a|e]; [by apply (Hf a)|reflexivity].
Qed.

Lemma keeps_gets_bind {S E A B} (I : S → Prop) (g : S → A) (f : A → M S E B) :
  (∀ s, I s → stable (keeps I) (f (g s))) → stable (keeps I) (gets g ≫= f).
Proof. intros Hf s Hs. by apply (Hf s). Qed.

(** A component of the state that does not change, as a preorder. *)
Definition same {S A} (f : S → A) : relation S := λ s s', f s' = f s.

Global Instance same_preorder {S A} (f : S → A) : PreOrder (same f).
Proof. split; unfold same; repeat intro; congruence. Qed.

(** [holds I m Q]: [m] keeps the invariant [I] however it ends, and what it
    returns satisfies [Q]. *)
Definition holds {S E A} (I : S → Prop) (m : M S E A) (Q : A → Prop) : Prop :=
  ∀ s, I s → I (state_of m s) ∧ ∀ a, value_of m s = Ok a → Q a.

Section holds.
Context {S E : Type} (I : S → Prop).

Lemma holds_ret {A} (x : A) (Q : A → Prop) : Q x → holds I (mret x : M S E A) Q.
Proof. intros HQ s Hs. split; [done|]. intros a [= <-]. done. Qed.

Lemma holds_throw {A} (e : E) (Q : A → Prop) : holds I (throw e : M S E A) Q.
Proof. intros s Hs. split; [done|]. intros a [=]. Qed.

Lemma holds_lift {A} (r : result E A) (Q : A → Prop) :
  (∀ a, r = Ok a → Q a) → holds I (lift r : M S E A) Q.
Proof. intros HQ s Hs. split; [done|]. exact HQ. Qed.

Lemma holds_gets {A} (f : S → A) (Q : A → Prop) :
  (∀ s, I s → Q (f s)) → holds I (gets f : M S E A) Q.
Proof. intros HQ s Hs. split; [done|]. intros a [= <-]. auto. Qed.

Lemma holds_modify (f : S → S) (Q : unit → Prop) :
  (∀ s, I s → I (f s)) → Q () → holds I (modify f : M S E unit) Q.
Proof. intros Hf HQ s Hs. split; [by apply Hf|]. intros [] _. done. Qed.

Lemma holds_bind {A B} (m : M S E A) (f : A → M S E B) (Q : A → Prop) (Q' : B → Prop) :
  holds I m Q → (∀ a, Q a → holds I (f a) Q') → holds I (m ≫= f) Q'.
Proof.
  intros Hm Hf s Hs. destruct (Hm s Hs) as [HI HQ]. revert HI HQ.
  unfold state_of, value_of, mbind, M_bind. destruct (m s) as [[a|e] s1]; simpl; intros HI HQ.
  - apply Hf; auto.
  - split; [done|]. intros b [=].
Qed.

Lemma holds_attempt {A} (m : M S E A) (Q : A → Prop) :
  holds I m Q → holds I (attempt m) (λ _, True).
Proof.
  intros Hm s Hs. destruct (Hm s Hs) as [HI _]. revert HI. unfold state_of, value_of, attempt.
  destruct (m s). simpl. auto.
Qed.

Lemma holds_weaken {A} (m : M S E A) (Q Q' : A → Prop) :
  holds I m Q → (∀ a, Q a → Q' a) → holds I m Q'.
Proof. intros Hm HQ s Hs. destruct (Hm s Hs). split; [done|]. auto. Qed.
End holds.

Create HintDb rust_holds.

(** [holds_auto]: walk through the binds and the branches; a step that has a
    lemma in [rust_holds] passes on what it returns. *)
Ltac holds_auto :=
  repeat first
    [ solve [eauto with rust_holds]
    | eapply holds_bind; [solve [eauto with rust_holds]|intros ? ?; simpl in *]
    | match goal with
      | |- holds _ (mret _) _ => apply holds_ret; exact I
      | |- holds _ (throw _) _ => apply holds_throw
      | |- holds _ (lift _) (λ _, True) => apply holds_lift; intros; exact I
      | |- holds _ (gets _) (λ _, True) => apply holds_gets; intros; exact I
      | |- holds _ (attempt _) (λ _, True) => apply (holds_attempt _ _ (λ _, True))
      | |- holds _ (_ ≫= _) _ =>
          eapply (holds_bind _ _ _ (λ _, True)); [|intros ? _; simpl in *]
      end
    | progress case_match ].

(** [stable_auto]: walk through the binds and the branches of a program. *)
Ltac stable_auto :=
  repeat first
    [ apply stable_bind; [apply _| |intros ?]
    | apply stable_attempt
    | apply stable_ret; apply _ | apply stable_throw; apply _
    | apply stable_lift; apply _ | apply stable_gets; apply _
    | solve [eauto with rust_pres]
    | progress case_match ].

(** ** Machine integers

    A [w]-bit integer is a [Z]; [wrapu]/[wraps] are the [as] casts and the
    wrapping arithmetic of a release build. *)

Definition wrapu (w z : Z) : Z := z mod 2 ^ w.
Definition wraps (w z : Z) : Z := (z + 2 ^ (w - 1)) mod 2 ^ w - 2 ^ (w - 1).

Notation as_u8 := (wrapu 8).
Notation as_u16 := (wrapu 16).
Notation as_u32 := (wrapu 32).
Notation as_u64 := (wrapu 64).
Notation as_i32 := (wraps 32).
Notation as_i64 := (wraps 64).

(** A value is in the range of its type. *)
Definition in_u (w z : Z) : Prop := (0 ≤ z < 2 ^ w)%Z.
Definition in_s (w z : Z) : Prop := (- 2 ^ (w - 1) ≤ z < 2 ^ (w - 1))%Z.

Global Instance in_u_dec w z : Decision (in_u w z).
Proof. unfold in_u. apply _. Defined.
Global Instance in_s_dec w z : Decision (in_s w z).
Proof. unfold in_s. apply _. Defined.

Lemma wrapu_id w z : in_u w z → wrapu w z = z.
Proof. unfold in_u, wrapu. apply Z.mod_small. Qed.

Lemma wrapu_range w z : (0 ≤ w)%Z → in_u w (wrapu w z).
Proof. intros. unfold in_u, wrapu. apply Z.mod_pos_bound. apply Z.pow_pos_nonneg; lia. Qed.

Lemma wraps_id w z : (1 ≤ w)%Z → in_s w z → wraps w z = z.
Proof.
  unfold in_s, wraps. intros Hw Hz.
  assert (2 ^ w = 2 * 2 ^ (w - 1))%Z as Hp.
  { rewrite <- Z.pow_succ_r by lia. f_equal. lia. }
  rewrite Z.mod_small; lia.
Qed.

Lemma wraps_range w z : (1 ≤ w)%Z → in_s w (wraps w z).
Proof.
  unfold in_s, wraps. intros Hw.
  assert (2 ^ w = 2 * 2 ^ (w - 1))%Z as Hp.
  { rewrite <- Z.pow_succ_r by lia. f_equal. lia. }
  pose proof (Z.mod_pos_bound (z + 2 ^ (w - 1)) (2 ^ w)). lia.
Qed.

Lemma wrapu_add_l w a b : wrapu w (wrapu w a + b) = wrapu w (a + b).
Proof. unfold wrapu. apply Zplus_mod_idemp_l. Qed.

Lemma wrapu_add_r w a b : wrapu w (a + wrapu w b) = wrapu w (a + b).
Proof. unfold wrapu. apply Zplus_mod_idemp_r. Qed.

#[export] Hint Resolve wrapu_id wraps_id : rust.
#[export] Hint Rewrite wrapu_add_l wrapu_add_r : rust_rw.

(** ** Hash maps

    A [HashMap]/[AHashMap] is a [gmap]; the order in which it is iterated is
    not specified, so iteration goes through an arbitrary enumeration
    [hm_iter] of the entries, and theorems hold for every such order. *)

Class HashIter := {
  hm_iter : ∀ {K} `{Countable K} {A : Type}, gmap K A → list (K * A);
  hm_iter_perm : ∀ {K} `{Countable K} {A : Type} (m : gmap K A),
    hm_iter m ≡ₚ map_to_list m
}.

(** One such order, for evaluation. *)
Definition hm_iter_default : HashIter :=
  {| hm_iter := λ K _ _ A m, map_to_list m;
     hm_iter_perm := λ K _ _ A m, Permutation_refl (map_to_list m) |}.

Section hash_iter.
Context `{HashIter} `{Countable K} {A : Type}.
Implicit Types m : gmap K A.

Lemma elem_of_hm_iter m k x : (k, x) ∈ hm_iter m ↔ m !! k = Some x.
Proof. rewrite hm_iter_perm. apply elem_of_map_to_list. Qed.

Lemma NoDup_fst_hm_iter m : NoDup (hm_iter m).*1.
Proof. rewrite hm_iter_perm. apply NoDup_fst_map_to_list. Qed.

Lemma elem_of_hm_values m x : x ∈ (hm_iter m).*2 ↔ ∃ k, m !! k = Some x.
Proof.
  rewrite list_elem_of_fmap. split.
  - intros ([k y] & -> & Hin). exists k. by apply elem_of_hm_iter.
  - intros [k Hk]. exists (k, x). split; [done|]. by apply elem_of_hm_iter.
Qed.
End hash_iter.

(** Collecting an iterator of pairs into a map: later pairs win. *)
Definition collect_map `{Countable K} {A} (l : list (K * A)) : gmap K A :=
  foldl (λ m p, <[p.1 := p.2]> m) ∅ l.

Lemma collect_map_reverse `{Countable K} {A} (l : list (K * A)) :
  collect_map l = list_to_map (reverse l).
Proof.
  unfold collect_map. induction l as [|[k x] l IH] using rev_ind; [done|].
  rewrite foldl_snoc, reverse_snoc, IH. done.
Qed.

(** With distinct keys every pair is found again. *)
Lemma collect_map_lookup `{Countable K} {A} (l : list (K * A)) k x :
  NoDup l.*1 → (k, x) ∈ l → collect_map l !! k = Some x.
Proof.
  intros Hnd Hin. rewrite collect_map_reverse. apply elem_of_list_to_map_1.
  - by rewrite fmap_reverse, reverse_Permutation.
  - by rewrite reverse_Permutation.
Qed.

(** ** Strings *)

#[global] Arguments String.append !_ _ /.

(** [s.find(c)]: the index of the first occurrence. *)
Fixpoint str_find (c : Ascii.ascii) (s : string) : option nat :=
  match s with
  | EmptyString => None
  | String a s' => if decide (a = c) then Some 0 else S <$> str_find c s'
  end.

(** [s[..n]] and [s[n..]]. *)
Fixpoint str_take (n : nat) (s : string) : string :=
  match n, s with
  | S n', String a s' => String a (str_take n' s')
  | _, _ => EmptyString
  end.
Fixpoint str_drop (n : nat) (s : string) : string :=
  match n, s with
  | S n', String _ s' => str_drop n' s'
  | _, _ => s
  end.

Fixpoint str_elem (c : Ascii.ascii) (s : string) : bool :=
  match s with
  | EmptyString => false
  | String a s' => bool_decide (a = c) || str_elem c s'
  end.

Lemma str_find_app c s t :
  str_elem c s = false → str_find c (s +:+ String c t) = Some (String.length s).
Proof.
  induction s as [|a s IH]; simpl; intros Hc.
  - by rewrite decide_True.
  - apply orb_false_iff in Hc as [Ha Hs]. apply bool_decide_eq_false in Ha.
    rewrite decide_False by done. by rewrite IH.
Qed.

Lemma str_find_none c s : str_find c s = None ↔ str_elem c s = false.
Proof.
  induction s as [|a s IH]; simpl; [done|]. case_decide; subst.
  - rewrite bool_decide_eq_true_2 by done. split; done.
  - rewrite bool_decide_eq_false_2 by done. simpl. by rewrite fmap_None.
Qed.

Lemma str_find_split c s n :
  str_find c s = Some n →
  s = str_take n s +:+ String c (str_drop (S n) s) ∧ str_elem c (str_take n s) = false.
Proof.
  revert n. induction s as [|a s IH]; simpl; intros n Hn; [done|].
  case_decide; simplify_eq; [done|].
  apply fmap_Some in Hn as (m & Hm & ->). destruct (IH _ Hm) as [Heq Hel].
  split; [|simpl; by rewrite bool_decide_eq_false_2].
  cbn [str_take]. change (String a s = String a (str_take m s +:+ String c (str_drop (S m) s))).
  by rewrite <- Heq.
Qed.

Lemma str_take_app s t : str_take (String.length s) (s +:+ t) = s.
Proof. induction s; simpl; [by destruct t|by rewrite IHs]. Qed.

Lemma str_drop_app s t : str_drop (String.length s) (s +:+ t) = t.
Proof. induction s; simpl; [by destruct t|done]. Qed.

Lemma str_drop_app_S s a t : str_drop (S (String.length s)) (s +:+ String a t) = t.
Proof. induction s; simpl; [by destruct t|done]. Qed.

Lemma str_elem_app c s t : str_elem c (s +:+ t) = str_elem c s || str_elem c t.
Proof. induction s; simpl; [done|]. by rewrite IHs, orb_assoc. Qed.

(** A separator that does not occur in the prefixes determines the split. *)
Lemma str_sep_inj c s1 s2 t1 t2 :
  str_elem c s1 = false → str_elem c s2 = false →
  s1 +:+ String c t1 = s2 +:+ String c t2 → s1 = s2 ∧ t1 = t2.
Proof.
  intros H1 H2 Heq.
  pose proof (str_find_app c s1 t1 H1) as F1. rewrite Heq, str_find_app in F1 by done.
  simplify_eq. split.
  - rewrite <- (str_take_app s1 (String c t1)), Heq, <- F1. by rewrite str_take_app.
  - rewrite <- (str_drop_app_S s1 c t1), Heq, <- F1. by rewrite str_drop_app_S.
Qed.

Lemma string_app_assoc (s t u : string) : (s +:+ t) +:+ u = s +:+ (t +:+ u).
Proof. induction s; simpl; [done|by rewrite IHs]. Qed.

Lemma string_app_inj_r (s t u : string) : s +:+ t = s +:+ u → t = u.
Proof. induction s; simpl; intros; [done|]. simplify_eq. auto. Qed.

(** ** Sums over lists of counted keys *)

(** The sum of the values paired with [c]. *)
Definition sum_for {K} `{EqDecision K} (c : K) (l : list (K * Z)) : Z :=
  foldr (λ p acc, if decide (p.1 = c) then (p.2 + acc)%Z else acc) 0%Z l.

Section sum_for.
Context `{Countable K}.
Implicit Types l : list (K * Z).

Lemma sum_for_cons c p l :
  sum_for c (p :: l) = ((if decide (p.1 = c) then p.2 else 0) + sum_for c l)%Z.
Proof. unfold sum_for. simpl. case_decide; lia. Qed.

Lemma sum_for_app c l1 l2 : sum_for c (l1 ++ l2) = (sum_for c l1 + sum_for c l2)%Z.
Proof.
  induction l1 as [|p l1 IH]; [done|]. rewrite <- app_comm_cons, !sum_for_cons, IH. lia.
Qed.

Global Instance sum_for_perm c : Proper ((≡ₚ) ==> (=)) (sum_for (K := K) c).
Proof.
  induction 1 as [|p l l' _ IH|p q l|l1 l2 l3 _ IH1 _ IH2];
    rewrite ?sum_for_cons, ?IH, ?IH1 by done; [done|done|lia|done].
Qed.

Lemma sum_for_notin c l : c ∉ l.*1 → sum_for c l = 0%Z.
Proof.
  induction l as [|p l IH]; [done|]. rewrite fmap_cons, sum_for_cons. intros Hc.
  rewrite decide_False by set_solver. rewrite IH by set_solver. done.
Qed.

(** A map's entries contribute the value stored for the key. *)
Lemma sum_for_map_to_list (m : gmap K Z) c :
  sum_for c (map_to_list m) = default 0%Z (m !! c).
Proof.
  induction m as [|k x m Hk IH] using map_ind.
  { rewrite map_to_list_empty, lookup_empty. done. }
  rewrite map_to_list_insert, sum_for_cons by done. simpl.
  rewrite lookup_insert. case_decide; subst; simpl.
  - rewrite sum_for_notin; [lia|]. rewrite <- (not_elem_of_dom (D := gset K)) in Hk.
    intros Hin. apply Hk. apply list_elem_of_fmap in Hin as ([k' x'] & -> & Hin).
    apply elem_of_map_to_list in Hin. simpl. apply elem_of_dom. eauto.
  - by rewrite IH.
Qed.
End sum_for.

(** Filtering a map filters its entries. *)
Lemma map_to_list_filter {K A} `{Countable K} (P : K * A → Prop) `{!∀ x, Decision (P x)}
    (m : gmap K A) : map_to_list (filter P m) ≡ₚ filter P (map_to_list m).
Proof.
  rewrite map_filter_alt. apply map_to_list_to_map.
  apply (sublist_NoDup (filter P (map_to_list m)).*1 (map_to_list m).*1);
    [apply NoDup_fst_map_to_list|].
  apply fmap_sublist, sublist_filter.
Qed.
