(* ===== verification/RustStd.v ===== *)
(** * The parts of Rust's standard library that the agent uses

    Decimal and hexadecimal formatting of unsigned integers, [str::parse::<u64>],
    [Ipv4Addr] and the byte-order conversions [u16::from_be]/[u32::from_be] of a
    little-endian target, with the injectivity and round-trip lemmas that the
    components rely on. *)
From S2P Require Import Prelude.
From stdpp Require Import base gmap strings list pretty.
From Stdlib Require Import ZArith Lia Ascii.

Local Open Scope Z_scope.

(** ** Decimal formatting: [format!("{}", x)] *)

Definition display_u (z : Z) : string := pretty (Z.to_N z).

(** The value of a decimal digit. *)
Definition digit_val (c : Ascii.ascii) : option Z :=
  let n := Z.of_N (Ascii.N_of_ascii c) in
  if (48 <=? n) && (n <=? 57) then Some (n - 48) else None.

Definition is_digit (c : Ascii.ascii) : bool :=
  match digit_val c with Some _ => true | None => false end.

Fixpoint all_digits (s : string) : bool :=
  match s with
  | EmptyString => true
  | String c s' => is_digit c && all_digits s'
  end.

Lemma display_u_inj a b : 0 ≤ a → 0 ≤ b → display_u a = display_u b → a = b.
Proof.
  unfold display_u. intros Ha Hb Heq. apply pretty_N_inj in Heq.
  apply (f_equal Z.of_N) in Heq. by rewrite !Z2N.id in Heq.
Qed.

Lemma digit_val_char x :
  (x < 10)%N → digit_val (pretty_N_char x) = Some (Z.of_N x).
Proof.
  intros Hx.
  assert (x = 0 ∨ x = 1 ∨ x = 2 ∨ x = 3 ∨ x = 4 ∨ x = 5 ∨ x = 6
          ∨ x = 7 ∨ x = 8 ∨ x = 9)%N as Hc by lia.
  by destruct_or! Hc; subst.
Qed.

Lemma is_digit_char x : (x < 10)%N → is_digit (pretty_N_char x) = true.
Proof. intros. unfold is_digit. by rewrite digit_val_char. Qed.

Lemma all_digits_go x s : all_digits s = true → all_digits (pretty_N_go x s) = true.
Proof.
  revert s. induction (N.lt_wf_0 x) as [x _ IH]; intros s Hs.
  assert (x = 0 ∨ 0 < x)%N as [->|Hx] by lia; [done|].
  rewrite pretty_N_go_step by done. apply IH; [by apply N.div_lt|].
  simpl. rewrite is_digit_char by (apply N.mod_lt; lia). done.
Qed.

Lemma all_digits_display z : all_digits (display_u z) = true.
Proof.
  unfold display_u, pretty, pretty_N. case_decide; [done|]. by apply all_digits_go.
Qed.

Lemma all_digits_no c s : is_digit c = false → all_digits s = true → str_elem c s = false.
Proof.
  intros Hc. induction s as [|a s IH]; simpl; [done|].
  intros [Ha Hs]%andb_true_iff. rewrite IH by done.
  rewrite bool_decide_eq_false_2; [done|]. intros ->. congruence.
Qed.

Lemma display_u_no c z : is_digit c = false → str_elem c (display_u z) = false.
Proof. intros Hc. apply all_digits_no; [done|]. apply all_digits_display. Qed.

#[export] Hint Resolve display_u_no all_digits_display : rust.

(** ** Hexadecimal formatting of a [u32]: [format!("{:x}", x)] *)

Definition hex_char (d : Z) : Ascii.ascii :=
  Ascii.ascii_of_N (Z.to_N (if d <? 10 then 48 + d else 87 + d)).

Fixpoint hex_go (fuel : nat) (z : Z) (s : string) : string :=
  match fuel with
  | O => s
  | S f => let s' := String (hex_char (z mod 16)) s in
           if z / 16 =? 0 then s' else hex_go f (z / 16) s'
  end.

(** A [u32] has at most eight hexadecimal digits. *)
Definition hex_u32 (z : Z) : string := hex_go 8 z "".

Example hex_u32_1 : hex_u32 3735928559 = "deadbeef".
Proof. reflexivity. Qed.

(** ** [str::parse::<u64>] *)

Definition U64_MAX : Z := 2 ^ 64 - 1.

Fixpoint parse_go (acc : Z) (s : string) : option Z :=
  match s with
  | EmptyString => Some acc
  | String c s' =>
      match digit_val c with
      | Some d => let acc' := acc * 10 + d in
                  if acc' <=? U64_MAX then parse_go acc' s' else None
      | None => None
      end
  end.

(** A leading [+] is accepted, a leading [-] is not, and there must be a digit. *)
Definition parse_u64 (s : string) : option Z :=
  match s with
  | EmptyString => None
  | String c s' =>
      if decide (c = "+"%char)
      then match s' with EmptyString => None | _ => parse_go 0 s' end
      else parse_go 0 s
  end.

Lemma parse_go_range acc s n : 0 ≤ acc → parse_go acc s = Some n → 0 ≤ n.
Proof.
  revert acc. induction s as [|c s IH]; simpl; intros acc Hacc Hn; [by simplify_eq|].
  unfold digit_val in Hn. repeat case_match; simplify_eq.
  eapply IH; [|done]. lia.
Qed.

Lemma parse_go_pretty x s :
  Z.of_N x ≤ U64_MAX → parse_go 0 (pretty_N_go x s) = parse_go (Z.of_N x) s.
Proof.
  revert s. induction (N.lt_wf_0 x) as [x _ IH]; intros s Hx.
  assert (x = 0 ∨ 0 < x)%N as [->|Hpos] by lia; [done|].
  rewrite pretty_N_go_step by done.
  assert (x / 10 < x)%N as Hlt by (by apply N.div_lt).
  rewrite IH by lia. cbn [parse_go].
  rewrite digit_val_char by (apply N.mod_lt; lia). cbn zeta.
  assert (Z.of_N (x / 10) * 10 + Z.of_N (x mod 10) = Z.of_N x) as ->.
  { pose proof (N.div_mod' x 10). lia. }
  by rewrite (proj2 (Z.leb_le _ _) Hx).
Qed.

(** Parsing what was printed gives the number back. *)
Lemma parse_display z : in_u 64 z → parse_u64 (display_u z) = Some z.
Proof.
  unfold in_u. intros Hz.
  assert (parse_u64 (display_u z) = parse_go 0 (display_u z)) as ->.
  { pose proof (all_digits_display z) as Hd. unfold parse_u64.
    destruct (display_u z) as [|c s] eqn:E.
    - exfalso. revert E. unfold display_u, pretty, pretty_N. case_decide; [done|].
      rewrite pretty_N_go_step by lia. intros E.
      assert (parse_go 0 (pretty_N_go (Z.to_N z) "") = Some 0) as Hp.
      { rewrite pretty_N_go_step by lia. by rewrite E. }
      rewrite parse_go_pretty in Hp by (unfold U64_MAX; lia). simplify_eq/=. lia.
    - rewrite decide_False; [done|]. intros ->. done. }
  unfold display_u, pretty, pretty_N. case_decide as H0.
  - assert (z = 0) as -> by lia. done.
  - rewrite parse_go_pretty by (unfold U64_MAX; lia). simpl. f_equal. lia.
Qed.

(** ** [std::net::Ipv4Addr] *)

(** [Ipv4Addr::from(u32)]: the four octets, most significant first. *)
Definition octets (ip : Z) : Z * Z * Z * Z :=
  (wrapu 8 (Z.shiftr ip 24), wrapu 8 (Z.shiftr ip 16),
   wrapu 8 (Z.shiftr ip 8), wrapu 8 ip).

Definition ipv4_to_string (ip : Z) : string :=
  let '(a, b, c, d) := octets ip in
  display_u a +:+ "." +:+ display_u b +:+ "." +:+ display_u c +:+ "." +:+ display_u d.

(** [Ipv4Addr::is_loopback]: the 127.0.0.0/8 block. *)
Definition is_loopback (ip : Z) : bool :=
  let '(a, _, _, _) := octets ip in a =? 127.

Example ipv4_loopback : ipv4_to_string 2130706433 = "127.0.0.1".
Proof. reflexivity. Qed.

Lemma octets_inj ip ip' : in_u 32 ip → in_u 32 ip' → octets ip = octets ip' → ip = ip'.
Proof.
  unfold in_u, octets, wrapu. rewrite !Z.shiftr_div_pow2 by lia.
  intros H H' Heq. injection Heq as H1 H2 H3 H4.
  change (2 ^ 8) with 256 in *. change (2 ^ 16) with 65536 in *.
  change (2 ^ 24) with 16777216 in *. change (2 ^ 32) with 4294967296 in *.
  Z.div_mod_to_equations. lia.
Qed.

Lemma octets_nonneg ip :
  let '(a, b, c, d) := octets ip in 0 ≤ a ∧ 0 ≤ b ∧ 0 ≤ c ∧ 0 ≤ d.
Proof.
  unfold octets. pose proof (λ z, wrapu_range 8 z ltac:(lia)) as H.
  unfold in_u in H. repeat split; apply H.
Qed.

(** Different addresses have different dotted-decimal names. *)
Lemma ipv4_to_string_inj ip ip' :
  in_u 32 ip → in_u 32 ip' → ipv4_to_string ip = ipv4_to_string ip' → ip = ip'.
Proof.
  intros H H' Heq. apply octets_inj; [done..|].
  pose proof (octets_nonneg ip) as N1. pose proof (octets_nonneg ip') as N2.
  unfold ipv4_to_string in Heq.
  destruct (octets ip) as [[[a b] c] d], (octets ip') as [[[a' b'] c'] d'].
  cbn [String.append] in Heq.
  apply str_sep_inj in Heq as [Ha Heq]; [|by apply display_u_no..].
  apply str_sep_inj in Heq as [Hb Heq]; [|by apply display_u_no..].
  apply str_sep_inj in Heq as [Hc Hd]; [|by apply display_u_no..].
  destruct_and!. repeat f_equal; by apply display_u_inj.
Qed.

(** ** Byte order: [from_be] on a little-endian target *)

Definition from_be16 (z : Z) : Z :=
  Z.lor (Z.shiftl (Z.land z 255) 8) (Z.land (Z.shiftr z 8) 255).

Definition from_be32 (z : Z) : Z :=
  Z.lor (Z.shiftl (from_be16 (Z.land z 65535)) 16) (from_be16 (Z.land (Z.shiftr z 16) 65535)).

(** A number shifted left and one that fits in the freed bits do not overlap. *)
Lemma lor_shiftl_add a b n : 0 ≤ n → 0 ≤ b < 2 ^ n → Z.lor (Z.shiftl a n) b = a * 2 ^ n + b.
Proof.
  intros Hn Hb. rewrite <- Z.shiftl_mul_pow2, <- Z.add_lor_land by done.
  enough (Z.land (Z.shiftl a n) b = 0) as -> by lia.
  apply Z.bits_inj'. intros i Hi. rewrite Z.land_spec, Z.bits_0.
  destruct (Z.lt_ge_cases i n); [by rewrite Z.shiftl_spec_low|].
  rewrite <- (Z.mod_small b (2 ^ n)) by done.
  rewrite Z.mod_pow2_bits_high by lia. apply andb_false_r.
Qed.

Lemma from_be16_arith z : from_be16 z = (z mod 256) * 256 + (z / 256) mod 256.
Proof.
  unfold from_be16. change 255 with (Z.ones 8). rewrite !Z.land_ones by lia.
  rewrite Z.shiftr_div_pow2 by lia. rewrite lor_shiftl_add; [done|lia|].
  apply Z.mod_pos_bound. lia.
Qed.

Lemma from_be16_range z : in_u 16 (from_be16 z).
Proof.
  rewrite from_be16_arith. unfold in_u. change (2 ^ 16) with 65536.
  pose proof (Z.mod_pos_bound z 256). pose proof (Z.mod_pos_bound (z / 256) 256). lia.
Qed.

Lemma from_be32_arith z :
  from_be32 z = from_be16 (z mod 65536) * 65536 + from_be16 ((z / 65536) mod 65536).
Proof.
  unfold from_be32. change 65535 with (Z.ones 16). rewrite !Z.land_ones by lia.
  rewrite Z.shiftr_div_pow2 by lia. rewrite lor_shiftl_add; [done|lia|].
  apply from_be16_range.
Qed.

Lemma from_be32_range z : in_u 32 (from_be32 z).
Proof.
  rewrite from_be32_arith. unfold in_u. change (2 ^ 32) with 4294967296.
  pose proof (from_be16_range (z mod 65536)).
  pose proof (from_be16_range ((z / 65536) mod 65536)).
  unfold in_u in *. change (2 ^ 16) with 65536 in *. lia.
Qed.

(** The conversion is its own inverse on its range. *)
Lemma from_be16_invol z : in_u 16 z → from_be16 (from_be16 z) = z.
Proof.
  unfold in_u. change (2 ^ 16) with 65536. intros Hz. rewrite !from_be16_arith.
  Z.div_mod_to_equations. lia.
Qed.

Lemma from_be32_invol z : in_u 32 z → from_be32 (from_be32 z) = z.
Proof.
  unfold in_u. change (2 ^ 32) with 4294967296. intros Hz.
  rewrite (from_be32_arith (from_be32 z)).
  pose proof (from_be16_range (z mod 65536)) as R1.
  pose proof (from_be16_range ((z / 65536) mod 65536)) as R2.
  unfold in_u in R1, R2. change (2 ^ 16) with 65536 in R1, R2.
  assert (from_be32 z mod 65536 = from_be16 ((z / 65536) mod 65536)) as ->.
  { rewrite from_be32_arith. symmetry. apply (Z.mod_unique_pos _ _ (from_be16 (z mod 65536))); lia. }
  assert ((from_be32 z / 65536) mod 65536 = from_be16 (z mod 65536)) as ->.
  { rewrite from_be32_arith, Z.div_add_l by lia.
    rewrite (Z.div_small (from_be16 ((z / 65536) mod 65536))) by done.
    rewrite Z.add_0_r. by apply Z.mod_small. }
  rewrite !from_be16_invol; unfold in_u; change (2 ^ 16) with 65536;
    Z.div_mod_to_equations; lia.
Qed.
