(* ===== verification/AgentApi.v ===== *)
(** * agent-api: program types, states and the messages of the agent's RPC service

    [agent-api/src/lib.rs] (the enums, their numeric encodings and
    [ParseError]) and the message structures of [agent-api/src/agent.v1.rs].
    A protobuf [map] field is a [gmap]; a [u32]/[i32] field is a [Z]. *)
From S2P Require Import Prelude RustStd.
From stdpp Require Import base gmap strings list.
From Stdlib Require Import ZArith Lia Ascii.

Local Open Scope Z_scope.

(** ** [ParseError] *)

(** [urlParseError] is a type of the [url] crate: only its name is used here. *)
Inductive ParseError :=
  | InvalidProgramType (program_type : Z)
  | InvalidProgramState (program_state : Z)
  | BytecodeLocationParseFailure (source : string)
  | InvalidBytecodeLocation (location : string)
  | InvalidBytecodeImagePullPolicy (pull_policy : string).

(** [anyhow::Error]: a message, or a typed error converted by [?]. *)
Inductive Error :=
  | Msg (msg : string)
  | FromParse (e : ParseError)
  | FromMap (errno : Z).

(** ** [ImagePullPolicy] *)

Inductive ImagePullPolicy := Always | IfNotPresent | Never.

Global Instance ImagePullPolicy_eq_dec : EqDecision ImagePullPolicy.
Proof. solve_decision. Defined.

Definition ImagePullPolicy_fmt (p : ImagePullPolicy) : string :=
  match p with
  | Always => "Always"
  | IfNotPresent => "IfNotPresent"
  | Never => "Never"
  end.

(** Rust prints a negative [i32] with a leading minus sign. *)
Definition display_i (z : Z) : string :=
  if z <? 0 then "-" +:+ display_u (- z) else display_u z.

Definition ImagePullPolicy_try_from_i32 (value : Z) : result ParseError ImagePullPolicy :=
  match value with
  | 0 => Ok Always
  | 1 => Ok IfNotPresent
  | 2 => Ok Never
  | policy => Err (InvalidBytecodeImagePullPolicy (display_i policy))
  end.

Definition ImagePullPolicy_try_from_str (value : string) : result ParseError ImagePullPolicy :=
  if decide (value = "Always") then Ok Always
  else if decide (value = "IfNotPresent") then Ok IfNotPresent
  else if decide (value = "Never") then Ok Never
  else Err (InvalidBytecodeImagePullPolicy value).

Definition ImagePullPolicy_into_i32 (p : ImagePullPolicy) : Z :=
  match p with Always => 0 | IfNotPresent => 1 | Never => 2 end.

(** ** [ProgramType] and [ProgramState] *)

Inductive ProgramType := Builtin | Wasm.
Inductive ProgramState := Uninitialized | Initialized | Running | Stopped | Failed.

Global Instance ProgramType_eq_dec : EqDecision ProgramType.
Proof. solve_decision. Defined.
Global Instance ProgramState_eq_dec : EqDecision ProgramState.
Proof. solve_decision. Defined.

Definition ProgramType_try_from (value : Z) : result ParseError ProgramType :=
  match value with
  | 0 => Ok Builtin
  | 1 => Ok Wasm
  | _ => Err (InvalidProgramType value)
  end.

Definition ProgramType_into_u32 (value : ProgramType) : result ParseError Z :=
  match value with Builtin => Ok 0 | Wasm => Ok 1 end.

Definition ProgramState_try_from (value : Z) : result ParseError ProgramState :=
  match value with
  | 0 => Ok Uninitialized
  | 1 => Ok Initialized
  | 2 => Ok Running
  | 3 => Ok Stopped
  | 4 => Ok Failed
  | _ => Err (InvalidProgramState value)
  end.

Definition ProgramState_into_u32 (value : ProgramState) : result ParseError Z :=
  match value with
  | Uninitialized => Ok 0
  | Initialized => Ok 1
  | Running => Ok 2
  | Stopped => Ok 3
  | Failed => Ok 4
  end.

(** ** Messages of [agent.v1] *)

Record BytecodeImage := {
  url : string;
  image_pull_policy : Z;
  username : option string;
  password : option string }.

Inductive Location := Image (i : BytecodeImage) | File (p : string).

Record BytecodeLocation := { location : option Location }.

Record ProgramInfo := {
  pi_name : string;
  pi_program_type : Z;
  pi_state : Z;
  pi_bytecode : option BytecodeLocation;
  pi_ebpf_maps : gmap string Z;
  pi_metadata : gmap string string }.

Record LoadRequest := {
  lr_bytecode : option BytecodeLocation;
  lr_name : string;
  lr_program_type : Z;
  lr_ebpf_maps : gmap string string;
  lr_metadata : gmap string string }.

Record LoadResponse := { lres_info : option ProgramInfo }.

Record UnloadRequest := { ur_name : string }.
Record UnloadResponse := { }.

Record ListRequest := {
  lsr_program_type : option Z;
  lsr_match_metadata : gmap string string }.

Record ListResult := { lsres_info : option ProgramInfo }.
Record ListResponse := { results : list ListResult }.

Record PullBytecodeRequest := { pbr_image : option BytecodeImage }.
Record PullBytecodeResponse := { }.

Record GetRequest := { gr_name : string }.
Record GetResponse := { gres_info : option ProgramInfo }.

(** ** Encoding lemmas *)

Lemma ProgramType_decode n t :
  ProgramType_try_from n = Ok t ↔ ProgramType_into_u32 t = Ok n.
Proof.
  unfold ProgramType_try_from, ProgramType_into_u32. split.
  - repeat case_match; intros; simplify_eq; done.
  - destruct t; intros; simplify_eq; done.
Qed.

Lemma ProgramState_decode n t :
  ProgramState_try_from n = Ok t ↔ ProgramState_into_u32 t = Ok n.
Proof.
  unfold ProgramState_try_from, ProgramState_into_u32. split.
  - repeat case_match; intros; simplify_eq; done.
  - destruct t; intros; simplify_eq; done.
Qed.

Lemma ImagePullPolicy_decode n p :
  ImagePullPolicy_try_from_i32 n = Ok p ↔ ImagePullPolicy_into_i32 p = n.
Proof.
  unfold ImagePullPolicy_try_from_i32, ImagePullPolicy_into_i32. split.
  - repeat case_match; intros; simplify_eq; done.
  - destruct p; intros; simplify_eq; done.
Qed.

Lemma ImagePullPolicy_parse s p :
  ImagePullPolicy_try_from_str s = Ok p ↔ ImagePullPolicy_fmt p = s.
Proof.
  unfold ImagePullPolicy_try_from_str, ImagePullPolicy_fmt. split.
  - repeat case_decide; intros; simplify_eq; done.
  - destruct p; intros <-; reflexivity.
Qed.

(** A decoder's error carries the value it refused. *)
Lemma ProgramType_decode_error n e :
  ProgramType_try_from n = Err e ↔ e = InvalidProgramType n ∧ n ≠ 0 ∧ n ≠ 1.
Proof.
  unfold ProgramType_try_from. split.
  - repeat case_match; intros; simplify_eq; split; try done; lia.
  - intros (-> & H0 & H1). repeat case_match; done.
Qed.

(** The numeric encodings of the enums and the names of the pull policies are
    mutually inverse with their decoders. *)
Lemma enum_codecs_roundtrip :
  (∀ n t, ProgramType_try_from n = Ok t ↔ ProgramType_into_u32 t = Ok n) ∧
  (∀ n t, ProgramState_try_from n = Ok t ↔ ProgramState_into_u32 t = Ok n) ∧
  (∀ n p, ImagePullPolicy_try_from_i32 n = Ok p ↔ ImagePullPolicy_into_i32 p = n) ∧
  (∀ s p, ImagePullPolicy_try_from_str s = Ok p ↔ ImagePullPolicy_fmt p = s).
Proof.
  split_and!; intros.
  - apply ProgramType_decode.
  - apply ProgramState_decode.
  - apply ImagePullPolicy_decode.
  - apply ImagePullPolicy_parse.
Qed.
