(* ===== verification/Bpf.v ===== *)
(** * The kernel's side of an eBPF program

    What the eBPF programs of the repository ask of the kernel: BPF maps
    ([bpf_map_update_elem], [bpf_map_delete_elem]), the monotonic clock and
    typed reads of memory.  All of it is code outside the repository, so the
    operations are parameters ([BpfMap], the environments of the components)
    and the documented behaviour of the two map types is stated as laws
    ([HashLaws], [LruLaws]).  The content of a map is a [gmap]. *)
From S2P Require Import Prelude.
From stdpp Require Import base gmap strings list.
From Stdlib Require Import ZArith Lia.

Local Open Scope Z_scope.

(** ** Map updates and deletions; an error is a negative errno *)

Class BpfMap (K V : Type) `{Countable K} := {
  bpf_update : gmap K V → K → V → result Z (gmap K V);
  bpf_delete : gmap K V → K → result Z (gmap K V)
}.

(** [BPF_MAP_TYPE_HASH]: an update that succeeds stores the value and touches
    no other key; deleting an absent key fails. *)
Class HashLaws {K V} `{Countable K} (B : BpfMap K V) : Prop := {
  hash_update_ok (m : gmap K V) k v m' : bpf_update m k v = Ok m' → m' = <[k := v]> m;
  hash_delete_ok (m : gmap K V) k m' : bpf_delete m k = Ok m' → m' = delete k m;
  hash_delete_present (m : gmap K V) k : is_Some (m !! k) → is_ok (bpf_delete m k) = true;
  hash_delete_absent (m : gmap K V) k : m !! k = None → is_ok (bpf_delete m k) = false
}.

(** [BPF_MAP_TYPE_LRU_HASH]: an update stores the value and may evict other
    keys, but never changes the value of a key that stays. *)
Class LruLaws {K V} `{Countable K} (B : BpfMap K V) : Prop := {
  lru_update_eq (m : gmap K V) k v m' : bpf_update m k v = Ok m' → m' !! k = Some v;
  lru_update_ne (m : gmap K V) k v m' k' : bpf_update m k v = Ok m' → k' ≠ k →
    m' !! k' = None ∨ m' !! k' = m !! k';
  lru_delete_ok (m : gmap K V) k m' : bpf_delete m k = Ok m' → m' = delete k m
}.

(** A map that is not full, of either type: an update stores the value and evicts
    nothing; deleting an absent key fails with ENOENT. *)
Class RoomLaws {K V} `{Countable K} (B : BpfMap K V) (cap : nat) : Prop := {
  room_update (m : gmap K V) k v : (size m < cap)%nat → bpf_update m k v = Ok (<[k := v]> m);
  room_delete_present (m : gmap K V) k : is_Some (m !! k) → bpf_delete m k = Ok (delete k m);
  room_delete_absent (m : gmap K V) k : m !! k = None → bpf_delete m k = Err (-2)
}.

(** ** A bounded hash map, for evaluation *)

Definition bounded_hash (max_entries : nat) `{Countable K} {V} : BpfMap K V :=
  {| bpf_update := λ m k v,
       if decide (is_Some (m !! k)) then Ok (<[k := v]> m)
       else if decide (size m < max_entries)%nat then Ok (<[k := v]> m) else Err (-7);
     bpf_delete := λ m k,
       match m !! k with Some _ => Ok (delete k m) | None => Err (-2) end |}.

Lemma bounded_hash_laws n `{Countable K} {V} : HashLaws (bounded_hash n (K := K) (V := V)).
Proof.
  split; simpl; intros.
  - repeat case_decide; by simplify_eq.
  - case_match; by simplify_eq.
  - destruct (m !! k) eqn:E; [done|]. by destruct H0.
  - by rewrite H0.
Qed.

Lemma bounded_hash_lru n `{Countable K} {V} : LruLaws (bounded_hash n (K := K) (V := V)).
Proof.
  destruct (bounded_hash_laws n (K := K) (V := V)) as [Hu Hd _ _].
  split; intros.
  - apply Hu in H0 as ->. by simplify_map_eq.
  - apply Hu in H0 as ->. right. by simplify_map_eq.
  - by apply Hd.
Qed.

Lemma bounded_hash_room n `{Countable K} {V} : RoomLaws (bounded_hash n (K := K) (V := V)) n.
Proof.
  split; simpl; intros.
  - by case_decide; [|rewrite decide_True].
  - case_match; [done|]. by destruct H0.
  - by rewrite H0.
Qed.

(** A map without a bound, for specifications. *)
Definition exact_map `{Countable K} {V} : BpfMap K V :=
  {| bpf_update := λ m k v, Ok (<[k := v]> m);
     bpf_delete := λ m k,
       match m !! k with Some _ => Ok (delete k m) | None => Err (-2) end |}.

(** Every value of a map satisfies [P]: kept by the updates and deletions of
    both map types. *)
Definition values_ok {K V} `{Countable K} (P : K → V → Prop) (m : gmap K V) : Prop :=
  map_Forall P m.

Section values_ok.
Context {K V : Type} `{Countable K} (P : K → V → Prop).

Lemma values_ok_empty : values_ok P (∅ : gmap K V).
Proof. apply map_Forall_empty. Qed.

Lemma values_ok_lru_update (B : BpfMap K V) `{!LruLaws B} (m : gmap K V) k v m' :
  bpf_update m k v = Ok m' → P k v → values_ok P m → values_ok P m'.
Proof.
  intros Hu Hp Hm k' v' Hk'. destruct (decide (k' = k)) as [->|Hne].
  - rewrite (lru_update_eq _ _ _ _ Hu) in Hk'. by simplify_eq.
  - destruct (lru_update_ne _ _ _ _ k' Hu Hne) as [Hn|Hn]; rewrite Hn in Hk'; [done|].
    by apply Hm.
Qed.

Lemma values_ok_lru_delete (B : BpfMap K V) `{!LruLaws B} (m : gmap K V) k m' :
  bpf_delete m k = Ok m' → values_ok P m → values_ok P m'.
Proof. intros Hd Hm. apply lru_delete_ok in Hd as ->. by apply map_Forall_delete. Qed.

Lemma values_ok_hash_update (B : BpfMap K V) `{!HashLaws B} (m : gmap K V) k v m' :
  bpf_update m k v = Ok m' → P k v → values_ok P m → values_ok P m'.
Proof. intros Hu Hp Hm. apply hash_update_ok in Hu as ->. by apply map_Forall_insert_2. Qed.

Lemma values_ok_hash_delete (B : BpfMap K V) `{!HashLaws B} (m : gmap K V) k m' :
  bpf_delete m k = Ok m' → values_ok P m → values_ok P m'.
Proof. intros Hd Hm. apply hash_delete_ok in Hd as ->. by apply map_Forall_delete. Qed.
End values_ok.

(** ** The exit code of a probe

    [try_probe(ctx).unwrap_or_else(|ret| ret.try_into().unwrap_or_else(|_| 1))]:
    an error that is not a [u32] becomes 1. *)
Definition exit_code (r : result Z Z) : Z :=
  match r with
  | Ok ret => ret
  | Err ret => if decide (in_u 32 ret) then ret else 1
  end.

Lemma exit_code_range r : (∀ x, r = Ok x → in_u 32 x) → in_u 32 (exit_code r).
Proof.
  intros Hr. destruct r as [x|e]; simpl; [by apply Hr|]. case_decide; [done|].
  unfold in_u. lia.
Qed.
