(* ===== verification/ConnTracer.v ===== *)
(** * conn-tracer: the eBPF programs that record TCP connections

    [ebpf/conn-tracer/conn-tracer-common/src/lib.rs] (constants and the three
    structures shared with user space) and
    [ebpf/conn-tracer/conn-tracer-ebpf/src/main.rs]: the kprobe
    [sock_conn_tracer] (attached to [tcp_data_queue]) and the tracepoint
    [sock_state_tracer] ([inet_sock_set_state]) over the two LRU maps
    [SOCKETS] and [CONNECTIONS].

    A [*const sock] is an address ([Z]).  What the kernel answers during one
    invocation (memory reads, clock, current task) is the record [Kernel]. *)
From S2P Require Import Prelude RustStd Bpf.
From stdpp Require Import base gmap strings list relations.
From Stdlib Require Import ZArith Lia.

Local Open Scope Z_scope.

(** ** conn-tracer-common *)

Definition AF_INET : Z := 2.
Definition AF_INET6 : Z := 10.
Definition MAX_CONNECTIONS : Z := 100000.

Definition TCP_SYN_SENT : Z := 2.
Definition TCP_SYN_RECV : Z := 3.
Definition TCP_CLOSE : Z := 7.

Definition CONNECTION_ROLE_UNKNOWN : Z := 0.
Definition CONNECTION_ROLE_CLIENT : Z := 1.
Definition CONNECTION_ROLE_SERVER : Z := 2.

Record SockInfo := { si_id : Z; si_pid : Z; si_is_active : Z; si_role : Z }.

Record ConnectionKey := {
  ck_id : Z; ck_pid : Z;
  src_addr : Z; src_port : Z;
  dest_addr : Z; dest_port : Z;
  ck_role : Z }.

Record ConnectionStats := { bytes_sent : Z; bytes_received : Z; is_active : Z }.

Definition ConnectionKey_default : ConnectionKey :=
  {| ck_id := 0; ck_pid := 0; src_addr := 0; src_port := 0; dest_addr := 0; dest_port := 0;
     ck_role := 0 |}.
Definition ConnectionStats_default : ConnectionStats :=
  {| bytes_sent := 0; bytes_received := 0; is_active := 0 |}.

Global Instance SockInfo_eq_dec : EqDecision SockInfo.
Proof. solve_decision. Defined.
Global Instance ConnectionKey_eq_dec : EqDecision ConnectionKey.
Proof. solve_decision. Defined.
Global Instance ConnectionStats_eq_dec : EqDecision ConnectionStats.
Proof. solve_decision. Defined.

Definition ck_tuple (k : ConnectionKey) : Z * Z * Z * Z * Z * Z * Z :=
  (ck_id k, ck_pid k, src_addr k, src_port k, dest_addr k, dest_port k, ck_role k).
Definition ck_untuple (t : Z * Z * Z * Z * Z * Z * Z) : ConnectionKey :=
  let '(a, b, c, d, e, f, g) := t in
  {| ck_id := a; ck_pid := b; src_addr := c; src_port := d; dest_addr := e; dest_port := f;
     ck_role := g |}.
Lemma ck_untuple_tuple k : ck_untuple (ck_tuple k) = k.
Proof. by destruct k. Qed.
Global Instance ConnectionKey_countable : Countable ConnectionKey :=
  inj_countable' ck_tuple ck_untuple ck_untuple_tuple.

(** ** What the kernel answers *)

(** The fields of [struct sock_common] that are read. *)
Record sock_common := {
  skc_family : Z; skc_rcv_saddr : Z; skc_daddr : Z; skc_num : Z; skc_dport : Z }.

Record Kernel := {
  read_sock_common : Z → result Z sock_common;
  read_bytes_sent : Z → result Z Z;
  read_bytes_received : Z → result Z Z;
  read_max_ack_backlog : Z → result Z Z;
  ktime_get_ns : Z;
  current_pid_tgid : Z }.

(** ** The maps *)

Record Maps := {
  SOCKETS : gmap Z SockInfo;
  CONNECTIONS : gmap ConnectionKey ConnectionStats }.

Definition set_SOCKETS m (s : Maps) : Maps := {| SOCKETS := m; CONNECTIONS := CONNECTIONS s |}.
Definition set_CONNECTIONS m (s : Maps) : Maps := {| SOCKETS := SOCKETS s; CONNECTIONS := m |}.

Definition with_info (k : ConnectionKey) (i : SockInfo) : ConnectionKey :=
  {| ck_id := si_id i; ck_pid := si_pid i; src_addr := src_addr k; src_port := src_port k;
     dest_addr := dest_addr k; dest_port := dest_port k; ck_role := si_role i |}.

Definition with_active (st : ConnectionStats) (a : Z) : ConnectionStats :=
  {| bytes_sent := bytes_sent st; bytes_received := bytes_received st; is_active := a |}.

Section conn_tracer.
Context {BS : BpfMap Z SockInfo} {BC : BpfMap ConnectionKey ConnectionStats}.
Context (k : Kernel).

Definition sockets_insert (sk : Z) (i : SockInfo) : M Maps Z unit := λ s,
  match bpf_update (SOCKETS s) sk i with
  | Ok m => (Ok (), set_SOCKETS m s)
  | Err e => (Err e, s)
  end.

Definition sockets_remove (sk : Z) : M Maps Z unit := λ s,
  match bpf_delete (SOCKETS s) sk with
  | Ok m => (Ok (), set_SOCKETS m s)
  | Err e => (Err e, s)
  end.

Definition connections_insert (ck : ConnectionKey) (st : ConnectionStats) : M Maps Z unit := λ s,
  match bpf_update (CONNECTIONS s) ck st with
  | Ok m => (Ok (), set_CONNECTIONS m s)
  | Err e => (Err e, s)
  end.

(** [parse_sock_data]: the connection's endpoints and its byte counters; only
    IPv4 sockets are accepted. *)
Definition parse_sock_data (sk : Z) : result Z (ConnectionKey * ConnectionStats) :=
  sk_common ← read_sock_common k sk;
  sent ← read_bytes_sent k sk;
  received ← read_bytes_received k sk;
  if decide (skc_family sk_common = AF_INET) then
    Ok ({| ck_id := 0; ck_pid := 0;
           src_addr := from_be32 (skc_rcv_saddr sk_common);
           src_port := from_be16 (skc_num sk_common);
           dest_addr := from_be32 (skc_daddr sk_common);
           dest_port := from_be16 (skc_dport sk_common);
           ck_role := 0 |},
        {| bytes_sent := sent; bytes_received := received; is_active := 0 |})
  else Err 1.

Definition get_sock_role (sk : Z) : Z :=
  match read_max_ack_backlog k sk with
  | Ok role => if role =? 0 then CONNECTION_ROLE_CLIENT else CONNECTION_ROLE_SERVER
  | Err _ => CONNECTION_ROLE_UNKNOWN
  end.

Definition get_unique_id : Z := as_u32 (ktime_get_ns k).

Definition try_sock_conn_tracer (arg0 : option Z) : M Maps Z Z :=
  sk ← lift (ok_or 1 arg0);
  '(conn_key, conn_stats) ← lift (parse_sock_data sk);
  if (dest_addr conn_key =? 0) && (dest_port conn_key =? 0) then mret 0
  else
    found ← gets (λ s, SOCKETS s !! sk);
    match found with
    | Some sock_info =>
        if si_is_active sock_info =? 0 then throw 1
        else
          connections_insert (with_info conn_key sock_info)
            (with_active conn_stats (si_is_active sock_info));;
          mret 0
    | None =>
        let sock_info := {| si_id := get_unique_id; si_pid := 0; si_is_active := 1;
                            si_role := get_sock_role sk |} in
        sockets_insert sk sock_info;;
        connections_insert (with_info conn_key sock_info) (with_active conn_stats 1);;
        mret 0
    end.

Definition handle_tcp_syn_sent (sk : Z) : M Maps Z Z :=
  sockets_insert sk
    {| si_id := get_unique_id; si_pid := as_u32 (current_pid_tgid k); si_is_active := 1;
       si_role := CONNECTION_ROLE_CLIENT |};;
  mret 0.

Definition handle_tcp_syn_recv (sk : Z) : M Maps Z Z :=
  '(conn_key, conn_stats) ← lift (parse_sock_data sk);
  let sock_info := {| si_id := get_unique_id; si_pid := 0; si_is_active := 1;
                      si_role := CONNECTION_ROLE_SERVER |} in
  sockets_insert sk sock_info;;
  if dest_addr conn_key =? 0 then mret 0
  else connections_insert (with_info conn_key sock_info) conn_stats;; mret 0.

Definition handle_tcp_close (sk : Z) : M Maps Z Z :=
  '(conn_key, conn_stats) ← lift (parse_sock_data sk);
  found ← gets (λ s, SOCKETS s !! sk);
  conn_key' ←
    match found with
    | Some sock_info => sockets_remove sk;; mret (with_info conn_key sock_info)
    | None => mret (with_info conn_key
                      {| si_id := get_unique_id; si_pid := 0; si_is_active := 0;
                         si_role := get_sock_role sk |})
    end;
  connections_insert conn_key' (with_active conn_stats 0);;
  mret 0.

(** [ctx.read_at] of the socket address and of the new state. *)
Definition try_state_tracer (sk_at : result Z Z) (newstate_at : result Z Z) : M Maps Z Z :=
  sk ← lift sk_at;
  new_state ← lift newstate_at;
  if decide (new_state = TCP_SYN_RECV) then handle_tcp_syn_recv sk
  else if decide (new_state = TCP_SYN_SENT) then handle_tcp_syn_sent sk
  else if decide (new_state = TCP_CLOSE) then handle_tcp_close sk
  else mret 0.

(** The probe entry points return the exit code. *)
Definition sock_conn_tracer (arg0 : option Z) (s : Maps) : Z * Maps :=
  let '(r, s') := try_sock_conn_tracer arg0 s in (exit_code r, s').

Definition sock_state_tracer (sk_at newstate_at : result Z Z) (s : Maps) : Z * Maps :=
  let '(r, s') := try_state_tracer sk_at newstate_at s in (exit_code r, s').
End conn_tracer.

(** ** Runs: any sequence of probe invocations, each with its own answers *)

Inductive Event :=
  | TcpDataQueue (arg0 : option Z)
  | InetSockSetState (sk_at newstate_at : result Z Z).

(** The values the kernel returns have the type they are read at. *)
Definition kernel_ok (k : Kernel) : Prop :=
  (∀ sk n, read_bytes_sent k sk = Ok n → in_u 64 n) ∧
  (∀ sk n, read_bytes_received k sk = Ok n → in_u 64 n).

Definition role_ok (r : Z) : Prop :=
  r = CONNECTION_ROLE_UNKNOWN ∨ r = CONNECTION_ROLE_CLIENT ∨ r = CONNECTION_ROLE_SERVER.

Definition sock_ok (_ : Z) (i : SockInfo) : Prop :=
  si_is_active i = 1 ∧ role_ok (si_role i) ∧ in_u 32 (si_id i) ∧ in_u 32 (si_pid i).

Definition conn_ok (ck : ConnectionKey) (st : ConnectionStats) : Prop :=
  in_u 32 (ck_id ck) ∧ in_u 32 (ck_pid ck) ∧
  in_u 32 (src_addr ck) ∧ in_u 32 (dest_addr ck) ∧
  in_u 16 (src_port ck) ∧ in_u 16 (dest_port ck) ∧ role_ok (ck_role ck) ∧
  in_u 64 (bytes_sent st) ∧ in_u 64 (bytes_received st) ∧
  (is_active st = 0 ∨ is_active st = 1).

Definition maps_ok (s : Maps) : Prop :=
  values_ok sock_ok (SOCKETS s) ∧ values_ok conn_ok (CONNECTIONS s).

Definition Maps_empty : Maps := {| SOCKETS := ∅; CONNECTIONS := ∅ |}.

Section runs.
Context {BS : BpfMap Z SockInfo} {BC : BpfMap ConnectionKey ConnectionStats}.

Definition run_event (k : Kernel) (ev : Event) (s : Maps) : Maps :=
  match ev with
  | TcpDataQueue arg0 => snd (sock_conn_tracer k arg0 s)
  | InetSockSetState sk_at newstate_at => snd (sock_state_tracer k sk_at newstate_at s)
  end.

Inductive ct_step : Maps → Maps → Prop :=
  | ct_probe k ev s : kernel_ok k → ct_step s (run_event k ev s).

Context `{!LruLaws BS} `{!LruLaws BC}.

Lemma sockets_insert_keeps sk i :
  sock_ok sk i → stable (keeps maps_ok) (sockets_insert sk i).
Proof.
  intros Hi s [Hs Hc]. unfold state_of, sockets_insert.
  destruct (bpf_update _ _ _) eqn:Hu; split; simpl; try done.
  by eapply values_ok_lru_update.
Qed.

Lemma sockets_remove_keeps sk : stable (keeps maps_ok) (sockets_remove sk).
Proof.
  intros s [Hs Hc]. unfold state_of, sockets_remove.
  destruct (bpf_delete _ _) eqn:Hu; split; simpl; try done.
  by eapply values_ok_lru_delete.
Qed.

Lemma connections_insert_keeps ck st :
  conn_ok ck st → stable (keeps maps_ok) (connections_insert ck st).
Proof.
  intros Hi s [Hs Hc]. unfold state_of, connections_insert.
  destruct (bpf_update _ _ _) eqn:Hu; split; simpl; try done.
  by eapply values_ok_lru_update.
Qed.

Section kernel.
Context (k : Kernel) (Hk : kernel_ok k).

Lemma unique_id_range : in_u 32 (get_unique_id k).
Proof. apply wrapu_range. lia. Qed.

Lemma get_sock_role_ok sk : role_ok (get_sock_role k sk).
Proof. unfold get_sock_role, role_ok. repeat case_match; auto. Qed.

(** The parsed key and counters are well formed with any socket's identity. *)
Lemma parse_sock_data_conn_ok sk ck st i a :
  parse_sock_data k sk = Ok (ck, st) →
  in_u 32 (si_id i) → in_u 32 (si_pid i) → role_ok (si_role i) → a = 0 ∨ a = 1 →
  conn_ok (with_info ck i) (with_active st a).
Proof.
  destruct Hk as [Hsent Hrecv]. unfold parse_sock_data, mbind, result_bind.
  destruct (read_sock_common k sk) eqn:E1; [|done].
  destruct (read_bytes_sent k sk) eqn:E2; [|done].
  destruct (read_bytes_received k sk) eqn:E3; [|done].
  case_decide; [|done]. intros Heq. simplify_eq. intros.
  unfold conn_ok; simpl. split_and!; eauto using from_be16_range, from_be32_range.
Qed.

Lemma parse_sock_data_inactive sk ck st :
  parse_sock_data k sk = Ok (ck, st) → st = with_active st 0.
Proof.
  unfold parse_sock_data, mbind, result_bind.
  repeat case_match; intros; simplify_eq; done.
Qed.

Lemma new_sock_ok sk pid role :
  in_u 32 pid → role_ok role →
  sock_ok sk {| si_id := get_unique_id k; si_pid := pid; si_is_active := 1; si_role := role |}.
Proof. intros. split_and!; simpl; auto using unique_id_range. Qed.

Lemma in_u_0 w : 0 ≤ w → in_u w 0.
Proof. intros. split; [lia|]. by apply Z.pow_pos_nonneg. Qed.

Hint Resolve unique_id_range get_sock_role_ok new_sock_ok sockets_insert_keeps
  sockets_remove_keeps connections_insert_keeps : rust_pres.
Hint Extern 1 (in_u _ 0) => (apply in_u_0; lia) : rust_pres.
Hint Extern 1 (role_ok _) => (unfold role_ok; auto) : rust_pres.

Lemma try_sock_conn_tracer_keeps arg0 : stable (keeps maps_ok) (try_sock_conn_tracer k arg0).
Proof.
  unfold try_sock_conn_tracer. apply stable_lift_bind; [apply _|]. intros sk _.
  apply stable_lift_bind; [apply _|]. intros [ck st] Hp.
  case_match; [stable_auto|].
  apply keeps_gets_bind. intros s [Hs _].
  destruct (SOCKETS s !! sk) as [i|] eqn:Hi; simpl.
  - destruct (Hs _ _ Hi) as (Ha & Hr & ? & ?). rewrite Ha. simpl.
    apply stable_bind; [apply _| |intros; stable_auto].
    apply connections_insert_keeps. eapply parse_sock_data_conn_ok; eauto.
  - apply stable_bind; [apply _|eauto with rust_pres|intros _].
    apply stable_bind; [apply _| |intros; stable_auto].
    apply connections_insert_keeps.
    eapply parse_sock_data_conn_ok; simpl; eauto with rust_pres.
Qed.

Lemma handle_tcp_syn_sent_keeps sk : stable (keeps maps_ok) (handle_tcp_syn_sent k sk).
Proof.
  unfold handle_tcp_syn_sent. apply stable_bind; [apply _| |intros; stable_auto].
  apply sockets_insert_keeps, new_sock_ok; [|by eauto with rust_pres].
  apply wrapu_range. lia.
Qed.

Lemma handle_tcp_syn_recv_keeps sk : stable (keeps maps_ok) (handle_tcp_syn_recv k sk).
Proof.
  unfold handle_tcp_syn_recv. apply stable_lift_bind; [apply _|]. intros [ck st] Hp.
  apply stable_bind; [apply _|eauto with rust_pres|intros _].
  case_match; [stable_auto|].
  apply stable_bind; [apply _| |intros; stable_auto].
  apply connections_insert_keeps. rewrite (parse_sock_data_inactive _ _ _ Hp).
  eapply parse_sock_data_conn_ok; simpl; eauto with rust_pres.
Qed.

Lemma handle_tcp_close_keeps sk : stable (keeps maps_ok) (handle_tcp_close k sk).
Proof.
  unfold handle_tcp_close. apply stable_lift_bind; [apply _|]. intros [ck st] Hp.
  apply keeps_gets_bind. intros s [Hs _].
  destruct (SOCKETS s !! sk) as [i|] eqn:Hi; simpl.
  - destruct (Hs _ _ Hi) as (Ha & Hr & ? & ?).
    intros s1 Hs1. unfold state_of, mbind, M_bind.
    pose proof (sockets_remove_keeps sk s1 Hs1) as Hs2. revert Hs2. unfold state_of.
    destruct (sockets_remove sk s1) as [[u|e] s2]; simpl; [|done]. intros Hs2.
    eapply (stable_bind (keeps maps_ok) (connections_insert _ _) (λ _, mret 0)); [| |done].
    + apply connections_insert_keeps. eapply parse_sock_data_conn_ok; eauto.
    + intros. stable_auto.
  - apply (stable_bind (keeps maps_ok) (connections_insert _ _) (λ _, mret 0));
      [|intros; stable_auto].
    apply connections_insert_keeps.
    eapply parse_sock_data_conn_ok; simpl; eauto with rust_pres.
Qed.

Lemma try_state_tracer_keeps sk_at st_at :
  stable (keeps maps_ok) (try_state_tracer k sk_at st_at).
Proof.
  unfold try_state_tracer. apply stable_lift_bind; [apply _|]. intros sk _.
  apply stable_lift_bind; [apply _|]. intros n _.
  repeat case_decide; auto using handle_tcp_syn_recv_keeps, handle_tcp_syn_sent_keeps,
    handle_tcp_close_keeps; stable_auto.
Qed.
End kernel.

Lemma ct_step_keeps s s' : ct_step s s' → maps_ok s → maps_ok s'.
Proof.
  intros [k ev s1 Hk] Hs. destruct ev as [arg0|sk_at st_at]; simpl.
  - pose proof (try_sock_conn_tracer_keeps k Hk arg0 s1 Hs) as H. revert H.
    unfold state_of, sock_conn_tracer. by destruct (try_sock_conn_tracer _ _ _).
  - pose proof (try_state_tracer_keeps k Hk sk_at st_at s1 Hs) as H. revert H.
    unfold state_of, sock_state_tracer. by destruct (try_state_tracer _ _ _ _).
Qed.
End runs.

(** ** Behaviour of the handlers *)

Section behaviour.
Context {BS : BpfMap Z SockInfo} {BC : BpfMap ConnectionKey ConnectionStats}.
Context `{!LruLaws BS} `{!LruLaws BC}.

Lemma connections_insert_ok ck st s s' :
  connections_insert ck st s = (Ok (), s') →
  CONNECTIONS s' !! ck = Some st ∧ SOCKETS s' = SOCKETS s.
Proof.
  unfold connections_insert. destruct (bpf_update _ _ _) eqn:Hu; intros; simplify_eq/=.
  split; [|done]. by eapply lru_update_eq.
Qed.

Lemma sockets_insert_ok sk i s s' :
  sockets_insert sk i s = (Ok (), s') →
  SOCKETS s' !! sk = Some i ∧ CONNECTIONS s' = CONNECTIONS s.
Proof.
  unfold sockets_insert. destruct (bpf_update _ _ _) eqn:Hu; intros; simplify_eq/=.
  split; [|done]. by eapply lru_update_eq.
Qed.

Lemma sockets_remove_ok sk s s' :
  sockets_remove sk s = (Ok (), s') →
  SOCKETS s' !! sk = None ∧ CONNECTIONS s' = CONNECTIONS s.
Proof.
  unfold sockets_remove. destruct (bpf_delete _ _) eqn:Hu; intros; simplify_eq/=.
  apply lru_delete_ok in Hu as ->. by rewrite lookup_delete_eq.
Qed.

(** Use what each map operation of the run did. *)
Ltac ct_inv :=
  run_inv;
  repeat match goal with
  | H : connections_insert _ _ _ = (Ok _, _) |- _ => apply connections_insert_ok in H as [? ?]
  | H : sockets_insert _ _ _ = (Ok _, _) |- _ => apply sockets_insert_ok in H as [? ?]
  | H : sockets_remove _ _ = (Ok _, _) |- _ => apply sockets_remove_ok in H as [? ?]
  | H : SOCKETS ?s = _ |- context [SOCKETS ?s] => rewrite H
  end.

Lemma data_found k sk ck st i s r s' :
  parse_sock_data k sk = Ok (ck, st) →
  SOCKETS s !! sk = Some i → si_is_active i = 1 →
  (dest_addr ck =? 0) && (dest_port ck =? 0) = false →
  try_sock_conn_tracer k (Some sk) s = (Ok r, s') →
  CONNECTIONS s' !! with_info ck i = Some (with_active st 1) ∧ SOCKETS s' = SOCKETS s.
Proof.
  intros Hp Hi Ha Hd Hrun. unfold try_sock_conn_tracer in Hrun. run_inv.
  rewrite Hd in Hrun. run_inv. rewrite Hi, Ha in Hrun. simpl in Hrun. by ct_inv.
Qed.

Lemma data_new k sk ck st s r s' :
  parse_sock_data k sk = Ok (ck, st) →
  SOCKETS s !! sk = None →
  (dest_addr ck =? 0) && (dest_port ck =? 0) = false →
  try_sock_conn_tracer k (Some sk) s = (Ok r, s') →
  let i := {| si_id := get_unique_id k; si_pid := 0; si_is_active := 1;
              si_role := get_sock_role k sk |} in
  CONNECTIONS s' !! with_info ck i = Some (with_active st 1) ∧ SOCKETS s' !! sk = Some i.
Proof.
  intros Hp Hi Hd Hrun. unfold try_sock_conn_tracer in Hrun. run_inv.
  rewrite Hd in Hrun. run_inv. rewrite Hi in Hrun. by ct_inv.
Qed.

Lemma close_found k sk ck st i s r s' :
  parse_sock_data k sk = Ok (ck, st) →
  SOCKETS s !! sk = Some i →
  handle_tcp_close k sk s = (Ok r, s') →
  CONNECTIONS s' !! with_info ck i = Some (with_active st 0) ∧ SOCKETS s' !! sk = None.
Proof.
  intros Hp Hi Hrun. unfold handle_tcp_close in Hrun. run_inv.
  rewrite Hi in *. by ct_inv.
Qed.

Lemma syn_sent_ok k sk s r s' :
  handle_tcp_syn_sent k sk s = (Ok r, s') →
  SOCKETS s' !! sk = Some {| si_id := get_unique_id k;
    si_pid := as_u32 (current_pid_tgid k); si_is_active := 1;
    si_role := CONNECTION_ROLE_CLIENT |} ∧ CONNECTIONS s' = CONNECTIONS s.
Proof.
  intros Hrun. unfold handle_tcp_syn_sent in Hrun. by ct_inv.
Qed.

Lemma syn_recv_ok k sk ck st s r s' :
  parse_sock_data k sk = Ok (ck, st) → dest_addr ck ≠ 0 →
  handle_tcp_syn_recv k sk s = (Ok r, s') →
  let i := {| si_id := get_unique_id k; si_pid := 0; si_is_active := 1;
              si_role := CONNECTION_ROLE_SERVER |} in
  CONNECTIONS s' !! with_info ck i = Some (with_active st 0) ∧ SOCKETS s' !! sk = Some i.
Proof.
  intros Hp Hd Hrun. unfold handle_tcp_syn_recv in Hrun. run_inv.
  rewrite (proj2 (Z.eqb_neq _ _) Hd) in Hrun.
  rewrite <- (parse_sock_data_inactive _ _ _ _ Hp). by ct_inv.
Qed.
(** *** Properties *)

(** Whatever sequence of probes runs and whatever the LRU maps evict, every
    tracked socket is active with a valid role and every recorded connection
    has addresses, ports, role, counters and activity flag in their ranges; in
    particular the probe's guard against inactive sockets never fires. *)
Lemma tracer_invariant s : rtc ct_step Maps_empty s → maps_ok s.
Proof.
  intros Hr. cut (maps_ok Maps_empty); [|split; apply values_ok_empty].
  induction Hr as [s|s1 s2 s3 Hstep _ IH]; [done|].
  intros Hs. apply IH. by eapply ct_step_keeps.
Qed.

(** Life of an outgoing connection.  After SYN_SENT, a data event records
    it as active under the identity chosen at SYN_SENT, and the close event
    marks the entry of the same key inactive with the final counters and
    forgets the socket. *)
Lemma connection_lifecycle k1 k2 k3 sk ck st2 st3 s0 s1 s2 s3 r1 r2 r3 :
  parse_sock_data k2 sk = Ok (ck, st2) →
  parse_sock_data k3 sk = Ok (ck, st3) →
  dest_addr ck ≠ 0 →
  try_state_tracer k1 (Ok sk) (Ok TCP_SYN_SENT) s0 = (Ok r1, s1) →
  try_sock_conn_tracer k2 (Some sk) s1 = (Ok r2, s2) →
  try_state_tracer k3 (Ok sk) (Ok TCP_CLOSE) s2 = (Ok r3, s3) →
  let key := with_info ck {| si_id := get_unique_id k1;
    si_pid := as_u32 (current_pid_tgid k1); si_is_active := 1;
    si_role := CONNECTION_ROLE_CLIENT |} in
  CONNECTIONS s2 !! key = Some (with_active st2 1) ∧
  CONNECTIONS s3 !! key = Some (with_active st3 0) ∧
  SOCKETS s3 !! sk = None.
Proof.
  intros Hp2 Hp3 Hd H1 H2 H3.
  change (handle_tcp_syn_sent k1 sk s0 = (Ok r1, s1)) in H1.
  change (handle_tcp_close k3 sk s2 = (Ok r3, s3)) in H3. apply syn_sent_ok in H1 as [Hi _].
  apply (data_found k2 sk ck st2 _ _ _ _ Hp2 Hi) in H2 as [Hc2 Hs2]; [|done|].
  - rewrite <- Hs2 in Hi. by destruct (close_found k3 sk ck st3 _ _ _ _ Hp3 Hi H3).
  - by rewrite (proj2 (Z.eqb_neq _ _) Hd).
Qed.

(** A connection accepted in SYN_RECV is recorded with its activity flag
    still 0 although its socket is tracked as active; the next data event on
    the socket records the same key as active. *)
Lemma syn_recv_recorded_inactive k1 k2 sk ck st1 st2 s0 s1 s2 r1 r2 :
  parse_sock_data k1 sk = Ok (ck, st1) →
  parse_sock_data k2 sk = Ok (ck, st2) →
  dest_addr ck ≠ 0 →
  try_state_tracer k1 (Ok sk) (Ok TCP_SYN_RECV) s0 = (Ok r1, s1) →
  try_sock_conn_tracer k2 (Some sk) s1 = (Ok r2, s2) →
  let i := {| si_id := get_unique_id k1; si_pid := 0; si_is_active := 1;
              si_role := CONNECTION_ROLE_SERVER |} in
  SOCKETS s1 !! sk = Some i ∧
  CONNECTIONS s1 !! with_info ck i = Some (with_active st1 0) ∧
  CONNECTIONS s2 !! with_info ck i = Some (with_active st2 1).
Proof.
  intros Hp1 Hp2 Hd H1 H2. change (handle_tcp_syn_recv k1 sk s0 = (Ok r1, s1)) in H1.
  apply (syn_recv_ok k1 sk ck st1 _ _ _ Hp1 Hd) in H1 as [Hc Hs].
  apply (data_found k2 sk ck st2 _ _ _ _ Hp2 Hs) in H2 as [Hc2 _]; [done..|].
  by rewrite (proj2 (Z.eqb_neq _ _) Hd).
Qed.

(** A socket that cannot be parsed (not IPv4, or a read failed) leaves the
    maps as they were, for the data probe and for the SYN_RECV and CLOSE
    transitions, and the probe returns the error. *)
Lemma unparsed_socket_ignored k sk e s :
  parse_sock_data k sk = Err e →
  try_sock_conn_tracer k (Some sk) s = (Err e, s) ∧
  try_state_tracer k (Ok sk) (Ok TCP_SYN_RECV) s = (Err e, s) ∧
  try_state_tracer k (Ok sk) (Ok TCP_CLOSE) s = (Err e, s).
Proof.
  intros Hp. unfold try_sock_conn_tracer, try_state_tracer, handle_tcp_syn_recv,
    handle_tcp_close, mbind, M_bind, lift. simpl. by rewrite Hp.
Qed.
End behaviour.

(** ** A concrete kernel: socket 7 is 10.0.0.1:80 talking to 10.0.0.2:8080 *)

Definition ex_kernel (sent : Z) : Kernel := {|
  read_sock_common := λ sk,
    if sk =? 7 then Ok {| skc_family := AF_INET; skc_rcv_saddr := from_be32 167772161;
      skc_daddr := from_be32 167772162; skc_num := from_be16 80; skc_dport := from_be16 8080 |}
    else Ok {| skc_family := AF_INET6; skc_rcv_saddr := 0; skc_daddr := 0; skc_num := 0;
               skc_dport := 0 |};
  read_bytes_sent := λ _, Ok (as_u64 sent);
  read_bytes_received := λ _, Ok 5;
  read_max_ack_backlog := λ _, Ok 0;
  ktime_get_ns := 123456789;
  current_pid_tgid := 42 |}.

Definition ex_key : ConnectionKey := {|
  ck_id := 0; ck_pid := 0; src_addr := 167772161; src_port := 80;
  dest_addr := 167772162; dest_port := 8080; ck_role := 0 |}.

Definition ex_stats (sent : Z) : ConnectionStats :=
  {| bytes_sent := sent; bytes_received := 5; is_active := 0 |}.

Definition ex_BS : BpfMap Z SockInfo := bounded_hash 16.
Definition ex_BC : BpfMap ConnectionKey ConnectionStats := bounded_hash 16.

Lemma ex_kernel_ok sent : kernel_ok (ex_kernel sent).
Proof.
  split; simpl; intros sk n H; simplify_eq; [|unfold in_u; lia].
  apply wrapu_range. lia.
Qed.

Lemma tracer_invariant_witness :
  maps_ok (run_event (BS := ex_BS) (BC := ex_BC) (ex_kernel 100) (TcpDataQueue (Some 7)) Maps_empty).
Proof.
  apply (tracer_invariant (BS := ex_BS) (BC := ex_BC)
           (LruLaws0 := bounded_hash_lru 16) (LruLaws1 := bounded_hash_lru 16)).
  apply rtc_once. apply (ct_probe (BS := ex_BS) (BC := ex_BC)). apply ex_kernel_ok.
Defined.

Definition ex_s1 : Maps :=
  snd (try_state_tracer (BS := ex_BS) (BC := ex_BC) (ex_kernel 0) (Ok 7) (Ok TCP_SYN_SENT) Maps_empty).
Definition ex_s2 : Maps :=
  snd (try_sock_conn_tracer (BS := ex_BS) (BC := ex_BC) (ex_kernel 100) (Some 7) ex_s1).
Definition ex_s3 : Maps :=
  snd (try_state_tracer (BS := ex_BS) (BC := ex_BC) (ex_kernel 250) (Ok 7) (Ok TCP_CLOSE) ex_s2).

Lemma connection_lifecycle_witness :
  ∃ key, CONNECTIONS ex_s2 !! key = Some (with_active (ex_stats 100) 1) ∧
         CONNECTIONS ex_s3 !! key = Some (with_active (ex_stats 250) 0) ∧
         SOCKETS ex_s3 !! 7 = None.
Proof.
  eexists.
  apply (connection_lifecycle (BS := ex_BS) (BC := ex_BC)
           (LruLaws0 := bounded_hash_lru 16) (LruLaws1 := bounded_hash_lru 16)
           (ex_kernel 0) (ex_kernel 100) (ex_kernel 250) 7 ex_key (ex_stats 100) (ex_stats 250)
           Maps_empty ex_s1 ex_s2 ex_s3 0 0 0); done.
Defined.

Definition ex_r1 : Maps :=
  snd (try_state_tracer (BS := ex_BS) (BC := ex_BC) (ex_kernel 0) (Ok 7) (Ok TCP_SYN_RECV) Maps_empty).
Definition ex_r2 : Maps :=
  snd (try_sock_conn_tracer (BS := ex_BS) (BC := ex_BC) (ex_kernel 100) (Some 7) ex_r1).

Lemma syn_recv_recorded_inactive_witness :
  ∃ i, SOCKETS ex_r1 !! 7 = Some i ∧
    CONNECTIONS ex_r1 !! with_info ex_key i = Some (with_active (ex_stats 0) 0) ∧
    CONNECTIONS ex_r2 !! with_info ex_key i = Some (with_active (ex_stats 100) 1).
Proof.
  eexists.
  apply (syn_recv_recorded_inactive (BS := ex_BS) (BC := ex_BC)
           (LruLaws0 := bounded_hash_lru 16) (LruLaws1 := bounded_hash_lru 16)
           (ex_kernel 0) (ex_kernel 100) 7 ex_key (ex_stats 0) (ex_stats 100)
           Maps_empty ex_r1 ex_r2 0 0); done.
Defined.

Lemma unparsed_socket_ignored_witness :
  try_sock_conn_tracer (BS := ex_BS) (BC := ex_BC) (ex_kernel 0) (Some 9) ex_s2 = (Err 1, ex_s2).
Proof.
  apply (unparsed_socket_ignored (BS := ex_BS) (BC := ex_BC) (ex_kernel 0) 9 1 ex_s2).
  reflexivity.
Defined.
