(* ===== verification/ConnConcurrent.v ===== *)
(** * conn-tracer on several CPUs

    The probes of [ConnTracer] run on every CPU at once and share the two maps.
    Here a probe of [ebpf/conn-tracer/conn-tracer-ebpf/src/main.rs] is a program
    over the atomic operations it asks of the kernel (a lookup, an update or a
    deletion of one entry), and a state has at most one such program in flight
    per CPU.  Run alone, the programs are the probes of [ConnTracer].  Run
    together, they keep the invariant of the maps under every interleaving; and
    as long as no two of them work on one socket (the kernel calls both hooks
    with the socket locked) and the maps do not evict, the maps are what running
    the probes one at a time gives, in the order in which they recorded their
    connection. *)
From S2P Require Import Prelude RustStd Bpf ConnTracer.
From stdpp Require Import base gmap strings list relations.
From Stdlib Require Import ZArith Lia.

Local Open Scope Z_scope.

(** ** Programs over map operations *)

Inductive prog :=
  | Ret (r : result Z Z)
  | SocketsGet (sk : Z) (k : option SockInfo → prog)
  | SocketsInsert (sk : Z) (i : SockInfo) (k : result Z unit → prog)
  | SocketsRemove (sk : Z) (k : result Z unit → prog)
  | ConnectionsInsert (ck : ConnectionKey) (st : ConnectionStats) (k : result Z unit → prog).

(** [r?]: the rest of the program, or an early return. *)
Definition try_prog {A} (r : result Z A) (k : A → prog) : prog :=
  match r with Ok a => k a | Err e => Ret (Err e) end.

Local Notation "x ←? r ; k" := (try_prog r (λ x, k))
  (at level 100, r at next level, k at level 200, right associativity).

(** ** The probes *)

Section probes.
Context (k : Kernel).

(** The connection is recorded, and the probe ends with 0. *)
Definition record_conn (ck : ConnectionKey) (st : ConnectionStats) : prog :=
  ConnectionsInsert ck st (λ r, try_prog r (λ _, Ret (Ok 0))).

Definition sock_conn_prog (arg0 : option Z) : prog :=
  sk ←? ok_or 1 arg0;
  p ←? parse_sock_data k sk;
  let '(conn_key, conn_stats) := p in
  if (dest_addr conn_key =? 0) && (dest_port conn_key =? 0) then Ret (Ok 0)
  else SocketsGet sk (λ found,
    match found with
    | Some sock_info =>
        if si_is_active sock_info =? 0 then Ret (Err 1)
        else record_conn (with_info conn_key sock_info)
               (with_active conn_stats (si_is_active sock_info))
    | None =>
        let sock_info := {| si_id := get_unique_id k; si_pid := 0; si_is_active := 1;
                            si_role := get_sock_role k sk |} in
        SocketsInsert sk sock_info (λ r, _ ←? r;
          record_conn (with_info conn_key sock_info) (with_active conn_stats 1))
    end).

Definition syn_sent_prog (sk : Z) : prog :=
  SocketsInsert sk
    {| si_id := get_unique_id k; si_pid := as_u32 (current_pid_tgid k); si_is_active := 1;
       si_role := CONNECTION_ROLE_CLIENT |}
    (λ r, _ ←? r; Ret (Ok 0)).

Definition syn_recv_prog (sk : Z) : prog :=
  p ←? parse_sock_data k sk;
  let '(conn_key, conn_stats) := p in
  let sock_info := {| si_id := get_unique_id k; si_pid := 0; si_is_active := 1;
                      si_role := CONNECTION_ROLE_SERVER |} in
  SocketsInsert sk sock_info (λ r, _ ←? r;
    if dest_addr conn_key =? 0 then Ret (Ok 0)
    else record_conn (with_info conn_key sock_info) conn_stats).

Definition close_prog (sk : Z) : prog :=
  p ←? parse_sock_data k sk;
  let '(conn_key, conn_stats) := p in
  SocketsGet sk (λ found,
    match found with
    | Some sock_info =>
        SocketsRemove sk (λ r, _ ←? r;
          record_conn (with_info conn_key sock_info) (with_active conn_stats 0))
    | None =>
        record_conn (with_info conn_key
          {| si_id := get_unique_id k; si_pid := 0; si_is_active := 0;
             si_role := get_sock_role k sk |}) (with_active conn_stats 0)
    end).

Definition state_prog (sk_at newstate_at : result Z Z) : prog :=
  sk ←? sk_at;
  new_state ←? newstate_at;
  if decide (new_state = TCP_SYN_RECV) then syn_recv_prog sk
  else if decide (new_state = TCP_SYN_SENT) then syn_sent_prog sk
  else if decide (new_state = TCP_CLOSE) then close_prog sk
  else Ret (Ok 0).

Definition probe_prog (ev : Event) : prog :=
  match ev with
  | TcpDataQueue arg0 => sock_conn_prog arg0
  | InetSockSetState sk_at newstate_at => state_prog sk_at newstate_at
  end.
End probes.

(** ** One operation, and a run without interruption *)

Section run.
Context {BS : BpfMap Z SockInfo} {BC : BpfMap ConnectionKey ConnectionStats}.

Definition step_prog (p : prog) (s : Maps) : option (prog * Maps) :=
  match p with
  | Ret _ => None
  | SocketsGet sk k => Some (k (SOCKETS s !! sk), s)
  | SocketsInsert sk i k => let '(r, s') := sockets_insert sk i s in Some (k r, s')
  | SocketsRemove sk k => let '(r, s') := sockets_remove sk s in Some (k r, s')
  | ConnectionsInsert ck st k => let '(r, s') := connections_insert ck st s in Some (k r, s')
  end.

Fixpoint run_prog (p : prog) : M Maps Z Z := λ s,
  match p with
  | Ret r => (r, s)
  | SocketsGet sk k => run_prog (k (SOCKETS s !! sk)) s
  | SocketsInsert sk i k => let '(r, s') := sockets_insert sk i s in run_prog (k r) s'
  | SocketsRemove sk k => let '(r, s') := sockets_remove sk s in run_prog (k r) s'
  | ConnectionsInsert ck st k => let '(r, s') := connections_insert ck st s in run_prog (k r) s'
  end.
End run.

(** ** Several CPUs *)

(** A probe in flight: what it was called with, what is left of it, and whether
    it has recorded its connection. *)
Record Flight := {
  fl_kernel : Kernel; fl_event : Event; fl_prog : prog; fl_recorded : bool }.

(** The maps, the probe in flight on each CPU, and two histories: the probes in
    the order in which they started, and in the order in which each recorded its
    connection or, having none to record, ended. *)
Record Cpus := {
  c_maps : Maps; c_cpus : gmap nat Flight;
  c_started : list (Kernel * Event); c_log : list (Kernel * Event) }.

Definition Cpus_idle (m : Maps) : Cpus :=
  {| c_maps := m; c_cpus := ∅; c_started := []; c_log := [] |}.

Definition records (p : prog) : bool :=
  match p with ConnectionsInsert _ _ _ => true | _ => false end.

Definition fl_call (f : Flight) : Kernel * Event := (fl_kernel f, fl_event f).
Definition log_if (b : bool) (f : Flight) (l : list (Kernel * Event)) : list (Kernel * Event) :=
  if b then l ++ [fl_call f] else l.

Section cpus.
Context {BS : BpfMap Z SockInfo} {BC : BpfMap ConnectionKey ConnectionStats}.

Inductive cstep : Cpus → Cpus → Prop :=
  | c_start c k ev s :
      c_cpus s !! c = None → kernel_ok k →
      cstep s {| c_maps := c_maps s;
                 c_cpus := <[c := {| fl_kernel := k; fl_event := ev; fl_prog := probe_prog k ev;
                                     fl_recorded := false |}]> (c_cpus s);
                 c_started := c_started s ++ [(k, ev)]; c_log := c_log s |}
  | c_op c f p m s :
      c_cpus s !! c = Some f → step_prog (fl_prog f) (c_maps s) = Some (p, m) →
      cstep s {| c_maps := m;
                 c_cpus := <[c := {| fl_kernel := fl_kernel f; fl_event := fl_event f; fl_prog := p;
                                     fl_recorded := fl_recorded f || records (fl_prog f) |}]> (c_cpus s);
                 c_started := c_started s; c_log := log_if (records (fl_prog f)) f (c_log s) |}
  | c_end c f r s :
      c_cpus s !! c = Some f → fl_prog f = Ret r →
      cstep s {| c_maps := c_maps s; c_cpus := delete c (c_cpus s);
                 c_started := c_started s; c_log := log_if (negb (fl_recorded f)) f (c_log s) |}.
End cpus.

(** The socket a probe works on. *)
Definition event_socket (ev : Event) : option Z :=
  match ev with
  | TcpDataQueue arg0 => arg0
  | InetSockSetState (Ok sk) (Ok _) => Some sk
  | InetSockSetState _ _ => None
  end.

(** The socket lock: no two probes in flight work on one socket. *)
Definition socket_lock (s : Cpus) : Prop := ∀ c1 c2 f1 f2 sk,
  c_cpus s !! c1 = Some f1 → c_cpus s !! c2 = Some f2 →
  event_socket (fl_event f1) = Some sk → event_socket (fl_event f2) = Some sk → c1 = c2.

(** Neither map is full. *)
Definition room (cap : nat) (s : Cpus) : Prop :=
  (size (SOCKETS (c_maps s)) < cap)%nat ∧ (size (CONNECTIONS (c_maps s)) < cap)%nat.

(** ** Run alone, the programs are the probes *)

Section alone.
Context {BS : BpfMap Z SockInfo} {BC : BpfMap ConnectionKey ConnectionStats}.
Context (k : Kernel).

Lemma run_record_conn ck st s :
  run_prog (record_conn ck st) s = (connections_insert ck st;; mret 0) s.
Proof.
  unfold record_conn, mbind, M_bind. cbn [run_prog].
  destruct (connections_insert ck st s) as [[[]|e] s']; reflexivity.
Qed.

Lemma run_sock_conn arg0 s : run_prog (sock_conn_prog k arg0) s = try_sock_conn_tracer k arg0 s.
Proof.
  unfold sock_conn_prog, try_sock_conn_tracer, lift, gets, mbind, M_bind.
  destruct arg0 as [sk|]; [|done]. cbn [ok_or try_prog].
  destruct (parse_sock_data k sk) as [[ck st]|]; [|done]. cbn [try_prog].
  destruct (_ && _); [done|]. cbn [run_prog].
  destruct (SOCKETS s !! sk) as [i|].
  - destruct (_ =? _); [done|]. apply run_record_conn.
  - cbn [run_prog]. destruct (sockets_insert _ _ _) as [[[]|] s1]; [|done]. apply run_record_conn.
Qed.

Lemma run_state sk_at st_at s :
  run_prog (state_prog k sk_at st_at) s = try_state_tracer k sk_at st_at s.
Proof.
  unfold state_prog, try_state_tracer, lift, mbind, M_bind. destruct sk_at as [sk|]; [|done].
  destruct st_at as [new|]; [|done]. cbn [try_prog]. repeat case_decide; [| | |done].
  - unfold syn_recv_prog, handle_tcp_syn_recv, lift, mbind, M_bind.
    destruct (parse_sock_data k sk) as [[ck st]|]; [|done]. cbn [try_prog run_prog].
    destruct (sockets_insert _ _ _) as [[[]|] s1]; [|done]. cbn [try_prog].
    destruct (_ =? _); [done|]. apply run_record_conn.
  - unfold syn_sent_prog, handle_tcp_syn_sent, mbind, M_bind. cbn [run_prog].
    destruct (sockets_insert _ _ _) as [[[]|] s1]; done.
  - unfold close_prog, handle_tcp_close, lift, gets, mbind, M_bind.
    destruct (parse_sock_data k sk) as [[ck st]|]; [|done]. cbn [try_prog run_prog].
    destruct (SOCKETS s !! sk) as [i|]; [|apply run_record_conn].
    cbn [run_prog]. destruct (sockets_remove _ _) as [[[]|] s1]; [|done]. apply run_record_conn.
Qed.

Lemma run_probe ev s : run_event k ev s = state_of (run_prog (probe_prog k ev)) s.
Proof.
  unfold run_event, state_of, sock_conn_tracer, sock_state_tracer.
  destruct ev; simpl; rewrite ?run_sock_conn, ?run_state; by case_match.
Qed.
End alone.

(** ** Every interleaving keeps the invariant *)

(** The operations a program may still perform write well-formed entries,
    whatever well-formed entries it finds. *)
Fixpoint safe (p : prog) : Prop :=
  match p with
  | Ret _ => True
  | SocketsGet sk k => ∀ o, (∀ i, o = Some i → sock_ok sk i) → safe (k o)
  | SocketsInsert sk i k => sock_ok sk i ∧ ∀ r, safe (k r)
  | SocketsRemove sk k => ∀ r, safe (k r)
  | ConnectionsInsert ck st k => conn_ok ck st ∧ ∀ r, safe (k r)
  end.

Definition cpus_ok (s : Cpus) : Prop :=
  maps_ok (c_maps s) ∧ map_Forall (λ _ f, safe (fl_prog f)) (c_cpus s).

Section safe.
Context (k : Kernel) (Hk : kernel_ok k).

Lemma safe_record ck st : conn_ok ck st → safe (record_conn ck st).
Proof. intros H. split; [done|]. by intros []. Qed.

Lemma safe_try {A} (r : result Z A) f : (∀ a, r = Ok a → safe (f a)) → safe (try_prog r f).
Proof. destruct r; simpl; auto. Qed.

Lemma parsed_conn_ok sk ck st i a :
  parse_sock_data k sk = Ok (ck, st) → in_u 32 (si_id i) → in_u 32 (si_pid i) →
  role_ok (si_role i) → a = 0 ∨ a = 1 → safe (record_conn (with_info ck i) (with_active st a)).
Proof. intros. apply safe_record. by eapply parse_sock_data_conn_ok. Qed.

Hint Resolve unique_id_range get_sock_role_ok new_sock_ok : rust_pres.
Hint Extern 1 (in_u _ 0) => (apply in_u_0; lia) : rust_pres.
Hint Extern 1 (in_u _ (as_u32 _)) => (apply wrapu_range; lia) : rust_pres.
Hint Extern 1 (role_ok _) => (unfold role_ok; auto) : rust_pres.

Lemma probe_safe ev : safe (probe_prog k ev).
Proof.
  destruct ev as [arg0|sk_at st_at]; simpl.
  - apply safe_try. intros sk _. apply safe_try. intros [ck st] Hp.
    case_match; [done|]. simpl. intros [i|] Hi.
    + destruct (Hi i eq_refl) as (Ha & Hr & ? & ?). rewrite Ha. simpl.
      eapply parsed_conn_ok; eauto.
    + split; [eauto with rust_pres|]. intros r. apply safe_try. intros _ _.
      eapply parsed_conn_ok; simpl; eauto with rust_pres.
  - apply safe_try. intros sk _. apply safe_try. intros st' _. repeat case_decide; [| | |done].
    + apply safe_try. intros [ck st] Hp. split; [eauto with rust_pres|]. intros r.
      apply safe_try. intros _ _. case_match; [done|].
      rewrite (parse_sock_data_inactive _ _ _ _ Hp).
      eapply parsed_conn_ok; simpl; eauto with rust_pres.
    + split; [eauto with rust_pres|]. by intros [].
    + apply safe_try. intros [ck st] Hp. simpl. intros [i|] Hi.
      * destruct (Hi i eq_refl) as (Ha & Hr & ? & ?). intros r. apply safe_try. intros _ _.
        eapply parsed_conn_ok; eauto.
      * eapply parsed_conn_ok; simpl; eauto with rust_pres.
Qed.
End safe.

Section interleaved.
Context {BS : BpfMap Z SockInfo} {BC : BpfMap ConnectionKey ConnectionStats}.
Context `{!LruLaws BS} `{!LruLaws BC}.

Lemma step_prog_safe p s p' s' :
  step_prog p s = Some (p', s') → safe p → maps_ok s → safe p' ∧ maps_ok s'.
Proof.
  intros Hst Hp Hm. destruct p as [r|sk k|sk i k|sk k|ck st k]; simpl in *; [done|..].
  - simplify_eq. split; [|done]. apply Hp. intros i Hi. by apply Hm.
  - destruct Hp as [Hi Hp]. pose proof (sockets_insert_keeps sk i Hi s Hm) as H.
    unfold state_of in H. destruct (sockets_insert sk i s); by simplify_eq.
  - pose proof (sockets_remove_keeps sk s Hm) as H.
    unfold state_of in H. destruct (sockets_remove sk s); by simplify_eq.
  - destruct Hp as [Hi Hp]. pose proof (connections_insert_keeps ck st Hi s Hm) as H.
    unfold state_of in H. destruct (connections_insert ck st s); by simplify_eq.
Qed.

Lemma cstep_ok s s' : cstep s s' → cpus_ok s → cpus_ok s'.
Proof.
  intros Hs [Hm Hc]. destruct Hs as [c k ev s Hn Hk|c f p m s Hf Hst|c f r s Hf _]; split; simpl.
  - done.
  - apply map_Forall_insert_2; [|done]. by apply probe_safe.
  - by eapply step_prog_safe; [|apply (Hc c)|].
  - apply map_Forall_insert_2; [|done]. by eapply step_prog_safe; [|apply (Hc c)|].
  - done.
  - by apply map_Forall_delete.
Qed.

(** C18: on any number of CPUs, under every interleaving of the map operations of
    any probes and whatever the LRU maps evict, every tracked socket is active
    with a valid role and every recorded connection has addresses, ports, role,
    counters and activity flag in their ranges. *)
Theorem concurrent_tracer_invariant s : rtc cstep (Cpus_idle Maps_empty) s → maps_ok (c_maps s).
Proof.
  intros Hr. cut (cpus_ok s); [by intros []|].
  cut (cpus_ok (Cpus_idle Maps_empty)).
  - induction Hr as [s|s1 s2 s3 Hstep _ IH]; [done|]. intros Hs. apply IH. by eapply cstep_ok.
  - split; [split; apply values_ok_empty|apply map_Forall_empty].
Qed.
End interleaved.

(** ** Reduction to one probe at a time *)

(** The specification: a probe runs without interruption, on maps that do not
    evict. *)
Definition run_alone (m : Maps) (call : Kernel * Event) : Maps :=
  run_event (BS := exact_map) (BC := exact_map) call.1 call.2 m.

(** A program that works on the entry of one socket and ends when it has recorded
    its connection. *)
Fixpoint local_to (sk : Z) (p : prog) : Prop :=
  match p with
  | Ret _ => True
  | SocketsGet sk' k => sk' = sk ∧ ∀ o, local_to sk (k o)
  | SocketsInsert sk' _ k | SocketsRemove sk' k => sk' = sk ∧ ∀ r, local_to sk (k r)
  | ConnectionsInsert _ _ k => ∀ r, ∃ r', k r = Ret r'
  end.

(** What is left of such a program does to the entry of its socket, and what it
    records. *)
Definition Effect : Type := option SockInfo * list (ConnectionKey * ConnectionStats).

Fixpoint effect (p : prog) (v : option SockInfo) : Effect :=
  match p with
  | Ret _ => (v, [])
  | SocketsGet _ k => effect (k v) v
  | SocketsInsert _ i k => effect (k (Ok ())) (Some i)
  | SocketsRemove _ k =>
      match v with Some _ => effect (k (Ok ())) None | None => effect (k (Err (-2))) None end
  | ConnectionsInsert ck st k => let '(v', l) := effect (k (Ok ())) v in (v', (ck, st) :: l)
  end.

Definition apply_effect (sk : Z) (e : Effect) (m : Maps) : Maps :=
  {| SOCKETS := partial_alter (λ _, e.1) sk (SOCKETS m);
     CONNECTIONS := foldl (λ cs p, <[p.1 := p.2]> cs) (CONNECTIONS m) e.2 |}.

Lemma apply_effect_id sk m : apply_effect sk (SOCKETS m !! sk, []) m = m.
Proof. destruct m. unfold apply_effect. simpl. f_equal. apply partial_alter_self. Qed.

Lemma alter_after (f : gmap Z SockInfo → gmap Z SockInfo) sk v m :
  (∀ sk', sk' ≠ sk → f m !! sk' = m !! sk') →
  partial_alter (λ _, v) sk (f m) = partial_alter (λ _, v) sk m.
Proof.
  intros Hf. apply map_eq. intros sk'. destruct (decide (sk' = sk)) as [->|Hne].
  - by rewrite !lookup_partial_alter_eq.
  - rewrite !lookup_partial_alter_ne by done. auto.
Qed.

Lemma run_local sk p m : local_to sk p →
  state_of (run_prog (BS := exact_map) (BC := exact_map) p) m = apply_effect sk (effect p (SOCKETS m !! sk)) m.
Proof.
  revert m. induction p as [r|sk' k IH|sk' i k IH|sk' k IH|ck st k IH]; intros m Hl; simpl in Hl.
  - symmetry. apply apply_effect_id.
  - destruct Hl as [-> Hl]. exact (IH _ m (Hl _)).
  - destruct Hl as [-> Hl].
    change (state_of (run_prog (BS := exact_map) (BC := exact_map) (k (Ok ())))
              (set_SOCKETS (<[sk := i]> (SOCKETS m)) m) = apply_effect sk (effect (k (Ok ())) (Some i)) m).
    rewrite IH by done. simpl. rewrite lookup_insert_eq.
    unfold apply_effect. simpl. f_equal.
    apply (alter_after (insert sk i)). intros. by rewrite lookup_insert_ne.
  - destruct Hl as [-> Hl]. unfold state_of. cbn [run_prog]. unfold sockets_remove. simpl.
    destruct (SOCKETS m !! sk) as [i|] eqn:E.
    + change (state_of (run_prog (BS := exact_map) (BC := exact_map) (k (Ok ())))
              (set_SOCKETS (delete sk (SOCKETS m)) m) = apply_effect sk (effect (k (Ok ())) None) m).
      rewrite IH by done. simpl. rewrite lookup_delete_eq.
      unfold apply_effect. simpl. f_equal.
      apply (alter_after (delete sk)). intros. by rewrite lookup_delete_ne.
    + rewrite <- E. exact (IH _ m (Hl _)).
  - destruct (Hl (Ok ())) as [r' Hr]. unfold state_of. simpl. rewrite Hr. simpl.
    unfold apply_effect. simpl. unfold set_CONNECTIONS. f_equal. symmetry. apply partial_alter_self.
Qed.

Lemma local_record sk ck st : local_to sk (record_conn ck st).
Proof. intros [[]|e]; simpl; eauto. Qed.

Lemma local_try {A} sk (r : result Z A) f : (∀ a, local_to sk (f a)) → local_to sk (try_prog r f).
Proof. destruct r; simpl; auto. Qed.

Lemma probe_local k ev sk : event_socket ev = Some sk → local_to sk (probe_prog k ev).
Proof.
  destruct ev as [arg0|[sk'|] [new|]]; simpl; intros Hev; simplify_eq/=.
  - unfold sock_conn_prog. cbn [ok_or try_prog]. apply local_try. intros [ck st].
    case_match; [done|]. split; [done|]. intros [i|].
    + case_match; [done|]. apply local_record.
    + split; [done|]. intros r. apply local_try. intros _. apply local_record.
  - unfold state_prog. cbn [try_prog]. repeat case_decide; [| | |done].
    + apply local_try. intros [ck st]. split; [done|]. intros r. apply local_try. intros _.
      case_match; [done|]. apply local_record.
    + split; [done|]. by intros [].
    + apply local_try. intros [ck st]. split; [done|]. intros [i|]; [|apply local_record].
      split; [done|]. intros r. apply local_try. intros _. apply local_record.
Qed.

Lemma probe_no_socket k ev : event_socket ev = None → ∃ r, probe_prog k ev = Ret r.
Proof. destruct ev as [[]|[] []]; simpl; intros; simplify_eq; eauto. Qed.

(** An atomic probe acts on the entry of its socket alone. *)
Lemma run_alone_effect m k ev sk : event_socket ev = Some sk →
  run_alone m (k, ev) = apply_effect sk (effect (probe_prog k ev) (SOCKETS m !! sk)) m.
Proof. intros H. unfold run_alone. simpl. rewrite run_probe. by apply run_local, probe_local. Qed.

Lemma run_alone_no_socket m k ev : event_socket ev = None → run_alone m (k, ev) = m.
Proof.
  intros H. unfold run_alone. simpl. rewrite run_probe.
  by destruct (probe_no_socket k ev H) as [r ->].
Qed.

(** An operation on the socket moves the program along its effect, and touches
    neither another socket nor the connections. *)
Lemma step_local sk p m p' m' :
  local_to sk p → records p = false →
  step_prog (BS := exact_map) (BC := exact_map) p m = Some (p', m') →
  local_to sk p' ∧ effect p' (SOCKETS m' !! sk) = effect p (SOCKETS m !! sk) ∧
  CONNECTIONS m' = CONNECTIONS m ∧ ∀ sk', sk' ≠ sk → SOCKETS m' !! sk' = SOCKETS m !! sk'.
Proof.
  intros Hl Hr Hs. destruct p as [r|sk' k|sk' i k|sk' k|ck st k]; simpl in *; try done.
  - destruct Hl as [-> Hl]. by simplify_eq.
  - destruct Hl as [-> Hl]. simplify_eq/=. rewrite lookup_insert_eq. split_and!; auto.
    intros. by rewrite lookup_insert_ne.
  - destruct Hl as [-> Hl]. unfold sockets_remove in Hs. simpl in Hs.
    destruct (SOCKETS m !! sk) as [i|] eqn:E; simplify_eq/=; rewrite ?lookup_delete_eq, ?E; split_and!; auto.
    intros. by rewrite lookup_delete_ne.
Qed.

(** How the maps relate to those of the specification after the logged probes:
    the connections agree; so do the sockets on which nothing is in flight; and
    what is left of a probe in flight does here what the whole probe would do
    there. *)
Record linked (s : Cpus) (q : Maps) : Prop := {
  lk_conns : CONNECTIONS q = CONNECTIONS (c_maps s);
  lk_idle sk :
    (∀ c f, c_cpus s !! c = Some f → event_socket (fl_event f) = Some sk → fl_recorded f = true) →
    SOCKETS q !! sk = SOCKETS (c_maps s) !! sk;
  lk_flight c f sk : c_cpus s !! c = Some f → fl_recorded f = false →
    event_socket (fl_event f) = Some sk →
    local_to sk (fl_prog f) ∧
    effect (fl_prog f) (SOCKETS (c_maps s) !! sk) =
      effect (probe_prog (fl_kernel f) (fl_event f)) (SOCKETS q !! sk);
  lk_done c f : c_cpus s !! c = Some f →
    fl_recorded f = true ∨ event_socket (fl_event f) = None → ∃ r, fl_prog f = Ret r }.

Section reduction.
Context {BS : BpfMap Z SockInfo} {BC : BpfMap ConnectionKey ConnectionStats}.
Context (cap : nat) `{!RoomLaws BS cap} `{!RoomLaws BC cap}.

(** With room in the maps, an operation is exact. *)
Lemma step_prog_room p s : room cap s →
  step_prog p (c_maps s) = step_prog (BS := exact_map) (BC := exact_map) p (c_maps s).
Proof.
  intros [Hs Hc]. destruct p as [r|sk k|sk i k|sk k|ck st k]; simpl; try done.
  - unfold sockets_insert. by rewrite room_update.
  - unfold sockets_remove. simpl. destruct (SOCKETS _ !! sk) eqn:E.
    + by rewrite room_delete_present by eauto.
    + by rewrite room_delete_absent.
  - unfold connections_insert. by rewrite room_update.
Qed.

(** A step of the CPUs with the sockets locked and room in the maps. *)
Definition lstep (s s' : Cpus) : Prop := cstep s s' ∧ socket_lock s' ∧ room cap s.

Lemma linked_start s q c k ev :
  linked s q → c_cpus s !! c = None →
  let s' := {| c_maps := c_maps s;
               c_cpus := <[c := {| fl_kernel := k; fl_event := ev; fl_prog := probe_prog k ev;
                                   fl_recorded := false |}]> (c_cpus s);
               c_started := c_started s ++ [(k, ev)]; c_log := c_log s |} in
  socket_lock s' → linked s' q.
Proof.
  intros [Hc Hi Hf Hd] Hn s' Hlock. split; simpl.
  - done.
  - intros sk Hsk. apply Hi. intros c' f' Hf'. apply (Hsk c').
    rewrite lookup_insert_ne; [done|]. congruence.
  - intros c' f' sk Hl Hr Hev. apply lookup_insert_Some in Hl as [[<- <-]|[Hne Hl]]; [|eauto].
    split; [by apply probe_local|]. simpl. f_equal. symmetry. apply Hi. intros c' f'' Hf'' Hev''.
    exfalso. assert (c' ≠ c) as Hne by congruence. apply Hne.
    eapply (Hlock c' c f'' _ sk); simpl; [by rewrite lookup_insert_ne|by rewrite lookup_insert_eq|done..].
  - intros c' f' Hl Hr. apply lookup_insert_Some in Hl as [[<- <-]|[Hne Hl]]; [|eauto].
    simpl in Hr. destruct Hr as [|Hr]; [done|]. by apply probe_no_socket.
Qed.

(** The specification runs the probe when it records its connection or ends. *)
Lemma linked_call s q c f sk :
  linked s q → c_cpus s !! c = Some f → fl_recorded f = false →
  event_socket (fl_event f) = Some sk →
  run_alone q (fl_call f) = apply_effect sk (effect (fl_prog f) (SOCKETS (c_maps s) !! sk)) q.
Proof.
  intros [_ _ Hf _] Hc Hr Hev. unfold fl_call. rewrite (run_alone_effect q _ _ sk Hev).
  by destruct (Hf c f sk Hc Hr Hev) as [_ ->].
Qed.
(** An operation on the socket's entry leaves the specification where it is. *)
Lemma linked_move s q c f sk p m st lg :
  linked s q → socket_lock s → c_cpus s !! c = Some f → fl_recorded f = false →
  event_socket (fl_event f) = Some sk → records (fl_prog f) = false →
  step_prog (BS := exact_map) (BC := exact_map) (fl_prog f) (c_maps s) = Some (p, m) →
  linked {| c_maps := m;
            c_cpus := <[c := {| fl_kernel := fl_kernel f; fl_event := fl_event f; fl_prog := p;
                                fl_recorded := false |}]> (c_cpus s);
            c_started := st; c_log := lg |} q.
Proof.
  intros [Hc Hi Hf Hd] Hlock Hl Hr Hev Hrec Hst.
  destruct (Hf c f sk Hl Hr Hev) as [Hloc Heff].
  destruct (step_local sk _ _ _ _ Hloc Hrec Hst) as (Hloc' & Heff' & Hconn & Hoth). split; simpl.
  - congruence.
  - intros sk' Hsk'. assert (sk' ≠ sk) as Hne.
    { intros ->. specialize (Hsk' c _ ltac:(by rewrite lookup_insert_eq) Hev). done. }
    rewrite Hoth by done. apply Hi. intros c' f' Hf' Hev'. apply (Hsk' c'); [|done].
    rewrite lookup_insert_ne; [done|]. intros <-. congruence.
  - intros c' f' sk' Hl' Hr' Hev'. apply lookup_insert_Some in Hl' as [[<- <-]|[Hne Hl']]; simpl in *.
    + simplify_eq. split; [done|]. congruence.
    + rewrite Hoth; [eauto|]. intros ->. by apply Hne, (Hlock c c' f f' sk).
  - intros c' f' Hl' Hr'. apply lookup_insert_Some in Hl' as [[<- <-]|[Hne Hl']]; simpl in *; [|eauto].
    destruct Hr' as [|Hr']; congruence.
Qed.

(** A flight that no longer matters to the specification: it has recorded its
    connection, and its socket's entry is what the specification made it. *)
Lemma linked_settle s q c f sk m cpus st lg :
  linked s q → socket_lock s → c_cpus s !! c = Some f → fl_recorded f = false →
  event_socket (fl_event f) = Some sk → SOCKETS m = SOCKETS (c_maps s) →
  CONNECTIONS m = foldl (λ cs p, <[p.1 := p.2]> cs) (CONNECTIONS (c_maps s))
                    (effect (fl_prog f) (SOCKETS (c_maps s) !! sk)).2 →
  (effect (fl_prog f) (SOCKETS (c_maps s) !! sk)).1 = SOCKETS (c_maps s) !! sk →
  (∀ c', c' ≠ c → cpus !! c' = c_cpus s !! c') →
  (∀ f', cpus !! c = Some f' → fl_recorded f' = true ∧ ∃ r, fl_prog f' = Ret r) →
  linked {| c_maps := m; c_cpus := cpus; c_started := st; c_log := lg |} (run_alone q (fl_call f)).
Proof.
  intros Hlk Hlock Hl Hr Hev Hsm Hcm Hv Hoth Hmine.
  rewrite (linked_call s q c f sk Hlk Hl Hr Hev). destruct Hlk as [Hc Hi Hf Hd].
  assert (∀ sk', sk' ≠ sk → SOCKETS (apply_effect sk (effect (fl_prog f) (SOCKETS (c_maps s) !! sk)) q) !! sk'
                            = SOCKETS q !! sk') as Hne.
  { intros sk' Hn. simpl. by rewrite lookup_partial_alter_ne. }
  split; cbn [c_maps c_cpus].
  - simpl. by rewrite Hcm, Hc.
  - intros sk' Hsk'. rewrite Hsm. destruct (decide (sk' = sk)) as [->|Hn].
    + simpl. by rewrite lookup_partial_alter_eq.
    + rewrite Hne by done. apply Hi. intros c' f' Hf' Hev'. apply (Hsk' c'); [|done].
      rewrite Hoth; [done|]. intros ->. congruence.
  - intros c' f' sk' Hl' Hr' Hev'. destruct (decide (c' = c)) as [->|Hn].
    + destruct (Hmine f' Hl'). congruence.
    + rewrite Hoth in Hl' by done. rewrite Hsm, Hne; [eauto|]. intros ->.
      by apply Hn, (Hlock c' c f' f sk).
  - intros c' f' Hl' Hr'. destruct (decide (c' = c)) as [->|Hn].
    + by destruct (Hmine f' Hl').
    + rewrite Hoth in Hl' by done. eauto.
Qed.

(** A flight that did nothing but end. *)
Lemma linked_drop s q c f r st lg :
  linked s q → c_cpus s !! c = Some f → fl_prog f = Ret r →
  fl_recorded f = true ∨ event_socket (fl_event f) = None →
  linked {| c_maps := c_maps s; c_cpus := delete c (c_cpus s); c_started := st; c_log := lg |} q.
Proof.
  intros [Hc Hi Hf Hd] Hl Hp Hr. split; simpl.
  - done.
  - intros sk Hsk. apply Hi. intros c' f' Hf' Hev'. destruct (decide (c' = c)) as [->|Hn].
    + simplify_eq. by destruct Hr as [|Hr]; [|congruence].
    + apply (Hsk c'); [|done]. by rewrite lookup_delete_ne.
  - intros c' f' sk Hl'. apply lookup_delete_Some in Hl' as [_ Hl']. eauto.
  - intros c' f' Hl'. apply lookup_delete_Some in Hl' as [_ Hl']. eauto.
Qed.
Lemma lstep_linked m0 s s' :
  lstep s s' → socket_lock s → linked s (foldl run_alone m0 (c_log s)) →
  linked s' (foldl run_alone m0 (c_log s')).
Proof.
  intros (Hst & Hlock' & Hroom) Hlock Hlk.
  destruct Hst as [c k ev s Hn Hk|c f p m s Hf Hst|c f r s Hf Hp]; cbn [c_log log_if].
  - by apply linked_start.
  - rewrite step_prog_room in Hst by done.
    destruct (fl_recorded f) eqn:Hr.
    { destruct (lk_done _ _ Hlk c f Hf ltac:(by left)) as [r Hret]. by rewrite Hret in Hst. }
    destruct (event_socket (fl_event f)) as [sk|] eqn:Hev.
    2:{ destruct (lk_done _ _ Hlk c f Hf ltac:(by right)) as [r Hret]. by rewrite Hret in Hst. }
    destruct (records (fl_prog f)) eqn:Hrec; cbn [log_if].
    + rewrite foldl_app. cbn [foldl].
      destruct (lk_flight _ _ Hlk c f sk Hf Hr Hev) as [Hloc _].
      destruct (fl_prog f) as [| | | |ck st k] eqn:Ep; try done. simpl in Hst, Hloc. simplify_eq/=.
      destruct (Hloc (Ok ())) as [r Hret].
      eapply (linked_settle s _ c f sk); try done; rewrite ?Ep; simpl; rewrite ?Hret; try done.
      * intros c' Hc'. by rewrite lookup_insert_ne.
      * intros f'. rewrite lookup_insert_eq. intros [= <-]. simpl. eauto.
    + rewrite orb_false_r. eapply linked_move; eauto.
  - destruct (fl_recorded f) eqn:Hr; cbn [negb log_if].
    { eapply linked_drop; eauto. }
    destruct (event_socket (fl_event f)) as [sk|] eqn:Hev.
    + rewrite foldl_app. cbn [foldl].
      eapply (linked_settle s _ c f sk); try done; rewrite ?Hp; simpl; try done.
      * intros c' Hc'. by rewrite lookup_delete_ne.
      * intros f'. by rewrite lookup_delete_eq.
    + rewrite foldl_app. cbn [foldl]. unfold fl_call. rewrite run_alone_no_socket by done.
      eapply linked_drop; eauto.
Qed.
End reduction.

(** The probes in flight that have not recorded their connection. *)
Definition pending (cpus : gmap nat Flight) : list (Kernel * Event) :=
  omap (λ p, if fl_recorded p.2 then None else Some (fl_call p.2)) (map_to_list cpus).

Lemma pending_insert cpus c f : cpus !! c = None →
  pending (<[c := f]> cpus) ≡ₚ log_if (negb (fl_recorded f)) f [] ++ pending cpus.
Proof.
  intros Hc. unfold pending. rewrite map_to_list_insert by done. simpl. by destruct (fl_recorded f).
Qed.

Lemma pending_delete cpus c f : cpus !! c = Some f →
  pending cpus ≡ₚ log_if (negb (fl_recorded f)) f [] ++ pending (delete c cpus).
Proof.
  intros Hc. rewrite <- pending_insert by apply lookup_delete_eq. by rewrite insert_delete_id.
Qed.

Lemma pending_update cpus c f f' : cpus !! c = Some f →
  pending (<[c := f']> cpus) ≡ₚ log_if (negb (fl_recorded f')) f' [] ++ pending (delete c cpus).
Proof. intros Hc. rewrite <- insert_delete_eq. apply pending_insert. by rewrite lookup_delete_eq. Qed.

Lemma log_if_app b f l : log_if b f l = l ++ log_if b f [].
Proof. destruct b; simpl; by rewrite ?app_nil_r. Qed.

Section linearize.
Context {BS : BpfMap Z SockInfo} {BC : BpfMap ConnectionKey ConnectionStats}.
Context (cap : nat) `{!RoomLaws BS cap} `{!RoomLaws BC cap}.

Definition accounted (s : Cpus) : Prop := c_started s ≡ₚ c_log s ++ pending (c_cpus s).

Lemma lstep_accounted s s' q : linked s q → cstep s s' → accounted s → accounted s'.
Proof.
  unfold accounted. intros Hlk Hst Ha.
  destruct Hst as [c k ev s Hn Hk|c f p m s Hf Hst|c f r s Hf Hp]; cbn [c_started c_log c_cpus].
  - rewrite pending_insert by done. simpl. rewrite Ha. unfold fl_call. simpl. solve_Permutation.
  - rewrite pending_update, Ha, (pending_delete (c_cpus s) c f) by done. simpl.
    rewrite (log_if_app (records _)).
    assert (fl_recorded f = true → records (fl_prog f) = false) as Hr.
    { intros Hr. by destruct (lk_done _ _ Hlk c f Hf ltac:(by left)) as [r ->]. }
    destruct (fl_recorded f), (records (fl_prog f)); simpl in *; unfold fl_call; simpl;
      [by specialize (Hr eq_refl)|..]; rewrite ?app_nil_r; solve_Permutation.
  - rewrite Ha, (pending_delete (c_cpus s) c f), (log_if_app _ f (c_log s)) by done.
    by rewrite (assoc_L (++)).
Qed.

Lemma reduction_invariant m0 s : rtc (lstep cap) (Cpus_idle m0) s →
  socket_lock s ∧ linked s (foldl run_alone m0 (c_log s)) ∧ accounted s.
Proof.
  intros Hr.
  cut (socket_lock (Cpus_idle m0) ∧ linked (Cpus_idle m0) (foldl run_alone m0 []) ∧ accounted (Cpus_idle m0)).
  - change (@nil (Kernel * Event)) with (c_log (Cpus_idle m0)).
    induction Hr as [s|s1 s2 s3 Hstep _ IH]; [done|]. intros (Hlock & Hlk & Ha). apply IH.
    split_and!; [by apply Hstep|by eapply lstep_linked|eapply lstep_accounted; [done|by apply Hstep|done]].
  - split_and!; [|split; simpl|unfold accounted, pending; simpl; by rewrite map_to_list_empty].
    + intros c1 c2 f1 f2 sk H. cbn in H; by rewrite lookup_empty in H.
    + done.
    + done.
    + intros c f sk H. cbn in H; by rewrite lookup_empty in H.
    + intros c f H. cbn in H; by rewrite lookup_empty in H.
Qed.

(** C4: as long as the kernel's socket lock keeps two probes off one socket and the
    maps are not full, any interleaving of probes on any number of CPUs that has
    come to rest has left the maps exactly as the same probes do when each runs
    without interruption, in the order in which they recorded their
    connections. *)
Theorem interleaving_linearizes m0 s :
  rtc (lstep cap) (Cpus_idle m0) s → c_cpus s = ∅ →
  c_maps s = foldl run_alone m0 (c_log s) ∧ c_log s ≡ₚ c_started s.
Proof.
  intros Hr He. destruct (reduction_invariant m0 s Hr) as (_ & [Hc Hi _ _] & Ha). split.
  - destruct (foldl run_alone m0 (c_log s)), (c_maps s). simpl in *. f_equal; [|done].
    apply map_eq. intros sk. symmetry. apply Hi. by rewrite He.
  - unfold accounted in Ha. rewrite He in Ha. rewrite Ha. unfold pending.
    by rewrite map_to_list_empty, app_nil_r.
Qed.
End linearize.

(** ** Schedules, for evaluation *)

Inductive Act := Start (c : nat) (k : Kernel) (ev : Event) | Turn (c : nat).

Section schedule.
Context {BS : BpfMap Z SockInfo} {BC : BpfMap ConnectionKey ConnectionStats}.

Definition exec_act (a : Act) (s : Cpus) : option Cpus :=
  match a with
  | Start c k ev =>
      if c_cpus s !! c then None
      else Some {| c_maps := c_maps s;
                   c_cpus := <[c := {| fl_kernel := k; fl_event := ev; fl_prog := probe_prog k ev;
                                       fl_recorded := false |}]> (c_cpus s);
                   c_started := c_started s ++ [(k, ev)]; c_log := c_log s |}
  | Turn c =>
      f ← c_cpus s !! c;
      match step_prog (fl_prog f) (c_maps s), fl_prog f with
      | Some (p, m), _ =>
          Some {| c_maps := m;
                  c_cpus := <[c := {| fl_kernel := fl_kernel f; fl_event := fl_event f; fl_prog := p;
                                      fl_recorded := fl_recorded f || records (fl_prog f) |}]> (c_cpus s);
                  c_started := c_started s; c_log := log_if (records (fl_prog f)) f (c_log s) |}
      | None, Ret _ =>
          Some {| c_maps := c_maps s; c_cpus := delete c (c_cpus s);
                  c_started := c_started s; c_log := log_if (negb (fl_recorded f)) f (c_log s) |}
      | None, _ => None
      end
  end.

Definition sockets_in_flight (s : Cpus) : list Z :=
  omap (λ p, event_socket (fl_event p.2)) (map_to_list (c_cpus s)).

(** A schedule, refused when it leaves the maps full or two probes on one socket. *)
Fixpoint exec (locked : bool) (cap : nat) (l : list Act) (s : Cpus) : option Cpus :=
  match l with
  | [] => Some s
  | a :: l =>
      s' ← exec_act a s;
      if decide ((size (SOCKETS (c_maps s)) < cap)%nat ∧ (size (CONNECTIONS (c_maps s)) < cap)%nat ∧
                 (locked = true → NoDup (sockets_in_flight s')))
      then exec locked cap l s' else None
  end.

Lemma exec_act_step a s s' :
  (∀ c k ev, a = Start c k ev → kernel_ok k) → exec_act a s = Some s' → cstep s s'.
Proof.
  intros Hk. destruct a as [c k ev|c]; simpl.
  - destruct (c_cpus s !! c) eqn:E; [done|]. intros [= <-]. apply c_start; [done|by eapply Hk].
  - destruct (c_cpus s !! c) as [f|] eqn:E; [|done]. simpl.
    destruct (step_prog (fl_prog f) (c_maps s)) as [[p m]|] eqn:Est; [intros [= <-]; by apply c_op|].
    destruct (fl_prog f) eqn:Ep; [|done..]. intros [= <-]. by eapply c_end.
Qed.

Lemma nodup_socket_lock s : NoDup (sockets_in_flight s) → socket_lock s.
Proof.
  intros Hnd c1 c2 f1 f2 sk H1 H2 He1 He2. destruct (decide (c1 = c2)) as [|Hne]; [done|]. exfalso.
  unfold sockets_in_flight in Hnd.
  rewrite <- (insert_delete_id (c_cpus s) c1 f1) in Hnd by done.
  rewrite map_to_list_insert in Hnd by apply lookup_delete_eq. simpl in Hnd. rewrite He1 in Hnd.
  apply NoDup_cons in Hnd as [Hn _]. apply Hn. apply list_elem_of_omap. exists (c2, f2).
  split; [|done]. apply elem_of_map_to_list. by rewrite lookup_delete_ne.
Qed.

Lemma exec_run locked cap l s s' :
  Forall (λ a, ∀ c k ev, a = Start c k ev → kernel_ok k) l → exec locked cap l s = Some s' →
  rtc cstep s s' ∧ (locked = true → rtc (lstep cap) s s').
Proof.
  revert s. induction l as [|a l IH]; intros s Hk; simpl.
  - intros [= ->]. split; intros; apply rtc_refl.
  - apply Forall_cons in Hk as [Ha Hk]. destruct (exec_act a s) as [s1|] eqn:E; [|done]. simpl.
    case_decide as Hd; [|done]. intros Hex. destruct (IH s1 Hk Hex) as [IH1 IH2].
    pose proof (exec_act_step a s s1 Ha E). split; [by eapply rtc_l|].
    intros Hl. eapply rtc_l; [|by apply IH2]. destruct Hd as (? & ? & Hn).
    split_and!; [done|by apply nodup_socket_lock, Hn|by split].
Qed.
End schedule.

(** ** Witnesses *)

(** Every socket is IPv4; the remote port is the address of the socket. *)
Definition ex_kernel_at (sent time : Z) : Kernel := {|
  read_sock_common := λ sk, Ok {| skc_family := AF_INET; skc_rcv_saddr := from_be32 167772161;
    skc_daddr := from_be32 167772162; skc_num := from_be16 80; skc_dport := from_be16 sk |};
  read_bytes_sent := λ _, Ok (as_u64 sent);
  read_bytes_received := λ _, Ok 5;
  read_max_ack_backlog := λ _, Ok 0;
  ktime_get_ns := time;
  current_pid_tgid := 42 |}.

Lemma ex_kernel_at_ok sent time : kernel_ok (ex_kernel_at sent time).
Proof.
  split; simpl; intros sk n H; simplify_eq; [apply wrapu_range|unfold in_u]; lia.
Qed.

Local Notation closes sk := (InetSockSetState (Ok sk) (Ok TCP_CLOSE)).

(** CPU 0 sees data on socket 7 while CPU 1 sees the close of socket 8. *)
Definition ex_acts : list Act :=
  [Start 0%nat (ex_kernel_at 100 1) (TcpDataQueue (Some 7)); Start 1%nat (ex_kernel_at 30 2) (closes 8);
   Turn 0%nat; Turn 1%nat; Turn 0%nat; Turn 1%nat; Turn 1%nat; Turn 0%nat; Turn 0%nat].

(** CPU 0 sees data on socket 7, and CPU 1 its close in between. *)
Definition ex_race : list Act :=
  [Start 0%nat (ex_kernel_at 100 1) (TcpDataQueue (Some 7)); Start 1%nat (ex_kernel_at 150 2) (closes 7);
   Turn 0%nat; Turn 1%nat; Turn 1%nat; Turn 1%nat; Turn 1%nat; Turn 0%nat; Turn 0%nat].

Lemma ex_acts_ok l : l = ex_acts ∨ l = ex_race →
  Forall (λ a, ∀ c k ev, a = Start c k ev → kernel_ok k) l.
Proof.
  intros [-> | ->]; unfold ex_acts, ex_race;
    repeat (apply Forall_cons; split); try apply Forall_nil_2; intros ??? [=]; subst; apply ex_kernel_at_ok.
Qed.

Definition ex_end (locked : bool) (l : list Act) (m : Maps) : Cpus :=
  default (Cpus_idle m) (exec (BS := ex_BS) (BC := ex_BC) locked 16 l (Cpus_idle m)).
Definition ex_tracked : Maps :=
  run_event (BS := ex_BS) (BC := ex_BC) (ex_kernel_at 0 1) (InetSockSetState (Ok 7) (Ok TCP_SYN_SENT)) Maps_empty.

Lemma ex_end_run locked l m :
  l = ex_acts ∨ l = ex_race →
  (if exec (BS := ex_BS) (BC := ex_BC) locked 16 l (Cpus_idle m) then true else false) = true →
  rtc (cstep (BS := ex_BS) (BC := ex_BC)) (Cpus_idle m) (ex_end locked l m) ∧
  (locked = true → rtc (lstep (BS := ex_BS) (BC := ex_BC) 16) (Cpus_idle m) (ex_end locked l m)).
Proof.
  unfold ex_end. destruct (exec _ _ _ _) as [s|] eqn:Hs; [|done]. intros Hl _.
  by eapply exec_run; [apply ex_acts_ok|].
Qed.

Lemma concurrent_tracer_invariant_witness : maps_ok (c_maps (ex_end false ex_acts Maps_empty)).
Proof.
  apply (concurrent_tracer_invariant (BS := ex_BS) (BC := ex_BC)
           (LruLaws0 := bounded_hash_lru 16) (LruLaws1 := bounded_hash_lru 16)).
  apply ex_end_run; [by left|]. vm_compute. reflexivity.
Defined.

Definition ex_rest : Cpus := ex_end true ex_acts Maps_empty.

Lemma ex_rest_run : rtc (lstep (BS := ex_BS) (BC := ex_BC) 16) (Cpus_idle Maps_empty) ex_rest.
Proof.
  refine (proj2 (ex_end_run true ex_acts Maps_empty (or_introl eq_refl) _) eq_refl).
  vm_compute. reflexivity.
Qed.

Lemma interleaving_linearizes_witness :
  (c_maps ex_rest = foldl run_alone Maps_empty (c_log ex_rest) ∧ c_log ex_rest ≡ₚ c_started ex_rest) ∧
  size (CONNECTIONS (c_maps ex_rest)) = 2%nat.
Proof.
  refine (conj _ _); [|vm_compute; reflexivity].
  exact (interleaving_linearizes (BS := ex_BS) (BC := ex_BC) 16
           (RoomLaws0 := bounded_hash_room 16) (RoomLaws1 := bounded_hash_room 16)
           Maps_empty ex_rest ex_rest_run ltac:(vm_compute; reflexivity)).
Defined.

(** The socket lock is needed: without it, a data event whose lookup came before
    the close of its socket records the closed connection as active again, which
    no order of the two probes does. *)
Lemma socket_lock_needed :
  ∃ s, rtc (cstep (BS := ex_BS) (BC := ex_BC)) (Cpus_idle ex_tracked) s ∧ c_cpus s = ∅ ∧
    ∀ l, l ≡ₚ c_started s → foldl run_alone ex_tracked l ≠ c_maps s.
Proof.
  exists (ex_end false ex_race ex_tracked). refine (conj _ (conj _ _)).
  - refine (proj1 (ex_end_run false ex_race ex_tracked (or_intror eq_refl) _)). vm_compute. reflexivity.
  - vm_compute. reflexivity.
  - intros l Hl Hm.
    assert (c_started (ex_end false ex_race ex_tracked) =
            [(ex_kernel_at 100 1, TcpDataQueue (Some 7)); (ex_kernel_at 150 2, closes 7)]) as Hst
      by (vm_compute; reflexivity).
    rewrite Hst in Hl. symmetry in Hl.
    apply (f_equal (λ m, is_active <$> (map_to_list (CONNECTIONS m)).*2)) in Hm.
    apply Permutation_length_2_inv in Hl as [Hl|Hl]; rewrite Hl in Hm; vm_compute in Hm; discriminate Hm.
Qed.
