(* ===== verification/CacheManager.v ===== *)
(** * The cache manager: from pod, node and service objects to workloads

    [agent/src/managers/cache.rs].  The Kubernetes object types, the reflector
    stores and the watch streams come from the [k8s-openapi] and [kube]
    crates: an object is a record of the fields the code reads, a store is
    what its [get] answers, and a stream is the sequence of objects it yields.
    [ip_to_workload] and [pod_descriptors] are the two shared tables. *)
From S2P Require Import Prelude.
From stdpp Require Import base gmap strings list relations.
From Stdlib Require Import ZArith Lia.

(** ** Data *)

Record Workload := { wl_name : string; wl_namespace : string; wl_kind : string }.

Global Instance Workload_eq_dec : EqDecision Workload.
Proof. solve_decision. Defined.
Definition wl_tuple (w : Workload) : string * string * string :=
  (wl_name w, wl_namespace w, wl_kind w).
Definition wl_untuple (t : string * string * string) : Workload :=
  {| wl_name := t.1.1; wl_namespace := t.1.2; wl_kind := t.2 |}.
Lemma wl_untuple_tuple w : wl_untuple (wl_tuple w) = w.
Proof. by destruct w. Qed.
Global Instance Workload_countable : Countable Workload :=
  inj_countable' wl_tuple wl_untuple wl_untuple_tuple.

(** [OwnerReference], [ObjectMeta] and the objects: the fields that are read. *)
Record OwnerReference := {
  or_name : string; or_kind : string; or_controller : option bool }.

Record ObjectMeta := {
  meta_name : option string;
  meta_namespace : option string;
  owner_references : option (list OwnerReference);
  managed_fields : option (list string);
  annotations : option (gmap string string) }.

(** An [ObjectRef]: name and namespace. *)
Abbreviation ObjectRef := (string * option string)%type.

Record Pod := {
  pod_meta : ObjectMeta;
  pod_spec : option string;
  pod_status : option (option (list (option string))) (* status.pod_ips[].ip *) }.
Record Node := {
  node_meta : ObjectMeta;
  node_spec : option string;
  node_status : option (option (list string)) (* status.addresses[].address *) }.
Record Service := {
  svc_meta : ObjectMeta;
  svc_spec : option (option (list string)) (* spec.cluster_ips *) }.

(** The manager: the stores it reads while resolving, and the shared tables. *)
Record CacheManager := {
  replicasets : ObjectRef → option ObjectMeta;
  deployments : ObjectRef → option ObjectMeta;
  statefulsets : ObjectRef → option ObjectMeta;
  daemonsets : ObjectRef → option ObjectMeta;
  jobs : ObjectRef → option ObjectMeta;
  cronjobs : ObjectRef → option ObjectMeta;
  pod_descriptors : gmap ObjectRef Workload;
  ip_to_workload : gmap string Workload }.

Definition set_pod_descriptors d (cm : CacheManager) : CacheManager := {|
  replicasets := replicasets cm; deployments := deployments cm;
  statefulsets := statefulsets cm; daemonsets := daemonsets cm; jobs := jobs cm;
  cronjobs := cronjobs cm; pod_descriptors := d; ip_to_workload := ip_to_workload cm |}.
Definition set_ip_to_workload i (cm : CacheManager) : CacheManager := {|
  replicasets := replicasets cm; deployments := deployments cm;
  statefulsets := statefulsets cm; daemonsets := daemonsets cm; jobs := jobs cm;
  cronjobs := cronjobs cm; pod_descriptors := pod_descriptors cm; ip_to_workload := i |}.

(** The readers of nine fresh stores and two empty tables. *)
Definition CacheManager_new
    (rs deploy sts ds jobs_r cronjobs_r : ObjectRef → option ObjectMeta) : CacheManager := {|
  replicasets := rs; deployments := deploy; statefulsets := sts; daemonsets := ds;
  jobs := jobs_r; cronjobs := cronjobs_r; pod_descriptors := ∅; ip_to_workload := ∅ |}.

(** ** Owners *)

Definition is_controller (r : OwnerReference) : bool :=
  match or_controller r with Some true => true | _ => false end.

(** [refs.iter().find(|r| r.controller == Some(true))] *)
Definition find_controller (meta : ObjectMeta) : option OwnerReference :=
  refs ← owner_references meta; List.find is_controller refs.

Definition get_controller_of_owner (cm : CacheManager) (owner_ref : OwnerReference)
    (namespace : string) : option OwnerReference :=
  let obj_ref := (or_name owner_ref, Some namespace) in
  if decide (or_kind owner_ref = "ReplicaSet") then replicasets cm obj_ref ≫= find_controller
  else if decide (or_kind owner_ref = "Deployment") then deployments cm obj_ref ≫= find_controller
  else if decide (or_kind owner_ref = "DaemonSet") then daemonsets cm obj_ref ≫= find_controller
  else if decide (or_kind owner_ref = "StatefulSet") then
    statefulsets cm obj_ref ≫= find_controller
  else if decide (or_kind owner_ref = "Job") then jobs cm obj_ref ≫= find_controller
  else if decide (or_kind owner_ref = "CronJob") then cronjobs cm obj_ref ≫= find_controller
  else None.

(** The [while let Some(owner) = owner_ref] loop on (name, kind); [None] when
    the fuel runs out, that is, when the loop has not ended yet. *)
Fixpoint resolve_loop (fuel : nat) (cm : CacheManager) (namespace : string)
    (owner_ref : option OwnerReference) (name kind : string) : option (string * string) :=
  match owner_ref with
  | None => Some (name, kind)
  | Some owner =>
      match fuel with
      | O => None
      | S fuel' =>
          let controller := get_controller_of_owner cm owner namespace in
          match controller with
          | Some c => resolve_loop fuel' cm namespace controller (or_name c) (or_kind c)
          | None => resolve_loop fuel' cm namespace controller name kind
          end
      end
  end.

Section cache.
(** [ResourceExt::name_any] and [ObjectRef::from_obj] of the [kube] crate. *)
Context (name_any : ObjectMeta → string) (from_obj : ObjectMeta → ObjectRef).

Definition resolve_pod_descriptor (fuel : nat) (cm : CacheManager) (pod : Pod) :
    option (Workload * CacheManager) :=
  let meta := pod_meta pod in
  match pod_descriptors cm !! from_obj meta with
  | Some entry => Some (entry, cm)
  | None =>
      let namespace := default "" (meta_namespace meta) in
      '(name, kind) ← resolve_loop fuel cm namespace (find_controller meta) (name_any meta) "Pod";
      let entry := {| wl_name := name; wl_namespace := namespace; wl_kind := kind |} in
      Some (entry, set_pod_descriptors (<[from_obj meta := entry]> (pod_descriptors cm)) cm)
  end.

(** ** Watch streams: the change made before an object is stored, and the body
    of the loop that consumes the stream *)

Definition strip_meta (m : ObjectMeta) (mf : option (list string))
    (an : option (gmap string string)) : ObjectMeta := {|
  meta_name := meta_name m; meta_namespace := meta_namespace m;
  owner_references := owner_references m; managed_fields := mf; annotations := an |}.

(** [managed_fields_mut().clear()] and [annotations_mut().clear()] leave empty
    collections; the other watchers assign [None]. *)
Definition modify_pod (p : Pod) : Pod := {|
  pod_meta := strip_meta (pod_meta p) (Some []) (Some ∅);
  pod_spec := None; pod_status := pod_status p |}.
Definition modify_node (n : Node) : Node := {|
  node_meta := strip_meta (node_meta n) None None; node_spec := None;
  node_status := node_status n |}.
Definition modify_service (s : Service) : Service := {|
  svc_meta := strip_meta (svc_meta s) None None; svc_spec := svc_spec s |}.

Definition insert_pod_ips (entry : Workload) (ips : list (option string))
    (m : gmap string Workload) : gmap string Workload :=
  foldl (λ m ip, match ip with Some ip => <[ip := entry]> m | None => m end) m ips.

Definition watching_pods_body (fuel : nat) (cm : CacheManager) (pod : Pod) : option CacheManager :=
  '(entry, cm') ← resolve_pod_descriptor fuel cm pod;
  Some match pod_status pod with
       | Some (Some pod_ips) =>
           set_ip_to_workload (insert_pod_ips entry pod_ips (ip_to_workload cm')) cm'
       | _ => cm'
       end.

Definition watching_nodes_body (cm : CacheManager) (node : Node) : CacheManager :=
  match node_status node with
  | Some (Some addresses) =>
      set_ip_to_workload
        (foldl (λ m addr, <[addr := {| wl_name := name_any (node_meta node);
                                       wl_namespace := "node"; wl_kind := "Node" |}]> m)
               (ip_to_workload cm) addresses) cm
  | _ => cm
  end.

(** [ip_str.clone().parse()] at type [String] cannot fail. *)
Definition watching_services_body (cm : CacheManager) (service : Service) : CacheManager :=
  match svc_spec service with
  | Some (Some cluster_ips) =>
      set_ip_to_workload
        (foldl (λ m ip, if decide (ip = "None") then m
                        else <[ip := {| wl_name := name_any (svc_meta service);
                                        wl_namespace := default "" (meta_namespace (svc_meta service));
                                        wl_kind := "Service" |}]> m)
               (ip_to_workload cm) cluster_ips) cm
  | _ => cm
  end.
End cache.

(** The stores are awaited one after the other; the first error is returned. *)
Inductive StoreName :=
  | SPods | SNodes | SServices | SReplicaSets | SDeployments | SStatefulSets | SDaemonSets
  | SJobs | SCronJobs.

Definition wait_for_cache_sync {E} (wait_until_ready : StoreName → result E unit) :
    result E unit :=
  _ ← wait_until_ready SPods; _ ← wait_until_ready SNodes; _ ← wait_until_ready SServices;
  _ ← wait_until_ready SReplicaSets; _ ← wait_until_ready SDeployments;
  _ ← wait_until_ready SStatefulSets; _ ← wait_until_ready SDaemonSets;
  _ ← wait_until_ready SJobs; _ ← wait_until_ready SCronJobs;
  Ok ().

(** ** Reference description of the loop: the chain of controllers *)

Inductive chain (cm : CacheManager) (ns : string) : OwnerReference → list OwnerReference → Prop :=
  | chain_end o : get_controller_of_owner cm o ns = None → chain cm ns o []
  | chain_cons o c cs :
      get_controller_of_owner cm o ns = Some c → chain cm ns c cs → chain cm ns o (c :: cs).

(** The last controller of the chain, or the pod itself. *)
Definition top (cs : list OwnerReference) (name kind : string) : string * string :=
  match last cs with Some c => (or_name c, or_kind c) | None => (name, kind) end.

Lemma top_cons c cs name kind : top (c :: cs) name kind = top cs (or_name c) (or_kind c).
Proof. unfold top. rewrite last_cons. by destruct (last cs). Qed.

Lemma resolve_loop_chain cm ns o cs fuel name kind :
  chain cm ns o cs → length cs < fuel →
  resolve_loop fuel cm ns (Some o) name kind = Some (top cs name kind).
Proof.
  intros Hc. revert fuel name kind. induction Hc as [o Ho|o c cs Ho Hc IH];
    intros [|fuel] name kind Hf; simpl in *; try lia; rewrite Ho.
  - by destruct fuel.
  - rewrite top_cons. apply IH. lia.
Qed.

Lemma resolve_loop_inv cm ns o fuel name kind r :
  resolve_loop fuel cm ns (Some o) name kind = Some r →
  ∃ cs, chain cm ns o cs ∧ length cs < fuel ∧ r = top cs name kind.
Proof.
  revert o name kind. induction fuel as [|fuel IH]; intros o name kind; simpl; [done|].
  destruct (get_controller_of_owner cm o ns) as [c|] eqn:Hc.
  - intros (cs & Hcs & Hl & ->)%IH. exists (c :: cs). split_and!; [by econstructor|simpl; lia|].
    by rewrite top_cons.
  - intros Hr. exists []. split_and!; [by constructor|simpl; lia|].
    destruct fuel; by simplify_eq/=.
Qed.

(** A measure that decreases along controllers bounds the chain. *)
Lemma chain_exists cm ns (rank : OwnerReference → nat) o :
  (∀ o c, get_controller_of_owner cm o ns = Some c → rank c < rank o) →
  ∃ cs, chain cm ns o cs ∧ length cs ≤ rank o.
Proof.
  intros Hr. remember (rank o) as n eqn:Hn. revert o Hn.
  induction (lt_wf n) as [n _ IH]. intros o ->.
  destruct (get_controller_of_owner cm o ns) as [c|] eqn:Hc.
  - destruct (IH (rank c) (Hr _ _ Hc) c eq_refl) as (cs & Hcs & Hl).
    exists (c :: cs). split; [by econstructor|]. simpl. specialize (Hr _ _ Hc). lia.
  - exists []. split; [by constructor|]. simpl. lia.
Qed.

Lemma chain_cycle cm ns o cs : get_controller_of_owner cm o ns = Some o → ¬ chain cm ns o cs.
Proof.
  intros Ho Hc. induction Hc as [o Hn|o c cs Hc' _ IH]; [congruence|].
  rewrite Ho in Hc'. simplify_eq; auto.
Qed.

Lemma insert_pod_ips_lookup entry ips m ip :
  insert_pod_ips entry ips m !! ip = if decide (Some ip ∈ ips) then Some entry else m !! ip.
Proof.
  unfold insert_pod_ips. revert m. induction ips as [|[i|] ips IH]; intros m; cbn [foldl].
  - rewrite decide_False; [done|]. by apply not_elem_of_nil.
  - rewrite IH. destruct (decide (Some ip ∈ ips)); [by rewrite decide_True by set_solver|].
    rewrite lookup_insert. case_decide; subst.
    + by rewrite decide_True by set_solver.
    + by rewrite decide_False by set_solver.
  - rewrite IH. repeat case_decide; set_solver.
Qed.

Section cache_properties.
Context (name_any : ObjectMeta → string) (from_obj : ObjectMeta → ObjectRef).

(** C7: what a pod is attributed to, on every branch.  A pod that has a cached
    descriptor keeps it.  Otherwise controllers are followed through the stores,
    from the pod's own controller [o] on: [cs] are the controller of [o], the
    controller of that one, and so on until an owner is not in the store of its
    kind, has no controller, or is of a kind without a store.  The pod is
    attributed to the last reference of [cs], whether or not a store holds it, and
    to itself when [cs] is empty: a controller that has no controller of its own,
    such as a DaemonSet or a StatefulSet, is never what its pods are attributed
    to.  The walk ends exactly when [cs] is finite, in one round more than [cs] is
    long, and the result is cached. *)
Theorem resolve_pod_top_controller fuel cm pod w cm' :
  let meta := pod_meta pod in
  let ns := default "" (meta_namespace meta) in
  resolve_pod_descriptor name_any from_obj fuel cm pod = Some (w, cm') ↔
  match pod_descriptors cm !! from_obj meta with
  | Some entry => w = entry ∧ cm' = cm
  | None => ∃ cs,
      match find_controller meta with
      | Some o => chain cm ns o cs ∧ length cs < fuel
      | None => cs = []
      end ∧
      w = {| wl_name := (top cs (name_any meta) "Pod").1; wl_namespace := ns;
             wl_kind := (top cs (name_any meta) "Pod").2 |} ∧
      cm' = set_pod_descriptors (<[from_obj meta := w]> (pod_descriptors cm)) cm
  end.
Proof.
  intros meta ns. unfold resolve_pod_descriptor. fold meta.
  destruct (pod_descriptors cm !! from_obj meta) as [e|]; [split; [by intros [= -> ->]|by intros [-> ->]]|].
  fold ns. destruct (find_controller meta) as [o|]; split.
  - intros ([n k] & (cs & Hc & Hf & Htop)%resolve_loop_inv & Heq)%bind_Some. simplify_eq. exists cs.
    by rewrite <- Htop.
  - intros (cs & [Hc Hf] & -> & ->). rewrite (resolve_loop_chain _ _ _ cs) by done.
    simpl. by destruct (top cs _ _).
  - intros H. exists []. destruct fuel; simpl in H; by simplify_eq.
  - intros (cs & -> & -> & ->). by destruct fuel.
Qed.

(** Termination.  When some measure decreases from each owner to its
    controller, resolving any pod ends within one more round than the measure
    of its owner. *)
Lemma resolve_pod_terminates (rank : OwnerReference → nat) cm pod fuel :
  (∀ o c, get_controller_of_owner cm o (default "" (meta_namespace (pod_meta pod))) = Some c →
          rank c < rank o) →
  (∀ o, find_controller (pod_meta pod) = Some o → rank o < fuel) →
  is_Some (resolve_pod_descriptor name_any from_obj fuel cm pod).
Proof.
  intros Hr Hf. unfold resolve_pod_descriptor. case_match; [done|].
  destruct (find_controller (pod_meta pod)) as [o|] eqn:Ho.
  - destruct (chain_exists cm _ rank o Hr) as (cs & Hc & Hl). specialize (Hf o eq_refl).
    rewrite (resolve_loop_chain _ _ _ cs) by (done || lia). simpl. by destruct (top cs _ _).
  - destruct fuel; done.
Qed.

(** An object whose controller is itself makes the loop endless: no number
    of rounds resolves a pod it owns. *)
Lemma resolve_pod_cycle_diverges cm pod o fuel :
  pod_descriptors cm !! from_obj (pod_meta pod) = None →
  find_controller (pod_meta pod) = Some o →
  get_controller_of_owner cm o (default "" (meta_namespace (pod_meta pod))) = Some o →
  resolve_pod_descriptor name_any from_obj fuel cm pod = None.
Proof.
  intros Hnone Ho Hcyc. unfold resolve_pod_descriptor. rewrite Hnone, Ho.
  destruct (resolve_loop _ _ _ _ _ _) eqn:Hl; [|done].
  apply resolve_loop_inv in Hl as (cs & Hc & _). by apply chain_cycle in Hc.
Qed.

(** C32: termination of the walk over owners.  When some measure decreases from
    each owner to its controller, resolving any pod ends within one more round
    than the measure of its owner; when an owner is its own controller, no number
    of rounds resolves a pod it owns that has no cached descriptor. *)
Theorem resolve_pod_termination cm pod fuel :
  (∀ rank : OwnerReference → nat,
     (∀ o c, get_controller_of_owner cm o (default "" (meta_namespace (pod_meta pod))) = Some c →
             rank c < rank o) →
     (∀ o, find_controller (pod_meta pod) = Some o → rank o < fuel) →
     is_Some (resolve_pod_descriptor name_any from_obj fuel cm pod)) ∧
  (∀ o, pod_descriptors cm !! from_obj (pod_meta pod) = None →
     find_controller (pod_meta pod) = Some o →
     get_controller_of_owner cm o (default "" (meta_namespace (pod_meta pod))) = Some o →
     resolve_pod_descriptor name_any from_obj fuel cm pod = None).
Proof.
  split; [intros rank; apply resolve_pod_terminates|intros o; apply resolve_pod_cycle_diverges].
Qed.

(** Handling a pod event maps each of the pod's addresses to its
    descriptor, leaves every other address alone, and fixes the descriptor:
    from then on the pod resolves to the same workload whatever the stores
    say. *)
Lemma pod_event_maps_ips fuel cm pod ips cm' :
  pod_status pod = Some (Some ips) →
  watching_pods_body name_any from_obj fuel cm pod = Some cm' →
  ∃ w,
    (∀ ip, ip_to_workload cm' !! ip =
           if decide (Some ip ∈ ips) then Some w else ip_to_workload cm !! ip) ∧
    (∀ fuel2 cm2, pod_descriptors cm2 = pod_descriptors cm' →
       resolve_pod_descriptor name_any from_obj fuel2 cm2 pod = Some (w, cm2)).
Proof.
  intros Hst Hb. unfold watching_pods_body in Hb. rewrite Hst in Hb.
  apply bind_Some in Hb as ([w cm1] & Hr & Heq). simplify_eq. exists w.
  assert (ip_to_workload cm1 = ip_to_workload cm ∧
          pod_descriptors cm1 !! from_obj (pod_meta pod) = Some w) as [Hip Hd].
  { unfold resolve_pod_descriptor in Hr. case_match; [by simplify_eq|].
    apply bind_Some in Hr as ([n k] & _ & Heq). simplify_eq/=. by simplify_map_eq. }
  split.
  - intros ip. simpl. by rewrite insert_pod_ips_lookup, Hip.
  - intros fuel2 cm2 Hcm2. unfold resolve_pod_descriptor. simpl in Hcm2. by rewrite Hcm2, Hd.
Qed.
End cache_properties.

(** ** Witnesses: a pod of a deployment *)

Definition ex_meta (name : string) (owner : option OwnerReference) : ObjectMeta := {|
  meta_name := Some name; meta_namespace := Some "shop";
  owner_references := (λ o, [o]) <$> owner; managed_fields := None; annotations := None |}.
Definition ex_owner (name kind : string) : OwnerReference :=
  {| or_name := name; or_kind := kind; or_controller := Some true |}.
Definition ex_name_any (m : ObjectMeta) : string := default "" (meta_name m).
Definition ex_from_obj (m : ObjectMeta) : ObjectRef :=
  (default "" (meta_name m), meta_namespace m).

Definition ex_cm : CacheManager := CacheManager_new
  (λ r, if decide (r.1 = "cart-7d") then Some (ex_meta "cart-7d" (Some (ex_owner "cart" "Deployment")))
        else if decide (r.1 = "loop") then Some (ex_meta "loop" (Some (ex_owner "loop" "ReplicaSet")))
        else None)
  (λ r, if decide (r.1 = "cart") then Some (ex_meta "cart" None) else None)
  (λ _, None) (λ _, None) (λ _, None) (λ _, None).

Definition ex_pod (owner : OwnerReference) : Pod := {|
  pod_meta := ex_meta "cart-7d-x" (Some owner); pod_spec := None;
  pod_status := Some (Some [Some "10.0.0.1"; None]) |}.

Definition ex_wl (name kind : string) : Workload :=
  {| wl_name := name; wl_namespace := "shop"; wl_kind := kind |}.

(** A pod of a replica set of a deployment, and one of a daemon set. *)
Lemma resolve_pod_top_controller_witness :
  resolve_pod_descriptor ex_name_any ex_from_obj 4 ex_cm (ex_pod (ex_owner "cart-7d" "ReplicaSet"))
  = Some (ex_wl "cart" "Deployment",
          set_pod_descriptors {[ ("cart-7d-x", Some "shop") := ex_wl "cart" "Deployment" ]} ex_cm) ∧
  resolve_pod_descriptor ex_name_any ex_from_obj 4 ex_cm (ex_pod (ex_owner "agent" "DaemonSet"))
  = Some (ex_wl "cart-7d-x" "Pod",
          set_pod_descriptors {[ ("cart-7d-x", Some "shop") := ex_wl "cart-7d-x" "Pod" ]} ex_cm).
Proof.
  split; apply (resolve_pod_top_controller ex_name_any ex_from_obj 4 ex_cm).
  - exists [ex_owner "cart" "Deployment"]. split; [split; [|repeat constructor]|split; reflexivity].
    eapply chain_cons; [reflexivity|]. apply chain_end. reflexivity.
  - exists []. split; [split; [by apply chain_end|repeat constructor]|split; reflexivity].
Defined.

Lemma resolve_pod_terminates_witness :
  is_Some (resolve_pod_descriptor ex_name_any ex_from_obj 1
             (CacheManager_new (λ _, None) (λ _, None) (λ _, None) (λ _, None) (λ _, None) (λ _, None))
             (ex_pod (ex_owner "agent" "DaemonSet"))).
Proof.
  apply (resolve_pod_terminates ex_name_any ex_from_obj (λ _, 0)); [|intros; lia].
  intros o c. unfold get_controller_of_owner. repeat case_decide; done.
Defined.

Lemma resolve_pod_cycle_diverges_witness :
  resolve_pod_descriptor ex_name_any ex_from_obj 1000 ex_cm (ex_pod (ex_owner "loop" "ReplicaSet"))
  = None.
Proof.
  apply (resolve_pod_cycle_diverges ex_name_any ex_from_obj ex_cm _ (ex_owner "loop" "ReplicaSet"));
    reflexivity.
Defined.

Lemma resolve_pod_termination_witness :
  is_Some (resolve_pod_descriptor ex_name_any ex_from_obj 1
             (CacheManager_new (λ _, None) (λ _, None) (λ _, None) (λ _, None) (λ _, None) (λ _, None))
             (ex_pod (ex_owner "agent" "DaemonSet"))) ∧
  resolve_pod_descriptor ex_name_any ex_from_obj 1000 ex_cm (ex_pod (ex_owner "loop" "ReplicaSet"))
  = None.
Proof.
  split.
  - apply (resolve_pod_termination ex_name_any ex_from_obj _ _ 1) with (rank := λ _, 0); [|intros; lia].
    intros o c. unfold get_controller_of_owner. repeat case_decide; done.
  - apply (resolve_pod_termination ex_name_any ex_from_obj ex_cm _ 1000) with (o := ex_owner "loop" "ReplicaSet");
      reflexivity.
Defined.

Lemma pod_event_maps_ips_witness :
  ∃ w, ∀ ip, ip_to_workload (default ex_cm (watching_pods_body ex_name_any ex_from_obj 4 ex_cm
               (ex_pod (ex_owner "cart-7d" "ReplicaSet")))) !! ip
       = if decide (Some ip ∈ [Some "10.0.0.1"; None]) then Some w else None.
Proof.
  destruct (pod_event_maps_ips ex_name_any ex_from_obj 4 ex_cm
             (ex_pod (ex_owner "cart-7d" "ReplicaSet")) [Some "10.0.0.1"; None]
             (default ex_cm (watching_pods_body ex_name_any ex_from_obj 4 ex_cm
               (ex_pod (ex_owner "cart-7d" "ReplicaSet"))))) as (w & Hw & _);
    [reflexivity|vm_compute; reflexivity|].
  exists w. exact Hw.
Defined.
