(* ===== verification/CacheWatch.v ===== *)
(** * The watcher tasks of the cache manager

    [agent/src/managers/cache.rs]: the nine tasks that [CacheManager::new] spawns.
    Each drives a watch stream: an event is stripped by the closure of [modify],
    written to the store by [reflect], and its applied objects pass a filter on
    their resource version.  The watchers of pods, nodes and services handle
    the objects one by one and return on the first error of the stream; the
    other six only drain the stream.

    The streams of the [kube] crate are parameters ([Reflector] for the stores,
    [predicate_filter] for the filter); what a stream yields is arbitrary.  The
    tasks interleave object by object in the relation [wstep]. *)
From S2P Require Import Prelude AgentApi CacheManager.
From stdpp Require Import base gmap strings list relations functions.
From Stdlib Require Import ZArith Lia.

(** ** Streams and stores *)

(** [watcher::Event] *)
Inductive Event (K : Type) := Applied (o : K) | Deleted (o : K) | Restarted (os : list K).
Arguments Applied {K} o.
Arguments Deleted {K} o.
Arguments Restarted {K} os.

(** The closure of [modify] applies to every object of an event. *)
Definition modify_event {K} (f : K → K) (ev : Event K) : Event K :=
  match ev with
  | Applied o => Applied (f o)
  | Deleted o => Deleted (f o)
  | Restarted os => Restarted (f <$> os)
  end.

(** [applied_objects]: the objects of an event that exist. *)
Definition applied_objects {K} (ev : Event K) : list K :=
  match ev with Applied o => [o] | Deleted _ => [] | Restarted os => os end.

(** The store behind a [Writer], as its reader sees it. *)
Class Reflector := {
  reflect : ∀ {K : Type}, (K → ObjectRef) → (ObjectRef → option K) → Event K → ObjectRef → option K;
  reflect_applied {K} (ref : K → ObjectRef) st o r :
    reflect ref st (Applied o) r = if decide (r = ref o) then Some o else st r;
  reflect_deleted {K} (ref : K → ObjectRef) st o r :
    reflect ref st (Deleted o) r = if decide (r = ref o) then None else st r;
  reflect_restarted {K} (ref : K → ObjectRef) st os r o :
    reflect ref st (Restarted os) r = Some o → o ∈ os ∧ ref o = r }.

(** The last object of a list with a given reference wins. *)
Definition map_reflect {K} (ref : K → ObjectRef) (st : ObjectRef → option K) (ev : Event K)
    (r : ObjectRef) : option K :=
  match ev with
  | Applied o => if decide (r = ref o) then Some o else st r
  | Deleted o => if decide (r = ref o) then None else st r
  | Restarted os => List.find (λ o, bool_decide (ref o = r)) (reverse os)
  end.

Definition map_reflector : Reflector.
Proof.
  refine {| reflect := @map_reflect |}; [intros; reflexivity|intros; reflexivity|].
  intros K ref st os r o Hf. apply List.find_some in Hf as [Hin Hr].
  apply bool_decide_eq_true in Hr. split; [|done].
  by apply elem_of_reverse, list_elem_of_In.
Defined.

(** A task and its store: the objects the stream has still to hand over, whether
    the store has seen an event, and whether the task is running. *)
Record Watcher (K F : Type) := {
  w_store : ObjectRef → option K;
  w_queue : list K;
  w_ready : bool;
  w_alive : bool;
  w_seen : F }.
Arguments Build_Watcher {K F} _ _ _ _ _.
Arguments w_store {K F} _ _.
Arguments w_queue {K F} _.
Arguments w_ready {K F} _.
Arguments w_alive {K F} _.
Arguments w_seen {K F} _.

(** An object of one of the kinds that are only stored. *)
Record Owned := { ow_meta : ObjectMeta; ow_spec : option string }.

(** The closures of the six watchers that only store. *)
Definition modify_owned (o : Owned) : Owned :=
  {| ow_meta := strip_meta (ow_meta o) None None; ow_spec := None |}.

Inductive OwnerKind := KReplicaSet | KDeployment | KDaemonSet | KStatefulSet | KJob | KCronJob.

Global Instance OwnerKind_eq_dec : EqDecision OwnerKind.
Proof. solve_decision. Defined.

Section watchers.
Context `{R : Reflector} {F : Type}.
(** [predicate_filter(predicates::resource_version)], [name_any], [from_obj]. *)
Context (predicate_filter : F → ObjectMeta → bool * F).
Context (name_any : ObjectMeta → string) (from_obj : ObjectMeta → ObjectRef).

(** The objects that pass the filter. *)
Fixpoint filter_objects {K} (meta : K → ObjectMeta) (seen : F) (os : list K) : list K * F :=
  match os with
  | [] => ([], seen)
  | o :: os' =>
      let '(pass, seen1) := predicate_filter seen (meta o) in
      let '(rest, seen2) := filter_objects meta seen1 os' in
      (if pass : bool then o :: rest else rest, seen2)
  end.

(** An event that the stream yields: modified, reflected, filtered. *)
Definition on_event {K} (meta : K → ObjectMeta) (f : K → K) (ev : Event K) (w : Watcher K F) :
    Watcher K F :=
  let ev := modify_event f ev in
  let '(objs, seen) := filter_objects meta (w_seen w) (applied_objects ev) in
  {| w_store := reflect (from_obj ∘ meta) (w_store w) ev; w_queue := w_queue w ++ objs;
     w_ready := true; w_alive := w_alive w; w_seen := seen |}.

Definition end_task {K} (w : Watcher K F) : Watcher K F :=
  {| w_store := w_store w; w_queue := []; w_ready := w_ready w; w_alive := false;
     w_seen := w_seen w |}.

(** What the stream is polled to: an event, an error, or its end. *)
Abbreviation Item := (λ K, option (result Error (Event K))).

(** [stream.try_next().await?]: an error and the end of the stream end the task. *)
Definition try_next {K} (meta : K → ObjectMeta) (f : K → K) (it : Item K) (w : Watcher K F) :
    Watcher K F :=
  match it with
  | Some (Ok ev) => on_event meta f ev w
  | Some (Err _) | None => end_task w
  end.

(** [stream.for_each(|_| ready(()))]: an error is an item like any other, and
    every object is taken at once. *)
Definition for_each {K} (meta : K → ObjectMeta) (f : K → K) (it : Item K) (w : Watcher K F) :
    Watcher K F :=
  match it with
  | Some (Ok ev) =>
      let w' := on_event meta f ev w in
      {| w_store := w_store w'; w_queue := []; w_ready := w_ready w'; w_alive := w_alive w';
         w_seen := w_seen w' |}
  | Some (Err _) => w
  | None => end_task w
  end.

(** ** The state of the nine tasks and of the tables they share *)

Record Caches := {
  pods : Watcher Pod F;
  nodes : Watcher Node F;
  services : Watcher Service F;
  owners : OwnerKind → Watcher Owned F;
  descriptors : gmap ObjectRef Workload;
  ips : gmap string Workload }.

(** The cache manager as the pod watcher and the programs see it. *)
Definition owner_store (s : Caches) (k : OwnerKind) (r : ObjectRef) : option ObjectMeta :=
  ow_meta <$> w_store (owners s k) r.
Definition view (s : Caches) : CacheManager := {|
  replicasets := owner_store s KReplicaSet; deployments := owner_store s KDeployment;
  statefulsets := owner_store s KStatefulSet; daemonsets := owner_store s KDaemonSet;
  jobs := owner_store s KJob; cronjobs := owner_store s KCronJob;
  pod_descriptors := descriptors s; ip_to_workload := ips s |}.

Definition set_pods w (s : Caches) : Caches :=
  {| pods := w; nodes := nodes s; services := services s; owners := owners s;
     descriptors := descriptors s; ips := ips s |}.
Definition set_nodes w (s : Caches) : Caches :=
  {| pods := pods s; nodes := w; services := services s; owners := owners s;
     descriptors := descriptors s; ips := ips s |}.
Definition set_services w (s : Caches) : Caches :=
  {| pods := pods s; nodes := nodes s; services := w; owners := owners s;
     descriptors := descriptors s; ips := ips s |}.
Definition set_owner k w (s : Caches) : Caches :=
  {| pods := pods s; nodes := nodes s; services := services s;
     owners := λ k', if decide (k' = k) then w else owners s k';
     descriptors := descriptors s; ips := ips s |}.
(** What a loop body wrote to the shared tables. *)
Definition set_tables (cm : CacheManager) (s : Caches) : Caches :=
  {| pods := pods s; nodes := nodes s; services := services s; owners := owners s;
     descriptors := pod_descriptors cm; ips := ip_to_workload cm |}.

Definition pop {K} (w : Watcher K F) : Watcher K F :=
  {| w_store := w_store w; w_queue := tail (w_queue w); w_ready := w_ready w;
     w_alive := w_alive w; w_seen := w_seen w |}.

(** [CacheManager::new]: nine empty stores, two empty tables, and a task per
    store, which ends at once when there is no client ([Client::try_default]). *)
Definition watcher_new {K} (seen0 : F) (client : result Error unit) : Watcher K F :=
  {| w_store := λ _, None; w_queue := []; w_ready := false; w_alive := is_ok client;
     w_seen := seen0 |}.
Definition caches_new (seen0 : F) (client : StoreName → result Error unit) : Caches := {|
  pods := watcher_new seen0 (client SPods); nodes := watcher_new seen0 (client SNodes);
  services := watcher_new seen0 (client SServices);
  owners := λ k, watcher_new seen0 (client match k with
    | KReplicaSet => SReplicaSets | KDeployment => SDeployments | KDaemonSet => SDaemonSets
    | KStatefulSet => SStatefulSets | KJob => SJobs | KCronJob => SCronJobs end);
  descriptors := ∅; ips := ∅ |}.

(** The six tasks that only store. *)
Definition watching_owners (k : OwnerKind) (it : Item Owned) (s : Caches) : Caches :=
  set_owner k (for_each ow_meta modify_owned it (owners s k)) s.

(** ** Interleaving *)

Inductive wstep : Caches → Caches → Prop :=
  | w_pods_item s it : w_alive (pods s) = true → w_queue (pods s) = [] →
      wstep s (set_pods (try_next pod_meta modify_pod it (pods s)) s)
  | w_pods_object s pod rest fuel cm :
      w_alive (pods s) = true → w_queue (pods s) = pod :: rest →
      watching_pods_body name_any from_obj fuel (view s) pod = Some cm →
      wstep s (set_pods (pop (pods s)) (set_tables cm s))
  | w_nodes_item s it : w_alive (nodes s) = true → w_queue (nodes s) = [] →
      wstep s (set_nodes (try_next node_meta modify_node it (nodes s)) s)
  | w_nodes_object s node rest : w_alive (nodes s) = true → w_queue (nodes s) = node :: rest →
      wstep s (set_nodes (pop (nodes s)) (set_tables (watching_nodes_body name_any (view s) node) s))
  | w_services_item s it : w_alive (services s) = true → w_queue (services s) = [] →
      wstep s (set_services (try_next svc_meta modify_service it (services s)) s)
  | w_services_object s svc rest :
      w_alive (services s) = true → w_queue (services s) = svc :: rest →
      wstep s (set_services (pop (services s))
                 (set_tables (watching_services_body name_any (view s) svc) s))
  | w_owners_item s k it : w_alive (owners s k) = true → wstep s (watching_owners k it s).

(** ** [wait_for_cache_sync]

    The stores are awaited in turn while the tasks go on; [wait_until_ready]
    fails when the writer of a store that was never ready is dropped. *)

Definition store_ready (s : Caches) (n : StoreName) : bool :=
  match n with
  | SPods => w_ready (pods s) | SNodes => w_ready (nodes s) | SServices => w_ready (services s)
  | SReplicaSets => w_ready (owners s KReplicaSet) | SDeployments => w_ready (owners s KDeployment)
  | SStatefulSets => w_ready (owners s KStatefulSet) | SDaemonSets => w_ready (owners s KDaemonSet)
  | SJobs => w_ready (owners s KJob) | SCronJobs => w_ready (owners s KCronJob)
  end.
Definition store_alive (s : Caches) (n : StoreName) : bool :=
  match n with
  | SPods => w_alive (pods s) | SNodes => w_alive (nodes s) | SServices => w_alive (services s)
  | SReplicaSets => w_alive (owners s KReplicaSet) | SDeployments => w_alive (owners s KDeployment)
  | SStatefulSets => w_alive (owners s KStatefulSet) | SDaemonSets => w_alive (owners s KDaemonSet)
  | SJobs => w_alive (owners s KJob) | SCronJobs => w_alive (owners s KCronJob)
  end.

Inductive sync_run : list StoreName → Caches → bool → Caches → Prop :=
  | sync_done s : sync_run [] s true s
  | sync_ready n ns s s1 r s2 :
      rtc wstep s s1 → store_ready s1 n = true → sync_run ns s1 r s2 → sync_run (n :: ns) s r s2
  | sync_dropped n ns s s1 :
      rtc wstep s s1 → store_ready s1 n = false → store_alive s1 n = false →
      sync_run (n :: ns) s false s1.

Definition sync_order : list StoreName :=
  [SPods; SNodes; SServices; SReplicaSets; SDeployments; SStatefulSets; SDaemonSets; SJobs; SCronJobs].

(** ** What a step does to a watcher *)

Lemma try_next_ready {K} (meta : K → ObjectMeta) f it w :
  w_ready w = true → w_ready (try_next meta f it w) = true.
Proof.
  intros Hw. unfold try_next, on_event. repeat case_match; simpl; try done.
Qed.

Lemma for_each_ready {K} (meta : K → ObjectMeta) f it w :
  w_ready w = true → w_ready (for_each meta f it w) = true.
Proof.
  intros Hw. unfold for_each, on_event. repeat case_match; simpl; try done.
Qed.

Lemma wstep_ready s s' n : wstep s s' → store_ready s n = true → store_ready s' n = true.
Proof.
  intros Hstep. destruct Hstep; destruct n; simpl; try done; try by apply try_next_ready.
  all: case_decide; subst; auto using for_each_ready.
Qed.

Lemma run_ready s s' n : rtc wstep s s' → store_ready s n = true → store_ready s' n = true.
Proof. intros Hr. induction Hr; eauto using wstep_ready. Qed.

Lemma sync_run_steps ns s r s' : sync_run ns s r s' → rtc wstep s s'.
Proof. intros H. induction H; [done|by etransitivity|done]. Qed.

(** ** What a loop body does to the tables *)

(** Tables grow. *)
Definition tables_grow (cm cm' : CacheManager) : Prop :=
  pod_descriptors cm ⊆ pod_descriptors cm' ∧
  (∀ ip, is_Some (ip_to_workload cm !! ip) → is_Some (ip_to_workload cm' !! ip)).

Lemma tables_grow_refl cm : tables_grow cm cm.
Proof. by split. Qed.

(** The two other watchers insert their addresses as the one of pods does. *)
Definition node_workload (node : Node) : Workload :=
  {| wl_name := name_any (node_meta node); wl_namespace := "node"; wl_kind := "Node" |}.
Definition service_workload (svc : Service) : Workload :=
  {| wl_name := name_any (svc_meta svc); wl_namespace := default "" (meta_namespace (svc_meta svc));
     wl_kind := "Service" |}.
Definition cluster_ip (ip : string) : option string := if decide (ip = "None") then None else Some ip.

Lemma foldl_insert_ips {A} (f : gmap string Workload → A → gmap string Workload) (key : A → option string)
    (w : Workload) (l : list A) (m : gmap string Workload) :
  (∀ m a, f m a = match key a with Some k => <[k := w]> m | None => m end) →
  foldl f m l = insert_pod_ips w (key <$> l) m.
Proof. intros Hf. revert m. induction l as [|a l IH]; intros m; [done|]. cbn [foldl fmap list_fmap]. by rewrite IH, Hf. Qed.

Lemma nodes_body_ips cm node l : node_status node = Some (Some l) →
  watching_nodes_body name_any cm node =
    set_ip_to_workload (insert_pod_ips (node_workload node) (Some <$> l) (ip_to_workload cm)) cm.
Proof. intros Hl. unfold watching_nodes_body. rewrite Hl. by rewrite (foldl_insert_ips _ Some (node_workload node)). Qed.

Lemma services_body_ips cm svc l : svc_spec svc = Some (Some l) →
  watching_services_body name_any cm svc =
    set_ip_to_workload (insert_pod_ips (service_workload svc) (cluster_ip <$> l) (ip_to_workload cm)) cm.
Proof.
  intros Hl. unfold watching_services_body. rewrite Hl.
  rewrite (foldl_insert_ips _ cluster_ip (service_workload svc)); [done|].
  intros m ip. unfold cluster_ip. by case_decide.
Qed.

Lemma insert_ips_grows w l m ip : is_Some (m !! ip) → is_Some (insert_pod_ips w l m !! ip).
Proof. rewrite insert_pod_ips_lookup. case_decide; eauto. Qed.

Lemma resolve_grows fuel cm pod w cm' :
  resolve_pod_descriptor name_any from_obj fuel cm pod = Some (w, cm') →
  pod_descriptors cm ⊆ pod_descriptors cm' ∧ ip_to_workload cm' = ip_to_workload cm ∧
  pod_descriptors cm' !! from_obj (pod_meta pod) = Some w.
Proof.
  unfold resolve_pod_descriptor. destruct (pod_descriptors cm !! _) as [e|] eqn:He.
  - intros [= <- <-]. done.
  - intros ([n k] & _ & Heq)%bind_Some. simplify_eq/=. split_and!; [by apply insert_subseteq|done|].
    by rewrite lookup_insert_eq.
Qed.

Lemma wstep_grows s s' : wstep s s' → tables_grow (view s) (view s').
Proof.
  intros Hstep. destruct Hstep as [|s pod rest fuel cm _ _ Hb| |s node rest| |s svc rest|];
    try exact (tables_grow_refl (view s)).
  - unfold watching_pods_body in Hb. apply bind_Some in Hb as ([w cm1] & Hr & Heq).
    destruct (resolve_grows _ _ _ _ _ Hr) as (Hd & Hip & _). simplify_eq. split.
    + by destruct (pod_status pod) as [[l|]|].
    + intros ip. simpl. change (ips s) with (ip_to_workload (view s)). rewrite <- Hip.
      destruct (pod_status pod) as [[l|]|]; [apply insert_ips_grows|done..].
  - destruct (node_status node) as [[l|]|] eqn:Hl;
      [|by unfold watching_nodes_body; rewrite Hl; split..].
    rewrite (nodes_body_ips _ _ l Hl). split; [done|]. intros ip. apply insert_ips_grows.
  - destruct (svc_spec svc) as [[l|]|] eqn:Hl;
      [|by unfold watching_services_body; rewrite Hl; split..].
    rewrite (services_body_ips _ _ l Hl). split; [done|]. intros ip. apply insert_ips_grows.
Qed.

Lemma run_grows s s' : rtc wstep s s' → tables_grow (view s) (view s').
Proof.
  intros Hr. induction Hr as [s|s1 s2 s3 [Hd Hi]%wstep_grows _ [Hd' Hi']]; [apply tables_grow_refl|].
  split; [by etrans|auto].
Qed.

(** ** Where an entry of the tables comes from *)

(** In [s] the pod watcher is about to give [w] to the pod under [r]. *)
Definition given (s : Caches) (r : ObjectRef) (w : Workload) : Prop :=
  ∃ pod rest fuel cm, w_queue (pods s) = pod :: rest ∧ from_obj (pod_meta pod) = r ∧
    descriptors s !! r = None ∧ resolve_pod_descriptor name_any from_obj fuel (view s) pod = Some (w, cm).

(** In [s] one of the three watchers of addresses is about to write [w] under [ip]. *)
Definition addressed (s : Caches) (ip : string) (w : Workload) : Prop :=
  (∃ pod rest l fuel cm, w_queue (pods s) = pod :: rest ∧ pod_status pod = Some (Some l) ∧ Some ip ∈ l ∧
     resolve_pod_descriptor name_any from_obj fuel (view s) pod = Some (w, cm)) ∨
  (∃ node rest l, w_queue (nodes s) = node :: rest ∧ node_status node = Some (Some l) ∧ ip ∈ l ∧
     w = node_workload node) ∨
  (∃ svc rest l, w_queue (services s) = svc :: rest ∧ svc_spec svc = Some (Some l) ∧ ip ∈ l ∧ ip ≠ "None" ∧
     w = service_workload svc).

Lemma wstep_given s s' r w : wstep s s' → descriptors s' !! r = Some w → descriptors s !! r = Some w ∨ given s r w.
Proof.
  intros Hstep. destruct Hstep as [|s pod rest fuel cm _ Hq Hb| |s node rest _ _| |s svc rest _ _|]; simpl; auto.
  - unfold watching_pods_body in Hb. apply bind_Some in Hb as ([w' cm1] & Hr & Heq).
    assert (pod_descriptors cm = pod_descriptors cm1) as -> by (by repeat case_match; simplify_eq/=).
    pose proof Hr as Hr'. unfold resolve_pod_descriptor in Hr.
    destruct (pod_descriptors (view s) !! from_obj (pod_meta pod)) as [e|] eqn:He.
    { injection Hr as <- <-. auto. }
    apply bind_Some in Hr as ([n k] & _ & Heq'). simplify_eq. cbn [pod_descriptors set_pod_descriptors].
    intros [[<- <-]|[_ H]]%lookup_insert_Some; [|by left]. right. by eexists pod, rest, fuel, _.
  - unfold watching_nodes_body. repeat case_match; auto.
  - unfold watching_services_body. repeat case_match; auto.
Qed.

Lemma inserted_or_before w l m ip w' :
  insert_pod_ips w l m !! ip = Some w' → m !! ip = Some w' ∨ Some ip ∈ l ∧ w' = w.
Proof. rewrite insert_pod_ips_lookup. case_decide; [intros [= ->]|]; auto. Qed.

Lemma wstep_addressed s s' ip w : wstep s s' → ips s' !! ip = Some w → ips s !! ip = Some w ∨ addressed s ip w.
Proof.
  intros Hstep. destruct Hstep as [|s pod rest fuel cm _ Hq Hb| |s node rest _ Hq| |s svc rest _ Hq|]; simpl; auto.
  - unfold watching_pods_body in Hb. apply bind_Some in Hb as ([w' cm1] & Hr & Heq).
    destruct (resolve_grows _ _ _ _ _ Hr) as (_ & Hip & _). change (ip_to_workload (view s)) with (ips s) in Hip.
    injection Heq as <-.
    destruct (pod_status pod) as [[l|]|] eqn:Hl; cbn [ip_to_workload set_ip_to_workload]; rewrite Hip; auto.
    intros [H|[Hin ->]]%inserted_or_before; [by left|right; left]. by exists pod, rest, l, fuel, cm1.
  - destruct (node_status node) as [[l|]|] eqn:Hl; [|unfold watching_nodes_body; rewrite Hl; by auto..].
    rewrite (nodes_body_ips _ _ l Hl).
    intros [H|[(a & [= ->] & Hin)%list_elem_of_fmap ->]]%inserted_or_before; [by left|right; right; left].
    by exists node, rest, l.
  - destruct (svc_spec svc) as [[l|]|] eqn:Hl; [|unfold watching_services_body; rewrite Hl; by auto..].
    rewrite (services_body_ips _ _ l Hl).
    intros [H|[(a & Ha & Hin)%list_elem_of_fmap ->]]%inserted_or_before; [by left|right; right; right].
    unfold cluster_ip in Ha. case_decide; simplify_eq. by exists svc, rest, l.
Qed.

(** What holds after a step only if it held before or [Q] allows it, comes from a
    moment of the run at which [Q] did. *)
Lemma comes_from (P Q : Caches → Prop) s0 s :
  (∀ s s', wstep s s' → P s' → P s ∨ Q s) → ¬ P s0 → rtc wstep s0 s → P s →
  ∃ s1, rtc wstep s0 s1 ∧ rtc wstep s1 s ∧ Q s1.
Proof.
  intros Hstep H0 Hr. revert s Hr. apply (rtc_ind_r (λ s, P s → ∃ s1, rtc wstep s0 s1 ∧ rtc wstep s1 s ∧ Q s1) s0).
  - done.
  - intros s1 s2 H1 Hs IH HP. destruct (Hstep _ _ Hs HP) as [HP'|HQ].
    + destruct (IH HP') as (s3 & Ha & Hb & HQ). exists s3. split_and!; [done|by eapply rtc_r|done].
    + exists s1. split_and!; [done|by apply rtc_once|done].
Qed.

(** A task that has ended does nothing any more. *)
Lemma dead_pods_frozen s s' :
  wstep s s' → w_alive (pods s) = false → pods s' = pods s ∧ descriptors s' = descriptors s.
Proof.
  intros Hstep Hd. destruct Hstep; simpl; try done; try congruence.
  - unfold watching_nodes_body. by repeat case_match.
  - unfold watching_services_body. by repeat case_match.
Qed.

(** ** Properties *)

(** C21: over every run of the watcher tasks, in any interleaving and whatever the
    streams yield, nothing in the two tables is made up.  The workload of a pod is
    the one that [resolve_pod_descriptor] computed, with the stores as they were,
    at the earlier moment when the pod watcher first handled an object with that
    reference; the workload of an address is the one that a watcher wrote when it
    handled an object that lists the address: the descriptor of a pod, or a node or
    a service under its own name.  And the tables only grow: a pod keeps the
    workload it was first given, and no address is ever dropped, not even when its
    pod is deleted. *)
Theorem tables_invariant seen0 client s :
  rtc wstep (caches_new seen0 client) s →
  (∀ r w, descriptors s !! r = Some w →
     ∃ s0, rtc wstep (caches_new seen0 client) s0 ∧ rtc wstep s0 s ∧ given s0 r w) ∧
  (∀ ip w, ips s !! ip = Some w →
     ∃ s0, rtc wstep (caches_new seen0 client) s0 ∧ rtc wstep s0 s ∧ addressed s0 ip w) ∧
  (∀ s', rtc wstep s s' →
     descriptors s ⊆ descriptors s' ∧ (∀ ip, is_Some (ips s !! ip) → is_Some (ips s' !! ip))).
Proof.
  intros Hr. split_and!.
  - intros r w Hw. apply (comes_from (λ s, descriptors s !! r = Some w)); try done.
    intros s1 s2. apply wstep_given.
  - intros ip w Hw. apply (comes_from (λ s, ips s !! ip = Some w)); try done.
    intros s1 s2. apply wstep_addressed.
  - intros s' Hr'. exact (run_grows _ _ Hr').
Qed.

(** C26: one error of its stream ends the pod watcher for good: from then on,
    whatever the other tasks do, no pod event reaches the store and no pod is
    given a workload.  The six tasks that only store objects go on after an
    error as if nothing had happened. *)
Theorem stream_error_ends_pod_watcher s e s' :
  rtc wstep (set_pods (try_next pod_meta modify_pod (Some (Err e)) (pods s)) s) s' →
  store_alive s' SPods = false ∧ w_store (pods s') = w_store (pods s) ∧
  w_queue (pods s') = [] ∧ descriptors s' = descriptors s ∧
  ∀ k k', owners (watching_owners k (Some (Err e)) s) k' = owners s k'.
Proof.
  set (s1 := set_pods _ s). intros Hr.
  assert (pods s' = end_task (pods s) ∧ descriptors s' = descriptors s) as [Hp Hd].
  { assert (pods s1 = end_task (pods s) ∧ descriptors s1 = descriptors s) as H1 by done.
    clearbody s1. induction Hr as [|s1 s2 s3 Hstep _ IH]; [done|]. apply IH.
    destruct H1 as [H1 H2]. destruct (dead_pods_frozen _ _ Hstep) as [H3 H4]; [by rewrite H1|].
    by rewrite H3, H4. }
  simpl. rewrite Hp, Hd. split_and!; [done..|]. intros k k'. simpl. by case_decide; subst.
Qed.

(** C27: a pod whose event is handled while the store does not have its owner yet
    is attributed to itself for good: in every later state it still resolves
    to itself, whatever the stores have learnt in between. *)
Theorem early_pod_misattributed s pod o fuel cm s' :
  descriptors s !! from_obj (pod_meta pod) = None →
  find_controller (pod_meta pod) = Some o →
  get_controller_of_owner (view s) o (default "" (meta_namespace (pod_meta pod))) = None →
  watching_pods_body name_any from_obj fuel (view s) pod = Some cm →
  rtc wstep (set_pods (pop (pods s)) (set_tables cm s)) s' →
  ∀ fuel', fst <$> resolve_pod_descriptor name_any from_obj fuel' (view s') pod =
    Some {| wl_name := name_any (pod_meta pod);
            wl_namespace := default "" (meta_namespace (pod_meta pod)); wl_kind := "Pod" |}.
Proof.
  intros Hnone Ho Hc Hb Hr fuel'.
  set (w := {| wl_name := _; wl_namespace := _; wl_kind := _ |}).
  assert (pod_descriptors cm !! from_obj (pod_meta pod) = Some w) as Hd.
  { unfold watching_pods_body in Hb. apply bind_Some in Hb as ([w' cm1] & Hres & Heq).
    assert (w' = w) as ->.
    { unfold resolve_pod_descriptor in Hres. cbn [pod_descriptors view] in Hres.
      rewrite Hnone, Ho in Hres.
      apply bind_Some in Hres as ([n k] & Hl & Heq'). simplify_eq.
      apply resolve_loop_inv in Hl as (cs & Hcs & _ & Htop).
      destruct Hcs; [|congruence]. unfold top in Htop. simpl in Htop. by injection Htop as -> ->. }
    destruct (resolve_grows _ _ _ _ _ Hres) as (_ & _ & Hw). by repeat case_match; simplify_eq/=. }
  destruct (run_grows _ _ Hr) as [Hsub _].
  assert (descriptors s' !! from_obj (pod_meta pod) = Some w) as Hd' by by eapply lookup_weaken.
  unfold resolve_pod_descriptor. cbn [pod_descriptors view]. by rewrite Hd'.
Qed.

(** The wait for the caches succeeds only when all nine stores have seen an
    event, at the same time; it fails when a task ended before that. *)
Lemma cache_sync_all_ready s r s' :
  sync_run sync_order s r s' →
  if r then ∀ n, store_ready s' n = true else ∃ n, store_alive s' n = false ∧ store_ready s' n = false.
Proof.
  assert (∀ ns s r s', sync_run ns s r s' →
    if r then ∀ n, n ∈ ns → store_ready s' n = true
    else ∃ n, store_alive s' n = false ∧ store_ready s' n = false) as Hgen.
  { clear s r s'. intros ns s r s' Hs. induction Hs as [|n ns s s1 r s2 Hr Hn Hs IH|]; [|..].
    - intros n Hn. by apply not_elem_of_nil in Hn.
    - destruct r; [|done]. intros n' [->|Hin]%elem_of_cons; [|by apply IH].
      eapply run_ready; [by eapply sync_run_steps|done].
    - eauto. }
  intros Hs. specialize (Hgen _ _ _ _ Hs). destruct r; [|done]. intros n. apply Hgen.
  destruct n; vm_compute; by repeat constructor.
Qed.
End watchers.

(** ** Witnesses *)

Definition ex_filter (_ : ()) (_ : ObjectMeta) : bool * () := (true, ()).
Abbreviation ex_step := (wstep (R := map_reflector) ex_filter ex_name_any ex_from_obj).
Definition ex_caches : Caches := caches_new () (λ _, Ok ()).

(** The event of a pod of replica set cart-7d arrives, and is handled, before the
    one of the replica set. *)
Definition ex_item : option (result Error (Event Pod)) :=
  Some (Ok (Applied (ex_pod (ex_owner "cart-7d" "ReplicaSet")))).
Definition ex_queued : Caches :=
  set_pods (try_next (R := map_reflector) ex_filter ex_from_obj pod_meta modify_pod ex_item
              (pods ex_caches)) ex_caches.
Definition ex_seen_pod : Pod := modify_pod (ex_pod (ex_owner "cart-7d" "ReplicaSet")).
Definition ex_resolved : CacheManager :=
  default ex_cm (watching_pods_body ex_name_any ex_from_obj 4 (view ex_queued) ex_seen_pod).
Definition ex_handled : Caches := set_pods (pop (pods ex_queued)) (set_tables ex_resolved ex_queued).
Definition ex_rs : Owned :=
  {| ow_meta := ex_meta "cart-7d" (Some (ex_owner "cart" "Deployment")); ow_spec := None |}.
Definition ex_late : Caches :=
  watching_owners (R := map_reflector) ex_filter ex_from_obj KReplicaSet (Some (Ok (Applied ex_rs)))
    ex_handled.

Lemma ex_run_handled : rtc ex_step ex_caches ex_handled.
Proof.
  eapply rtc_l; [by apply (w_pods_item _ _ _ ex_caches ex_item)|].
  apply rtc_once, (w_pods_object _ _ _ ex_queued ex_seen_pod [] 4); reflexivity.
Qed.

Lemma tables_invariant_witness :
  ∃ s0, rtc ex_step s0 ex_handled ∧
    given ex_name_any ex_from_obj s0 ("cart-7d-x", Some "shop") (ex_wl "cart-7d-x" "Pod").
Proof.
  destruct (tables_invariant (R := map_reflector) ex_filter ex_name_any ex_from_obj () (λ _, Ok ())
              ex_handled ex_run_handled) as (H & _ & _).
  destruct (H ("cart-7d-x", Some "shop") (ex_wl "cart-7d-x" "Pod")) as (s0 & _ & Hr & Hg); [reflexivity|].
  exists s0. split; [exact Hr|exact Hg].
Defined.

Lemma stream_error_witness :
  store_alive (set_pods (try_next (R := map_reflector) ex_filter ex_from_obj pod_meta modify_pod
                           (Some (Err (Msg "watch closed"))) (pods ex_handled)) ex_handled) SPods = false.
Proof.
  apply (stream_error_ends_pod_watcher (R := map_reflector) ex_filter ex_name_any ex_from_obj
           ex_handled (Msg "watch closed")).
  apply rtc_refl.
Defined.

Lemma early_pod_witness :
  get_controller_of_owner (view ex_late) (ex_owner "cart-7d" "ReplicaSet") "shop" =
    Some (ex_owner "cart" "Deployment") ∧
  fst <$> resolve_pod_descriptor ex_name_any ex_from_obj 4 (view ex_late) ex_seen_pod =
    Some (ex_wl "cart-7d-x" "Pod").
Proof.
  split; [reflexivity|].
  apply (early_pod_misattributed (R := map_reflector) ex_filter ex_name_any ex_from_obj ex_queued
           ex_seen_pod (ex_owner "cart-7d" "ReplicaSet") 4 ex_resolved ex_late);
    [reflexivity|reflexivity|reflexivity|reflexivity|].
  apply rtc_once. by apply (w_owners_item _ _ _ ex_handled KReplicaSet).
Defined.

(** All stores of a manager without a client stay empty. *)
Lemma cache_sync_witness :
  ∃ n, store_alive (F := ()) (caches_new () (λ _, Err (Msg "no cluster"))) n = false ∧
       store_ready (F := ()) (caches_new () (λ _, Err (Msg "no cluster"))) n = false.
Proof.
  apply (cache_sync_all_ready (R := map_reflector) ex_filter ex_name_any ex_from_obj
           (caches_new () (λ _, Err (Msg "no cluster"))) false).
  by apply sync_dropped with (s := caches_new () (λ _, Err (Msg "no cluster"))).
Defined.
