(* ===== verification/Program.v ===== *)
(** * The [Program] trait and the shutdown signal

    [agent/src/progs/types.rs].  The trait is a class over the type [P] of a
    program's own state (what is behind its lock) and the type [W] of the state
    it shares with the rest of the system (the kernel's maps).  The async
    method [start] is a coroutine: [start_begin] runs up to its loop and
    [start_step] is one turn of the loop on the event that [select!] picked.

    [ProgramLaws] is what the managers rely on: the accessors agree with each
    other, and the other methods leave a program's name, type and state alone;
    only [set_state] changes the state; a running program returns when it is
    sent its own name or the signal for all. *)
From S2P Require Import Prelude AgentApi.
From stdpp Require Import base gmap strings list.
From Stdlib Require Import ZArith Lia.

(** An [anyhow] error, or a panic that unwinds the task. *)
Inductive Failure := Fail (e : Error) | Panic (why : string).

Inductive ShutdownSignal := All | ProgramName (name : string).

Global Instance ShutdownSignal_eq_dec : EqDecision ShutdownSignal.
Proof. solve_decision. Defined.

(** A clone of the cache manager: a handle to the shared tables. *)
Definition CacheHandle : Type := nat.

(** What the loop of a running program waits for: the timer, a signal, or the
    error of a receiver that lags behind or is closed. *)
Inductive StartEvent := Tick | Recv (signal : ShutdownSignal) | RecvError.

Class Program (P W : Type) := {
  init : gmap string string → CacheHandle → gmap string Z → P → result Error unit * P;
  start_begin : P → result Failure unit;
  start_step : StartEvent → P * W → result Failure (option unit) * (P * W);
  stop : P → result Error unit * P;
  collect : P * W → result Failure unit * (P * W);
  get_name : P → string;
  get_state : P → ProgramState;
  set_state : ProgramState → P → P;
  get_type : P → ProgramType;
  get_metadata : P → gmap string string;
  set_metadata : gmap string string → P → P;
  get_program_info : P → result Error ProgramInfo
}.

Definition same_identity {P W} `{!Program P W} (p p' : P) : Prop :=
  get_name p' = get_name p ∧ get_type p' = get_type p ∧ get_state p' = get_state p.

Class ProgramLaws (P W : Type) `{!Program P W} : Prop := {
  set_state_state st (p : P) : get_state (set_state st p) = st;
  set_state_name st (p : P) : get_name (set_state st p) = get_name p;
  set_state_type st (p : P) : get_type (set_state st p) = get_type p;
  set_state_metadata st (p : P) : get_metadata (set_state st p) = get_metadata p;
  init_identity md cm maps (p : P) : same_identity p (init md cm maps p).2;
  stop_identity (p : P) : same_identity p (stop p).2;
  start_step_identity ev (p : P) (w : W) : same_identity p (start_step ev (p, w)).2.1;
  collect_identity (p : P) (w : W) : same_identity p (collect (p, w)).2.1;
  start_step_signal sig (p : P) (w : W) : sig = All ∨ sig = ProgramName (get_name p) →
    start_step (Recv sig) (p, w) = (Ok (Some ()), (p, w));
  program_info_ok (p : P) info : get_program_info p = Ok info →
    pi_name info = get_name p ∧ pi_metadata info = get_metadata p ∧
    ProgramType_into_u32 (get_type p) = Ok (pi_program_type info) ∧
    ProgramState_into_u32 (get_state p) = Ok (pi_state info)
}.
