(* ===== verification/ServiceMap.v ===== *)
(** * The built-in program [service_map]

    [agent/src/progs/service_map/program.rs]: the state [Inner] behind the
    program's lock, [poll] (aggregation of the kernel's [CONNECTIONS] map into
    bytes per pair of workloads), the life-cycle methods of the [Program] trait
    and the metrics of [collect].

    The eBPF map is a handle into the kernel's maps ([kmaps]); a clone of the
    cache manager is a handle to the shared tables, which [caches] gives the
    content of.  The aya iterator, the metrics encoder and the hash of the [fnv]
    crate are parameters. *)
From S2P Require Import Prelude RustStd AgentApi Bpf ConnTracer CacheManager Program.
From stdpp Require Import base gmap strings list.
From Stdlib Require Import ZArith Lia.

Local Open Scope Z_scope.

Definition DEFAULT_INTERVAL : Z := 15.

(** ** Data *)

Record Connection := {
  client : Workload; server : Workload; role : Z; server_port : Z }.

Global Instance Connection_eq_dec : EqDecision Connection.
Proof. solve_decision. Defined.
Definition conn_tuple (c : Connection) : Workload * Workload * Z * Z :=
  (client c, server c, role c, server_port c).
Definition conn_untuple (t : Workload * Workload * Z * Z) : Connection :=
  let '(a, b, c, d) := t in {| client := a; server := b; role := c; server_port := d |}.
Lemma conn_untuple_tuple c : conn_untuple (conn_tuple c) = c.
Proof. by destruct c. Qed.
Global Instance Connection_countable : Countable Connection :=
  inj_countable' conn_tuple conn_untuple conn_untuple_tuple.

(** A handle to a pinned eBPF map. *)
Definition MapFd : Type := Z.

Record Inner := {
  in_name : string;
  program_type : ProgramType;
  program_state : ProgramState;
  ebpf_maps : gmap string Z;
  metadata : gmap string string;
  current_conns_map : option MapFd;
  past_conns_map : gmap Connection Z;
  cache_mgr : option CacheHandle }.

Definition Inner_new : Inner := {|
  in_name := "service_map"; program_type := Builtin; program_state := Uninitialized;
  ebpf_maps := ∅; metadata := ∅; current_conns_map := None; past_conns_map := ∅;
  cache_mgr := None |}.

Definition set_program_state st (i : Inner) : Inner := {|
  in_name := in_name i; program_type := program_type i; program_state := st;
  ebpf_maps := ebpf_maps i; metadata := metadata i; current_conns_map := current_conns_map i;
  past_conns_map := past_conns_map i; cache_mgr := cache_mgr i |}.
Definition set_inner_metadata md (i : Inner) : Inner := {|
  in_name := in_name i; program_type := program_type i; program_state := program_state i;
  ebpf_maps := ebpf_maps i; metadata := md; current_conns_map := current_conns_map i;
  past_conns_map := past_conns_map i; cache_mgr := cache_mgr i |}.
Definition set_past p (i : Inner) : Inner := {|
  in_name := in_name i; program_type := program_type i; program_state := program_state i;
  ebpf_maps := ebpf_maps i; metadata := metadata i; current_conns_map := current_conns_map i;
  past_conns_map := p; cache_mgr := cache_mgr i |}.
Definition set_current c (i : Inner) : Inner := {|
  in_name := in_name i; program_type := program_type i; program_state := program_state i;
  ebpf_maps := ebpf_maps i; metadata := metadata i; current_conns_map := c;
  past_conns_map := past_conns_map i; cache_mgr := cache_mgr i |}.

(** [reset]: everything but the name, type, state and cache manager. *)
Definition reset (i : Inner) : Inner := {|
  in_name := in_name i; program_type := program_type i; program_state := program_state i;
  ebpf_maps := ∅; metadata := ∅; current_conns_map := None; past_conns_map := ∅;
  cache_mgr := cache_mgr i |}.

(** ** Resolution of addresses and connections *)

Definition resolve_ip (cm : CacheManager) (ip : Z) : option Workload :=
  ip_to_workload cm !! ipv4_to_string ip.

Definition build_connection (cm : CacheManager) (key : ConnectionKey) : result Error Connection :=
  client_workload ← ok_or (Msg ("Unknown IP: " +:+ ipv4_to_string (src_addr key)))
                      (resolve_ip cm (src_addr key));
  server_workload ← ok_or (Msg ("Unknown IP: " +:+ ipv4_to_string (dest_addr key)))
                      (resolve_ip cm (dest_addr key));
  '(c, s, port) ←
    (if decide (ck_role key = CONNECTION_ROLE_CLIENT)
     then Ok (client_workload, server_workload, dest_port key)
     else if decide (ck_role key = CONNECTION_ROLE_SERVER)
     then Ok (server_workload, client_workload, src_port key)
     else Err (Msg "Unknown connection role"));
  Ok {| client := c; server := s; role := ck_role key; server_port := port |}.

Definition is_loopback_address (addr : Z) : bool := is_loopback addr.

(** [map.entry(conn).and_modify(|e| *e += n).or_insert(n)] on [u64] values. *)
Definition add_bytes (m : gmap Connection Z) (p : Connection * Z) : gmap Connection Z :=
  match m !! p.1 with
  | Some e => <[p.1 := as_u64 (e + p.2)]> m
  | None => <[p.1 := p.2]> m
  end.

(** The state [poll] works on: the locked [Inner] and the kernel's maps. *)
Record SM := {
  inner : Inner;
  kmaps : MapFd → gmap ConnectionKey ConnectionStats }.

Definition set_inner i (s : SM) : SM := {| inner := i; kmaps := kmaps s |}.
Definition set_kmap fd m (s : SM) : SM :=
  {| inner := inner s; kmaps := λ fd', if decide (fd' = fd) then m else kmaps s fd' |}.

(** [let _ = m;]: an error is dropped, a panic is not. *)
Definition ignore_fail {A} (m : M SM Failure A) : M SM Failure unit := λ s,
  match m s with
  | (Ok _, s') => (Ok (), s')
  | (Err (Fail _), s') => (Ok (), s')
  | (Err (Panic w), s') => (Err (Panic w), s')
  end.

Section poll.
Context `{HI : HashIter} {BC : BpfMap ConnectionKey ConnectionStats}.
(** The aya map iterator: a pair, or the errno of a failed syscall. *)
Context (aya_iter : gmap ConnectionKey ConnectionStats →
                    list (result Z (ConnectionKey * ConnectionStats))).
Context (caches : CacheHandle → CacheManager).

(** The loop over the kernel map: the keys to remove and the bytes per
    connection. *)
Fixpoint poll_items (cm : CacheManager)
    (items : list (result Z (ConnectionKey * ConnectionStats)))
    (keys_to_remove : list ConnectionKey) (current_conns : gmap Connection Z) :
    result Error (list ConnectionKey * gmap Connection Z) :=
  match items with
  | [] => Ok (keys_to_remove, current_conns)
  | Err e :: _ => Err (FromMap e)
  | Ok (key, stats) :: rest =>
      if negb (is_active stats =? 1) then
        poll_items cm rest (keys_to_remove ++ [key]) current_conns
      else if (src_addr key =? dest_addr key) || is_loopback_address (dest_addr key) then
        poll_items cm rest keys_to_remove current_conns
      else if ck_role key =? CONNECTION_ROLE_UNKNOWN then
        poll_items cm rest keys_to_remove current_conns
      else match build_connection cm key with
           | Ok connection =>
               poll_items cm rest keys_to_remove
                 (add_bytes current_conns (connection, bytes_sent stats))
           | Err _ => poll_items cm rest keys_to_remove current_conns
           end
  end.

(** Under the read lock: what is reported, and the keys to remove. *)
Definition poll_read (s : SM) : result Error (CacheManager * list ConnectionKey * gmap Connection Z) :=
  fd ← ok_or (Msg "No current connections map") (current_conns_map (inner s));
  h ← ok_or (Msg "No cache manager") (cache_mgr (inner s));
  '(keys, current) ← poll_items (caches h) (aya_iter (kmaps s fd)) [] ∅;
  Ok (caches h, keys, foldl add_bytes current (hm_iter (past_conns_map (inner s)))).

Definition handle_inactive_connection (cm : CacheManager) (key : ConnectionKey) :
    M SM Failure unit := λ s,
  match current_conns_map (inner s) with
  | None => (Err (Panic "called `Option::unwrap()` on a `None` value"), s)
  | Some fd =>
      let throughput := match kmaps s fd !! key with
                        | Some stats => bytes_sent stats
                        | None => 0
                        end in
      match bpf_delete (kmaps s fd) key with
      | Err e => (Err (Fail (FromMap e)), s)
      | Ok m =>
          let s' := set_kmap fd m s in
          match build_connection cm key with
          | Err e => (Err (Fail e), s')
          | Ok connection =>
              (Ok (), set_inner (set_past (add_bytes (past_conns_map (inner s')) (connection, throughput))
                                          (inner s')) s')
          end
      end
  end.

(** Under the write lock: the inactive connections, one by one. *)
Fixpoint poll_write (cm : CacheManager) (keys : list ConnectionKey) : M SM Failure unit :=
  match keys with
  | [] => mret ()
  | key :: rest => ignore_fail (handle_inactive_connection cm key);; poll_write cm rest
  end.

Definition poll : M SM Failure (gmap Connection Z) := λ s,
  match poll_read s with
  | Err e => (Err (Fail e), s)
  | Ok (cm, keys, current) => (poll_write cm keys;; mret current) s
  end.

End poll.

(** ** Reference description of what [poll] adds up *)

(** What an entry of the kernel map adds to the report while it is active. *)
Definition reported (cm : CacheManager) (p : ConnectionKey * ConnectionStats) :
    option (Connection * Z) :=
  if negb (is_active p.2 =? 1) then None
  else if (src_addr p.1 =? dest_addr p.1) || is_loopback_address (dest_addr p.1) then None
  else if ck_role p.1 =? CONNECTION_ROLE_UNKNOWN then None
  else match build_connection cm p.1 with Ok c => Some (c, bytes_sent p.2) | Err _ => None end.

(** What it adds to [past_conns_map] once it is inactive. *)
Definition archived (cm : CacheManager) (p : ConnectionKey * ConnectionStats) :
    option (Connection * Z) :=
  match build_connection cm p.1 with Ok c => Some (c, bytes_sent p.2) | Err _ => None end.

Definition active (p : ConnectionKey * ConnectionStats) : Prop := is_active p.2 = 1.
Global Instance active_dec p : Decision (active p).
Proof. unfold active. apply _. Defined.

(** Values are [u64]. *)
Definition all_u64 {A} (l : list (A * Z)) : Prop := Forall (λ p, in_u 64 p.2) l.

Section add_bytes.
Implicit Types (m : gmap Connection Z) (l : list (Connection * Z)).

Lemma add_bytes_lookup m p c :
  in_u 64 p.2 →
  add_bytes m p !! c =
  if decide (c = p.1) then Some (as_u64 (default 0 (m !! c) + p.2)) else m !! c.
Proof.
  intros Hp. unfold add_bytes. case_decide; subst.
  - destruct (m !! p.1) eqn:E; rewrite lookup_insert_eq; simpl; [done|].
    by rewrite Z.add_0_l, wrapu_id.
  - destruct (m !! p.1); by rewrite lookup_insert_ne.
Qed.

Lemma foldl_add_bytes_lookup l m c :
  all_u64 l →
  foldl add_bytes m l !! c =
  if decide (c ∈ l.*1) then Some (as_u64 (default 0 (m !! c) + sum_for c l)) else m !! c.
Proof.
  intros Hl. revert m. induction Hl as [|p l Hp Hl IH]; intros m.
  { rewrite decide_False; [done|]. apply not_elem_of_nil. }
  cbn [foldl]. rewrite IH, add_bytes_lookup, sum_for_cons, fmap_cons by done.
  destruct (decide (c = p.1)) as [->|Hne].
  - rewrite (decide_True (P := p.1 ∈ p.1 :: _)) by set_solver.
    rewrite (decide_True (P := p.1 = p.1)) by done. simpl. case_decide as Hin.
    + f_equal. rewrite wrapu_add_l. f_equal. lia.
    + rewrite sum_for_notin by done. do 2 f_equal. lia.
  - rewrite (decide_False (P := p.1 = c)) by done. rewrite Z.add_0_l.
    destruct (decide (c ∈ l.*1)); [by rewrite decide_True by set_solver|].
    by rewrite decide_False by set_solver.
Qed.

Lemma foldl_add_bytes_perm l l' m c :
  l ≡ₚ l' → all_u64 l →
  foldl add_bytes m l !! c =
  if decide (c ∈ l'.*1) then Some (as_u64 (default 0 (m !! c) + sum_for c l')) else m !! c.
Proof.
  intros Hp Hl. rewrite foldl_add_bytes_lookup by done.
  assert (c ∈ l.*1 ↔ c ∈ l'.*1) as Hc by (by rewrite Hp).
  assert (sum_for c l = sum_for c l') as -> by (by rewrite Hp).
  repeat case_decide; tauto.
Qed.
End add_bytes.

Section poll_lemmas.
Context `{HI : HashIter} {BC : BpfMap ConnectionKey ConnectionStats} `{!HashLaws BC}.

Lemma poll_items_ok cm l keys cur :
  poll_items cm (Ok <$> l) keys cur =
  Ok (keys ++ (filter (λ p, ¬ active p) l).*1, foldl add_bytes cur (omap (reported cm) l)).
Proof.
  revert keys cur. induction l as [|[k st] l IH]; intros keys cur.
  { simpl. by rewrite app_nil_r. }
  rewrite fmap_cons, filter_cons. cbn [poll_items omap list_omap]. unfold reported at 1, active at 1.
  cbn [fst snd].
  destruct (Z.eqb_spec (is_active st) 1) as [Ha|Ha]; cbn [negb].
  - rewrite decide_False by tauto. repeat case_match; apply IH.
  - rewrite decide_True by tauto. rewrite IH. simpl. by rewrite <- app_assoc.
Qed.

(** An error of the iterator is returned, whatever came before it. *)
Lemma poll_items_err cm l e rest keys cur :
  poll_items cm ((Ok <$> l) ++ Err e :: rest) keys cur = Err (FromMap e).
Proof.
  revert keys cur. induction l as [|[k st] l IH]; intros keys cur; [done|].
  simpl. repeat case_match; apply IH.
Qed.

(** Removing the listed entries from the kernel map, which has them all. *)
Lemma poll_write_ok cm l s fd :
  current_conns_map (inner s) = Some fd →
  NoDup l.*1 → (∀ p, p ∈ l → kmaps s fd !! p.1 = Some p.2) →
  ∃ s', poll_write cm l.*1 s = (Ok (), s') ∧
    inner s' = set_past (foldl add_bytes (past_conns_map (inner s)) (omap (archived cm) l)) (inner s) ∧
    kmaps s' fd = foldl (λ m k, delete k m) (kmaps s fd) l.*1 ∧
    (∀ fd', fd' ≠ fd → kmaps s' fd' = kmaps s fd').
Proof.
  revert s. induction l as [|[k st] l IH]; intros s Hfd Hnd Hl.
  { exists s. split_and!; try done. by destruct s as [[]]. }
  rewrite fmap_cons in Hnd |- *. cbn [fst] in *. apply NoDup_cons in Hnd as [Hk Hnd].
  assert (kmaps s fd !! k = Some st) as Hks by (apply (Hl (k, st)); set_solver).
  destruct (bpf_delete (kmaps s fd) k) as [m|e] eqn:Hdel.
  2: { pose proof (hash_delete_present (kmaps s fd) k (ex_intro _ _ Hks)) as Hp.
       by rewrite Hdel in Hp. }
  pose proof (hash_delete_ok _ _ _ Hdel) as ->.
  set (past' := foldl add_bytes (past_conns_map (inner s)) (option_list (archived cm (k, st)))).
  set (s1 := set_inner (set_past past' (inner s)) (set_kmap fd (delete k (kmaps s fd)) s)).
  assert (ignore_fail (handle_inactive_connection cm k) s = (Ok (), s1)) as Hstep.
  { unfold ignore_fail, handle_inactive_connection. rewrite Hfd, Hks, Hdel.
    unfold s1, past', archived. cbn [fst snd].
    destruct (build_connection cm k); [done|]. by destruct s as [[]]. }
  destruct (IH s1) as (s' & Hw & Hin & Hkm & Hother).
  - done.
  - done.
  - intros p Hp. simpl. rewrite decide_True by done. rewrite lookup_delete_ne.
    + apply Hl. set_solver.
    + intros ->. apply Hk. set_solver.
  - exists s'. cbn [poll_write]. split_and!.
    + unfold mbind, M_bind. by rewrite Hstep.
    + rewrite Hin. simpl. unfold past'. cbn [omap list_omap].
      destruct (archived cm (k, st)); done.
    + rewrite Hkm. simpl. by rewrite decide_True.
    + intros fd' Hfd'. rewrite Hother by done. simpl. by rewrite decide_False.
Qed.

Lemma foldl_delete_lookup (ks : list ConnectionKey) (m : gmap ConnectionKey ConnectionStats) k :
  foldl (λ m k, delete k m) m ks !! k = if decide (k ∈ ks) then None else m !! k.
Proof.
  revert m. induction ks as [|k' ks IH]; intros m; cbn [foldl].
  { by rewrite decide_False by apply not_elem_of_nil. }
  rewrite IH, lookup_delete. repeat case_decide; set_solver.
Qed.

(** Removing the inactive entries keeps the active ones. *)
Lemma foldl_delete_inactive (m : gmap ConnectionKey ConnectionStats) l :
  l ≡ₚ map_to_list m →
  foldl (λ m k, delete k m) m (filter (λ p, ¬ active p) l).*1 = filter active m.
Proof.
  intros Hl. apply map_eq. intros k. rewrite foldl_delete_lookup.
  destruct (m !! k) as [st|] eqn:Hk.
  - assert ((k, st) ∈ l) as Hin by (rewrite Hl; by apply elem_of_map_to_list).
    case_decide as Hd.
    + apply list_elem_of_fmap in Hd as ([k' st'] & -> & Hf). simpl in *.
      apply list_elem_of_filter in Hf as [Hna Hin']. rewrite Hl in Hin'.
      apply elem_of_map_to_list in Hin'. simplify_eq. symmetry.
      apply map_lookup_filter_None. right. intros x Hx. by simplify_eq.
    + symmetry. apply map_lookup_filter_Some. split; [done|].
      destruct (decide (active (k, st))); [done|]. exfalso. apply Hd.
      apply list_elem_of_fmap. exists (k, st). split; [done|]. by apply list_elem_of_filter.
  - rewrite (proj2 (map_lookup_filter_None active m k) (or_introl Hk)). by case_decide.
Qed.

Lemma all_u64_omap (f : ConnectionKey * ConnectionStats → option (Connection * Z)) l :
  (∀ p q, f p = Some q → q.2 = bytes_sent p.2) →
  Forall (λ p, in_u 64 (bytes_sent p.2)) l → all_u64 (omap f l).
Proof.
  intros Hf Hl. unfold all_u64. induction Hl as [|p l Hp Hl IH]; [done|].
  simpl. destruct (f p) as [q|] eqn:Hq; [|done]. constructor; [|done]. by rewrite (Hf _ _ Hq).
Qed.

Lemma reported_bytes cm p q : reported cm p = Some q → q.2 = bytes_sent p.2.
Proof. unfold reported. repeat case_match; intros; by simplify_eq. Qed.

Lemma archived_bytes cm p q : archived cm p = Some q → q.2 = bytes_sent p.2.
Proof. unfold archived. repeat case_match; intros; by simplify_eq. Qed.
End poll_lemmas.

(** ** Runs of [poll] *)

(** The iterator lists the map without an error, in some order. *)
Definition aya_lists (aya_iter : gmap ConnectionKey ConnectionStats →
    list (result Z (ConnectionKey * ConnectionStats))) (m : gmap ConnectionKey ConnectionStats) : Prop :=
  ∃ l, aya_iter m = Ok <$> l ∧ l ≡ₚ map_to_list m.

Definition counters_ok (m : gmap ConnectionKey ConnectionStats) : Prop :=
  map_Forall (λ _ st, in_u 64 (bytes_sent st)) m.

(** The program is initialised: it has a map and a cache manager. *)
Definition attached (s : SM) (fd : MapFd) (h : CacheHandle) : Prop :=
  current_conns_map (inner s) = Some fd ∧ cache_mgr (inner s) = Some h.

(** Everything this program knows about a connection's bytes: what is archived
    and what is still in the kernel map. *)
Definition known_bytes (cm : CacheManager) (s : SM) (fd : MapFd) (c : Connection) : Z :=
  default 0 (past_conns_map (inner s) !! c) +
  sum_for c (omap (archived cm) (map_to_list (kmaps s fd))).

Section poll_runs.
Context `{HI : HashIter} {BC : BpfMap ConnectionKey ConnectionStats} `{!HashLaws BC}.
Context (aya_iter : gmap ConnectionKey ConnectionStats →
                    list (result Z (ConnectionKey * ConnectionStats))).
Context (caches : CacheHandle → CacheManager).

Lemma counters_ok_list m l :
  counters_ok m → l ≡ₚ map_to_list m → Forall (λ p, in_u 64 (bytes_sent p.2)) l.
Proof.
  intros Hm Hl. rewrite Hl. apply Forall_forall. intros [k st] Hin.
  apply elem_of_map_to_list in Hin. by apply Hm in Hin.
Qed.

Lemma past_ok_list (m : gmap Connection Z) :
  map_Forall (λ _ n, in_u 64 n) m → all_u64 (hm_iter m).
Proof.
  intros Hm. apply Forall_forall. intros [c n] Hin. apply elem_of_hm_iter in Hin.
  by apply Hm in Hin.
Qed.

Lemma poll_run s fd h :
  attached s fd h → aya_lists aya_iter (kmaps s fd) →
  ∃ l s', l ≡ₚ map_to_list (kmaps s fd) ∧
    poll aya_iter caches s =
      (Ok (foldl add_bytes (foldl add_bytes ∅ (omap (reported (caches h)) l))
             (hm_iter (past_conns_map (inner s)))), s') ∧
    inner s' = set_past (foldl add_bytes (past_conns_map (inner s))
                 (omap (archived (caches h)) (filter (λ p, ¬ active p) l))) (inner s) ∧
    kmaps s' fd = filter active (kmaps s fd) ∧
    (∀ fd', fd' ≠ fd → kmaps s' fd' = kmaps s fd').
Proof.
  intros [Hfd Hh] (l & Hit & Hl). exists l.
  destruct (poll_write_ok (caches h) (filter (λ p, ¬ active p) l) s fd)
    as (s' & Hw & Hin & Hkm & Hoth); [done| | |].
  - eapply sublist_NoDup; [|apply fmap_sublist, sublist_filter].
    rewrite Hl. apply NoDup_fst_map_to_list.
  - intros [k st] Hp. apply list_elem_of_filter in Hp as [_ Hp]. rewrite Hl in Hp.
    by apply elem_of_map_to_list in Hp.
  - exists s'. split_and!; [done| |done| |done].
    + unfold poll, poll_read, mbind, result_bind. rewrite Hfd, Hh. cbn [ok_or].
      rewrite Hit, poll_items_ok. unfold M_bind. simpl. by rewrite Hw.
    + rewrite Hkm. by apply foldl_delete_inactive.
Qed.

Lemma poll_lookups s fd h :
  attached s fd h → aya_lists aya_iter (kmaps s fd) → counters_ok (kmaps s fd) →
  map_Forall (λ _ n, in_u 64 n) (past_conns_map (inner s)) →
  let past := past_conns_map (inner s) in
  let rep := omap (reported (caches h)) (map_to_list (kmaps s fd)) in
  let arch := omap (archived (caches h))
                (filter (λ p, ¬ active p) (map_to_list (kmaps s fd))) in
  ∃ m s' past', poll aya_iter caches s = (Ok m, s') ∧
    (∀ c, m !! c = if decide (c ∈ rep.*1 ∨ is_Some (past !! c))
                   then Some (as_u64 (sum_for c rep + default 0 (past !! c))) else None) ∧
    inner s' = set_past past' (inner s) ∧
    (∀ c, past' !! c = if decide (c ∈ arch.*1)
                       then Some (as_u64 (default 0 (past !! c) + sum_for c arch))
                       else past !! c) ∧
    kmaps s' fd = filter active (kmaps s fd) ∧
    (∀ fd', fd' ≠ fd → kmaps s' fd' = kmaps s fd').
Proof.
  intros Hat Hlists Hc Hpast past rep arch.
  destruct (poll_run s fd h Hat Hlists) as (l & s' & Hl & Hrun & Hin & Hkm & Hoth).
  pose proof (counters_ok_list _ _ Hc Hl) as Hu.
  assert (omap (reported (caches h)) l ≡ₚ rep) as Hrep by (unfold rep; by rewrite Hl).
  assert (omap (archived (caches h)) (filter (λ p, ¬ active p) l) ≡ₚ arch) as Harch
    by (unfold arch; by rewrite Hl).
  do 3 eexists. split_and!; [exact Hrun| |exact Hin| |exact Hkm|exact Hoth].
  - intros c.
    rewrite (foldl_add_bytes_perm _ (map_to_list past))
      by (done || apply hm_iter_perm || by apply past_ok_list).
    rewrite (foldl_add_bytes_perm _ rep)
      by (done || by apply all_u64_omap; [apply reported_bytes|]).
    rewrite lookup_empty, sum_for_map_to_list.
    assert (c ∈ (map_to_list past).*1 ↔ is_Some (past !! c)) as Hdom.
    { rewrite <- (hm_iter_perm past), list_elem_of_fmap. split.
      - intros ([c' n] & -> & Hn). apply elem_of_hm_iter in Hn. eauto.
      - intros [n Hn]. exists (c, n). split; [done|]. by apply elem_of_hm_iter. }
    destruct (decide (c ∈ (map_to_list past).*1)) as [Hp|Hp];
      destruct (decide (c ∈ rep.*1)) as [Hr|Hr].
    + rewrite decide_True by tauto. simpl. by rewrite Z.add_0_l, wrapu_add_l.
    + rewrite decide_True by tauto. by rewrite sum_for_notin by done.
    + rewrite decide_True by tauto. rewrite Hdom in Hp.
      destruct (past !! c); [by destruct Hp|]. simpl. by rewrite Z.add_0_l, Z.add_0_r.
    + by rewrite decide_False by tauto.
  - intros c. apply foldl_add_bytes_perm; [done|].
    apply all_u64_omap; [apply archived_bytes|]. apply Forall_forall.
    intros p Hp. apply list_elem_of_filter in Hp as [_ Hp].
    by apply (proj1 (Forall_forall _ _) Hu).
Qed.

(** C1: with a map and a cache manager, [poll] returns, and what it reports
    does not depend on iteration order: a connection is reported exactly when
    an active, non-local entry resolves to it or it is archived, with the sum
    modulo 2^64 of both; the kernel map keeps exactly its active entries, the
    archive gains the bytes of the inactive ones that resolve, and nothing else
    changes. *)
Theorem poll_spec s fd h :
  attached s fd h → aya_lists aya_iter (kmaps s fd) → counters_ok (kmaps s fd) →
  map_Forall (λ _ n, in_u 64 n) (past_conns_map (inner s)) →
  let past := past_conns_map (inner s) in
  let rep := omap (reported (caches h)) (map_to_list (kmaps s fd)) in
  let arch := omap (archived (caches h))
                (filter (λ p, ¬ active p) (map_to_list (kmaps s fd))) in
  ∃ m s' past', poll aya_iter caches s = (Ok m, s') ∧
    (∀ c, m !! c = if decide (c ∈ rep.*1 ∨ is_Some (past !! c))
                   then Some (as_u64 (sum_for c rep + default 0 (past !! c))) else None) ∧
    inner s' = set_past past' (inner s) ∧
    (∀ c, past' !! c = if decide (c ∈ arch.*1)
                       then Some (as_u64 (default 0 (past !! c) + sum_for c arch))
                       else past !! c) ∧
    kmaps s' fd = filter active (kmaps s fd) ∧
    (∀ fd', fd' ≠ fd → kmaps s' fd' = kmaps s fd').
Proof. apply poll_lookups. Qed.

(** [poll] loses and invents no bytes: for each connection, the archived
    bytes plus those of the kernel entries that resolve to it are the same
    before and after, modulo 2^64. *)
Lemma poll_conserves_bytes s fd h c m s' :
  attached s fd h → aya_lists aya_iter (kmaps s fd) → counters_ok (kmaps s fd) →
  poll aya_iter caches s = (Ok m, s') →
  as_u64 (known_bytes (caches h) s' fd c) = as_u64 (known_bytes (caches h) s fd c).
Proof.
  intros Hat Hlists Hc Hrun.
  destruct (poll_run s fd h Hat Hlists) as (l & s1 & Hl & Hrun' & Hin & Hkm & _).
  rewrite Hrun in Hrun'. simplify_eq. unfold known_bytes.
  rewrite Hin, Hkm. simpl.
  assert (map_to_list (kmaps s fd) ≡ₚ
    map_to_list (filter active (kmaps s fd)) ++ filter (λ p, ¬ active p) l) as ->.
  { rewrite map_to_list_filter, Hl. symmetry. apply filter_app_complement. }
  rewrite omap_app, sum_for_app.
  set (arch := omap (archived (caches h)) (filter (λ p, ¬ active p) l)).
  rewrite foldl_add_bytes_lookup.
  - case_decide as Hd; simpl.
    + rewrite wrapu_add_l. f_equal. lia.
    + rewrite (sum_for_notin c arch) by done. f_equal. lia.
  - apply all_u64_omap; [apply archived_bytes|]. apply Forall_forall.
    intros p Hp. apply list_elem_of_filter in Hp as [_ Hp].
    by apply (proj1 (Forall_forall _ _) (counters_ok_list _ _ Hc Hl)).
Qed.

Lemma omap_reported_active cm (l : list (ConnectionKey * ConnectionStats)) :
  omap (reported cm) (filter active l) = omap (reported cm) l.
Proof.
  induction l as [|p l IH]; [done|]. rewrite filter_cons. cbn [omap list_omap].
  case_decide as Ha; cbn [omap list_omap]; [by rewrite IH|].
  assert (reported cm p = None) as ->; [|done].
  unfold reported. unfold active in Ha. apply Z.eqb_neq in Ha. by rewrite Ha.
Qed.

(** A connection whose entries have all become inactive is missing from
    the report of the poll that archives them, and is reported again, with
    their bytes, by the next one. *)
Lemma closed_connection_reported_late s fd h c m s' m' s'' :
  attached s fd h →
  aya_lists aya_iter (kmaps s fd) → aya_lists aya_iter (kmaps s' fd) →
  counters_ok (kmaps s fd) → map_Forall (λ _ n, in_u 64 n) (past_conns_map (inner s)) →
  past_conns_map (inner s) !! c = None →
  let arch := omap (archived (caches h)) (filter (λ p, ¬ active p) (map_to_list (kmaps s fd))) in
  c ∉ (omap (reported (caches h)) (map_to_list (kmaps s fd))).*1 → c ∈ arch.*1 →
  poll aya_iter caches s = (Ok m, s') → poll aya_iter caches s' = (Ok m', s'') →
  m !! c = None ∧ m' !! c = Some (as_u64 (sum_for c arch)).
Proof.
  intros [Hfd Hh] Hl1 Hl2 Hc Hpast Hnone arch Hrep Harch Hp1 Hp2.
  destruct (poll_lookups s fd h) as (m1 & s1 & past1 & Hr1 & Hm1 & Hin1 & Hpl1 & Hkm1 & _);
    [done..|]. rewrite Hp1 in Hr1. simplify_eq. fold arch in Hpl1.
  assert (attached s1 fd h) as Hat1 by (unfold attached; by rewrite Hin1).
  assert (map_Forall (λ _ n, in_u 64 n) past1) as Hpast1.
  { intros c' n Hn. rewrite Hpl1 in Hn. case_decide; [|by apply Hpast in Hn].
    simplify_eq. apply wrapu_range. lia. }
  destruct (poll_lookups s1 fd h) as (m2 & s2 & past2 & Hr2 & Hm2 & _); [done|done| | |].
  { rewrite Hkm1. intros k st [Hk _]%map_lookup_filter_Some. by apply Hc in Hk. }
  { by rewrite Hin1. }
  rewrite Hp2 in Hr2. simplify_eq. split.
  - rewrite Hm1, Hnone, decide_False; [done|]. intros [?|[? ?]]; done.
  - assert (past1 !! c = Some (as_u64 (0 + sum_for c arch))) as Hpc.
    { rewrite Hpl1, decide_True by done. by rewrite Hnone. }
    rewrite Hm2, Hin1. simpl. rewrite Hpc, decide_True by eauto. simpl.
    rewrite wrapu_add_r, Hkm1. do 2 f_equal. rewrite sum_for_notin; [lia|].
    rewrite map_to_list_filter, omap_reported_active. done.
Qed.
End poll_runs.

(** ** The methods of the trait *)

(** What [init] asks of the system: whether bpfman's map directory exists, the
    map pinned at a path below it, and whether it is a hash map. *)
Record PinFs := {
  RTDIR_FS_MAPS : string;
  rtdir_exists : bool;
  from_pin : string → result Z MapFd;
  is_hash_map : MapFd → bool }.

Definition ServiceMap_init (fs : PinFs) (md : gmap string string) (cm : CacheHandle)
    (maps : gmap string Z) (i : Inner) : result Error unit * Inner :=
  let i1 := {| in_name := in_name i; program_type := program_type i;
               program_state := program_state i; ebpf_maps := maps; metadata := md;
               current_conns_map := current_conns_map i; past_conns_map := past_conns_map i;
               cache_mgr := Some cm |} in
  match maps !! "CONNECTIONS" with
  | None => (Err (Msg "No map named CONNECTIONS in the provided maps"), i1)
  | Some prog_id =>
      if negb (rtdir_exists fs) then (Err (Msg (RTDIR_FS_MAPS fs +:+ " does not exist")), i1)
      else match from_pin fs (display_u prog_id +:+ "/" +:+ "CONNECTIONS") with
           | Err _ => (Err (Msg "No maps named CONNECTIONS"), i1)
           | Ok map_data =>
               if is_hash_map fs map_data then (Ok (), set_current (Some map_data) i1)
               else (Err (Msg "Failed to convert map"), i1)
           end
  end.

(** The polling period: the [interval] metadata when it parses. *)
Definition start_interval (i : Inner) : Z :=
  default DEFAULT_INTERVAL (metadata i !! "interval" ≫= parse_u64).

(** [time::interval] panics on a zero period. *)
Definition ServiceMap_start_begin (i : Inner) : result Failure unit :=
  if start_interval i =? 0 then Err (Panic "`period` must be non-zero.") else Ok ().

Definition ServiceMap_stop (i : Inner) : result Error unit * Inner := (Ok (), reset i).

Definition ServiceMap_get_program_info (i : Inner) : result Error ProgramInfo :=
  pt ← map_err FromParse (ProgramType_into_u32 (program_type i));
  st ← map_err FromParse (ProgramState_into_u32 (program_state i));
  Ok {| pi_name := in_name i; pi_program_type := pt; pi_state := st; pi_bytecode := None;
        pi_ebpf_maps := ebpf_maps i; pi_metadata := metadata i |}.

Record Labels := {
  conn_id : string;
  client_id : string; client_name : string; client_namespace : string; client_kind : string;
  server_id : string; server_name : string; server_namespace : string; server_kind : string;
  l_server_port : string; l_role : string }.

Global Instance Labels_eq_dec : EqDecision Labels.
Proof. solve_decision. Defined.

Definition labels_tuple (l : Labels) :=
  (conn_id l, client_id l, client_name l, client_namespace l, client_kind l,
   server_id l, server_name l, server_namespace l, server_kind l, l_server_port l, l_role l).
Definition labels_untuple t : Labels :=
  let '(a, b, c, d, e, f, g, h, i, j, k) := t in
  {| conn_id := a; client_id := b; client_name := c; client_namespace := d; client_kind := e;
     server_id := f; server_name := g; server_namespace := h; server_kind := i;
     l_server_port := j; l_role := k |}.
Lemma labels_untuple_tuple l : labels_untuple (labels_tuple l) = l.
Proof. by destruct l. Qed.
Global Instance Labels_countable : Countable Labels :=
  inj_countable' labels_tuple labels_untuple labels_untuple_tuple.

Section program.
Context `{HI : HashIter} {BC : BpfMap ConnectionKey ConnectionStats}.
Context (aya_iter : gmap ConnectionKey ConnectionStats →
                    list (result Z (ConnectionKey * ConnectionStats))).
Context (caches : CacheHandle → CacheManager).
Context (fs : PinFs).
(** The 64-bit hash of the [fnv] crate, and the metrics encoder. *)
Context (fnv64 : string → Z).
Context (encode_metric : gmap Labels Z → result Error unit).

(** [hasher.finish() as u32] *)
Definition fnv_hash (s : string) : Z := as_u32 (fnv64 s).

Definition labels_of (conn : Connection) : Labels := {|
  conn_id := hex_u32 (fnv_hash (wl_name (client conn) +:+ wl_namespace (client conn) +:+
                                wl_name (server conn) +:+ wl_namespace (server conn)));
  client_id := hex_u32 (fnv_hash (wl_name (client conn) +:+ wl_namespace (client conn)));
  client_name := wl_name (client conn);
  client_namespace := wl_namespace (client conn);
  client_kind := wl_kind (client conn);
  server_id := hex_u32 (fnv_hash (wl_name (server conn) +:+ wl_namespace (server conn)));
  server_name := wl_name (server conn);
  server_namespace := wl_namespace (server conn);
  server_kind := wl_kind (server conn);
  l_server_port := display_u (server_port conn);
  l_role := display_u (role conn) |}.

(** The gauge family: each connection's gauge is set to [value as i64]. *)
Definition conn_metric (conns : gmap Connection Z) : gmap Labels Z :=
  foldl (λ f p, <[labels_of p.1 := as_i64 p.2]> f) ∅ (hm_iter conns).

Definition ServiceMap_collect (s : SM) : result Failure unit * SM :=
  match poll aya_iter caches s with
  | (Ok conns, s') => (map_err Fail (encode_metric (conn_metric conns)), s')
  | (Err e, s') => (Err e, s')
  end.

(** One turn of the loop of [start]; [Some ()] leaves the loop. *)
Definition ServiceMap_start_step (ev : StartEvent) (s : SM) : result Failure (option unit) * SM :=
  match ev with
  | Tick => match poll aya_iter caches s with
            | (Ok _, s') => (Ok None, s')
            | (Err e, s') => (Err e, s')
            end
  | Recv All => (Ok (Some ()), s)
  | Recv (ProgramName name) =>
      if decide (name = in_name (inner s)) then (Ok (Some ()), s) else (Ok None, s)
  | RecvError => (Ok None, s)
  end.

Definition KMaps : Type := MapFd → gmap ConnectionKey ConnectionStats.

Definition with_world {A} (f : SM → A * SM) (pw : Inner * KMaps) : A * (Inner * KMaps) :=
  let '(r, s') := f {| inner := pw.1; kmaps := pw.2 |} in (r, (inner s', kmaps s')).

(** [impl Program for ServiceMap] *)
Global Instance ServiceMap_program : Program Inner KMaps := {|
  init := ServiceMap_init fs;
  start_begin := ServiceMap_start_begin;
  start_step := λ ev, with_world (ServiceMap_start_step ev);
  stop := ServiceMap_stop;
  collect := with_world ServiceMap_collect;
  get_name := in_name;
  get_state := program_state;
  set_state := set_program_state;
  get_type := program_type;
  get_metadata := metadata;
  set_metadata := set_inner_metadata;
  get_program_info := ServiceMap_get_program_info
|}.

(** [poll] changes nothing of [Inner] but the archive. *)
Definition only_past (s s' : SM) : Prop := ∃ p, inner s' = set_past p (inner s).

Global Instance only_past_preorder : PreOrder only_past.
Proof.
  split.
  - intros s. exists (past_conns_map (inner s)). by destruct s as [[]].
  - intros s1 s2 s3 [p Hp] [q Hq]. exists q. by rewrite Hq, Hp.
Qed.

Lemma handle_inactive_only_past cm key : stable only_past (handle_inactive_connection cm key).
Proof.
  intros s. unfold state_of, handle_inactive_connection.
  assert (∀ m fd, only_past s (set_kmap fd m s)) as Hk.
  { intros. exists (past_conns_map (inner s)). by destruct s as [[]]. }
  repeat case_match; simpl; solve [reflexivity | apply Hk | eexists; reflexivity].
Qed.

Lemma poll_write_only_past cm keys : stable only_past (poll_write cm keys).
Proof.
  induction keys as [|key keys IH]; simpl; [apply stable_ret; apply _|].
  apply stable_bind; [apply _| |done].
  intros s. pose proof (handle_inactive_only_past cm key s) as H. revert H.
  unfold state_of, ignore_fail. by destruct (handle_inactive_connection cm key s) as [[|[]] ?].
Qed.

Lemma poll_only_past : stable only_past (poll aya_iter caches).
Proof.
  intros s. unfold state_of, poll. destruct (poll_read _ _ s) as [[[cm keys] cur]|e]; [|reflexivity].
  apply (stable_bind only_past (poll_write cm keys) (λ _, mret cur));
    [apply poll_write_only_past|]. intros. apply stable_ret. apply _.
Qed.

Lemma only_past_identity s s' : only_past s s' → same_identity (inner s) (inner s').
Proof. intros [p Hp]. unfold same_identity. simpl. by rewrite Hp. Qed.

Lemma poll_identity s : same_identity (inner s) (inner (poll aya_iter caches s).2).
Proof. apply only_past_identity, (poll_only_past s). Qed.

Global Instance ServiceMap_program_laws : ProgramLaws Inner KMaps.
Proof.
  split; try done; intros; simpl.
  - unfold ServiceMap_init. repeat case_match; done.
  - unfold with_world. destruct ev as [|[|name]|]; simpl; try done.
    + pose proof (poll_identity {| inner := p; kmaps := w |}) as H. revert H.
      by destruct (poll _ _ _) as [[|] ?].
    + by case_decide.
  - unfold with_world, ServiceMap_collect.
    pose proof (poll_identity {| inner := p; kmaps := w |}) as H. revert H.
    by destruct (poll _ _ _) as [[|] ?].
  - unfold with_world. destruct H as [->| ->]; simpl; [done|]. by rewrite decide_True.
  - unfold get_program_info, ServiceMap_program, ServiceMap_get_program_info in H.
    destruct (ProgramType_into_u32 (program_type p)) eqn:E1; [|done].
    destruct (ProgramState_into_u32 (program_state p)) eqn:E2; [|done].
    by simplify_eq/=.
Qed.

(** *** Errors of [poll] *)

(** The write phase cannot fail while the map is attached. *)
Lemma poll_write_total cm keys s fd :
  current_conns_map (inner s) = Some fd → ∃ s', poll_write cm keys s = (Ok (), s').
Proof.
  revert s. induction keys as [|key keys IH]; intros s Hfd; [by exists s|].
  cbn [poll_write]. unfold mbind, M_bind.
  pose proof (handle_inactive_only_past cm key s) as Hp. unfold state_of in Hp.
  assert (∃ s1, ignore_fail (handle_inactive_connection cm key) s = (Ok (), s1) ∧
                only_past s s1) as (s1 & -> & [p Hs1]).
  { unfold ignore_fail. unfold handle_inactive_connection in *. rewrite Hfd in *.
    repeat case_match; simplify_eq/=; eauto. }
  apply IH. by rewrite Hs1.
Qed.

(** [poll] never panics by itself, and when it returns an error nothing has
    changed: there is no map, no cache manager, or the iteration of the kernel
    map failed. *)
Lemma poll_error_unchanged s f s' :
  poll aya_iter caches s = (Err f, s') →
  s' = s ∧
  ((current_conns_map (inner s) = None ∧ f = Fail (Msg "No current connections map")) ∨
   (is_Some (current_conns_map (inner s)) ∧ cache_mgr (inner s) = None ∧
    f = Fail (Msg "No cache manager")) ∨
   (∃ fd h e, attached s fd h ∧ f = Fail e ∧
      poll_items (caches h) (aya_iter (kmaps s fd)) [] ∅ = Err e)).
Proof.
  unfold poll, poll_read, mbind, result_bind.
  destruct (current_conns_map (inner s)) as [fd|] eqn:Hfd; simpl.
  2: { intros. simplify_eq. auto. }
  destruct (cache_mgr (inner s)) as [h|] eqn:Hh; simpl.
  2: { intros. simplify_eq. split; [done|]. right. left. eauto. }
  destruct (poll_items (caches h) _ _ _) as [[keys cur]|e] eqn:Hit.
  - destruct (poll_write_total (caches h) keys s fd Hfd) as [s1 Hw].
    unfold M_bind. rewrite Hw. done.
  - intros. simplify_eq. split; [done|]. right. right. exists fd, h, e. split; done.
Qed.

(** A [stop] between the two lock sections of [poll] panics the poller
    exactly when the kernel map had an inactive entry: the map handle that is
    unwrapped for it is gone. *)
Lemma poll_stop_race_panics s fd h cm keys m :
  attached s fd h → aya_lists aya_iter (kmaps s fd) →
  poll_read aya_iter caches s = Ok (cm, keys, m) →
  (∃ why s', poll_write cm keys (set_inner (ServiceMap_stop (inner s)).2 s) = (Err (Panic why), s'))
  ↔ ∃ k st, kmaps s fd !! k = Some st ∧ is_active st ≠ 1.
Proof using Type.
  intros [Hfd Hh] (l & Hit & Hl). unfold poll_read, mbind, result_bind. rewrite Hfd, Hh.
  cbn [ok_or]. rewrite Hit, poll_items_ok. intros Heq. simplify_eq/=.
  split.
  - intros (why & s' & Hw).
    destruct (filter (λ p, ¬ active p) l) as [|[k st] l'] eqn:Hf; [done|].
    assert ((k, st) ∈ filter (λ p, ¬ active p) l) as Hin by (rewrite Hf; constructor).
    apply list_elem_of_filter in Hin as [Ha Hin]. rewrite Hl in Hin.
    apply elem_of_map_to_list in Hin. by exists k, st.
  - intros (k & st & Hk & Ha).
    assert ((k, st) ∈ filter (λ p, ¬ active p) l) as Hin.
    { apply list_elem_of_filter. split; [done|]. rewrite Hl. by apply elem_of_map_to_list. }
    destruct (filter (λ p, ¬ active p) l) as [|p l']; [by apply not_elem_of_nil in Hin|].
    do 2 eexists. reflexivity.
Qed.

(** *** Metrics *)

Definition conn_ports_ok (c : Connection) : Prop := 0 ≤ server_port c ∧ 0 ≤ role c.

Lemma labels_of_inj c c' :
  conn_ports_ok c → conn_ports_ok c' → labels_of c = labels_of c' → c = c'.
Proof.
  destruct c as [[n1 ns1 k1] [n2 ns2 k2] r p], c' as [[n1' ns1' k1'] [n2' ns2' k2'] r' p'].
  unfold labels_of, conn_ports_ok. simpl. intros [Hp Hr] [Hp' Hr'] Heq.
  injection Heq as _ _ -> -> -> _ -> -> -> Heqp Heqr.
  apply display_u_inj in Heqp as ->; [|done..]. by apply display_u_inj in Heqr as ->.
Qed.

Lemma conn_metric_lookup (l : list (Connection * Z)) c v :
  Forall (λ p, conn_ports_ok p.1) l → NoDup l.*1 → (c, v) ∈ l →
  foldl (λ f p, <[labels_of p.1 := as_i64 p.2]> f) (∅ : gmap Labels Z) l !! labels_of c
  = Some (as_i64 v).
Proof.
  induction l as [|[c' v'] l IH] using rev_ind; intros Hok Hnd Hin.
  { by apply not_elem_of_nil in Hin. }
  rewrite foldl_snoc. cbn [fst snd]. apply Forall_app in Hok as [Hok Hc'].
  rewrite Forall_singleton in Hc'. rewrite fmap_app in Hnd. apply NoDup_app in Hnd as (Hnd & Hdis & _).
  apply elem_of_app in Hin as [Hin|Hin].
  - rewrite lookup_insert_ne; [by apply IH|]. intros Heq.
    assert (conn_ports_ok c) as Hc by apply (proj1 (Forall_forall _ _) Hok (c, v) Hin).
    apply labels_of_inj in Heq; [|done..]. subst.
    apply (Hdis c); [|set_solver]. apply list_elem_of_fmap. by exists (c, v).
  - apply list_elem_of_singleton in Hin. simplify_eq. apply lookup_insert_eq.
Qed.

(** Every polled connection gets its own gauge: the label sets of
    different connections differ, and each gauge holds the connection's bytes
    as an [i64]. *)
Lemma collect_one_gauge_per_connection (conns : gmap Connection Z) :
  map_Forall (λ c _, conn_ports_ok c) conns →
  (∀ c v, conns !! c = Some v → conn_metric conns !! labels_of c = Some (as_i64 v)) ∧
  (∀ c c' v v', conns !! c = Some v → conns !! c' = Some v' → c ≠ c' →
     labels_of c ≠ labels_of c').
Proof.
  intros Hok. split.
  - intros c v Hc. unfold conn_metric. apply conn_metric_lookup.
    + apply Forall_forall. intros [c' v'] Hin. apply elem_of_hm_iter in Hin.
      by apply Hok in Hin.
    + apply NoDup_fst_hm_iter.
    + by apply elem_of_hm_iter.
  - intros c c' v v' Hc Hc' Hne Heq. apply Hne.
    apply labels_of_inj; [by eapply Hok|by eapply Hok|done].
Qed.

(** *** Initialisation *)

(** [init] attaches the map pinned for the program that owns CONNECTIONS
    and succeeds exactly when that program is named, the directory exists and
    the pin is a hash map; in every case the name, type and state are kept and
    the metadata, maps and cache manager of the request are stored. *)
Lemma init_spec md cm maps (i i' : Inner) r :
  ServiceMap_init fs md cm maps i = (r, i') →
  same_identity i i' ∧ metadata i' = md ∧ ebpf_maps i' = maps ∧ cache_mgr i' = Some cm ∧
  past_conns_map i' = past_conns_map i ∧
  (r = Ok () ↔ ∃ prog_id fd,
     maps !! "CONNECTIONS" = Some prog_id ∧ rtdir_exists fs = true ∧
     from_pin fs (display_u prog_id +:+ "/" +:+ "CONNECTIONS") = Ok fd ∧
     is_hash_map fs fd = true) ∧
  (r = Ok () → ∃ prog_id fd, maps !! "CONNECTIONS" = Some prog_id ∧
     from_pin fs (display_u prog_id +:+ "/" +:+ "CONNECTIONS") = Ok fd ∧
     current_conns_map i' = Some fd) ∧
  (is_ok r = false → current_conns_map i' = current_conns_map i).
Proof.
  unfold ServiceMap_init. intros Hi.
  destruct (maps !! "CONNECTIONS") as [pid|] eqn:Hm.
  2: { simplify_eq/=. split_and!; try done. split; [done|]. intros (? & ? & ? & _). congruence. }
  destruct (rtdir_exists fs) eqn:Hrt.
  2: { simplify_eq/=. split_and!; try done. split; [done|]. intros (? & ? & ? & ? & _). congruence. }
  cbn [negb] in Hi.
  destruct (from_pin fs (display_u pid +:+ "/" +:+ "CONNECTIONS")) as [fd0|e] eqn:Hpin.
  2: { simplify_eq/=. split_and!; try done. split; [done|]. intros (? & ? & ? & ? & ? & _).
       simplify_eq. congruence. }
  destruct (is_hash_map fs fd0) eqn:Hh; simplify_eq/=; split_and!; try done.
  - split; [|done]. intros _. by exists pid, fd0.
  - intros _. by exists pid, fd0.
  - split; [done|]. intros (? & ? & ? & ? & ? & ?). simplify_eq. congruence.
Qed.

(** *** The loop of [start] *)

(** The events seen by the loop so far: [None] while it is still running. *)
Fixpoint start_loop (evs : list StartEvent) (s : SM) : result Failure (option unit) * SM :=
  match evs with
  | [] => (Ok None, s)
  | ev :: rest =>
      match ServiceMap_start_step ev s with
      | (Ok None, s') => start_loop rest s'
      | r => r
      end
  end.

Definition stops (name : string) (ev : StartEvent) : bool :=
  match ev with
  | Recv All => true
  | Recv (ProgramName n) => bool_decide (n = name)
  | _ => false
  end.

Lemma start_step_name ev s :
  in_name (inner (ServiceMap_start_step ev s).2) = in_name (inner s).
Proof.
  destruct ev as [|[|name]|]; simpl; try done; [|by case_decide].
  pose proof (poll_identity s) as (H & _). revert H.
  by destruct (poll _ _ _) as [[|] ?].
Qed.

(** The loop of [start] leaves with [Ok] exactly when the first stopping
    signal (for all programs, or for this program's name) arrives before any
    poll fails; a signal for another program or a lagging receiver never stops
    it. *)
Lemma start_stops_on_signal evs s s' :
  start_loop evs s = (Ok (Some ()), s') ↔
  ∃ pre ev rest, evs = pre ++ ev :: rest ∧ stops (in_name (inner s)) ev = true ∧
    Forall (λ e, stops (in_name (inner s)) e = false) pre ∧ start_loop pre s = (Ok None, s').
Proof.
  revert s. induction evs as [|ev evs IH]; intros s; cbn [start_loop].
  { split; [done|]. intros (pre & ev & rest & Heq & _). by destruct pre. }
  pose proof (start_step_name ev s) as Hn.
  destruct (ServiceMap_start_step ev s) as [[[[]|]|e] s1] eqn:Hs; simpl in Hn.
  - (* leaves here *)
    assert (stops (in_name (inner s)) ev = true ∧ s1 = s) as [Hst ->].
    { destruct ev as [|[|n]|]; simpl in *; repeat case_match; simplify_eq; try done.
      by rewrite bool_decide_eq_true_2. }
    split.
    + intros. simplify_eq. exists [], ev, evs. split_and!; done || constructor.
    + intros (pre & ev' & rest & Heq & Hst' & Hpre & Hrun). destruct pre as [|e pre].
      * by simplify_eq/=.
      * apply Forall_cons in Hpre as [He _]. simplify_eq/=. congruence.
  - assert (stops (in_name (inner s)) ev = false) as Hst.
    { destruct ev as [|[|n]|]; simpl in *; repeat case_match; simplify_eq; try done.
      by rewrite bool_decide_eq_false_2. }
    rewrite IH, Hn. split.
    + intros (pre & ev' & rest & -> & Hst' & Hpre & Hrun). exists (ev :: pre), ev', rest.
      split_and!; [done|done|by constructor|]. cbn [start_loop]. by rewrite Hs.
    + intros (pre & ev' & rest & Heq & Hst' & Hpre & Hrun). destruct pre as [|e pre].
      * simplify_eq/=. congruence.
      * apply Forall_cons in Hpre as [_ Hpre]. simplify_eq/=. exists pre, ev', rest.
        rewrite Hs in Hrun. done.
  - split; [done|]. intros (pre & ev' & rest & Heq & Hst' & Hpre & Hrun).
    destruct pre as [|e0 pre]; simplify_eq/=.
    + destruct ev' as [|[|n]|]; simpl in *; repeat case_match; simplify_eq; try done.
    + by rewrite Hs in Hrun.
Qed.
End program.

(** Connection identifiers are ambiguous for every hash function: the
    names and namespaces are concatenated without a separator, and kind, role
    and port are left out, so different connections share a [conn_id]. *)
Lemma conn_id_collides (fnv64 : string → Z) :
  ∃ c c', c ≠ c' ∧ client c ≠ client c' ∧
    conn_id (labels_of fnv64 c) = conn_id (labels_of fnv64 c').
Proof.
  set (wl n ns := {| wl_name := n; wl_namespace := ns; wl_kind := "Pod" |}).
  exists {| client := wl "a" "bc"; server := wl "d" "e"; role := 1; server_port := 80 |},
         {| client := wl "ab" "c"; server := wl "d" "e"; role := 1; server_port := 80 |}.
  split_and!; [done|done|reflexivity].
Qed.

(** ** Witnesses *)

Definition ex_tables : CacheManager :=
  set_ip_to_workload {[ "10.0.0.1" := ex_wl "cart" "Deployment"; "10.0.0.2" := ex_wl "db" "StatefulSet" ]} ex_cm.
Definition ex_iter (m : gmap ConnectionKey ConnectionStats) :
  list (result Z (ConnectionKey * ConnectionStats)) := Ok <$> map_to_list m.

Definition ex_ckey (id : Z) : ConnectionKey := {|
  ck_id := id; ck_pid := 0; src_addr := 167772161; src_port := 4000;
  dest_addr := 167772162; dest_port := 5432; ck_role := CONNECTION_ROLE_CLIENT |}.
Definition ex_cstats (sent act : Z) : ConnectionStats :=
  {| bytes_sent := sent; bytes_received := 0; is_active := act |}.
Definition ex_conn : Connection := {|
  client := ex_wl "cart" "Deployment"; server := ex_wl "db" "StatefulSet";
  role := CONNECTION_ROLE_CLIENT; server_port := 5432 |}.

Definition ex_sm (m : gmap ConnectionKey ConnectionStats) : SM := {|
  inner := {| in_name := "service_map"; program_type := Builtin; program_state := Running;
              ebpf_maps := ∅; metadata := ∅; current_conns_map := Some 3;
              past_conns_map := ∅; cache_mgr := Some 0%nat |};
  kmaps := λ fd, if fd =? 3 then m else ∅ |}.

Lemma ex_iter_lists m : aya_lists ex_iter m.
Proof. exists (map_to_list m). split; reflexivity. Qed.

(** One active and one inactive connection between the same workloads. *)
Definition ex_map : gmap ConnectionKey ConnectionStats :=
  {[ ex_ckey 1 := ex_cstats 100 1; ex_ckey 2 := ex_cstats 40 0 ]}.

Lemma ex_map_counters : counters_ok ex_map.
Proof.
  unfold counters_ok, ex_map. apply map_Forall_insert_2; [vm_compute; split; congruence|].
  apply map_Forall_insert_2; [vm_compute; split; congruence|]. apply map_Forall_empty.
Qed.

Lemma ex_attached m : attached (ex_sm m) 3 0%nat.
Proof. split; reflexivity. Qed.

Lemma poll_spec_witness :
  ∃ m s', poll (HI := hm_iter_default) (BC := ex_BC) ex_iter (λ _, ex_tables) (ex_sm ex_map)
          = (Ok m, s') ∧ m !! ex_conn = Some 100.
Proof.
  destruct (poll_spec (HI := hm_iter_default) (BC := ex_BC) (HashLaws0 := bounded_hash_laws 16)
              ex_iter (λ _, ex_tables) (ex_sm ex_map) 3 0%nat) as (m & s' & past' & Hr & Hm & _).
  - apply ex_attached.
  - apply ex_iter_lists.
  - exact ex_map_counters.
  - apply map_Forall_empty.
  - exists m, s'. split; [exact Hr|]. rewrite Hm. vm_compute. reflexivity.
Defined.

Definition ex_poll (s : SM) : result Failure (gmap Connection Z) * SM :=
  poll (HI := hm_iter_default) (BC := ex_BC) ex_iter (λ _, ex_tables) s.
Definition ex_poll_map (s : SM) : gmap Connection Z := default ∅ (ok (ex_poll s).1).

(** A run that returned [Ok], by its components. *)
Lemma run_eta {A S E} (r : result E A * S) (d : A) :
  is_ok r.1 = true → r = (Ok (default d (ok r.1)), r.2).
Proof. by destruct r as [[a|e] s]. Qed.

Lemma poll_conserves_bytes_witness :
  as_u64 (known_bytes ex_tables (ex_poll (ex_sm ex_map)).2 3 ex_conn) = 140.
Proof.
  rewrite (poll_conserves_bytes (HI := hm_iter_default) (BC := ex_BC)
             (HashLaws0 := bounded_hash_laws 16) ex_iter (λ _, ex_tables) (ex_sm ex_map) 3 0%nat
             ex_conn (ex_poll_map (ex_sm ex_map)) (ex_poll (ex_sm ex_map)).2
             (ex_attached ex_map) (ex_iter_lists _) ex_map_counters).
  - vm_compute. reflexivity.
  - apply (run_eta (ex_poll (ex_sm ex_map)) ∅). vm_compute. reflexivity.
Defined.

Definition ex_closed : gmap ConnectionKey ConnectionStats := {[ ex_ckey 2 := ex_cstats 40 0 ]}.

Lemma closed_connection_reported_late_witness :
  ex_poll_map (ex_sm ex_closed) !! ex_conn = None ∧
  ex_poll_map (ex_poll (ex_sm ex_closed)).2 !! ex_conn = Some 40.
Proof.
  apply (closed_connection_reported_late (HI := hm_iter_default) (BC := ex_BC)
           (HashLaws0 := bounded_hash_laws 16) ex_iter (λ _, ex_tables) (ex_sm ex_closed) 3 0%nat
           ex_conn (ex_poll_map (ex_sm ex_closed)) (ex_poll (ex_sm ex_closed)).2
           (ex_poll_map (ex_poll (ex_sm ex_closed)).2)
           (ex_poll (ex_poll (ex_sm ex_closed)).2).2).
  - apply ex_attached.
  - apply ex_iter_lists.
  - apply ex_iter_lists.
  - apply map_Forall_insert_2; [vm_compute; split; congruence|apply map_Forall_empty].
  - apply map_Forall_empty.
  - reflexivity.
  - vm_compute. apply not_elem_of_nil.
  - vm_compute. constructor.
  - apply (run_eta (ex_poll (ex_sm ex_closed)) ∅). vm_compute. reflexivity.
  - apply (run_eta (ex_poll (ex_poll (ex_sm ex_closed)).2) ∅). vm_compute. reflexivity.
Defined.

Lemma poll_error_unchanged_witness :
  (ex_poll {| inner := Inner_new; kmaps := λ _, ∅ |}).2 = {| inner := Inner_new; kmaps := λ _, ∅ |}.
Proof.
  apply (poll_error_unchanged (HI := hm_iter_default) (BC := ex_BC) ex_iter (λ _, ex_tables)
           {| inner := Inner_new; kmaps := λ _, ∅ |} (Fail (Msg "No current connections map"))).
  reflexivity.
Defined.

Lemma poll_stop_race_panics_witness :
  ∃ why s', poll_write (BC := ex_BC) ex_tables [ex_ckey 2]
     (set_inner (ServiceMap_stop (inner (ex_sm ex_closed))).2 (ex_sm ex_closed)) = (Err (Panic why), s').
Proof.
  apply (poll_stop_race_panics (HI := hm_iter_default) (BC := ex_BC) ex_iter (λ _, ex_tables)
           (ex_sm ex_closed) 3 0%nat ex_tables [ex_ckey 2] ∅).
  - apply ex_attached.
  - apply ex_iter_lists.
  - vm_compute. reflexivity.
  - exists (ex_ckey 2), (ex_cstats 40 0). split; [reflexivity|]. discriminate.
Defined.

Lemma collect_one_gauge_witness :
  conn_metric (HI := hm_iter_default) (λ _, 7) {[ ex_conn := 2 ^ 63 ]} !! labels_of (λ _, 7) ex_conn
  = Some (- 2 ^ 63).
Proof.
  destruct (collect_one_gauge_per_connection (HI := hm_iter_default) (λ _, 7) {[ ex_conn := 2 ^ 63 ]})
    as [Hg _].
  - apply map_Forall_insert_2; [vm_compute; split; congruence|apply map_Forall_empty].
  - apply (Hg ex_conn (2 ^ 63)). apply lookup_singleton_eq.
Defined.

Definition ex_fs : PinFs := {|
  RTDIR_FS_MAPS := "/run/bpfman/fs/maps"; rtdir_exists := true;
  from_pin := λ p, if decide (p = "12/CONNECTIONS") then Ok 3 else Err 2;
  is_hash_map := λ _, true |}.

Lemma init_spec_witness :
  ∃ i', ServiceMap_init ex_fs ∅ 0%nat {[ "CONNECTIONS" := 12 ]} Inner_new = (Ok (), i') ∧
        cache_mgr i' = Some 0%nat.
Proof.
  eexists. split; [vm_compute; reflexivity|].
  eapply (init_spec (HI := hm_iter_default) (BC := ex_BC) ex_iter (λ _, ex_tables) ex_fs (λ _, 0)
            (λ _, Ok ()) ∅ 0%nat {[ "CONNECTIONS" := 12 ]} Inner_new).
  vm_compute. reflexivity.
Defined.

Definition ex_start := start_loop (HI := hm_iter_default) (BC := ex_BC) ex_iter (λ _, ex_tables).

Example start_stops_example :
  (ex_start [Tick; Recv (ProgramName "other"); RecvError; Recv (ProgramName "service_map"); Tick]
     (ex_sm ex_map)).1 = Ok (Some ()).
Proof. vm_compute. reflexivity. Qed.

(** The trait's instance on these examples, for the witnesses of its clients. *)
Definition ex_program : Program Inner KMaps :=
  ServiceMap_program (HI := hm_iter_default) (BC := ex_BC) ex_iter (λ _, ex_tables) ex_fs (λ _, 0)
    (λ _, Ok ()).
Definition ex_program_laws : ProgramLaws Inner KMaps (Program0 := ex_program) :=
  ServiceMap_program_laws (HI := hm_iter_default) (BC := ex_BC) ex_iter (λ _, ex_tables) ex_fs (λ _, 0)
    (λ _, Ok ()).
