(* ===== verification/Registry.v ===== *)
(** * The program registries

    [agent/src/managers/registry.rs] and [agent/src/common/types.rs]: the
    registries of built-in and wasm programs and the filter of [list].  A
    registered [Arc<dyn Program>] is shared with every task that holds a clone,
    so the registries map names to locations of a [Heap] of programs. *)
From S2P Require Import Prelude AgentApi Program.
From stdpp Require Import base gmap strings list.
From Stdlib Require Import ZArith Lia.

Local Open Scope Z_scope.

(** ** Shared programs *)

Notation loc := nat.
Notation Heap P := (gmap nat P).

(** ** The registries *)

Record BuiltinRegistry := { b_inner : gmap string loc }.
Record WasmRegistry := { w_inner : gmap string loc }.
Record RegistryManager := { builtin : BuiltinRegistry; wasm : WasmRegistry }.

Definition Builtin_get (r : BuiltinRegistry) (name : string) : option loc := b_inner r !! name.
(** [HashMap::insert] returns the value it replaces. *)
Definition Builtin_insert (r : BuiltinRegistry) (name : string) (program : loc) :
  option loc * BuiltinRegistry :=
  (b_inner r !! name, {| b_inner := <[name := program]> (b_inner r) |}).
Definition Builtin_remove (r : BuiltinRegistry) (name : string) : option loc * BuiltinRegistry :=
  (b_inner r !! name, {| b_inner := delete name (b_inner r) |}).

Definition Wasm_get (r : WasmRegistry) (name : string) : option loc := w_inner r !! name.
Definition Wasm_insert (r : WasmRegistry) (name : string) (program : loc) :
  option loc * WasmRegistry :=
  (w_inner r !! name, {| w_inner := <[name := program]> (w_inner r) |}).
Definition Wasm_remove (r : WasmRegistry) (name : string) : option loc * WasmRegistry :=
  (w_inner r !! name, {| w_inner := delete name (w_inner r) |}).

Definition get_program (rm : RegistryManager) (name : string) (program_type : option ProgramType) :
  option loc :=
  match program_type with
  | Some Builtin => Builtin_get (builtin rm) name
  | Some Wasm => Wasm_get (wasm rm) name
  | None => match Builtin_get (builtin rm) name with
            | Some p => Some p
            | None => Wasm_get (wasm rm) name
            end
  end.

Definition insert_program (rm : RegistryManager) (name : string) (program : loc)
    (program_type : option ProgramType) : result string unit * RegistryManager :=
  match get_program rm name program_type with
  | Some _ => (Err "Program name already exists in the registry.", rm)
  | None =>
      (Ok (), match program_type with
              | Some Builtin =>
                  {| builtin := (Builtin_insert (builtin rm) name program).2; wasm := wasm rm |}
              | Some Wasm =>
                  {| builtin := builtin rm; wasm := (Wasm_insert (wasm rm) name program).2 |}
              | None =>
                  let '(old, b) := Builtin_insert (builtin rm) name program in
                  match old with
                  | Some _ => {| builtin := b; wasm := wasm rm |}
                  | None => {| builtin := b; wasm := (Wasm_insert (wasm rm) name program).2 |}
                  end
              end)
  end.

Definition remove_program (rm : RegistryManager) (name : string)
    (program_type : option ProgramType) : option loc * RegistryManager :=
  match program_type with
  | Some Builtin =>
      let '(old, b) := Builtin_remove (builtin rm) name in
      (old, {| builtin := b; wasm := wasm rm |})
  | Some Wasm =>
      let '(old, w) := Wasm_remove (wasm rm) name in
      (old, {| builtin := builtin rm; wasm := w |})
  | None =>
      let '(old, b) := Builtin_remove (builtin rm) name in
      match old with
      | Some p => (Some p, {| builtin := b; wasm := wasm rm |})
      | None => let '(old', w) := Wasm_remove (wasm rm) name in
                (old', {| builtin := b; wasm := w |})
      end
  end.

(** ** Listing *)

Record ListFilter := {
  lf_program_type : option Z;
  metadata_selector : gmap string string }.

Definition ListFilter_new (program_type : option Z) (metadata : gmap string string) : ListFilter :=
  {| lf_program_type := program_type; metadata_selector := metadata |}.

Section listing.
Context `{HI : HashIter} {P W : Type} `{!Program P W}.

Definition Builtin_list (r : BuiltinRegistry) : list loc := (hm_iter (b_inner r)).*2.
Definition Wasm_list (r : WasmRegistry) : list loc := (hm_iter (w_inner r)).*2.

(** The loop over the selector. *)
Fixpoint selector_matches (prog : P) (sel : list (string * string)) : bool :=
  match sel with
  | [] => true
  | (key, value) :: rest =>
      match get_metadata prog !! key with
      | Some v => if decide (v = value) then selector_matches prog rest else false
      | None => false
      end
  end.

Definition matches (f : ListFilter) (prog : P) : bool :=
  match ProgramType_into_u32 (get_type prog) with
  | Err _ => false
  | Ok program_type =>
      match lf_program_type f with
      | Some filter_type =>
          if negb (filter_type =? program_type) then false
          else selector_matches prog (hm_iter (metadata_selector f))
      | None => selector_matches prog (hm_iter (metadata_selector f))
      end
  end.

(** The programs are read through their locations. *)
Definition loc_matches (h : Heap P) (f : ListFilter) (l : loc) : bool :=
  match h !! l with Some prog => matches f prog | None => false end.

Definition list_programs (h : Heap P) (rm : RegistryManager) (f : ListFilter) : list loc :=
  filter (λ l, loc_matches h f l = true) (Builtin_list (builtin rm) ++ Wasm_list (wasm rm)).
End listing.

(** ** Construction: the built-in programs *)

Definition BuiltinRegistry_new : BuiltinRegistry := {| b_inner := ∅ |}.
Definition WasmRegistry_new : WasmRegistry := {| w_inner := ∅ |}.

Section construction.
Context {P : Type} (ServiceMap_new : P).

Definition register_builtin_progs (h : Heap P) (r : BuiltinRegistry) : Heap P * BuiltinRegistry :=
  let l := fresh (dom h) in
  (<[l := ServiceMap_new]> h, (Builtin_insert r "service_map" l).2).

Definition RegistryManager_new (h : Heap P) : Heap P * RegistryManager :=
  let '(h', b) := register_builtin_progs h BuiltinRegistry_new in
  (h', {| builtin := b; wasm := WasmRegistry_new |}).
End construction.

(** ** Lemmas *)

Ltac reg_unfold :=
  unfold get_program, insert_program, remove_program, Builtin_get, Builtin_insert, Builtin_remove,
    Wasm_get, Wasm_insert, Wasm_remove in *.

(** Every location a registry manager hands out. *)
Definition registered (rm : RegistryManager) (l : loc) : Prop :=
  ∃ name ty, get_program rm name (Some ty) = Some l.

Lemma get_program_registered rm name ty l : get_program rm name ty = Some l → registered rm l.
Proof.
  unfold registered. destruct ty as [ty|]; [eauto|]. reg_unfold. intros H.
  destruct (b_inner (builtin rm) !! name) eqn:Hb; simplify_eq.
  - exists name, Builtin. done.
  - exists name, Wasm. done.
Qed.

Lemma get_program_ext rm rm' name ty :
  b_inner (builtin rm') !! name = b_inner (builtin rm) !! name →
  w_inner (wasm rm') !! name = w_inner (wasm rm) !! name →
  get_program rm' name ty = get_program rm name ty.
Proof. intros Hb Hw. reg_unfold. by rewrite Hb, Hw. Qed.

Section matching.
Context `{HI : HashIter} {P W : Type} `{!Program P W}.

Lemma selector_matches_spec (p : P) sel :
  selector_matches p sel = true ↔ ∀ k v, (k, v) ∈ sel → get_metadata p !! k = Some v.
Proof.
  induction sel as [|[k v] sel IH]; simpl.
  { split; [|done]. intros _ k v Hin. by apply not_elem_of_nil in Hin. }
  destruct (get_metadata p !! k) as [v'|] eqn:Hk.
  - case_decide as Hv; subst.
    + rewrite IH. split; [|set_solver]. intros H k' v' [Heq|]%elem_of_cons; [by simplify_eq|auto].
    + split; [done|]. intros H. specialize (H k v). rewrite Hk in H. exfalso. apply Hv.
      assert (Some v' = Some v) by (apply H; constructor). by simplify_eq.
  - split; [done|]. intros H. rewrite (H k v) in Hk by constructor. done.
Qed.

Lemma matches_spec f (p : P) :
  matches f p = true ↔
  (∀ t, lf_program_type f = Some t → ProgramType_into_u32 (get_type p) = Ok t) ∧
  metadata_selector f ⊆ get_metadata p.
Proof.
  assert (selector_matches p (hm_iter (metadata_selector f)) = true ↔
          metadata_selector f ⊆ get_metadata p) as Hsel.
  { rewrite selector_matches_spec, map_subseteq_spec. split; intros H k v.
    - intros Hk. apply H. by apply elem_of_hm_iter.
    - intros Hin. apply H. by apply elem_of_hm_iter. }
  unfold matches. destruct (ProgramType_into_u32 (get_type p)) as [t|e] eqn:Ht;
    [|by destruct (get_type p)].
  destruct (lf_program_type f) as [t'|]; [destruct (Z.eqb_spec t' t) as [->|Hne]|]; simpl.
  - rewrite Hsel. split; [|tauto]. intros H. split; [|done]. intros ? [= ->]. done.
  - split; [done|]. intros [H _]. specialize (H t' eq_refl). congruence.
  - rewrite Hsel. split; [|tauto]. intros H. by split.
Qed.

Lemma elem_of_registry_lists rm l :
  l ∈ Builtin_list (builtin rm) ++ Wasm_list (wasm rm) ↔ registered rm l.
Proof.
  unfold Builtin_list, Wasm_list, registered. rewrite elem_of_app, !elem_of_hm_values.
  split.
  - intros [[k Hk]|[k Hk]]; [by exists k, Builtin|by exists k, Wasm].
  - intros (k & [] & Hk); [left|right]; by exists k.
Qed.
End matching.

(** ** Properties *)

(** A registration succeeds exactly when the name is free for the given type;
    then the program is found under its name and every other name is as
    before.  A refused registration changes nothing. *)
Lemma insert_program_spec rm name program ty :
  match insert_program rm name program ty with
  | (Ok _, rm') =>
      get_program rm name ty = None ∧ get_program rm' name ty = Some program ∧
      (∀ name' ty', name' ≠ name → get_program rm' name' ty' = get_program rm name' ty') ∧
      (∀ ty', ty = Some ty' → ∀ ty'', ty'' ≠ ty' →
         get_program rm' name (Some ty'') = get_program rm name (Some ty''))
  | (Err _, rm') => rm' = rm ∧ is_Some (get_program rm name ty)
  end.
Proof.
  unfold insert_program. destruct (get_program rm name ty) as [l|] eqn:Hg; [eauto|].
  split; [done|].
  destruct ty as [[]|]; cbn [Builtin_insert Wasm_insert snd];
    [| |destruct (b_inner (builtin rm) !! name) eqn:Hb];
    (split; [reg_unfold; simpl; by rewrite ?lookup_insert_eq|]);
    (split; [intros name' ty' Hne; apply get_program_ext; simpl; by rewrite ?lookup_insert_ne|]);
    intros ty' Hty [] Hty'; simplify_eq; done.
Qed.

(** A program registered without a type is put in both registries, so it is
    listed twice and one untyped removal leaves it registered: removing it
    takes two calls. *)
Lemma untyped_insert_needs_two_removals rm rm' name program :
  insert_program rm name program None = (Ok (), rm') →
  b_inner (builtin rm') !! name = Some program ∧ w_inner (wasm rm') !! name = Some program ∧
  let '(r1, rm1) := remove_program rm' name None in
  let '(r2, rm2) := remove_program rm1 name None in
  r1 = Some program ∧ get_program rm1 name None = Some program ∧
  r2 = Some program ∧ get_program rm2 name None = None.
Proof.
  unfold insert_program. destruct (get_program rm name None) eqn:Hg; [done|].
  revert Hg. reg_unfold. destruct (b_inner (builtin rm) !! name) eqn:Hb; [done|].
  intros Hw [= <-]. simpl. rewrite !lookup_insert_eq. simpl.
  rewrite !lookup_delete_eq. simpl. by rewrite !lookup_insert_eq, !lookup_delete_eq.
Qed.

(** C30: [list_programs] returns exactly the registered programs whose type is the
    requested one and whose metadata has every selected pair, whatever order the
    hash maps are iterated in; each registration is listed once. *)
Theorem list_programs_exact `{HI : HashIter} {P W : Type} `{!Program P W}
    (h : Heap P) rm f :
  (∀ l, l ∈ list_programs h rm f ↔
     registered rm l ∧ ∃ p, h !! l = Some p ∧
       (∀ t, lf_program_type f = Some t → ProgramType_into_u32 (get_type p) = Ok t) ∧
       metadata_selector f ⊆ get_metadata p) ∧
  list_programs h rm f ≡ₚ
    filter (λ l, loc_matches h f l = true)
      ((map_to_list (b_inner (builtin rm))).*2 ++ (map_to_list (w_inner (wasm rm))).*2).
Proof.
  split.
  - intros l. unfold list_programs. rewrite list_elem_of_filter, elem_of_registry_lists.
    unfold loc_matches. destruct (h !! l) as [p|].
    + rewrite matches_spec. split; [intros [? ?]; eauto|]. intros (Hr & p' & [= <-] & Hp). tauto.
    + split; [intros [? _]; done|]. intros (_ & p & ? & _). done.
  - unfold list_programs, Builtin_list, Wasm_list.
    apply filter_Permutation. by rewrite !hm_iter_perm.
Qed.

(** ** Witnesses *)

Lemma untyped_insert_witness :
  ∃ rm', insert_program {| builtin := {| b_inner := ∅ |}; wasm := {| w_inner := ∅ |} |} "p" 0%nat None
         = (Ok (), rm') ∧ w_inner (wasm rm') !! "p" = Some 0%nat.
Proof.
  eexists. split; [reflexivity|].
  by apply (untyped_insert_needs_two_removals
           {| builtin := {| b_inner := ∅ |}; wasm := {| w_inner := ∅ |} |} _ "p" 0%nat).
Defined.
