(* ===== verification/Collector.v ===== *)
(** * The metrics collector

    [agent/src/collector/mod.rs]: a scrape collects the metrics of the running
    built-in programs.  An error of one program is printed and the next one is
    collected; a panic unwinds the scrape. *)
From S2P Require Import Prelude AgentApi Program ServiceMap Registry.
From stdpp Require Import base gmap strings list.
From Stdlib Require Import ZArith Lia.

Section collector.
Context `{HI : HashIter} {P W : Type} `{!Program P W}.

(** The programs and the state they share. *)
Definition CState : Type := Heap P * W.

Definition is_running (h : Heap P) (l : loc) : Prop := get_state <$> h !! l = Some Running.
Global Instance is_running_dec h l : Decision (is_running h l).
Proof. unfold is_running. apply _. Defined.

(** [prog.collect(&mut encoder)] on the program at [l]. *)
Definition collect_at (l : loc) : M CState Failure unit := λ s,
  match s.1 !! l with
  | None => (Ok (), s)
  | Some p => let '(r, (p', w')) := collect (p, s.2) in (r, (<[l := p']> s.1, w'))
  end.

Fixpoint collect_all (progs : list loc) : M CState Failure unit := λ s,
  match progs with
  | [] => (Ok (), s)
  | l :: rest =>
      match collect_at l s with
      | (Err (Panic why), s') => (Err (Panic why), s')
      | (_, s') => collect_all rest s'
      end
  end.

(** The programs that are running are chosen before any is collected. *)
Definition Collector_encode (rm : RegistryManager) : M CState Failure unit := λ s,
  collect_all (filter (is_running s.1) (Builtin_list (builtin rm))) s.

(** ** Lemmas *)

(** Every program keeps its place, its name, its type and its state. *)
Definition same_programs (s s' : CState) : Prop :=
  ∀ l, match s.1 !! l, s'.1 !! l with
       | Some p, Some p' => same_identity p p'
       | None, None => True
       | _, _ => False
       end.

Global Instance same_programs_preorder : PreOrder same_programs.
Proof.
  split.
  - intros s l. destruct (s.1 !! l); [|done]. by split_and!.
  - intros s1 s2 s3 H12 H23 l. specialize (H12 l). specialize (H23 l).
    destruct (s1.1 !! l), (s2.1 !! l), (s3.1 !! l); try done.
    unfold same_identity in *. destruct H12 as (? & ? & ?), H23 as (? & ? & ?).
    split_and!; congruence.
Qed.

Context `{!ProgramLaws P W}.

Lemma collect_at_same l : stable same_programs (collect_at l).
Proof.
  intros [h w]. unfold state_of, collect_at. simpl. destruct (h !! l) as [p|] eqn:Hl;
    [|reflexivity].
  pose proof (collect_identity p w) as Hid.
  destruct (collect (p, w)) as [r [p' w']]. simpl in *. intros l'. simpl.
  rewrite lookup_insert. case_decide; subst; [by rewrite Hl|].
  destruct (h !! l'); [|done]. by split_and!.
Qed.

Lemma collect_at_other l l' s : l' ≠ l → (state_of (collect_at l) s).1 !! l' = s.1 !! l'.
Proof.
  intros Hne. unfold state_of, collect_at. destruct (s.1 !! l) as [p|]; [|done].
  destruct (collect (p, s.2)) as [r [p' w']]. simpl. by rewrite lookup_insert_ne.
Qed.

Lemma collect_all_same ls : stable same_programs (collect_all ls).
Proof.
  induction ls as [|l ls IH]; intros s; [reflexivity|]. unfold state_of. cbn [collect_all].
  pose proof (collect_at_same l s) as Hl. unfold state_of in Hl.
  destruct (collect_at l s) as [[[]|[e|why]] s'] eqn:E; simpl in *;
    try (transitivity s'; [done|apply IH]). done.
Qed.

Lemma collect_all_other ls l s :
  l ∉ ls → (state_of (collect_all ls) s).1 !! l = s.1 !! l.
Proof.
  revert s. induction ls as [|l' ls IH]; intros s Hl; [done|].
  pose proof (collect_at_other l' l s) as Ho. unfold state_of in *. cbn [collect_all].
  destruct (collect_at l' s) as [[[]|[e|why]] s']; simpl in *;
    rewrite ?IH by set_solver; apply Ho; set_solver.
Qed.

Lemma encode_same rm : stable same_programs (Collector_encode rm).
Proof. intros s. apply collect_all_same. Qed.

(** Programs that are not running, or not built in, are not touched. *)
Lemma encode_other rm s l :
  ¬ (is_running s.1 l ∧ l ∈ Builtin_list (builtin rm)) →
  (state_of (Collector_encode rm) s).1 !! l = s.1 !! l.
Proof.
  intros Hl. apply collect_all_other. rewrite list_elem_of_filter. done.
Qed.

(** Without a panic the scrape is [Ok], and each chosen program is collected in
    turn from the state its predecessors left. *)
Lemma collect_all_ok ls s :
  (∀ p w, ¬ ∃ why, (collect (p, w)).1 = Err (Panic why)) →
  collect_all ls s = (Ok (), foldl (λ s l, state_of (collect_at l) s) s ls).
Proof.
  intros Hnp. revert s. induction ls as [|l ls IH]; intros s; [done|].
  cbn [collect_all foldl]. unfold state_of at 2.
  destruct (collect_at l s) as [[[]|[e|why]] s'] eqn:E; simpl; [apply IH|apply IH|].
  exfalso. unfold collect_at in E. destruct (s.1 !! l) as [p|]; [|done].
  apply (Hnp p s.2). exists why. destruct (collect (p, s.2)) as [r [p' w']]. by simplify_eq/=.
Qed.
End collector.

(** C40: a scrape collects exactly the running built-in programs: it keeps the
    name, type and state of every program, touches no program that is stopped
    or not built in, and, when no program panics, returns [Ok] even if programs
    fail, after collecting each running one in turn. *)
Theorem encode_collects_running `{HI : HashIter} {P W : Type} `{!Program P W} `{!ProgramLaws P W}
    (rm : RegistryManager) (s : CState) :
  same_programs s (state_of (Collector_encode rm) s) ∧
  (∀ l, ¬ (is_running s.1 l ∧ l ∈ Builtin_list (builtin rm)) →
     (state_of (Collector_encode rm) s).1 !! l = s.1 !! l) ∧
  ((∀ (p : P) (w : W), ¬ ∃ why, (collect (p, w)).1 = Err (Panic why)) →
   Collector_encode rm s = (Ok (), foldl (λ s l, state_of (collect_at l) s) s
                           (filter (is_running s.1) (Builtin_list (builtin rm))))).
Proof.
  split_and!.
  - apply encode_same.
  - intros l. apply encode_other.
  - apply collect_all_ok.
Qed.

(** ** Witness *)

Lemma encode_collects_running_witness :
  (state_of (Collector_encode (HI := hm_iter_default) (Program0 := ex_program)
               {| builtin := {| b_inner := {[ "service_map" := 0%nat ]} |};
                  wasm := {| w_inner := ∅ |} |})
     ({[ 0%nat := Inner_new ]}, λ _, ∅)).1 !! 0%nat = Some Inner_new.
Proof.
  destruct (encode_collects_running (HI := hm_iter_default) (Program0 := ex_program)
    (ProgramLaws0 := ex_program_laws)
    {| builtin := {| b_inner := {[ "service_map" := 0%nat ]} |}; wasm := {| w_inner := ∅ |} |}
    ({[ 0%nat := Inner_new ]}, λ _, ∅)) as (_ & Hother & _).
  rewrite Hother; [reflexivity|]. intros [Hr _]. discriminate Hr.
Defined.
