(* ===== verification/ProgManager.v ===== *)
(** * The program manager

    [agent/src/managers/prog.rs]: [pre_load], [get], [list], [load] and [unload],
    and the task that [load] spawns for a program.

    The system [Sys] is the manager's own state, the heap of shared programs,
    the state the programs share ([W]) and the tasks of the runtime.  A method
    of the manager runs to its next suspension point in one step; the only one
    is the [handle.await] of [unload], which splits it in two.  The turns of
    the spawned tasks, the scrapes of the metrics server and the changes the
    kernel makes interleave with them in the relation [step]. *)
From S2P Require Import Prelude RustStd AgentApi Bpf ConnTracer CacheManager Program ServiceMap Registry Collector.
From stdpp Require Import base gmap strings list relations.
From Stdlib Require Import ZArith Lia.

(** ** The broadcast channel

    [tokio::sync::broadcast] as its documentation describes it.  [rx_recv q ev q']:
    a receiver with the unread signals [q] hands [ev] to the [select!] and keeps
    [q'].  A receiver that is not behind by more than the capacity gets its
    oldest signal; one that lags loses signals and gets an error. *)
Class Broadcast := {
  capacity : nat;
  rx_recv : list ShutdownSignal → StartEvent → list ShutdownSignal → Prop;
  rx_tick q : rx_recv q Tick q;
  rx_next sig q : length (sig :: q) ≤ capacity → rx_recv (sig :: q) (Recv sig) q;
  rx_signal_sent q sig q' : rx_recv q (Recv sig) q' → sig ∈ q;
  rx_in_time q ev q' : rx_recv q ev q' → length q ≤ capacity →
    (ev = Tick ∧ q' = q) ∨ ∃ sig, ev = Recv sig ∧ q = sig :: q';
  rx_keeps q ev q' : rx_recv q ev q' → ∃ lost, q = lost ++ q'
}.

Inductive rx_bounded (n : nat) : list ShutdownSignal → StartEvent → list ShutdownSignal → Prop :=
  | rx_bounded_tick q : rx_bounded n q Tick q
  | rx_bounded_next sig q : length (sig :: q) ≤ n → rx_bounded n (sig :: q) (Recv sig) q
  | rx_bounded_lag q : n < length q → rx_bounded n q RecvError (drop (length q - n) q).

(** [broadcast::channel(n)] *)
Definition bounded_broadcast (n : nat) : Broadcast.
Proof.
  refine {| capacity := n; rx_recv := rx_bounded n; rx_tick := rx_bounded_tick n;
            rx_next := rx_bounded_next n |}.
  - intros q sig q' H. inversion H; subst. constructor.
  - intros q ev q' H Hq. inversion H; subst; [by left|right; eauto|lia].
  - intros q ev q' H. inversion H; subst.
    + by exists [].
    + by exists [sig].
    + exists (take (length q - n) q). by rewrite take_drop.
Defined.

(** ** State *)

Notation TaskId := nat.

(** The future of a spawned task: not yet polled, in the loop of [start],
    finished, or unwound by a panic. *)
Inductive TaskState := Spawned | InLoop | Done | Panicked.

Global Instance TaskState_eq_dec : EqDecision TaskState.
Proof. solve_decision. Defined.

Record Task := { t_prog : loc; t_state : TaskState; t_rx : list ShutdownSignal }.

Definition task_live (t : Task) : bool :=
  match t_state t with Spawned | InLoop => true | Done | Panicked => false end.

(** An unload that waits for a task: the name, the program and the handle. *)
Record Waiting := { u_name : string; u_prog : loc; u_handle : option TaskId }.

Record ProgManager := {
  cache_manager : CacheHandle;
  registry_manager : RegistryManager;
  program_handles : gmap string TaskId }.

Record Sys (P W : Type) := {
  pm : ProgManager;
  heap : Heap P;
  world : W;
  tasks : gmap TaskId Task;
  listeners : nat;
  waiting : list Waiting }.
Arguments pm {P W} _.
Arguments heap {P W} _.
Arguments world {P W} _.
Arguments tasks {P W} _.
Arguments listeners {P W} _.
Arguments waiting {P W} _.
Arguments Build_Sys {P W} _ _ _ _ _ _.

Definition set_handles hs (m : ProgManager) : ProgManager :=
  {| cache_manager := cache_manager m; registry_manager := registry_manager m;
     program_handles := hs |}.

(** [{:?}] of a state. *)
Definition ProgramState_debug (st : ProgramState) : string :=
  match st with
  | Uninitialized => "Uninitialized"
  | Initialized => "Initialized"
  | Running => "Running"
  | Stopped => "Stopped"
  | Failed => "Failed"
  end.

Section manager.
Context `{HI : HashIter} {P W : Type} `{!Program P W}.
Implicit Types (s : Sys P W) (l : loc) (name : string).

Definition set_pm m s : Sys P W :=
  {| pm := m; heap := heap s; world := world s; tasks := tasks s; listeners := listeners s;
     waiting := waiting s |}.
Definition set_heap h s : Sys P W :=
  {| pm := pm s; heap := h; world := world s; tasks := tasks s; listeners := listeners s;
     waiting := waiting s |}.
Definition set_world w s : Sys P W :=
  {| pm := pm s; heap := heap s; world := w; tasks := tasks s; listeners := listeners s;
     waiting := waiting s |}.
Definition set_tasks ts s : Sys P W :=
  {| pm := pm s; heap := heap s; world := world s; tasks := ts; listeners := listeners s;
     waiting := waiting s |}.
Definition set_waiting ws s : Sys P W :=
  {| pm := pm s; heap := heap s; world := world s; tasks := tasks s; listeners := listeners s;
     waiting := ws |}.

(** A shared program through its location (an [Arc] is never dangling). *)
Definition deref l : M (Sys P W) Error P := λ s,
  match heap s !! l with Some p => (Ok p, s) | None => (Err (Msg "dangling"), s) end.
Definition put l (p : P) : M (Sys P W) Error unit := modify (λ s, set_heap (<[l := p]> (heap s)) s).

(** ** [new] *)

Definition ProgManager_new (ServiceMap_new : P) (cm : CacheHandle) (w : W) (rx : nat) : Sys P W :=
  let '(h, rm) := RegistryManager_new ServiceMap_new ∅ in
  {| pm := {| cache_manager := cm; registry_manager := rm; program_handles := ∅ |};
     heap := h; world := w; tasks := ∅; listeners := rx; waiting := [] |}.

(** ** The methods *)

Definition get name (program_type : option ProgramType) : M (Sys P W) Error (option loc) :=
  gets (λ s, get_program (registry_manager (pm s)) name program_type).

Definition list_ (f : ListFilter) : M (Sys P W) Error (list loc) :=
  gets (λ s, list_programs (heap s) (registry_manager (pm s)) f).

Definition pre_load name (program_type : ProgramType) (metadata : gmap string string)
    (cm : CacheHandle) (map_to_prog_id : gmap string Z) : M (Sys P W) Error loc :=
  found ← get name (Some program_type);
  match found with
  | None => throw (Msg ("Program " +:+ name +:+ " not found."))
  | Some prog =>
      p ← deref prog;
      match get_state p with
      | Uninitialized =>
          let '(r, p') := init metadata cm map_to_prog_id p in
          put prog p';;
          match r with
          | Ok _ => put prog (set_state Initialized p');; mret prog
          | Err e => throw e
          end
      | _ => mret prog
      end
  end.

(** [tokio::spawn] of the task for [prog], with a fresh subscription. *)
Definition spawn (prog : loc) : M (Sys P W) Error TaskId := λ s,
  let t := fresh (dom (tasks s)) in
  (Ok t, set_tasks (<[t := {| t_prog := prog; t_state := Spawned; t_rx := [] |}]> (tasks s)) s).

Definition load (prog : loc) : M (Sys P W) Error unit :=
  p ← deref prog;
  match get_state p with
  | Initialized =>
      handle ← spawn prog;
      modify (λ s, set_pm (set_handles (<[get_name p := handle]> (program_handles (pm s))) (pm s)) s)
  | st => throw (Msg ("Program " +:+ get_name p +:+ " is in an invalid state to be loaded: " +:+
                      ProgramState_debug st))
  end.

(** [shutdown_tx.send]: an error when there is no receiver, otherwise every
    receiver gets the signal. *)
Definition receivers s : nat := listeners s + size (filter (λ t, task_live t.2 = true) (tasks s)).
Definition push_signal sig (t : Task) : Task :=
  if task_live t then {| t_prog := t_prog t; t_state := t_state t; t_rx := t_rx t ++ [sig] |} else t.
Definition send sig : M (Sys P W) Error unit := λ s,
  if decide (receivers s = 0) then (Err (Msg "channel closed"), s)
  else (Ok (), set_tasks (push_signal sig <$> tasks s) s).

(** [unload] up to [handle.await]. *)
Definition unload_begin name : M (Sys P W) Error Waiting :=
  found ← get name None;
  program ← lift (ok_or (Msg ("Failed to get program " +:+ name +:+ " for unloading.")) found);
  p ← deref program;
  let '(r, p') := stop p in
  put program p';;
  lift r;;
  send (ProgramName name);;
  handle ← gets (λ s, program_handles (pm s) !! name);
  modify (λ s, set_pm (set_handles (delete name (program_handles (pm s))) (pm s)) s);;
  mret {| u_name := name; u_prog := program; u_handle := handle |}.

(** The awaited task has finished, or there was none; a join error is logged. *)
Definition joinable (u : Waiting) s : Prop :=
  match u_handle u with
  | None => True
  | Some t => ∃ T, tasks s !! t = Some T ∧ task_live T = false
  end.

(** The rest of [unload]. *)
Definition unload_end (u : Waiting) : M (Sys P W) Error unit :=
  p ← deref (u_prog u);
  put (u_prog u) (set_state Uninitialized p).

(** ** The spawned task *)

Definition set_task t (T : Task) st rx s : Sys P W :=
  set_tasks (<[t := {| t_prog := t_prog T; t_state := st; t_rx := rx |}]> (tasks s)) s.

(** What the task does with the result of a turn of [start]; [rx] is what its
    receiver has left. *)
Definition task_result t (T : Task) (rx : list ShutdownSignal) (p : P)
    (r : result Failure (option unit)) s : Sys P W :=
  match r with
  | Ok None => set_task t T InLoop rx (set_heap (<[t_prog T := p]> (heap s)) s)
  | Ok (Some _) =>
      set_task t T Done rx (set_heap (<[t_prog T := set_state Stopped p]> (heap s)) s)
  | Err (Fail _) =>
      set_task t T Done rx (set_heap (<[t_prog T := set_state Failed p]> (heap s)) s)
  | Err (Panic _) => set_task t T Panicked rx (set_heap (<[t_prog T := p]> (heap s)) s)
  end.

(** The first poll of the task: [set_state(Running)] and [start] up to its loop. *)
Definition task_begin t (T : Task) (p : P) s : Sys P W :=
  let p' := set_state Running p in
  task_result t T (t_rx T) p' ((λ _, None) <$> start_begin p') s.

(** One turn of the loop on an event. *)
Definition task_event t (T : Task) (p : P) ev rx s : Sys P W :=
  let '(r, (p', w')) := start_step ev (p, world s) in
  task_result t T rx p' r (set_world w' s).

(** A scrape of the metrics server. *)
Definition scrape s : Sys P W :=
  let s' := state_of (Collector_encode (registry_manager (pm s))) (heap s, world s) in
  set_world s'.2 (set_heap s'.1 s).

(** ** The step relation *)

Context `{BR : Broadcast}.

Inductive step : Sys P W → Sys P W → Prop :=
  | step_pre_load s name ty md maps :
      step s (state_of (pre_load name ty md (cache_manager (pm s)) maps) s)
  | step_load s name ty prog :
      get_program (registry_manager (pm s)) name ty = Some prog →
      step s (state_of (load prog) s)
  | step_unload_begin s name u s' :
      unload_begin name s = (Ok u, s') → step s (set_waiting (u :: waiting s') s')
  | step_unload_fails s name e s' :
      unload_begin name s = (Err e, s') → step s s'
  | step_unload_end s u before after :
      waiting s = before ++ u :: after → joinable u s →
      step s (set_waiting (before ++ after) (state_of (unload_end u) s))
  | step_task_begin s t T p :
      tasks s !! t = Some T → t_state T = Spawned → heap s !! t_prog T = Some p →
      step s (task_begin t T p s)
  | step_task_event s t T p ev rx :
      tasks s !! t = Some T → t_state T = InLoop → heap s !! t_prog T = Some p →
      rx_recv (t_rx T) ev rx → step s (task_event t T p ev rx s)
  | step_scrape s : step s (scrape s)
  | step_shutdown s : step s (state_of (send All) s)
  | step_world s w : step s (set_world w s).

(** The turns of a task that reads its signals. *)
Inductive reads_on (t : TaskId) : Sys P W → Sys P W → Prop :=
  | reads_begin s T p :
      tasks s !! t = Some T → t_state T = Spawned →
      heap s !! t_prog T = Some p → reads_on t s (task_begin t T p s)
  | reads_signal s T p sig rx :
      tasks s !! t = Some T → t_state T = InLoop →
      heap s !! t_prog T = Some p → rx_recv (t_rx T) (Recv sig) rx →
      reads_on t s (task_event t T p (Recv sig) rx s).

(** The steps an unload needs: turns of the task it waits for, and its own end. *)
Inductive own_turn (u : Waiting) : Sys P W → Sys P W → Prop :=
  | own_task s s' t : u_handle u = Some t → reads_on t s s' → own_turn u s s'
  | own_end s before after :
      waiting s = before ++ u :: after → joinable u s →
      own_turn u s (set_waiting (before ++ after) (state_of (unload_end u) s)).

(** No receiver is behind by more than the capacity of the channel. *)
Definition in_time s : Prop := ∀ t T, tasks s !! t = Some T → length (t_rx T) ≤ capacity.

(** A step of the agent that leaves all receivers in time. *)
Definition step_in_time s s' : Prop := step s s' ∧ in_time s'.

(** ** The invariant *)

Definition name_of s l : option string := get_name <$> heap s !! l.
Definition state_at s l : option ProgramState := get_state <$> heap s !! l.
Definition prog_of s (t : TaskId) : option loc := t_prog <$> tasks s !! t.

(** A task that has set its program running and has not set another state since. *)
Definition holds_running (T : Task) : Prop := t_state T = InLoop ∨ t_state T = Panicked.

Record Inv s : Prop := {
  (** registered programs exist, under their own names *)
  inv_reg name ty l :
    get_program (registry_manager (pm s)) name ty = Some l → name_of s l = Some name;
  inv_unique name l l' : name_of s l = Some name → name_of s l' = Some name → l = l';
  (** tasks, handles and waiting unloads refer to existing programs and tasks *)
  inv_task t l : prog_of s t = Some l → is_Some (name_of s l);
  inv_handle name t : program_handles (pm s) !! name = Some t →
    ∃ l, prog_of s t = Some l ∧ name_of s l = Some name;
  inv_waiting u : u ∈ waiting s → name_of s (u_prog u) = Some (u_name u) ∧
    ∀ t, u_handle u = Some t → prog_of s t = Some (u_prog u);
  (** a program is running only for a task *)
  inv_running l : state_at s l = Some Running →
    ∃ t T, tasks s !! t = Some T ∧ t_prog T = l ∧ holds_running T }.

Lemma prog_of_Some s t l : prog_of s t = Some l ↔ ∃ T, tasks s !! t = Some T ∧ t_prog T = l.
Proof. unfold prog_of. rewrite fmap_Some. naive_solver. Qed.

(** The programs change but keep their names, and none becomes running. *)
Lemma Inv_heap s h :
  Inv s → (∀ l, get_name <$> h !! l = name_of s l) →
  (∀ l, get_state <$> h !! l = Some Running → state_at s l = Some Running) →
  Inv (set_heap h s).
Proof.
  intros [Hreg Hun Ht Hh Hw Hr] Hn Hs.
  assert (∀ l, name_of (set_heap h s) l = name_of s l) as Hname by apply Hn.
  split; intros *; rewrite ?Hname; eauto.
  intros H. destruct (Hh _ _ H) as (l & ? & ?). exists l. by rewrite Hname.
Qed.

Lemma Inv_put s l p p' :
  Inv s → heap s !! l = Some p → get_name p' = get_name p →
  (get_state p' = Running → get_state p = Running) →
  Inv (set_heap (<[l := p']> (heap s)) s).
Proof.
  intros HI' Hl Hn Hs. apply Inv_heap; [done|intros l'..]; unfold name_of, state_at;
    rewrite lookup_insert; case_decide; subst; rewrite ?Hl; simpl; [congruence|done| |done].
  intros [= H]. by rewrite Hs.
Qed.

(** A task moves on and leaves its program in a state that fits. *)
Lemma Inv_task_put s t T p p' st rx :
  Inv s → tasks s !! t = Some T → heap s !! t_prog T = Some p → get_name p' = get_name p →
  (get_state p' = Running → st = InLoop ∨ st = Panicked) →
  Inv (set_task t T st rx (set_heap (<[t_prog T := p']> (heap s)) s)).
Proof.
  intros [Hreg Hun Ht Hh Hw Hr] HT Hp Hn Hs.
  set (s' := set_task _ _ _ _ _).
  assert (∀ l, name_of s' l = name_of s l) as Hname.
  { intros l. unfold name_of, s'. simpl. rewrite lookup_insert. case_decide; [|done].
    subst. rewrite Hp. simpl. by rewrite Hn. }
  assert (∀ t', prog_of s' t' = prog_of s t') as Hprog.
  { intros t'. unfold prog_of, s'. simpl. rewrite lookup_insert. case_decide; [|done].
    subst. by rewrite HT. }
  split; intros *; rewrite ?Hname, ?Hprog; eauto.
  - intros H. destruct (Hh _ _ H) as (l & ? & ?). exists l. by rewrite Hname.
  - intros Hu. destruct (Hw _ Hu) as [? Hu']. split; [done|]. intros t' Ht'. rewrite ?Hprog. auto.
  - unfold state_at, s'. simpl. rewrite lookup_insert. case_decide as Hl; subst.
    + intros [= H]. exists t, {| t_prog := t_prog T; t_state := st; t_rx := rx |}.
      rewrite lookup_insert_eq. split_and!; [done|done|]. apply Hs, H.
    + intros H. destruct (Hr _ H) as (t' & T' & HT' & <- & Hst). exists t', T'.
      rewrite lookup_insert_ne; [done|]. intros ->. congruence.
Qed.

Lemma Inv_set_world s w : Inv s → Inv (set_world w s).
Proof. intros [????? Hr]. by split. Qed.

Lemma Inv_send s sig : Inv s → Inv (state_of (send sig) s).
Proof.
  intros HI'. unfold state_of, send. case_decide; [done|]. simpl.
  destruct HI' as [Hreg Hun Ht Hh Hw Hr].
  assert (∀ t, prog_of (set_tasks (push_signal sig <$> tasks s) s) t = prog_of s t) as Hp.
  { intros t. unfold prog_of. simpl. rewrite lookup_fmap. destruct (tasks s !! t) as [T|]; [|done].
    unfold push_signal. simpl. by destruct (task_live T). }
  split; intros *; rewrite ?Hp.
  - apply Hreg.
  - apply Hun.
  - apply Ht.
  - apply Hh.
  - intros Hu. destruct (Hw _ Hu) as [? Hu']. split; [done|]. intros t. rewrite Hp. apply Hu'.
  - intros Hl. destruct (Hr _ Hl) as (t & T & HT & <- & Hst). exists t, (push_signal sig T).
    simpl. rewrite lookup_fmap, HT. unfold push_signal.
    split; [done|]. destruct (task_live T); split; done.
Qed.

Lemma Inv_drop_handle s name :
  Inv s → Inv (set_pm (set_handles (delete name (program_handles (pm s))) (pm s)) s).
Proof.
  intros [Hreg Hun Ht Hh Hw Hr]. split; try done. intros name' t Hn. simpl in Hn.
  apply lookup_delete_Some in Hn as [_ Hn]. by apply Hh.
Qed.

Lemma spawn_fresh s t T : tasks s !! t = Some T → t ≠ fresh (dom (tasks s)).
Proof. intros HT ->. apply (is_fresh (dom (tasks s))). by apply elem_of_dom. Qed.

Lemma Inv_spawn_task s l : Inv s → is_Some (name_of s l) → Inv (state_of (spawn l) s).
Proof.
  intros [Hreg Hun Ht Hh Hw Hr] Hl.
  assert (∀ t' l', prog_of s t' = Some l' → prog_of (state_of (spawn l) s) t' = Some l') as Hp.
  { intros t' l' (T & HT & <-)%prog_of_Some. unfold prog_of. simpl.
    rewrite lookup_insert_ne by (apply not_eq_sym; by eapply spawn_fresh). by rewrite HT. }
  split; try done.
  - intros t' l'. unfold prog_of. simpl. rewrite lookup_insert. case_decide; subst; simpl.
    + intros [= <-]. exact Hl.
    + apply Ht.
  - intros name t' H'. destruct (Hh _ _ H') as (l' & ? & ?). exists l'. auto.
  - intros u Hu. destruct (Hw _ Hu) as [? Hu']. split; [done|]. intros t' Ht'. auto.
  - intros l' H'. destruct (Hr _ H') as (t' & T & HT & ? & ?). exists t', T. split; [|done].
    simpl. rewrite lookup_insert_ne; [done|]. apply not_eq_sym. by eapply spawn_fresh.
Qed.

Lemma Inv_insert_handle s name t l :
  Inv s → prog_of s t = Some l → name_of s l = Some name →
  Inv (set_pm (set_handles (<[name := t]> (program_handles (pm s))) (pm s)) s).
Proof.
  intros [Hreg Hun Ht Hh Hw Hr] Hp Hl. split; try done. intros name' t'. simpl.
  rewrite lookup_insert. case_decide; subst; [|apply Hh]. intros [= <-]. by exists l.
Qed.

Lemma Inv_spawn s l p :
  Inv s → heap s !! l = Some p →
  let '(t, s') := (fresh (dom (tasks s)), state_of (spawn l) s) in
  Inv (set_pm (set_handles (<[get_name p := t]> (program_handles (pm s'))) (pm s')) s').
Proof.
  intros HI' Hl. assert (name_of s l = Some (get_name p)) as Hn by (unfold name_of; by rewrite Hl).
  apply (Inv_insert_handle _ _ _ l); [by apply Inv_spawn_task; eauto| |done].
  unfold prog_of. simpl. by rewrite lookup_insert_eq.
Qed.

Lemma Inv_waiting_perm s ws :
  Inv s → (∀ u, u ∈ ws → u ∈ waiting s) → Inv (set_waiting ws s).
Proof. intros [Hreg Hun Ht Hh Hw Hr] Hws. split; try done. intros u Hu. apply Hw, Hws, Hu. Qed.

(** ** Runs of the methods *)

Lemma pre_load_run name ty md cm maps s l p :
  get_program (registry_manager (pm s)) name (Some ty) = Some l → heap s !! l = Some p →
  pre_load name ty md cm maps s =
  if decide (get_state p = Uninitialized) then
    match init md cm maps p with
    | (Ok _, p') => (Ok l, set_heap (<[l := set_state Initialized p']> (heap s)) s)
    | (Err e, p') => (Err e, set_heap (<[l := p']> (heap s)) s)
    end
  else (Ok l, s).
Proof.
  intros Hg Hp. unfold pre_load, get, deref, mbind, M_bind, gets. rewrite Hg, Hp.
  destruct (get_state p) eqn:Hst; try done. rewrite decide_True by done.
  destruct (init md cm maps p) as [[[]|e] p']; simpl; [|done].
  unfold mret, M_ret, set_heap. simpl. by rewrite insert_insert_eq.
Qed.

Lemma pre_load_missing name ty md cm maps s :
  get_program (registry_manager (pm s)) name (Some ty) = None →
  pre_load name ty md cm maps s = (Err (Msg ("Program " +:+ name +:+ " not found.")), s).
Proof. intros Hg. unfold pre_load, get, mbind, M_bind, gets. by rewrite Hg. Qed.

Lemma load_run s l p :
  heap s !! l = Some p →
  load l s =
  if decide (get_state p = Initialized) then
    let '(t, s') := (fresh (dom (tasks s)), state_of (spawn l) s) in
    (Ok (), set_pm (set_handles (<[get_name p := t]> (program_handles (pm s'))) (pm s')) s')
  else (Err (Msg ("Program " +:+ get_name p +:+ " is in an invalid state to be loaded: " +:+
                  ProgramState_debug (get_state p))), s).
Proof.
  intros Hp. unfold load, deref, mbind, M_bind. rewrite Hp.
  destruct (get_state p); done.
Qed.

Lemma unload_begin_run s name l p :
  get_program (registry_manager (pm s)) name None = Some l → heap s !! l = Some p →
  unload_begin name s =
  match stop p with
  | (Err e, p') => (Err e, set_heap (<[l := p']> (heap s)) s)
  | (Ok _, p') =>
      let s1 := set_heap (<[l := p']> (heap s)) s in
      match send (ProgramName name) s1 with
      | (Err e, s2) => (Err e, s2)
      | (Ok _, s2) =>
          (Ok {| u_name := name; u_prog := l; u_handle := program_handles (pm s) !! name |},
           set_pm (set_handles (delete name (program_handles (pm s2))) (pm s2)) s2)
      end
  end.
Proof.
  intros Hg Hp. unfold unload_begin, get, deref, mbind, M_bind, gets, lift. rewrite Hg. simpl.
  rewrite Hp. destruct (stop p) as [[[]|e] p']; simpl; [|done].
  unfold send. case_decide; [done|]. reflexivity.
Qed.

Lemma unload_begin_missing s name :
  get_program (registry_manager (pm s)) name None = None →
  unload_begin name s = (Err (Msg ("Failed to get program " +:+ name +:+ " for unloading.")), s).
Proof. intros Hg. unfold unload_begin, get, mbind, M_bind, gets, lift. by rewrite Hg. Qed.

Lemma unload_end_run s u p :
  heap s !! u_prog u = Some p →
  unload_end u s = (Ok (), set_heap (<[u_prog u := set_state Uninitialized p]> (heap s)) s).
Proof. intros Hp. unfold unload_end, deref, mbind, M_bind. by rewrite Hp. Qed.

(** ** Preservation *)

Context `{!ProgramLaws P W}.

Lemma Inv_registered s name ty l :
  Inv s → get_program (registry_manager (pm s)) name ty = Some l →
  ∃ p, heap s !! l = Some p ∧ get_name p = name.
Proof.
  intros HI' Hg. pose proof (inv_reg _ HI' _ _ _ Hg) as Hn. unfold name_of in Hn.
  apply fmap_Some in Hn as (p & ? & ?). eauto.
Qed.

Lemma Inv_pre_load s name ty md cm maps :
  Inv s → Inv (state_of (pre_load name ty md cm maps) s).
Proof.
  intros HI'. destruct (get_program (registry_manager (pm s)) name (Some ty)) as [l|] eqn:Hg.
  2: { unfold state_of. by rewrite pre_load_missing. }
  destruct (Inv_registered _ _ _ _ HI' Hg) as (p & Hp & _).
  unfold state_of. rewrite (pre_load_run _ _ _ _ _ _ _ _ Hg Hp). case_decide as Hst; [|done].
  pose proof (init_identity md cm maps p) as (Hn & _ & Hs).
  destruct (init md cm maps p) as [[[]|e] p']; simpl in *.
  - apply (Inv_put _ _ p); [done|done|by rewrite set_state_name|by rewrite set_state_state].
  - apply (Inv_put _ _ p); [done..|congruence].
Qed.

Lemma Inv_load s l p : Inv s → heap s !! l = Some p → Inv (state_of (load l) s).
Proof.
  intros HI' Hp. unfold state_of. rewrite (load_run _ _ _ Hp). case_decide; [|done].
  by apply (Inv_spawn s l p).
Qed.

Lemma Inv_unload_begin s name r s' :
  Inv s → unload_begin name s = (r, s') →
  Inv s' ∧ ∀ u, r = Ok u → Inv (set_waiting (u :: waiting s') s').
Proof.
  intros HI' Hu. destruct (get_program (registry_manager (pm s)) name None) as [l|] eqn:Hg.
  2: { rewrite unload_begin_missing in Hu by done. simplify_eq. by split. }
  destruct (Inv_registered _ _ _ _ HI' Hg) as (p & Hp & Hnp).
  rewrite (unload_begin_run _ _ _ _ Hg Hp) in Hu.
  pose proof (stop_identity p) as (Hn & _ & Hs).
  destruct (stop p) as [r1 p']. simpl in *.
  set (s1 := set_heap (<[l := p']> (heap s)) s) in *.
  assert (Inv s1) as HI1 by (apply (Inv_put _ _ p); [done..|congruence]).
  destruct r1 as [[]|e]; [|simplify_eq; by split].
  pose proof (Inv_send s1 (ProgramName name) HI1) as HI2. unfold state_of in HI2.
  assert (pm (send (ProgramName name) s1).2 = pm s) as Hpm
    by (unfold send; by case_decide).
  assert (∀ t, prog_of (send (ProgramName name) s1).2 t = prog_of s t) as Hpt.
  { intros t. unfold send. case_decide; [done|]. unfold prog_of. simpl. rewrite lookup_fmap.
    destruct (tasks s !! t) as [T|]; [|done]. unfold push_signal. simpl. by destruct (task_live T). }
  assert (∀ l', name_of (send (ProgramName name) s1).2 l' = name_of s1 l') as Hnm
    by (intros; unfold send; by case_decide).
  destruct (send (ProgramName name) s1) as [[[]|e] s2]; simpl in *; [|simplify_eq; by split].
  simplify_eq. split; [by apply Inv_drop_handle|]. intros u [= <-].
  pose proof (Inv_drop_handle s2 (get_name p) HI2) as [Hreg' Hun' Ht' Hh' Hw' Hr'].
  split; try done. intros u [->|Hin]%elem_of_cons; [|by apply Hw'].
  simpl. assert (name_of s2 l = Some (get_name p)) as Hl.
  { rewrite Hnm. unfold name_of, s1. simpl. rewrite lookup_insert_eq. simpl. by rewrite Hn. }
  split; [done|]. intros t Hhd. unfold prog_of. simpl. fold (prog_of s2 t). rewrite Hpt.
  destruct (inv_handle _ HI' _ _ Hhd) as (l' & Hl' & Hnl').
  rewrite Hl'. f_equal. apply (inv_unique _ HI' (get_name p)); [done|].
  unfold name_of. by rewrite Hp.
Qed.

Lemma Inv_unload_end s u : Inv s → u ∈ waiting s → Inv (state_of (unload_end u) s).
Proof.
  intros HI' Hu. destruct (inv_waiting _ HI' _ Hu) as [Hn _]. unfold name_of in Hn.
  apply fmap_Some in Hn as (p & Hp & _). unfold state_of. rewrite (unload_end_run _ _ _ Hp).
  apply (Inv_put _ _ p); [done..|by rewrite set_state_name|by rewrite set_state_state].
Qed.

Lemma Inv_task_result s t T p p' rx r :
  Inv s → tasks s !! t = Some T → heap s !! t_prog T = Some p → get_name p' = get_name p →
  Inv (task_result t T rx p' r s).
Proof.
  intros HI' HT Hp Hn. unfold task_result. repeat case_match; subst;
    (eapply Inv_task_put; [done|done|done|by rewrite ?set_state_name|rewrite ?set_state_state]);
    auto; done.
Qed.

Lemma Inv_scrape s : Inv s → Inv (scrape s).
Proof.
  intros HI'. unfold scrape. apply Inv_set_world.
  pose proof (encode_same (registry_manager (pm s)) (heap s, world s)) as Hsame.
  set (s' := state_of _ _) in *. simpl in Hsame.
  apply Inv_heap; [done|intros l..]; specialize (Hsame l); unfold name_of, state_at; simpl in *;
    destruct (heap s !! l), (s'.1 !! l); try done; simpl; destruct Hsame as (Hn & _ & Hs);
    congruence.
Qed.

Lemma Inv_step s s' : Inv s → step s s' → Inv s'.
Proof.
  intros HI' Hstep. destruct Hstep.
  - by apply Inv_pre_load.
  - destruct (Inv_registered _ _ _ _ HI' H) as (p & Hp & _). by apply (Inv_load _ _ p).
  - by destruct (Inv_unload_begin _ _ _ _ HI' H) as [_ Hw]; apply Hw.
  - by destruct (Inv_unload_begin _ _ _ _ HI' H).
  - assert (u ∈ waiting s) as Hu by (rewrite H; set_solver).
    apply Inv_waiting_perm; [by apply Inv_unload_end|]. intros u' Hu'.
    assert (waiting (state_of (unload_end u) s) = waiting s) as ->.
    { unfold state_of, unload_end, deref, mbind, M_bind. by destruct (heap s !! u_prog u). }
    rewrite H. set_solver.
  - eapply Inv_task_result; [done..|by rewrite set_state_name].
  - unfold task_event. pose proof (start_step_identity ev p (world s)) as (Hn & _).
    destruct (start_step ev (p, world s)) as [r [p' w']]. simpl in *.
    eapply Inv_task_result; [by apply Inv_set_world|done..].
  - by apply Inv_scrape.
  - by apply Inv_send.
  - by apply Inv_set_world.
Qed.

Lemma Inv_rtc s s' : Inv s → rtc step s s' → Inv s'.
Proof. intros HI'. induction 1; eauto using Inv_step. Qed.

Lemma Inv_new (sm : P) cm w rx :
  get_name sm = "service_map" → get_state sm = Uninitialized → Inv (ProgManager_new sm cm w rx).
Proof.
  intros Hn Hs.
  assert (∀ l p, heap (ProgManager_new sm cm w rx) !! l = Some p → p = sm ∧ l = fresh (dom (∅ : Heap P))) as Hheap.
  { simpl. intros l p [[<- <-]|[_ Hl]]%lookup_insert_Some; [done|].
    by rewrite lookup_empty in Hl. }
  split; unfold name_of, state_at, prog_of; simpl.
  - intros name ty l Hg.
    assert (name = "service_map" ∧ l = fresh (dom (∅ : Heap P))) as [-> ->].
    { destruct ty as [[]|]; unfold get_program, Builtin_get, Wasm_get in Hg; simpl in Hg;
        rewrite ?lookup_empty in Hg; try done.
      - apply lookup_insert_Some in Hg as [[<- <-]|[_ H]]; done.
      - destruct (<[_:=_]> ∅ !! name) eqn:E; [|done]. simplify_eq.
        apply lookup_insert_Some in E as [[<- <-]|[_ H]]; done. }
    rewrite lookup_insert_eq. simpl. by rewrite Hn.
  - intros name l l' (p & Hp & _)%fmap_Some (p' & Hp' & _)%fmap_Some.
    destruct (Hheap _ _ Hp) as [_ ->], (Hheap _ _ Hp') as [_ ->]. done.
  - intros t l. by rewrite lookup_empty.
  - intros name t. by rewrite lookup_empty.
  - intros u Hu. by apply not_elem_of_nil in Hu.
  - intros l (p & Hp & Hr)%fmap_Some. destruct (Hheap _ _ Hp) as [-> _]. congruence.
Qed.

(** ** Draining a task's receiver *)

(** What a turn of a task does to the rest of the system. *)
Lemma task_result_frame t T rx p r s :
  pm (task_result t T rx p r s) = pm s ∧ waiting (task_result t T rx p r s) = waiting s ∧
  ∃ T', tasks (task_result t T rx p r s) !! t = Some T' ∧ t_prog T' = t_prog T ∧
    (task_live T' = false ∨ (t_state T' = InLoop ∧ t_rx T' = rx)).
Proof.
  unfold task_result. repeat case_match; simpl; (split_and!; [done..|]);
    rewrite lookup_insert_eq; eexists; (split_and!; [done..|]); auto.
Qed.

(** Own turns are steps of the agent. *)
Lemma own_turn_step u s s' : own_turn u s s' → step s s'.
Proof. intros [? ? ? _ []|]; by econstructor. Qed.

Definition finishes (t : TaskId) s : Prop :=
  ∃ s' T', rtc (reads_on t) s s' ∧ tasks s' !! t = Some T' ∧ task_live T' = false ∧
    waiting s' = waiting s.

Lemma finishes_step t s s' :
  reads_on t s s' → waiting s' = waiting s → finishes t s' → finishes t s.
Proof.
  intros Hs Hw (s'' & T & Hr & HT & Hl & Hw'). exists s'', T.
  split_and!; [by eapply rtc_l|done|done|congruence].
Qed.

(** The result of a turn keeps the names when the turn itself does. *)
Lemma task_result_name t T rx p p' r s l :
  heap s !! t_prog T = Some p → get_name p' = get_name p →
  name_of (task_result t T rx p' r s) l = name_of s l.
Proof.
  intros Hp Hn. unfold name_of, task_result. repeat case_match; subst; simpl; rewrite lookup_insert;
    case_decide; subst; rewrite ?Hp; simpl; by rewrite ?set_state_name, ?Hn.
Qed.

(** A task in its loop that has its own stop signal unread finishes by reading
    its receiver. *)
Lemma task_drains t q : ∀ s T name,
  tasks s !! t = Some T → t_state T = InLoop →
  name_of s (t_prog T) = Some name →
  t_rx T = q → ProgramName name ∈ q → length q ≤ capacity → finishes t s.
Proof.
  induction q as [|sig q IH]; intros s T name HT Hst Hn Hq Hin Hlen.
  { by apply not_elem_of_nil in Hin. }
  pose proof Hn as Hn'. unfold name_of in Hn'. apply fmap_Some in Hn' as (p & Hp & Hnp).
  assert (reads_on t s (task_event t T p (Recv sig) q s)) as Hstep.
  { apply reads_signal; [done..|]. rewrite Hq. by apply rx_next. }
  revert Hstep. unfold task_event. destruct (decide (sig = ProgramName name)) as [->|Hne].
  - rewrite start_step_signal by (subst; auto). intros Hstep.
    eexists _, _. split; [by apply rtc_once|]. simpl. rewrite lookup_insert_eq. done.
  - pose proof (start_step_identity (Recv sig) p (world s)) as (Hnm & _).
    destruct (start_step (Recv sig) (p, world s)) as [r [p' w']]. simpl in Hnm.
    pose proof (task_result_name t T q p p' r (set_world w' s)) as Hname. intros Hstep.
    destruct (task_result_frame t T q p' r (set_world w' s)) as (_ & Hw & T' & HT' & HP' & Hd).
    destruct Hd as [Hd|[Hst' Hq']].
    { eexists _, T'. split_and!; [by apply rtc_once|done..]. }
    apply (finishes_step _ _ _ Hstep Hw).
    apply (IH _ T' name); try done; [|set_solver|simpl in Hlen; lia].
    rewrite HP', Hname by done. exact Hn.
Qed.

(** So does one that has not been polled yet. *)
Lemma live_task_drains s t T name :
  tasks s !! t = Some T → task_live T = true →
  name_of s (t_prog T) = Some name →
  ProgramName name ∈ t_rx T → length (t_rx T) ≤ capacity → finishes t s.
Proof.
  intros HT Hlive Hn Hin Hlen. unfold task_live in Hlive.
  destruct (t_state T) eqn:Hst; try done; [|by eapply task_drains].
  pose proof Hn as Hn'. unfold name_of in Hn'. apply fmap_Some in Hn' as (p & Hp & Hnp).
  assert (reads_on t s (task_begin t T p s)) as Hstep by (by apply reads_begin).
  revert Hstep. unfold task_begin. set (r := (λ _, None) <$> start_begin (set_state Running p)).
  pose proof (task_result_name t T (t_rx T) p (set_state Running p) r s) as Hname. intros Hstep.
  destruct (task_result_frame t T (t_rx T) (set_state Running p) r s)
    as (_ & Hw & T' & HT' & HP' & Hd).
  destruct Hd as [Hd|[Hst' Hq']].
  { eexists _, T'. split_and!; [by apply rtc_once|done..]. }
  apply (finishes_step _ _ _ Hstep Hw).
  apply (task_drains t (t_rx T) _ T' name); try done.
  rewrite HP', Hname by (done || by rewrite set_state_name). done.
Qed.

(** A waiting unload whose task has finished ends. *)
Lemma joinable_unload_ends s u before after :
  waiting s = before ++ u :: after → joinable u s → is_Some (name_of s (u_prog u)) →
  ∃ s', own_turn u s s' ∧ state_at s' (u_prog u) = Some Uninitialized ∧
    waiting s' = before ++ after.
Proof.
  intros Hw Hj [n Hn]. unfold name_of in Hn. apply fmap_Some in Hn as (p & Hp & _).
  eexists. split; [by apply (own_end u s before after)|].
  unfold state_of. rewrite (unload_end_run _ _ _ Hp). unfold state_at. simpl.
  rewrite lookup_insert_eq. simpl. by rewrite set_state_state.
Qed.

(** ** The signal of an unload is not lost *)

(** The task is over, or it still has its stop signal unread. *)
Definition stopping (t : TaskId) (name : string) s : Prop :=
  ∃ T, tasks s !! t = Some T ∧ name_of s (t_prog T) = Some name ∧
    (task_live T = false ∨ ProgramName name ∈ t_rx T).

(** Everything that is left unread stays so, and what is over stays over. *)
Definition keeps_unread (T T' : Task) : Prop :=
  t_prog T' = t_prog T ∧ (task_live T = false → task_live T' = false) ∧
  (task_live T' = false ∨ ∀ sig, sig ∈ t_rx T → sig ∈ t_rx T').

Lemma stopping_mono t name s s' :
  (∀ l, name_of s' l = name_of s l) →
  (∀ T, tasks s !! t = Some T → ∃ T', tasks s' !! t = Some T' ∧ keeps_unread T T') →
  stopping t name s → stopping t name s'.
Proof.
  intros Hn HT' (T & HT & HTn & Hd). destruct (HT' _ HT) as (T' & H' & HP & Hdead & Hrx).
  exists T'. rewrite HP, Hn. split_and!; [done..|]. destruct Hd as [Hd|Hd]; [by auto|].
  destruct Hrx; auto.
Qed.

Lemma keeps_unread_refl T : keeps_unread T T.
Proof. split_and!; auto. Qed.

Lemma stopping_frame t name s s' :
  (∀ l, name_of s' l = name_of s l) → tasks s' = tasks s → stopping t name s → stopping t name s'.
Proof.
  intros Hn Ht. apply stopping_mono; [done|]. intros T HT. exists T. rewrite Ht.
  split; [done|apply keeps_unread_refl].
Qed.

Lemma name_of_put s l p p' l' :
  heap s !! l = Some p → get_name p' = get_name p →
  name_of (set_heap (<[l := p']> (heap s)) s) l' = name_of s l'.
Proof.
  intros Hp Hn. unfold name_of. simpl. rewrite lookup_insert. case_decide; [|done]. subst.
  rewrite Hp. simpl. by rewrite Hn.
Qed.

Lemma stopping_pre_load t name s name' ty md cm maps :
  Inv s → stopping t name s → stopping t name (state_of (pre_load name' ty md cm maps) s).
Proof.
  intros HI' Hs. destruct (get_program (registry_manager (pm s)) name' (Some ty)) as [l|] eqn:Hg.
  2: { unfold state_of. by rewrite pre_load_missing. }
  destruct (Inv_registered _ _ _ _ HI' Hg) as (p & Hp & _).
  unfold state_of. rewrite (pre_load_run _ _ _ _ _ _ _ _ Hg Hp). case_decide; [|done].
  pose proof (init_identity md cm maps p) as (Hn & _ & _).
  destruct (init md cm maps p) as [[[]|e] p']; simpl in *;
    (apply (stopping_frame t name s); [intros l'; eapply name_of_put; [exact Hp|]|done|done]);
    by rewrite ?set_state_name.
Qed.

Lemma stopping_load t name s l :
  stopping t name s → stopping t name (state_of (load l) s).
Proof.
  intros Hs. destruct (heap s !! l) as [p|] eqn:Hp.
  2: { unfold state_of, load, deref, mbind, M_bind. by rewrite Hp. }
  unfold state_of. rewrite (load_run _ _ _ Hp). case_decide; [|done].
  apply (stopping_mono t name s); [done| |done]. intros T HT. exists T. simpl.
  rewrite lookup_insert_ne; [split; [done|apply keeps_unread_refl]|].
  intros Heq. apply (is_fresh (dom (tasks s))). rewrite Heq. by apply elem_of_dom.
Qed.

Lemma stopping_send t name sig s : stopping t name s → stopping t name (state_of (send sig) s).
Proof.
  intros Hs. unfold state_of, send. case_decide; [done|].
  apply (stopping_mono t name s); [done| |done]. intros T HT. exists (push_signal sig T). simpl.
  rewrite lookup_fmap, HT. split; [done|]. unfold push_signal.
  destruct (task_live T) eqn:Hl; [|apply keeps_unread_refl]. split_and!; [done|by rewrite Hl|].
  right. set_solver.
Qed.

Lemma stopping_unload_begin t name s name' r s' :
  Inv s → unload_begin name' s = (r, s') → stopping t name s → stopping t name s'.
Proof.
  intros HI' Hu Hs. destruct (get_program (registry_manager (pm s)) name' None) as [l|] eqn:Hg.
  2: { rewrite unload_begin_missing in Hu by done. by simplify_eq. }
  destruct (Inv_registered _ _ _ _ HI' Hg) as (p & Hp & _).
  rewrite (unload_begin_run _ _ _ _ Hg Hp) in Hu. pose proof (stop_identity p) as (Hn & _ & _).
  destruct (stop p) as [r1 p']. simpl in *. set (s1 := set_heap _ s) in *.
  assert (stopping t name s1) as Hs1.
  { apply (stopping_frame t name s); [intros l'; by eapply name_of_put|done|done]. }
  destruct r1 as [[]|e]; [|by simplify_eq].
  pose proof (stopping_send t name (ProgramName name') s1 Hs1) as Hs2. unfold state_of in Hs2.
  destruct (send (ProgramName name') s1) as [[[]|e] s2]; simplify_eq/=; [|done].
  by apply (stopping_frame t name s2).
Qed.

(** A turn of some task: of another one, or of the task itself. *)
Lemma stopping_task_result t name s t' T p p' rx r :
  tasks s !! t' = Some T → heap s !! t_prog T = Some p → get_name p' = get_name p →
  (t' = t → task_live T = true ∧ ((∃ x, r = Ok (Some x)) ∨ ∀ sig, sig = ProgramName name → sig ∈ t_rx T → sig ∈ rx)) →
  stopping t name s → stopping t name (task_result t' T rx p' r s).
Proof.
  intros HT Hp Hn Hself (T0 & HT0 & HTn & Hd).
  pose proof (task_result_name t' T rx p p' r s) as Hname.
  destruct (decide (t' = t)) as [->|Hne].
  - destruct (Hself eq_refl) as [Hlive Hrx]. simplify_eq. destruct Hd as [|Hd]; [congruence|].
    destruct (task_result_frame t T rx p' r s) as (_ & _ & T' & HT' & HP' & Hd').
    exists T'. rewrite HP', Hname by done. split_and!; [done..|].
    destruct Hd' as [|[Hst Hq]]; [by left|]. destruct Hrx as [[x ->]|Hrx].
    + simpl in HT'. rewrite lookup_insert_eq in HT'. injection HT' as <-. by simpl in Hst.
    + right. rewrite Hq. auto.
  - exists T0. rewrite Hname by done. split_and!; [|done..].
    unfold task_result. repeat case_match; simpl; by rewrite lookup_insert_ne.
Qed.

Lemma stopping_scrape t name s : stopping t name s → stopping t name (scrape s).
Proof.
  apply stopping_frame; [|done]. intros l. unfold scrape, name_of. simpl.
  pose proof (encode_same (registry_manager (pm s)) (heap s, world s) l) as Hsame. simpl in Hsame.
  set (s' := state_of _ _) in *. destruct (heap s !! l), (s'.1 !! l); try done. simpl.
  destruct Hsame as (Hn & _). by rewrite Hn.
Qed.

Lemma stopping_step t name s s' :
  Inv s → in_time s → step s s' → stopping t name s → stopping t name s'.
Proof.
  intros HI' Ht Hstep Hs. destruct Hstep.
  - by apply stopping_pre_load.
  - by apply stopping_load.
  - eapply (stopping_frame _ _ s'); [done|done|]. by eapply stopping_unload_begin.
  - by eapply stopping_unload_begin.
  - unfold state_of, unload_end, deref, mbind, M_bind.
    destruct (heap s !! u_prog u) as [p|] eqn:Hp; [|by apply (stopping_frame t name s)].
    eapply (stopping_frame _ _ s); [|done|done]. intros l.
    apply (name_of_put s (u_prog u) p); [done|by rewrite set_state_name].
  - eapply stopping_task_result; [done|done|by rewrite set_state_name| |done].
    intros ->. split; [unfold task_live; by rewrite H0|]. right. auto.
  - unfold task_event. pose proof (start_step_identity ev p (world s)) as (Hn & _).
    destruct (start_step ev (p, world s)) as [r [p' w']] eqn:Hrun. simpl in Hn.
    eapply (stopping_task_result _ _ (set_world w' s)); [done..| |by apply (stopping_frame t name s)].
    intros ->. split; [unfold task_live; by rewrite H0|].
    destruct (rx_in_time _ _ _ H2 (Ht _ _ H)) as [[-> ->]|(sig & -> & Hq)]; [by auto|].
    destruct (decide (sig = ProgramName (get_name p))) as [->|Hne].
    + left. rewrite start_step_signal in Hrun by auto. simplify_eq. eauto.
    + right. intros sg -> Hin. rewrite Hq in Hin. apply elem_of_cons in Hin as [<-|]; [|done].
      destruct Hs as (T0 & HT0 & HTn & _). simplify_eq. unfold name_of in HTn. rewrite H1 in HTn.
      by simplify_eq/=.
  - by apply stopping_scrape.
  - by apply stopping_send.
  - by apply (stopping_frame t name s).
Qed.

Lemma stopping_run t name s s' :
  Inv s → in_time s → rtc step_in_time s s' → stopping t name s →
  Inv s' ∧ in_time s' ∧ stopping t name s'.
Proof.
  intros HI' Ht Hr Hs. induction Hr as [s|s1 s2 s3 [Hstep Ht2] _ IH]; [done|].
  apply IH; [by eapply Inv_step|done|by eapply stopping_step].
Qed.

Lemma unload_begin_handle s name u s1 :
  Inv s → unload_begin name s = (Ok u, s1) → program_handles (pm s1) !! name = None.
Proof.
  intros HI' Hu. destruct (get_program (registry_manager (pm s)) name None) as [l|] eqn:Hg.
  2: { by rewrite unload_begin_missing in Hu. }
  destruct (Inv_registered _ _ _ _ HI' Hg) as (p & Hp & _).
  rewrite (unload_begin_run _ _ _ _ Hg Hp) in Hu. destruct (stop p) as [[[]|e] p']; [|done].
  unfold send in Hu. case_decide; [done|]. simplify_eq. apply lookup_delete_eq.
Qed.

(** The task an unload waits for has its signal. *)
Lemma unload_begin_stopping s name u s1 t :
  Inv s → unload_begin name s = (Ok u, s1) → u_handle u = Some t →
  u_name u = name ∧ stopping t name s1.
Proof.
  intros HI' Hu Hut. destruct (Inv_unload_begin _ _ _ _ HI' Hu) as [_ Hw].
  destruct (inv_waiting _ (Hw u eq_refl) u) as [Hnu Hpt]; [constructor|].
  specialize (Hpt t Hut). apply prog_of_Some in Hpt as (T & HT & HP). simpl in HT.
  destruct (get_program (registry_manager (pm s)) name None) as [l|] eqn:Hg.
  2: { by rewrite unload_begin_missing in Hu. }
  destruct (Inv_registered _ _ _ _ HI' Hg) as (p & Hp & _).
  rewrite (unload_begin_run _ _ _ _ Hg Hp) in Hu. destruct (stop p) as [[[]|e] p']; [|done].
  unfold send in Hu. case_decide; [done|]. simplify_eq. split; [done|]. exists T.
  split_and!; [done|by rewrite HP|]. simpl in HT. rewrite lookup_fmap in HT.
  destruct (tasks s !! t) as [T0|]; [|done]. simplify_eq/=. unfold push_signal.
  destruct (task_live T0) eqn:E; [right; set_solver|by left].
Qed.

(** ** Properties *)

(** In every state the agent can reach, with any interleaving of loads,
    unloads, task turns, scrapes, shutdowns and kernel activity: registered
    programs exist under their own names, names are unique, every task, handle
    and waiting unload refers to the program it was made for, and a program is
    in state Running only if a task that set it so is in its loop or panicked. *)
Lemma manager_invariant (sm : P) cm w rx s :
  get_name sm = "service_map" → get_state sm = Uninitialized →
  rtc step (ProgManager_new sm cm w rx) s → Inv s.
Proof. intros Hn Hs Hr. eapply Inv_rtc; [by apply Inv_new|done]. Qed.

(** An unload is never stranded: whatever the agent does after the unload has
    sent its signal, as long as no receiver falls behind the channel's capacity,
    it can complete by the turns of the task it waits for alone: the task reads
    its receiver up to the signal and ends, and the unload sets the program
    Uninitialized and is done.  Its handle is gone from the start, so the
    program can be loaded again. *)
Lemma unload_completes s name u s1 s' :
  Inv s → unload_begin name s = (Ok u, s1) → in_time s1 →
  rtc step_in_time (set_waiting (u :: waiting s1) s1) s' → u ∈ waiting s' →
  program_handles (pm s1) !! name = None ∧
  ∃ s'' before after, rtc (own_turn u) s' s'' ∧
    state_at s'' (u_prog u) = Some Uninitialized ∧
    waiting s' = before ++ u :: after ∧ waiting s'' = before ++ after.
Proof.
  intros HI' Hu Ht Hr Hin. split; [by eapply unload_begin_handle|].
  destruct (Inv_unload_begin _ _ _ _ HI' Hu) as [_ Hw]. specialize (Hw u eq_refl).
  apply list_elem_of_split in Hin as (before & after & Hsplit).
  assert (Inv s') as HIs' by (eapply Inv_rtc; [exact Hw|]; eapply rtc_subrel; [|exact Hr]; by intros ?? []).
  assert (finished : ∃ s3, rtc (own_turn u) s' s3 ∧ joinable u s3 ∧ waiting s3 = waiting s').
  { unfold joinable. destruct (u_handle u) as [t|] eqn:Hut; [|by exists s'].
    destruct (unload_begin_stopping _ _ _ _ _ HI' Hu Hut) as [Hun Hst].
    destruct (stopping_run t name _ _ Hw Ht Hr) as (_ & Ht' & T & HT & HTn & Hd).
    { by apply (stopping_frame t name s1). }
    destruct (task_live T) eqn:Hl; [|exists s'; split_and!; [done|by exists T|done]].
    destruct Hd as [|Hd]; [done|].
    destruct (live_task_drains s' t T name) as (s3 & T3 & Hr3 & HT3 & Hl3 & Hw3); eauto.
    exists s3. split_and!; [|by exists T3|done]. eapply rtc_subrel; [|done]. intros ??. by apply own_task. }
  destruct finished as (s3 & Hr3 & Hj & Hw3).
  assert (Inv s3) as HI3.
  { eapply Inv_rtc; [exact HIs'|]. eapply rtc_subrel; [apply own_turn_step|done]. }
  destruct (joinable_unload_ends s3 u before after) as (s'' & Ho & Hst & Hws); [congruence|done| |].
  { destruct (inv_waiting _ HI3 u) as [Hn _]; [rewrite Hw3, Hsplit; set_solver|eauto]. }
  exists s'', before, after. split_and!; [by eapply rtc_r|done..].
Qed.

(** A program is loaded only in state Initialized, and stays in it until the
    spawned task is first polled: a second load in that window also succeeds,
    two tasks then run the same program, and the first one has lost its handle,
    so that no unload waits for it. *)
Lemma double_load_orphans_task s l p s1 :
  heap s !! l = Some p → load l s = (Ok (), s1) →
  get_state p = Initialized ∧ heap s1 = heap s ∧
  ∃ s2 t1 t2, load l s1 = (Ok (), s2) ∧ t1 ≠ t2 ∧
    prog_of s2 t1 = Some l ∧ prog_of s2 t2 = Some l ∧
    program_handles (pm s1) !! get_name p = Some t1 ∧
    program_handles (pm s2) !! get_name p = Some t2.
Proof.
  intros Hp Hl. rewrite (load_run _ _ _ Hp) in Hl. case_decide as Hst; [|done].
  split; [done|]. simplify_eq/=. split; [done|].
  set (s1 := set_pm _ _). rewrite (load_run s1 l p) by done. rewrite decide_True by done.
  pose proof (is_fresh (dom (tasks s))) as Hf.
  pose proof (is_fresh (dom (tasks s1))) as Hf1.
  assert (fresh (dom (tasks s)) ≠ fresh (dom (tasks s1))) as Hne.
  { intros Heq. rewrite <- Heq in Hf1. apply Hf1. unfold s1. simpl. rewrite dom_insert. set_solver. }
  eexists _, (fresh (dom (tasks s))), (fresh (dom (tasks s1))).
  split; [reflexivity|]. split; [done|]. unfold prog_of. simpl.
  rewrite !lookup_insert_eq, lookup_insert_ne, lookup_insert_eq by done. done.
Qed.

End manager.

(** ** The service map under the manager *)

Section service_map.
Context `{HI : HashIter} {BC : BpfMap ConnectionKey ConnectionStats}.
Context (aya_iter : gmap ConnectionKey ConnectionStats →
                    list (result Z (ConnectionKey * ConnectionStats))).
Context (caches : CacheHandle → CacheManager.CacheManager).
Context (fs : PinFs) (fnv64 : string → Z) (encode_metric : gmap Labels Z → result Error unit).
Let SMP : Program Inner KMaps := ServiceMap_program aya_iter caches fs fnv64 encode_metric.
Local Existing Instance SMP.

(** A service map whose metadata asks for a period of 0 seconds panics in its
    first turn: the program stays in state Running with no task behind it, and
    every further load is refused until it is unloaded. *)
Lemma zero_interval_stuck_running (s : Sys Inner KMaps) t T p str :
  heap s !! t_prog T = Some p → metadata p !! "interval" = Some str → parse_u64 str = Some 0%Z →
  let s' := task_begin t T p s in
  state_at s' (t_prog T) = Some Running ∧
  t_state <$> tasks s' !! t = Some Panicked ∧
  load (t_prog T) s' =
    (Err (Msg ("Program " +:+ in_name p +:+ " is in an invalid state to be loaded: Running")), s').
Proof.
  intros Hp Hmd Hz. unfold task_begin. simpl.
  assert (ServiceMap_start_begin (set_program_state Running p) =
          Err (Panic "`period` must be non-zero.")) as ->.
  { unfold ServiceMap_start_begin, start_interval. simpl. rewrite Hmd. simpl. by rewrite Hz. }
  simpl. set (s' := set_task _ _ _ _ _).
  assert (heap s' !! t_prog T = Some (set_program_state Running p)) as Hp'
    by (simpl; apply lookup_insert_eq).
  split_and!.
  - unfold state_at. rewrite Hp'. done.
  - simpl. by rewrite lookup_insert_eq.
  - rewrite (load_run _ _ _ Hp'). done.
Qed.
End service_map.

(** ** Witnesses *)

Definition ex_new : Sys Inner KMaps := ProgManager_new Inner_new 0 (λ _, ∅) 2.

(** The service map pre-loaded and loaded, its task not yet polled. *)
Definition ex_preloaded : Sys Inner KMaps :=
  state_of (pre_load (Program0 := ex_program) "service_map" Builtin ∅ 0 {[ "CONNECTIONS" := 12%Z ]}) ex_new.
Definition ex_loaded : Sys Inner KMaps := state_of (load (Program0 := ex_program) 0) ex_preloaded.

Lemma ex_reach :
  rtc (step (HI := hm_iter_default) (Program0 := ex_program) (BR := bounded_broadcast 32))
    ex_new ex_loaded.
Proof.
  eapply rtc_l; [apply (step_pre_load _ "service_map" Builtin ∅ {[ "CONNECTIONS" := 12%Z ]})|].
  apply rtc_once, (step_load _ "service_map" None 0). vm_compute. reflexivity.
Qed.

Lemma manager_invariant_witness : Inv (Program0 := ex_program) ex_loaded.
Proof.
  apply (manager_invariant (HI := hm_iter_default) (Program0 := ex_program)
           (ProgramLaws0 := ex_program_laws) (BR := bounded_broadcast 32) Inner_new 0 (λ _, ∅) 2).
  - reflexivity.
  - reflexivity.
  - exact ex_reach.
Defined.

Lemma ex_loaded_inv : Inv (Program0 := ex_program) ex_loaded.
Proof.
  apply (Inv_rtc (HI := hm_iter_default) (ProgramLaws0 := ex_program_laws)
           (BR := bounded_broadcast 32) ex_new).
  - by apply Inv_new.
  - exact ex_reach.
Qed.

Definition ex_unload := unload_begin (Program0 := ex_program) "service_map" ex_loaded.

Definition ex_waiting : Waiting := {| u_name := "service_map"; u_prog := 0; u_handle := Some 0 |}.
Definition ex_unloading : Sys Inner KMaps :=
  set_waiting (ex_waiting :: waiting ex_unload.2) ex_unload.2.
(** Meanwhile the metrics server is scraped. *)
Definition ex_scraped : Sys Inner KMaps :=
  scrape (HI := hm_iter_default) (Program0 := ex_program) ex_unloading.

Definition ex_stopping : gmap TaskId Task :=
  {[ 0 := {| t_prog := 0; t_state := Spawned; t_rx := [ProgramName "service_map"] |} ]}.

Lemma ex_in_time (s : Sys Inner KMaps) :
  tasks s = ex_stopping → in_time (BR := bounded_broadcast 32) s.
Proof.
  intros Hs t T HT. rewrite Hs in HT. unfold ex_stopping in HT. apply lookup_singleton_Some in HT as [_ <-]. vm_compute. lia.
Qed.

Lemma unload_completes_witness :
  ∃ s'', rtc (own_turn (Program0 := ex_program) (BR := bounded_broadcast 32) ex_waiting) ex_scraped s'' ∧
    state_at (Program0 := ex_program) s'' 0 = Some Uninitialized.
Proof.
  destruct (unload_completes (HI := hm_iter_default) (Program0 := ex_program)
              (ProgramLaws0 := ex_program_laws) (BR := bounded_broadcast 32) ex_loaded "service_map"
              ex_waiting ex_unload.2 ex_scraped)
    as (_ & s'' & before & after & Hr & Hst & _).
  - exact ex_loaded_inv.
  - apply (run_eta ex_unload ex_waiting). vm_compute. reflexivity.
  - apply ex_in_time. reflexivity.
  - apply rtc_once. split; [apply step_scrape|apply ex_in_time; reflexivity].
  - apply list_elem_of_here.
  - exists s''. split; [exact Hr|exact Hst].
Defined.

Lemma double_load_witness :
  ∃ s2, load (Program0 := ex_program) 0 ex_loaded = (Ok (), s2).
Proof.
  destruct (double_load_orphans_task (Program0 := ex_program) ex_preloaded 0
    (default Inner_new (heap ex_preloaded !! 0)) ex_loaded) as (_ & _ & s2 & _ & _ & H & _).
  - vm_compute. reflexivity.
  - apply (run_eta (load (Program0 := ex_program) 0 ex_preloaded) ()). vm_compute. reflexivity.
  - exists s2. exact H.
Defined.

Definition ex_zero : Inner := set_inner_metadata {[ "interval" := "0" ]} Inner_new.

Lemma zero_interval_witness :
  state_at (Program0 := ex_program)
    (task_begin (Program0 := ex_program) 0 {| t_prog := 0; t_state := Spawned; t_rx := [] |} ex_zero
       (set_heap {[ 0 := ex_zero ]} ex_loaded)) 0 = Some Running.
Proof.
  apply (zero_interval_stuck_running (HI := hm_iter_default) (BC := ex_BC) ex_iter (λ _, ex_tables)
           ex_fs (λ _, 0%Z) (λ _, Ok ()) (set_heap {[ 0 := ex_zero ]} ex_loaded) 0
           {| t_prog := 0; t_state := Spawned; t_rx := [] |} ex_zero "0");
    vm_compute; reflexivity.
Defined.
