(* ===== verification/ManagerConcurrent.v ===== *)
(** * Handlers of the program manager that run at the same time

    The agent runs on a multi-threaded runtime and [ProgManager] is shared by
    all requests: [pre_load], [load] and [unload] of
    [agent/src/managers/prog.rs] take the lock of a program, of the channel and
    of the table of handles one after the other, and another request can get in
    between any two of them, not only at the [handle.await] of [unload].
    [ProgManager] runs a method up to its next suspension point in one step;
    here a step of a handler ([hstep]) is one access to shared state, and any
    number of handlers, the turns of the tasks and the scrapes interleave
    ([mstep]).  Subscribing and spawning are one step: a receiver that exists
    before its task cannot be told from one whose task has not been polled yet.

    The steps of [ProgManager] are special runs of this system, its invariant
    holds of all of them, and an unload that waits for a task that existed when
    a signal was sent can complete.  An unload that overlaps with a load of the
    same program may wait for a task that was never signalled, or answer while
    the program is about to run. *)
From S2P Require Import Prelude RustStd AgentApi Bpf ConnTracer CacheManager Program ServiceMap Registry Collector ProgManager.
From stdpp Require Import base gmap strings list relations.
From Stdlib Require Import ZArith Lia.

(** ** Handlers *)

(** Where a handler is: what it does next, with the values it has read.
    [P...] are the places of [pre_load], [L...] of [load], [U...] of [unload]. *)
Inductive Handler :=
  | PGet (name : string) (program_type : ProgramType) (metadata : gmap string string)
      (map_to_prog_id : gmap string Z)
  | PState (prog : loc) (metadata : gmap string string) (map_to_prog_id : gmap string Z)
  | PInit (prog : loc) (metadata : gmap string string) (map_to_prog_id : gmap string Z)
  | PSet (prog : loc)
  | PDone (r : result Error loc)
  | LCheck (prog : loc)
  | LSpawn (prog : loc)
  | LInsert (prog : loc) (handle : TaskId)
  | LRefuse (prog : loc)
  | UGet (name : string)
  | UStop (name : string) (program : loc)
  | USend (name : string) (program : loc)
  | URemove (name : string) (program : loc)
  | UJoin (u : Waiting)
  | USet (u : Waiting)
  | Answered (r : result Error unit).

Section handlers.
Context `{HI : HashIter} {P W : Type} `{!Program P W}.
Implicit Types (s : Sys P W) (l : loc) (name : string) (h : Handler) (hs : list Handler).

(** [handle.await] returns. *)
Definition joined (u : Waiting) s : bool :=
  match u_handle u with
  | None => true
  | Some t => match tasks s !! t with Some T => negb (task_live T) | None => false end
  end.

(** One access of a shared program under its lock. *)
Definition on_program l (f : P → Handler * P) s : option (Handler * Sys P W) :=
  p ← heap s !! l; Some ((f p).1, set_heap (<[l := (f p).2]> (heap s)) s).
Definition read_program l (f : P → Handler) s : option (Handler * Sys P W) :=
  p ← heap s !! l; Some (f p, s).

(** [pre_load]: find the program, look at its state, [init], [set_state]. *)
Definition pre_load_step h s : option (Handler * Sys P W) :=
  match h with
  | PGet name ty md maps =>
      Some (match get_program (registry_manager (pm s)) name (Some ty) with
            | Some prog => PState prog md maps
            | None => PDone (Err (Msg ("Program " +:+ name +:+ " not found.")))
            end, s)
  | PState prog md maps =>
      read_program prog (λ p,
        match get_state p with Uninitialized => PInit prog md maps | _ => PDone (Ok prog) end) s
  | PInit prog md maps =>
      on_program prog (λ p,
        let '(r, p') := init md (cache_manager (pm s)) maps p in
        (match r with Ok _ => PSet prog | Err e => PDone (Err e) end, p')) s
  | PSet prog => on_program prog (λ p, (PDone (Ok prog), set_state Initialized p)) s
  | _ => None
  end.

(** [load]: look at the state, spawn, insert the handle; a refusal reads the
    state again for its message. *)
Definition load_step h s : option (Handler * Sys P W) :=
  match h with
  | LCheck prog =>
      read_program prog (λ p, match get_state p with Initialized => LSpawn prog | _ => LRefuse prog end) s
  | LSpawn prog =>
      match spawn prog s with
      | (Ok handle, s') => Some (LInsert prog handle, s')
      | (Err e, s') => Some (Answered (Err e), s')
      end
  | LInsert prog handle =>
      p ← heap s !! prog;
      Some (Answered (Ok ()),
            set_pm (set_handles (<[get_name p := handle]> (program_handles (pm s))) (pm s)) s)
  | LRefuse prog =>
      read_program prog (λ p,
        Answered (Err (Msg ("Program " +:+ get_name p +:+ " is in an invalid state to be loaded: " +:+
                            ProgramState_debug (get_state p))))) s
  | _ => None
  end.

(** [unload]: find the program, [stop], [send], remove the handle, wait for the
    task, [set_state]. *)
Definition unload_step h s : option (Handler * Sys P W) :=
  match h with
  | UGet name =>
      Some (match get_program (registry_manager (pm s)) name None with
            | Some program => UStop name program
            | None => Answered (Err (Msg ("Failed to get program " +:+ name +:+ " for unloading.")))
            end, s)
  | UStop name program =>
      on_program program (λ p,
        let '(r, p') := stop p in
        (match r with Ok _ => USend name program | Err e => Answered (Err e) end, p')) s
  | USend name program =>
      match send (ProgramName name) s with
      | (Ok _, s') => Some (URemove name program, s')
      | (Err e, s') => Some (Answered (Err e), s')
      end
  | URemove name program =>
      Some (UJoin {| u_name := name; u_prog := program; u_handle := program_handles (pm s) !! name |},
            set_pm (set_handles (delete name (program_handles (pm s))) (pm s)) s)
  | UJoin u => if joined u s then Some (USet u, s) else None
  | USet u => on_program (u_prog u) (λ p, (Answered (Ok ()), set_state Uninitialized p)) s
  | _ => None
  end.

(** The load handler of the service calls [load] with what [pre_load] returned. *)
Definition then_load h s : option (Handler * Sys P W) :=
  match h with
  | PDone (Ok prog) => Some (LCheck prog, s)
  | PDone (Err e) => Some (Answered (Err e), s)
  | _ => None
  end.

Definition hstep h s : option (Handler * Sys P W) :=
  match h with
  | PGet _ _ _ _ | PState _ _ _ | PInit _ _ _ | PSet _ => pre_load_step h s
  | LCheck _ | LSpawn _ | LInsert _ _ | LRefuse _ => load_step h s
  | UGet _ | UStop _ _ | USend _ _ | URemove _ _ | UJoin _ | USet _ => unload_step h s
  | PDone _ => then_load h s
  | Answered _ => None
  end.

(** Steps of one handler that nothing interrupts. *)
Definition alone (a b : Handler * Sys P W) : Prop := hstep a.1 a.2 = Some b.

(** The calls of the manager's methods. *)
Inductive call s : Handler → Prop :=
  | call_pre_load name ty md maps : call s (PGet name ty md maps)
  | call_load name ty prog :
      get_program (registry_manager (pm s)) name ty = Some prog → call s (LCheck prog)
  | call_unload name : call s (UGet name).

Definition returned h : bool := match h with PDone _ | Answered _ => true | _ => false end.

(** ** The system *)

Context `{BR : Broadcast}.

(** What goes on besides the handlers. *)
Inductive agent_step : Sys P W → Sys P W → Prop :=
  | agent_begin s t T p :
      tasks s !! t = Some T → t_state T = Spawned → heap s !! t_prog T = Some p →
      agent_step s (task_begin t T p s)
  | agent_event s t T p ev rx :
      tasks s !! t = Some T → t_state T = InLoop → heap s !! t_prog T = Some p →
      rx_recv (t_rx T) ev rx → agent_step s (task_event t T p ev rx s)
  | agent_scrape s : agent_step s (scrape s)
  | agent_shutdown s : agent_step s (state_of (send All) s)
  | agent_world s w : agent_step s (set_world w s).

(** A handler is dropped while it awaits its task when its client goes away. *)
Inductive mstep : Sys P W * list Handler → Sys P W * list Handler → Prop :=
  | m_call s hs h : call s h → mstep (s, hs) (s, h :: hs)
  | m_handler s s' before h h' after :
      hstep h s = Some (h', s') → mstep (s, before ++ h :: after) (s', before ++ h' :: after)
  | m_return s before h after :
      returned h = true → mstep (s, before ++ h :: after) (s, before ++ after)
  | m_dropped s before u after : mstep (s, before ++ UJoin u :: after) (s, before ++ after)
  | m_agent s s' hs : agent_step s s' → mstep (s, hs) (s', hs).

(** The turns of a task that reads its signals and whose polls succeed. *)
Inductive healthy_turn (t : TaskId) : Sys P W → Sys P W → Prop :=
  | healthy_reads s s' : reads_on t s s' → healthy_turn t s s'
  | healthy_tick s T p rx p' w' :
      tasks s !! t = Some T → t_state T = InLoop → heap s !! t_prog T = Some p →
      rx_recv (t_rx T) Tick rx → start_step Tick (p, world s) = (Ok None, (p', w')) →
      healthy_turn t s (task_event t T p Tick rx s).

Definition mstep_in_time a b : Prop := mstep a b ∧ in_time b.1.

(** What a handler knows of the programs and the tasks. *)
Definition handler_ok s h : Prop :=
  match h with
  | PState l _ _ | PInit l _ _ | PSet l | PDone (Ok l) | LCheck l | LSpawn l | LRefuse l =>
      is_Some (name_of s l)
  | LInsert l t => prog_of s t = Some l
  | UStop name l | USend name l | URemove name l => name_of s l = Some name
  | UJoin u | USet u => name_of s (u_prog u) = Some (u_name u) ∧
      ∀ t, u_handle u = Some t → prog_of s t = Some (u_prog u)
  | _ => True
  end.

Definition MInv (a : Sys P W * list Handler) : Prop := Inv a.1 ∧ Forall (handler_ok a.1) a.2.

(** A state of [ProgManager] here: the waiting unloads are handlers. *)
Definition handlers_of s : Sys P W * list Handler := (set_waiting [] s, UJoin <$> waiting s).

(** ** One step of a handler *)

Lemma joined_joinable u s : joined u s = true ↔ joinable u s.
Proof.
  unfold joined, joinable. destruct (u_handle u) as [t|]; [|done].
  destruct (tasks s !! t) as [T|]; [|split; [done|by intros (? & ? & _)]].
  rewrite negb_true_iff. split; [by exists T|by intros (? & [= <-] & ?)].
Qed.

(** Programs keep their names, tasks what they have not read. *)
Definition keeps s s' : Prop :=
  (∀ l, name_of s' l = name_of s l) ∧
  ∀ t T, tasks s !! t = Some T → ∃ T', tasks s' !! t = Some T' ∧ keeps_unread T T'.

Lemma keeps_same s s' : (∀ l, name_of s' l = name_of s l) → tasks s' = tasks s → keeps s s'.
Proof.
  intros Hn Ht. split; [done|]. intros t T HT. exists T. rewrite Ht. split; [done|].
  apply keeps_unread_refl.
Qed.

Lemma keeps_spawn s l : keeps s (state_of (spawn l) s).
Proof.
  split; [done|]. intros t T HT. exists T. split; [|apply keeps_unread_refl]. simpl.
  rewrite lookup_insert_ne; [done|]. apply not_eq_sym. by eapply spawn_fresh.
Qed.

Lemma keeps_send s sig : keeps s (state_of (send sig) s).
Proof.
  unfold state_of, send. case_decide; [by apply keeps_same|]. split; [done|].
  intros t T HT. exists (push_signal sig T). simpl. rewrite lookup_fmap, HT. split; [done|].
  unfold push_signal. destruct (task_live T) eqn:Hl; [|apply keeps_unread_refl].
  split_and!; [done|by rewrite Hl|]. right. set_solver.
Qed.

Lemma stopping_keeps t name s s' : keeps s s' → stopping t name s → stopping t name s'.
Proof. intros [Hn Ht] Hs. apply (stopping_mono t name s); [done|apply Ht|done]. Qed.

(** What a handler knows stays true when programs keep their names and tasks
    their programs. *)
Definition same_refs s s' : Prop :=
  (∀ l, name_of s' l = name_of s l) ∧ ∀ t l, prog_of s t = Some l → prog_of s' t = Some l.

Lemma keeps_same_refs s s' : keeps s s' → same_refs s s'.
Proof.
  intros [Hn Ht]. split; [done|]. intros t l (T & HT & <-)%prog_of_Some.
  destruct (Ht _ _ HT) as (T' & HT' & HP & _). apply prog_of_Some. eauto.
Qed.

Lemma handler_ok_refs s s' h : same_refs s s' → handler_ok s h → handler_ok s' h.
Proof.
  intros [Hn Hp]. destruct h as [| | | |[]| | | | | | | | | | |]; simpl; rewrite ?Hn; auto; naive_solver.
Qed.

Context `{!ProgramLaws P W}.

Lemma name_of_is_Some s l : is_Some (name_of s l) → ∃ p, heap s !! l = Some p.
Proof. intros [n Hn]. unfold name_of in Hn. apply fmap_Some in Hn as (p & ? & _). eauto. Qed.

Lemma on_program_Some s l f h' s' :
  Inv s → on_program l f s = Some (h', s') →
  (∀ p, get_name (f p).2 = get_name p ∧ (get_state (f p).2 = Running → get_state p = Running)) →
  Inv s' ∧ keeps s s' ∧ ∃ p, heap s !! l = Some p ∧ h' = (f p).1.
Proof.
  intros HI' Hf Hsame. unfold on_program in Hf.
  destruct (heap s !! l) as [p|] eqn:Hp; simpl in Hf; [|done]. simplify_eq.
  destruct (Hsame p) as [Hn Hs]. split_and!; [by apply (Inv_put _ _ p)| |eauto].
  apply keeps_same; [|done]. intros l'. by apply (name_of_put _ _ p).
Qed.

Lemma read_program_Some s l f h' s' :
  read_program l f s = Some (h', s') → s' = s ∧ ∃ p, heap s !! l = Some p ∧ h' = f p.
Proof.
  unfold read_program. destruct (heap s !! l) as [p|]; simpl; [|done]. intros [= <- <-]. eauto.
Qed.

Lemma keeps_refl s : keeps s s.
Proof. by apply keeps_same. Qed.

Lemma pre_load_step_ok s h h' s' :
  Inv s → handler_ok s h → pre_load_step h s = Some (h', s') →
  Inv s' ∧ keeps s s' ∧ handler_ok s' h'.
Proof.
  intros HI' Hok Hstep. destruct h; try done; simpl in *.
  - simplify_eq. split_and!; [done|apply keeps_refl|]. case_match eqn:Hg; [|done]. simpl.
    rewrite (inv_reg _ HI' name (Some program_type) _ Hg). eauto.
  - apply read_program_Some in Hstep as [-> (p & _ & ->)].
    split_and!; [done|apply keeps_refl|]. by case_match.
  - apply on_program_Some in Hstep as (HIs & Hk & p & _ & ->); [|done|].
    + split_and!; [done..|]. destruct Hk as [Hn _].
      destruct (init _ _ _ p) as [[]]; simpl; [by rewrite Hn|done].
    + intros p. pose proof (init_identity metadata (cache_manager (pm s)) map_to_prog_id p) as (? & _ & ?).
      destruct (init _ _ _ p). simpl in *. split; congruence.
  - apply on_program_Some in Hstep as (HIs & Hk & p & _ & ->); [|done|].
    + split_and!; [done..|]. destruct Hk as [Hn _]. simpl. by rewrite Hn.
    + intros p. simpl. by rewrite set_state_name, set_state_state.
Qed.

Lemma load_step_ok s h h' s' :
  Inv s → handler_ok s h → load_step h s = Some (h', s') →
  Inv s' ∧ keeps s s' ∧ handler_ok s' h'.
Proof.
  intros HI' Hok Hstep. destruct h; try done; simpl in *.
  - apply read_program_Some in Hstep as [-> (p & _ & ->)].
    split_and!; [done|apply keeps_refl|]. by case_match.
  - simplify_eq. split_and!; [by apply Inv_spawn_task|apply keeps_spawn|].
    simpl. unfold prog_of. simpl. by rewrite lookup_insert_eq.
  - destruct (heap s !! prog) as [p|] eqn:Hp; simpl in Hstep; [|done]. simplify_eq.
    split_and!; [|by apply keeps_same|done].
    apply (Inv_insert_handle _ _ _ prog); [done..|]. unfold name_of. by rewrite Hp.
  - apply read_program_Some in Hstep as [-> (p & _ & ->)]. split_and!; [done|apply keeps_refl|done].
Qed.

Lemma unload_step_ok s h h' s' :
  Inv s → handler_ok s h → unload_step h s = Some (h', s') →
  Inv s' ∧ keeps s s' ∧ handler_ok s' h'.
Proof.
  intros HI' Hok Hstep. destruct h; try done; simpl in *.
  - simplify_eq. split_and!; [done|apply keeps_refl|]. case_match eqn:Hg; [|done].
    by apply (inv_reg _ HI' name None).
  - apply on_program_Some in Hstep as (HIs & Hk & p & _ & ->); [|done|].
    + split_and!; [done..|]. destruct Hk as [Hn _].
      destruct (stop p) as [[]]; simpl; [by rewrite Hn|done].
    + intros p. pose proof (stop_identity p) as (? & _ & ?).
      destruct (stop p). simpl in *. split; congruence.
  - pose proof (Inv_send s (ProgramName name) HI') as HIs.
    pose proof (keeps_send s (ProgramName name)) as Hk. unfold state_of in *.
    destruct (send (ProgramName name) s) as [[]]; simplify_eq/=; split_and!; try done.
    destruct Hk as [Hn _]. by rewrite Hn.
  - simplify_eq. split_and!; [by apply Inv_drop_handle|by apply keeps_same|]. simpl.
    split; [done|]. intros t Ht. destruct (inv_handle _ HI' _ _ Ht) as (l & Hl & Hnl).
    change (prog_of s t = Some program). rewrite Hl. f_equal. by apply (inv_unique _ HI' name).
  - case_match; simplify_eq. split_and!; [done|apply keeps_refl|done].
  - apply on_program_Some in Hstep as (HIs & Hk & p & _ & ->); [by split_and!|done|].
    intros p. simpl. by rewrite set_state_name, set_state_state.
Qed.

Lemma hstep_ok s h h' s' :
  Inv s → handler_ok s h → hstep h s = Some (h', s') →
  Inv s' ∧ keeps s s' ∧ handler_ok s' h'.
Proof.
  intros HI' Hok Hstep. unfold hstep in Hstep. destruct h; try done;
    eauto using pre_load_step_ok, load_step_ok, unload_step_ok.
  destruct r; simpl in Hstep; simplify_eq; split_and!; auto using keeps_refl; done.
Qed.

(** ** Every interleaving keeps the invariant *)

Lemma agent_step_step s s' : agent_step s s' → step s s'.
Proof. intros []; by econstructor. Qed.

Lemma task_result_refs t T rx p p' r s :
  tasks s !! t = Some T → heap s !! t_prog T = Some p → get_name p' = get_name p →
  same_refs s (task_result t T rx p' r s).
Proof.
  intros HT Hp Hn. split; [intros l; by apply (task_result_name t T rx p)|].
  intros t' l Hl. destruct (decide (t' = t)) as [->|Hne].
  - destruct (task_result_frame t T rx p' r s) as (_ & _ & T' & HT' & HP' & _).
    unfold prog_of in *. rewrite HT in Hl. rewrite HT'. simpl in *. congruence.
  - unfold prog_of, task_result in *. repeat case_match; simpl; by rewrite lookup_insert_ne.
Qed.

Lemma scrape_name s l : name_of (scrape s) l = name_of s l.
Proof.
  unfold scrape, name_of. simpl.
  pose proof (encode_same (registry_manager (pm s)) (heap s, world s) l) as Hsame. simpl in Hsame.
  set (s' := state_of _ _) in *. destruct (heap s !! l), (s'.1 !! l); try done. simpl.
  destruct Hsame as (Hn & _). by rewrite Hn.
Qed.

Lemma agent_step_refs s s' : agent_step s s' → same_refs s s'.
Proof.
  intros [s0 t T p HT _ Hp|s0 t T p ev rx HT _ Hp _|s0|s0|s0 w].
  - eapply task_result_refs; [done..|by rewrite set_state_name].
  - unfold task_event. pose proof (start_step_identity ev p (world s0)) as (Hn & _).
    destruct (start_step ev (p, world s0)) as [r [p' w']]. simpl in Hn.
    by apply (task_result_refs t T rx p p' r (set_world w' s0)).
  - split; [apply scrape_name|done].
  - apply keeps_same_refs, keeps_send.
  - by split.
Qed.

Lemma call_ok s h : Inv s → call s h → handler_ok s h.
Proof. intros HI' [|name ty prog Hg|]; [done| |done]. simpl. rewrite (inv_reg _ HI' _ _ _ Hg). eauto. Qed.

Lemma MInv_mstep a b : MInv a → mstep a b → MInv b.
Proof.
  intros [HI' Hhs] Hstep. destruct Hstep as [s hs h Hc|s s' before h h' after Hh|s before h after _
    |s before u after|s s' hs Ha]; simpl in *.
  - split; [done|]. constructor; [by apply call_ok|done].
  - apply Forall_app in Hhs as [Hb Ha]. apply Forall_cons in Ha as [Hok Ha].
    destruct (hstep_ok _ _ _ _ HI' Hok Hh) as (HIs & Hk & Hok').
    assert (∀ g, handler_ok s g → handler_ok s' g) as Hmono
      by (intros g; by apply handler_ok_refs, keeps_same_refs).
    split; [done|]. apply Forall_app. split; [|constructor]; eauto using Forall_impl.
  - split; [done|]. apply Forall_app in Hhs as [Hb Ha]. inversion Ha. by apply Forall_app.
  - split; [done|]. apply Forall_app in Hhs as [Hb Ha]. inversion Ha. by apply Forall_app.
  - split; [by eapply Inv_step, agent_step_step|].
    eapply Forall_impl; [done|]. intros h. by apply handler_ok_refs, agent_step_refs.
Qed.

Lemma MInv_rtc a b : MInv a → rtc mstep a b → MInv b.
Proof. intros HI'. induction 1; eauto using MInv_mstep. Qed.

(** ** Handlers that nothing interrupts *)

(** One step of a handler, from what is known of the state. *)
Ltac handler_step :=
  unfold alone, hstep, pre_load_step, load_step, unload_step, on_program, read_program; simpl in *;
  repeat (match goal with H : ?x = _ |- context [?x] => rewrite H end; simpl);
  try done.

Lemma alone_pre_load s name ty md maps :
  Inv s →
  rtc alone (PGet name ty md maps, s)
    (let '(r, s') := pre_load name ty md (cache_manager (pm s)) maps s in (PDone r, s')).
Proof.
  intros HI'. destruct (get_program (registry_manager (pm s)) name (Some ty)) as [l|] eqn:Hg.
  2: { rewrite pre_load_missing by done. apply rtc_once. handler_step. }
  destruct (Inv_registered _ _ _ _ HI' Hg) as (p & Hp & _).
  rewrite (pre_load_run _ _ _ _ _ _ _ _ Hg Hp).
  apply (rtc_l _ _ (PState l md maps, s)); [handler_step|].
  destruct (decide (get_state p = Uninitialized)) as [Hst|Hst].
  2: { apply rtc_once. handler_step. by destruct (get_state p). }
  apply (rtc_l _ _ (PInit l md maps, s)).
  { handler_step. }
  destruct (init md (cache_manager (pm s)) maps p) as [[[]|e] p'] eqn:Hi.
  2: { apply rtc_once. handler_step. }
  apply (rtc_l _ _ (PSet l, set_heap (<[l := p']> (heap s)) s)).
  { handler_step. }
  apply rtc_once. handler_step.
  rewrite lookup_insert_eq. simpl. unfold set_heap. simpl. by rewrite insert_insert_eq.
Qed.

Lemma alone_load s l p :
  heap s !! l = Some p →
  rtc alone (LCheck l, s) (let '(r, s') := load l s in (Answered r, s')).
Proof.
  intros Hp. rewrite (load_run _ _ _ Hp). destruct (decide (get_state p = Initialized)) as [Hst|Hst].
  - apply (rtc_l _ _ (LSpawn l, s)).
    { handler_step. }
    eapply rtc_l; [reflexivity|]. apply rtc_once. handler_step.
  - apply (rtc_l _ _ (LRefuse l, s)).
    { handler_step. by destruct (get_state p). }
    apply rtc_once. handler_step.
Qed.

Lemma alone_unload_begin s name :
  Inv s →
  rtc alone (UGet name, s)
    (let '(r, s') := unload_begin name s in
     (match r with Ok u => UJoin u | Err e => Answered (Err e) end, s')).
Proof.
  intros HI'. destruct (get_program (registry_manager (pm s)) name None) as [l|] eqn:Hg.
  2: { rewrite unload_begin_missing by done. apply rtc_once. handler_step. }
  destruct (Inv_registered _ _ _ _ HI' Hg) as (p & Hp & _).
  rewrite (unload_begin_run _ _ _ _ Hg Hp).
  apply (rtc_l _ _ (UStop name l, s)); [handler_step|].
  destruct (stop p) as [[[]|e] p'] eqn:Hs.
  2: { apply rtc_once. handler_step. }
  apply (rtc_l _ _ (USend name l, set_heap (<[l := p']> (heap s)) s)).
  { handler_step. }
  simpl. assert (pm (send (ProgramName name) (set_heap (<[l:=p']> (heap s)) s)).2 = pm s) as Hpm
    by (unfold send; by case_decide).
  destruct (send (ProgramName name) (set_heap (<[l:=p']> (heap s)) s)) as [[[]|e] s2] eqn:Hsend.
  2: { apply rtc_once. handler_step. }
  apply (rtc_l _ _ (URemove name l, s2)).
  { handler_step. }
  apply rtc_once. handler_step.
Qed.

Lemma alone_unload_end s u p :
  heap s !! u_prog u = Some p → joinable u s →
  rtc alone (UJoin u, s) (Answered (Ok ()), state_of (unload_end u) s).
Proof.
  intros Hp Hj%joined_joinable. apply (rtc_l _ _ (USet u, s)).
  { handler_step. }
  apply rtc_once. unfold state_of. rewrite (unload_end_run _ _ _ Hp).
  handler_step.
Qed.

Lemma alone_mstep h s h' s' before after :
  rtc alone (h, s) (h', s') → rtc mstep (s, before ++ h :: after) (s', before ++ h' :: after).
Proof.
  apply (rtc_congruence (λ a, (a.2, before ++ a.1 :: after)) mstep (h, s) (h', s')).
  intros [h1 s1] [h2 s2] Hs. by apply m_handler.
Qed.

(** ** The manager's steps are runs of handlers *)

(** A computation that has nothing to do with the waiting unloads. *)
Definition waits_apart {A} (m : M (Sys P W) Error A) : Prop :=
  ∀ ws s, m (set_waiting ws s) = ((m s).1, set_waiting ws (m s).2) ∧ waiting (m s).2 = waiting s.

Lemma waits_apart_bind {A B} (m : M (Sys P W) Error A) (k : A → M (Sys P W) Error B) :
  waits_apart m → (∀ a, waits_apart (k a)) → waits_apart (m ≫= k).
Proof.
  intros Hm Hk ws s. destruct (Hm ws s) as [Hr Hw]. unfold mbind, M_bind. rewrite Hr.
  destruct (m s) as [[a|e] s1]; simpl in *; [|done]. destruct (Hk a ws s1) as [-> ->]. done.
Qed.

Lemma waits_apart_pre_load name ty md cm maps : waits_apart (pre_load name ty md cm maps).
Proof.
  apply waits_apart_bind; [by intros ??|]. intros [l|]; [|by intros ??].
  apply waits_apart_bind; [by intros ? s; unfold deref; simpl; destruct (heap s !! l)|].
  intros p. destruct (get_state p); try by intros ??.
  destruct (init md cm maps p) as [[] p']; repeat (apply waits_apart_bind; [by intros ??|intros ?]);
    by intros ??.
Qed.

Lemma waits_apart_load l : waits_apart (load l).
Proof.
  apply waits_apart_bind; [by intros ? s; unfold deref; simpl; destruct (heap s !! l)|].
  intros p. by destruct (get_state p).
Qed.

Lemma waits_apart_send sig : waits_apart (send sig).
Proof. intros ws s. unfold send, receivers. simpl. by case_decide. Qed.

Lemma waits_apart_unload_begin name : waits_apart (unload_begin name).
Proof.
  apply waits_apart_bind; [by intros ??|]. intros found.
  apply waits_apart_bind; [by intros ??|]. intros l.
  apply waits_apart_bind; [by intros ? s; unfold deref; simpl; destruct (heap s !! l)|].
  intros p. destruct (stop p) as [r p'].
  apply waits_apart_bind; [by intros ??|]. intros ?.
  apply waits_apart_bind; [by intros ??|]. intros ?.
  apply waits_apart_bind; [apply waits_apart_send|]. intros ?.
  apply waits_apart_bind; [by intros ??|]. intros ?.
  apply waits_apart_bind; by intros ??.
Qed.

Lemma task_result_apart t T rx p r s ws :
  set_waiting ws (task_result t T rx p r s) = task_result t T rx p r (set_waiting ws s).
Proof. unfold task_result. by repeat case_match. Qed.

Lemma call_to_end s hs h s' h' :
  call s h → rtc alone (h, s) (h', s') → rtc mstep (s, hs) (s', h' :: hs).
Proof.
  intros Hc Hr. eapply rtc_l; [by apply m_call|]. by apply (alone_mstep h s h' s' [] hs).
Qed.

Lemma call_and_return s hs h s' h' :
  call s h → rtc alone (h, s) (h', s') → returned h' = true → rtc mstep (s, hs) (s', hs).
Proof.
  intros Hc Hr Hret. eapply rtc_r; [by eapply call_to_end|]. by apply (m_return s' [] h' hs).
Qed.

Lemma agent_apart s s' : agent_step s s' → mstep (handlers_of s) (handlers_of s').
Proof.
  intros Ha. unfold handlers_of.
  assert (agent_step (set_waiting [] s) (set_waiting [] s') ∧ waiting s' = waiting s) as [H ->];
    [|by apply m_agent].
  destruct Ha as [s t T p HT Hst Hp|s t T p ev rx HT Hst Hp Hrx|s|s|s w].
  - unfold task_begin. rewrite task_result_apart. split; [by apply agent_begin|].
    by destruct (task_result_frame t T (t_rx T) (set_state Running p)
      ((λ _, None) <$> start_begin (set_state Running p)) s) as (_ & -> & _).
  - split.
    + replace (set_waiting [] (task_event t T p ev rx s))
        with (task_event t T p ev rx (set_waiting [] s)); [by apply agent_event|].
      unfold task_event. simpl. destruct (start_step ev (p, world s)) as [r [p' w']].
      by rewrite task_result_apart.
    + unfold task_event. destruct (start_step ev (p, world s)) as [r [p' w']].
      by destruct (task_result_frame t T rx p' r (set_world w' s)) as (_ & -> & _).
  - split; [apply (agent_scrape (set_waiting [] s))|done].
  - unfold state_of. destruct (waits_apart_send All [] s) as [Hs ->]. split; [|done].
    replace (set_waiting [] (send All s).2) with (state_of (send All) (set_waiting [] s));
      [apply agent_shutdown|]. unfold state_of. by rewrite Hs.
  - split; [apply (agent_world (set_waiting [] s))|done].
Qed.

Lemma step_handlers s s' : Inv s → step s s' → rtc mstep (handlers_of s) (handlers_of s').
Proof.
  intros HI' Hstep. assert (Inv (set_waiting [] s)) as HI0.
  { apply Inv_waiting_perm; [done|]. intros u Hu. by apply not_elem_of_nil in Hu. }
  destruct Hstep as [s name ty md maps|s name ty prog Hg|s name u s' Hu|s name e s' Hu
    |s u before after Hw Hj| | | | |].
  - pose proof (alone_pre_load (set_waiting [] s) name ty md maps HI0) as Hr. simpl in Hr.
    destruct (waits_apart_pre_load name ty md (cache_manager (pm s)) maps [] s) as [Hm Hw].
    rewrite Hm in Hr. unfold handlers_of, state_of. rewrite Hw.
    eapply call_and_return; [|exact Hr|done]. constructor.
  - destruct (Inv_registered _ _ _ _ HI' Hg) as (p & Hp & _).
    pose proof (alone_load (set_waiting [] s) prog p Hp) as Hr.
    destruct (waits_apart_load prog [] s) as [Hm Hw]. rewrite Hm in Hr.
    unfold handlers_of, state_of. rewrite Hw.
    eapply call_and_return; [|exact Hr|done]. by apply (call_load _ name ty).
  - pose proof (alone_unload_begin (set_waiting [] s) name HI0) as Hr.
    destruct (waits_apart_unload_begin name [] s) as [Hm Hw]. rewrite Hm, Hu in Hr. simpl in Hr.
    unfold handlers_of. rewrite Hu in Hw. simpl in Hw. simpl. rewrite Hw.
    eapply call_to_end; [|exact Hr]. constructor.
  - pose proof (alone_unload_begin (set_waiting [] s) name HI0) as Hr.
    destruct (waits_apart_unload_begin name [] s) as [Hm Hw]. rewrite Hm, Hu in Hr. simpl in Hr.
    unfold handlers_of. rewrite Hu in Hw. simpl in Hw. simpl. rewrite Hw.
    eapply call_and_return; [|exact Hr|done]. constructor.
  - destruct (inv_waiting _ HI' u) as [Hn _]; [rewrite Hw; set_solver|].
    destruct (name_of_is_Some s (u_prog u)) as [p Hp]; [eauto|].
    pose proof (alone_unload_end (set_waiting [] s) u p Hp) as Hr. unfold handlers_of.
    rewrite Hw, fmap_app. simpl. unfold state_of in *.
    rewrite (unload_end_run s u p) by done. rewrite (unload_end_run (set_waiting [] s) u p) in Hr by done.
    eapply rtc_r; [apply alone_mstep, Hr, Hj|]. simpl. rewrite fmap_app. by apply m_return.
  - by apply rtc_once, agent_apart, agent_begin.
  - by apply rtc_once, agent_apart, (agent_event _ _ _ _ ev).
  - apply rtc_once, agent_apart, agent_scrape.
  - apply rtc_once, agent_apart, agent_shutdown.
  - apply rtc_once, agent_apart, agent_world.
Qed.

(** ** A signal that was sent is not lost *)

Lemma stopping_mstep t name a b :
  MInv a → in_time a.1 → mstep a b → stopping t name a.1 → stopping t name b.1.
Proof.
  intros [HI' Hhs] Ht Hstep Hs. destruct Hstep as [| s s' before h h' after Hh| | |s s' hs Ha]; simpl in *.
  - done.
  - apply Forall_app in Hhs as [_ [Hok _]%Forall_cons].
    destruct (hstep_ok _ _ _ _ HI' Hok Hh) as (_ & Hk & _). by apply (stopping_keeps _ _ s).
  - done.
  - done.
  - by eapply stopping_step, Hs; [..|apply agent_step_step].
Qed.

Lemma stopping_mrun t name a b :
  MInv a → in_time a.1 → rtc mstep_in_time a b → stopping t name a.1 →
  MInv b ∧ in_time b.1 ∧ stopping t name b.1.
Proof.
  intros HI' Ht Hr Hs. induction Hr as [a|a1 a2 a3 [Hstep Ht2] _ IH]; [done|].
  apply IH; [by eapply MInv_mstep|done|by eapply stopping_mstep].
Qed.

(** The signal reaches every task of the program. *)
Lemma send_stopping s s1 name l t :
  name_of s l = Some name → hstep (USend name l) s = Some (URemove name l, s1) →
  prog_of s t = Some l → stopping t name s1.
Proof.
  intros Hn Hh (T & HT & HP)%prog_of_Some. simpl in Hh. unfold send in Hh.
  case_decide; [done|]. simplify_eq. exists (push_signal (ProgramName name) T). simpl.
  rewrite lookup_fmap, HT. split; [done|]. unfold push_signal.
  destruct (task_live T) eqn:Hl; (split; [exact Hn|]); [right; set_solver|by left].
Qed.

Lemma reads_on_agent t s s' : reads_on t s s' → agent_step s s'.
Proof. intros []; by econstructor. Qed.

Lemma reads_on_run t s s' :
  Inv s → rtc (reads_on t) s s' → Inv s' ∧ ∀ l, name_of s' l = name_of s l.
Proof.
  intros HI' Hr. induction Hr as [s|s1 s2 s3 Hs%reads_on_agent _ IH]; [done|].
  destruct (agent_step_refs _ _ Hs) as [Hn _].
  destruct IH as [HI3 Hn3]; [by eapply Inv_step, agent_step_step|].
  split; [done|]. intros l. by rewrite Hn3.
Qed.

(** A task that has its signal ends by reading on, and then the unload that
    waits for it ends. *)
Lemma stopping_completes s u t name :
  Inv s → in_time s → stopping t name s → handler_ok s (UJoin u) → u_handle u = Some t →
  ∃ s3 s4, rtc (reads_on t) s s3 ∧ hstep (UJoin u) s3 = Some (USet u, s3) ∧
    hstep (USet u) s3 = Some (Answered (Ok ()), s4) ∧ state_at s4 (u_prog u) = Some Uninitialized.
Proof.
  intros HI' Ht (T & HT & HTn & Hd) [Hun _] Hut.
  assert (finishes t s) as (s3 & T3 & Hr & HT3 & Hl3 & _).
  { destruct (task_live T) eqn:Hl.
    - destruct Hd as [|Hd]; [done|]. by eapply live_task_drains; eauto.
    - exists s, T. by split_and!. }
  destruct (reads_on_run _ _ _ HI' Hr) as [_ Hn3].
  destruct (name_of_is_Some s3 (u_prog u)) as [p Hp]; [rewrite Hn3; eauto|].
  exists s3. eexists. split_and!; [done| | |].
  - simpl. unfold joined. by rewrite Hut, HT3, Hl3.
  - simpl. unfold on_program. by rewrite Hp.
  - unfold state_at. simpl. rewrite lookup_insert_eq. simpl. by rewrite set_state_state.
Qed.

(** ** An unload and a load of one program *)

(** A live task that has nothing to read. *)
Definition unsignalled (t : TaskId) s : Prop :=
  ∃ T p, tasks s !! t = Some T ∧ task_live T = true ∧ t_rx T = [] ∧ heap s !! t_prog T = Some p ∧
    (t_state T = Spawned → start_begin (set_state Running p) = Ok ()).

Lemma unsignalled_reads_on t s s' : unsignalled t s → reads_on t s s' → unsignalled t s'.
Proof.
  intros Hs Hr. revert Hs. destruct Hr as [s T' p' HT' Hst Hp'|s T' p' sig rx HT' Hst Hp' Hrecv];
    intros (T & p & HT & Hl & Hrx & Hp & Hb); simplify_eq.
  - unfold task_begin. cbv zeta. rewrite Hb by done. simpl.
    eexists _, (set_state Running _).
    split; [apply lookup_insert_eq|]. simpl. by split_and!; [| |apply lookup_insert_eq|].
  - rewrite Hrx in Hrecv. apply rx_signal_sent in Hrecv. by apply not_elem_of_nil in Hrecv.
Qed.

Lemma unsignalled_healthy t s s' : unsignalled t s → healthy_turn t s s' → unsignalled t s'.
Proof.
  intros Hs Hr. revert Hs. destruct Hr as [s s' Hr|s T' p' rx p2 w2 HT' Hst Hp' Hrecv Hrun];
    [intros Hs; by eapply unsignalled_reads_on|].
  intros (T & p & HT & Hl & Hrx & Hp & _). simplify_eq. rewrite Hrx in Hrecv.
  apply rx_in_time in Hrecv as [[_ ->]|(sig & ? & _)]; [|done|simpl; lia].
  unfold task_event. rewrite Hrun. eexists _, p2.
  split; [apply lookup_insert_eq|]. simpl. by split_and!; [| |apply lookup_insert_eq|].
Qed.

Lemma unsignalled_run t s s' u :
  unsignalled t s → rtc (healthy_turn t) s s' → u_handle u = Some t → hstep (UJoin u) s' = None.
Proof.
  intros Hs Hr Hu. assert (unsignalled t s') as (T & p & HT & Hl & _)
    by (induction Hr; eauto using unsignalled_healthy).
  simpl. unfold joined. by rewrite Hu, HT, Hl.
Qed.

Lemma send_listened s sig : 0 < listeners s → ∃ s', send sig s = (Ok (), s') ∧
  s' = set_tasks (push_signal sig <$> tasks s) s.
Proof. intros Hl. unfold send, receivers. rewrite decide_False by lia. eauto. Qed.

(** The part of an unload before it looks for the handle, when nothing fails. *)
Lemma alone_signal s name l p p1 :
  get_program (registry_manager (pm s)) name None = Some l → heap s !! l = Some p →
  stop p = (Ok (), p1) → 0 < listeners s →
  rtc alone (UGet name, s)
    (URemove name l, set_tasks (push_signal (ProgramName name) <$> tasks s)
                       (set_heap (<[l := p1]> (heap s)) s)).
Proof.
  intros Hg Hp Hs Hl. apply (rtc_l _ _ (UStop name l, s)); [handler_step|].
  apply (rtc_l _ _ (USend name l, set_heap (<[l := p1]> (heap s)) s)); [handler_step|].
  apply rtc_once. destruct (send_listened (set_heap (<[l := p1]> (heap s)) s) (ProgramName name))
    as (s' & Hsend & ->); [done|]. unfold alone, hstep, unload_step. simpl. by rewrite Hsend.
Qed.

Lemma load_initialized s l p :
  heap s !! l = Some p → get_state p = Initialized →
  load l s = (Ok (), set_pm (set_handles (<[get_name p := fresh (dom (tasks s))]>
                               (program_handles (pm s))) (pm s)) (state_of (spawn l) s)).
Proof. intros Hp Hst. rewrite (load_run _ _ _ Hp). by rewrite decide_True. Qed.

(** The load handler on a program that is not initialised, when nothing fails. *)
Lemma alone_first_load s name ty l p md maps p2 :
  Inv s → get_program (registry_manager (pm s)) name (Some ty) = Some l → heap s !! l = Some p →
  get_state p = Uninitialized → init md (cache_manager (pm s)) maps p = (Ok (), p2) →
  rtc alone (PGet name ty md maps, s)
    (Answered (Ok ()),
     set_pm (set_handles (<[name := fresh (dom (tasks s))]> (program_handles (pm s))) (pm s))
       (state_of (spawn l) (set_heap (<[l := set_state Initialized p2]> (heap s)) s))).
Proof.
  intros HI' Hg Hp Hst Hi. pose proof (inv_reg _ HI' _ _ _ Hg) as Hn. unfold name_of in Hn.
  rewrite Hp in Hn. injection Hn as Hn.
  pose proof (init_identity md (cache_manager (pm s)) maps p) as (Hn2 & _ & _).
  rewrite Hi in Hn2. simpl in Hn2.
  pose proof (alone_pre_load s name ty md maps HI') as Hpre.
  rewrite (pre_load_run _ _ _ _ _ s l p Hg Hp), decide_True, Hi in Hpre by done.
  etrans; [exact Hpre|]. set (s2 := set_heap _ _).
  assert (heap s2 !! l = Some (set_state Initialized p2)) as Hp2 by apply lookup_insert_eq.
  pose proof (alone_load s2 l _ Hp2) as Hload.
  rewrite (load_initialized _ _ _ Hp2), set_state_name, Hn2, Hn in Hload by apply set_state_state.
  by eapply rtc_l, Hload.
Qed.

(** C14: a program that is loaded and unloaded at once can run after its unload.  If an
    unload of the program gets in between the state check and the spawn of a load, it
    finds no handle, answers Ok and leaves the program Uninitialized; the load then
    spawns the program, answers Ok as well, and the program is Running, after its
    [stop], with a live task that has no signal to read and whose handle is in the
    table. *)
Theorem unloaded_program_starts s name l p p1 :
  Inv s → get_program (registry_manager (pm s)) name None = Some l → heap s !! l = Some p →
  get_state p = Initialized → stop p = (Ok (), p1) → 0 < listeners s →
  program_handles (pm s) !! name = None →
  start_begin (set_state Running (set_state Uninitialized p1)) = Ok () →
  ∃ s1 s2 t, rtc mstep (s, []) (s1, [Answered (Ok ()); LSpawn l]) ∧
    state_at s1 l = Some Uninitialized ∧
    rtc mstep (s1, [LSpawn l]) (s2, [Answered (Ok ())]) ∧
    heap s2 !! l = Some (set_state Running (set_state Uninitialized p1)) ∧ unsignalled t s2 ∧
    program_handles (pm s2) !! name = Some t.
Proof.
  intros HI' Hg Hp Hst Hs Hl Hh Hb. pose proof (inv_reg _ HI' _ _ _ Hg) as Hn. unfold name_of in Hn.
  rewrite Hp in Hn. injection Hn as Hn. pose proof (stop_identity p) as (Hn1 & _ & _).
  rewrite Hs in Hn1. simpl in Hn1.
  set (s0 := set_tasks (push_signal (ProgramName name) <$> tasks s) (set_heap (<[l := p1]> (heap s)) s)).
  set (u := {| u_name := name; u_prog := l; u_handle := None |}).
  set (s0' := set_pm (set_handles (delete name (program_handles (pm s0))) (pm s0)) s0).
  set (s1 := set_heap (<[l := set_state Uninitialized p1]> (heap s0')) s0').
  set (t := fresh (dom (tasks s1))).
  set (s1' := state_of (spawn l) s1).
  set (s1'' := set_pm (set_handles (<[name := t]> (program_handles (pm s1'))) (pm s1')) s1').
  set (T := {| t_prog := l; t_state := Spawned; t_rx := [] |}).
  assert (heap s1' !! l = Some (set_state Uninitialized p1)) as Hp1 by apply lookup_insert_eq.
  exists s1, (task_begin t T (set_state Uninitialized p1) s1''), t. split_and!.
  - eapply rtc_l; [apply m_call, (call_load _ name None), Hg|].
    etrans; [apply (alone_mstep _ _ (LSpawn l) s [] []), rtc_once; handler_step|].
    etrans; [apply (call_to_end _ _ (UGet name)); [constructor|by eapply alone_signal]|].
    apply (alone_mstep _ _ _ _ [] [LSpawn l]). eapply rtc_l; [reflexivity|]. simpl. rewrite Hh. fold u.
    eapply rtc_l; [reflexivity|]. apply rtc_once. unfold alone. simpl. unfold on_program. simpl.
    by rewrite lookup_insert_eq.
  - unfold state_at, s1. simpl. rewrite lookup_insert_eq. simpl. by rewrite set_state_state.
  - etrans; [apply (alone_mstep _ _ (Answered (Ok ())) s1'' [] [])|].
    + eapply rtc_l; [reflexivity|]. apply rtc_once. unfold alone, hstep, load_step. simpl.
      rewrite lookup_insert_eq. simpl. by rewrite set_state_name, Hn1, Hn.
    + apply rtc_once, m_agent, agent_begin; [apply lookup_insert_eq|done|done].
  - unfold task_begin. cbv zeta. rewrite Hb. apply lookup_insert_eq.
  - unfold task_begin. cbv zeta. rewrite Hb. eexists _, (set_state Running _).
    split; [apply lookup_insert_eq|]. simpl. by split_and!; [| |apply lookup_insert_eq|].
  - unfold task_begin. cbv zeta. rewrite Hb. apply lookup_insert_eq.
Qed.

(** ** Properties *)

(** C2: with requests handled at the same time, each interrupted between any two
    accesses of shared state, in every state the agent can reach: registered
    programs exist under their own names, names are unique, every handle and
    task refers to the program it was made for, a program is Running only if a
    task that set it so is in its loop or panicked, and every handler in progress
    refers to existing programs and, when it waits, to a task of its program. *)
Theorem handlers_invariant (sm : P) cm w rx s hs :
  get_name sm = "service_map" → get_state sm = Uninitialized →
  rtc mstep (ProgManager_new sm cm w rx, []) (s, hs) → Inv s ∧ Forall (handler_ok s) hs.
Proof.
  intros Hn Hs Hr. apply (MInv_rtc _ (s, hs)) in Hr; [done|].
  split; [by apply Inv_new|constructor].
Qed.

(** C5: once an unload has sent its signal, every task of the program that existed
    then can be waited for: whatever the handlers and the agent do afterwards, as
    long as no receiver falls behind the channel's capacity, an unload that waits
    for such a task can complete by turns of that task alone, which reads its
    receiver up to the signal and ends, and the program is then Uninitialized. *)
Theorem signalled_unload_completes s before0 after0 name l s1 t s2 before u after :
  MInv (s, before0 ++ USend name l :: after0) →
  hstep (USend name l) s = Some (URemove name l, s1) → prog_of s t = Some l → in_time s1 →
  rtc mstep_in_time (s1, before0 ++ URemove name l :: after0) (s2, before ++ UJoin u :: after) →
  u_handle u = Some t →
  ∃ s3 s4, rtc (reads_on t) s2 s3 ∧ hstep (UJoin u) s3 = Some (USet u, s3) ∧
    hstep (USet u) s3 = Some (Answered (Ok ()), s4) ∧ state_at s4 (u_prog u) = Some Uninitialized.
Proof.
  intros HM Hh Hp Ht Hr Hu.
  assert (name_of s l = Some name) as Hn by (destruct HM as [_ [_ [Hok _]%Forall_cons]%Forall_app]; done).
  pose proof (MInv_mstep _ _ HM (m_handler _ _ _ _ _ _ Hh)) as HM1.
  destruct (stopping_mrun t name _ _ HM1 Ht Hr) as ([HI2 Hhs] & Ht2 & Hs2); [by eapply send_stopping|].
  apply Forall_app in Hhs as [_ [Hok _]%Forall_cons]. by eapply stopping_completes.
Qed.

(** What the manager's methods do when each runs up to its next suspension
    point is one of the ways in which they can interleave: every run of the
    coarser system of steps is a run of handlers, with the unloads that wait in
    the coarser system as the handlers in progress. *)
Lemma manager_runs_are_handler_runs s s' :
  Inv s → rtc step s s' → rtc mstep (handlers_of s) (handlers_of s').
Proof.
  intros HI' Hr. induction Hr as [s|s1 s2 s3 Hs _ IH]; [done|].
  etrans; [by apply step_handlers|]. apply IH. by eapply Inv_step.
Qed.

(** C31: an unload that overlaps with the load of the same program can wait for a
    task that nobody has signalled: if the load starts after the unload has sent
    its signal and has inserted its handle before the unload removes it, the load
    answers Ok, the unload takes the handle of the new task, whose receiver is
    empty, and waits for as long as the polls of that task succeed and nothing
    else is sent; the program is no longer in the table of handles. *)
Theorem unload_waits_unsignalled s name ty l p md maps p1 p2 :
  Inv s → get_program (registry_manager (pm s)) name None = Some l →
  get_program (registry_manager (pm s)) name (Some ty) = Some l → heap s !! l = Some p →
  get_state p = Uninitialized → stop p = (Ok (), p1) →
  init md (cache_manager (pm s)) maps p1 = (Ok (), p2) →
  start_begin (set_state Running (set_state Initialized p2)) = Ok () → 0 < listeners s →
  ∃ s' u t, rtc mstep (s, []) (s', [Answered (Ok ()); UJoin u]) ∧
    u_prog u = l ∧ u_handle u = Some t ∧ prog_of s' t = Some l ∧
    state_at s' l = Some Initialized ∧ program_handles (pm s') !! name = None ∧
    ∀ s'', rtc (healthy_turn t) s' s'' → hstep (UJoin u) s'' = None.
Proof.
  intros HI' Hg Hgt Hp Hst Hs Hi Hb Hl. pose proof (stop_identity p) as (_ & _ & Hst1).
  rewrite Hs, Hst in Hst1. simpl in Hst1.
  set (s1 := set_tasks (push_signal (ProgramName name) <$> tasks s) (set_heap (<[l := p1]> (heap s)) s)).
  assert (rtc mstep (s, []) (s1, [URemove name l])) as Hr1.
  { apply (call_to_end _ _ (UGet name)); [constructor|by eapply alone_signal]. }
  assert (Inv s1) as HI1 by (apply MInv_rtc in Hr1 as [? _]; [done|split; [done|constructor]]).
  pose proof (alone_first_load s1 name ty l p1 md maps p2 HI1 Hgt (lookup_insert_eq _ _ _) Hst1 Hi) as Hload.
  set (p3 := set_state Initialized p2) in *. set (s3 := set_pm _ _) in Hload.
  assert (heap s3 !! l = Some p3) as Hp3 by apply lookup_insert_eq.
  set (t := fresh (dom (tasks s1))) in *.
  set (u := {| u_name := name; u_prog := l; u_handle := Some t |}).
  set (s4 := set_pm (set_handles (delete name (program_handles (pm s3))) (pm s3)) s3).
  exists s4, u, t. split_and!; [|done|done| | | |].
  - etrans; [exact Hr1|].
    etrans; [apply (call_to_end _ _ (PGet name ty md maps)); [constructor|exact Hload]|].
    apply rtc_once, (m_handler s3 s4 [Answered (Ok ())] _ (UJoin u) []). simpl. by rewrite lookup_insert_eq.
  - unfold prog_of. simpl. by rewrite lookup_insert_eq.
  - unfold state_at. change (heap s4) with (heap s3). rewrite Hp3. simpl. unfold p3. by rewrite set_state_state.
  - apply lookup_delete_eq.
  - intros s'' Hr. apply (unsignalled_run t s4); [|done|done].
    exists {| t_prog := l; t_state := Spawned; t_rx := [] |}, p3. split_and!; [apply lookup_insert_eq|done..].
Qed.

End handlers.

(** ** Witnesses *)

Local Notation ex_mstep :=
  (mstep (HI := hm_iter_default) (Program0 := ex_program) (BR := bounded_broadcast 32)).
Local Notation ex_hstep := (hstep (Program0 := ex_program)).

Definition ex_maps : gmap string Z := {[ "CONNECTIONS" := 12%Z ]}.

(** A load and an unload under way at the same time. *)
Lemma ex_two_handlers :
  rtc ex_mstep (ex_new, []) (ex_new, [UStop "service_map" 0; PState 0 ∅ ex_maps]).
Proof.
  eapply rtc_l; [apply m_call, (call_pre_load _ "service_map" Builtin ∅ ex_maps)|].
  eapply rtc_l; [apply m_call, (call_unload _ "service_map")|].
  eapply rtc_l; [apply (m_handler ex_new ex_new [UGet "service_map"] _ (PState 0 ∅ ex_maps) []); reflexivity|].
  apply rtc_once, (m_handler ex_new ex_new [] _ (UStop "service_map" 0) [PState 0 ∅ ex_maps]). reflexivity.
Qed.

Lemma handlers_invariant_witness :
  Forall (handler_ok (Program0 := ex_program) ex_new) [UStop "service_map" 0; PState 0 ∅ ex_maps].
Proof.
  apply (handlers_invariant (HI := hm_iter_default) (Program0 := ex_program)
           (ProgramLaws0 := ex_program_laws) (BR := bounded_broadcast 32) Inner_new 0 (λ _, ∅) 2).
  - reflexivity.
  - reflexivity.
  - exact ex_two_handlers.
Defined.

Lemma manager_runs_witness :
  rtc ex_mstep (handlers_of ex_new) (handlers_of ex_loaded).
Proof.
  apply (manager_runs_are_handler_runs (HI := hm_iter_default) (Program0 := ex_program)
           (ProgramLaws0 := ex_program_laws) (BR := bounded_broadcast 32)).
  - by apply (Inv_new (Program0 := ex_program)).
  - exact ex_reach.
Defined.

(** The signal is sent, and then the handle of the task removed. *)
Definition ex_sent : Sys Inner KMaps := set_tasks ex_stopping ex_loaded.
Definition ex_removed : Sys Inner KMaps :=
  set_pm (set_handles (delete "service_map" (program_handles (pm ex_sent))) (pm ex_sent)) ex_sent.

Lemma signalled_unload_witness :
  ∃ s3 s4, rtc (reads_on (Program0 := ex_program) (BR := bounded_broadcast 32) 0) ex_removed s3 ∧
    ex_hstep (UJoin ex_waiting) s3 = Some (USet ex_waiting, s3) ∧
    ex_hstep (USet ex_waiting) s3 = Some (Answered (Ok ()), s4) ∧
    state_at (Program0 := ex_program) s4 0 = Some Uninitialized.
Proof.
  apply (signalled_unload_completes (HI := hm_iter_default) (Program0 := ex_program)
           (ProgramLaws0 := ex_program_laws) (BR := bounded_broadcast 32)
           ex_loaded [] [] "service_map" 0 ex_sent 0 ex_removed [] ex_waiting []).
  - split; [exact ex_loaded_inv|]. apply Forall_singleton. vm_compute. reflexivity.
  - vm_compute. reflexivity.
  - vm_compute. reflexivity.
  - apply ex_in_time. reflexivity.
  - apply rtc_once. split; [|apply ex_in_time; reflexivity].
    apply (m_handler ex_sent ex_removed [] _ (UJoin ex_waiting) []). vm_compute. reflexivity.
  - reflexivity.
Defined.

Definition ex_initialized : Inner :=
  snd (init (Program := ex_program) ∅ 0 ex_maps (snd (stop (Program := ex_program) Inner_new))).

Lemma unload_waits_witness :
  ∃ s' u t, rtc ex_mstep (ex_new, []) (s', [Answered (Ok ()); UJoin u]) ∧ u_handle u = Some t ∧
    ex_hstep (UJoin u) s' = None.
Proof.
  destruct (unload_waits_unsignalled (HI := hm_iter_default) (Program0 := ex_program)
    (ProgramLaws0 := ex_program_laws) (BR := bounded_broadcast 32) ex_new "service_map" Builtin 0
    Inner_new ∅ ex_maps (snd (stop (Program := ex_program) Inner_new)) ex_initialized)
    as (s' & u & t & Hr & _ & Hu & _ & _ & _ & Hwait).
  - by apply (Inv_new (Program0 := ex_program)).
  - reflexivity.
  - reflexivity.
  - reflexivity.
  - reflexivity.
  - reflexivity.
  - vm_compute. reflexivity.
  - vm_compute. reflexivity.
  - vm_compute. lia.
  - exists s', u, t. split_and!; [exact Hr|exact Hu|]. apply Hwait. reflexivity.
Defined.

Lemma unloaded_program_starts_witness :
  ∃ s1 s2, rtc ex_mstep (ex_preloaded, []) (s1, [Answered (Ok ()); LSpawn 0]) ∧
    rtc ex_mstep (s1, [LSpawn 0]) (s2, [Answered (Ok ())]) ∧
    state_at (Program0 := ex_program) s2 0 = Some Running.
Proof.
  set (p := default Inner_new (heap ex_preloaded !! 0)).
  destruct (unloaded_program_starts (HI := hm_iter_default) (Program0 := ex_program)
    (ProgramLaws0 := ex_program_laws) (BR := bounded_broadcast 32) ex_preloaded "service_map" 0 p
    (snd (stop (Program := ex_program) p))) as (s1 & s2 & t & H1 & _ & H2 & H3 & _).
  - apply (Inv_pre_load (ProgramLaws0 := ex_program_laws)). by apply Inv_new.
  - vm_compute. reflexivity.
  - vm_compute. reflexivity.
  - vm_compute. reflexivity.
  - vm_compute. reflexivity.
  - vm_compute. lia.
  - vm_compute. reflexivity.
  - vm_compute. reflexivity.
  - exists s1, s2. split_and!; [exact H1|exact H2|]. unfold state_at. rewrite H3. reflexivity.
Defined.
