(* ===== verification/AgentService.v ===== *)
(** * The agent's RPC service

    [agent/src/server/rpc.rs]: the handlers of the [Agent] service on top of the
    program manager, each on its own: nothing else runs between two accesses of the
    shared state.  [AgentAsync] has the same handlers while the rest of the agent
    goes on.  The bpfman daemon that the [load] handler asks for the loaded eBPF
    programs is a parameter: its reply is an argument.  A [Status] whose text embeds
    the debug form of another error keeps that error as it is. *)
From S2P Require Import Prelude RustStd AgentApi Program ServiceMap Registry Collector ProgManager.
From stdpp Require Import base gmap strings list relations.
From Stdlib Require Import ZArith Lia.

Local Open Scope Z_scope.

(** ** Errors *)

Inductive Status :=
  | Aborted (msg : string)
  | AbortedWith (what : string) (cause : Error)
  | HandlerPanic (why : string).

(** ** Replies of bpfman *)

Record KernelInfo := { ki_name : string; ki_id : Z }.
Record BpfmanResult := { kernel_info : option KernelInfo }.
Definition BpfmanList : Type := result Error (list BpfmanResult).

Section service.
Context `{HI : HashIter} {P W : Type} `{!Program P W}.
Implicit Types (s : Sys P W) (name : string).

Definition loaded_ebpf_progs (rs : list BpfmanResult) : gmap string Z :=
  collect_map ((λ info, (ki_name info, ki_id info)) <$> omap kernel_info rs).

Fixpoint prog_ids_loop (loaded : gmap string Z) (l : list (string * string))
    (map_to_prog_id : gmap string Z) : result Error (gmap string Z) :=
  match l with
  | [] => Ok map_to_prog_id
  | (map_name, prog_name) :: rest =>
      prog_id ← ok_or (Msg ("Required eBPF program " +:+ prog_name +:+ " not loaded"))
                  (loaded !! prog_name);
      prog_ids_loop loaded rest (<[map_name := prog_id]> map_to_prog_id)
  end.

Definition get_prog_ids_for_maps (reply : BpfmanList) (map_to_prog_name : gmap string string) :
    result Error (gmap string Z) :=
  response ← reply;
  prog_ids_loop (loaded_ebpf_progs response) (hm_iter map_to_prog_name) ∅.

(** A method of the manager called with [.map_err(|e| Status::aborted(..))]. *)
Definition call {A} (what : string) (m : M (Sys P W) Error A) : M (Sys P W) Status A := λ s,
  let '(r, s') := m s in (map_err (AbortedWith what) r, s').

Definition get_info (prog : loc) : M (Sys P W) Error ProgramInfo :=
  p ← deref prog; lift (get_program_info p).

Definition rpc_load (reply : BpfmanList) (request : LoadRequest) :
    M (Sys P W) Status LoadResponse :=
  map_to_prog_id ← lift (map_err (AbortedWith "Failed to get eBPF program IDs: ")
                           (get_prog_ids_for_maps reply (lr_ebpf_maps request)));
  program_type ← lift (map_err (λ _, Aborted ("Failed to convert program type: " +:+
                                              display_u (lr_program_type request)))
                         (ProgramType_try_from (lr_program_type request)));
  cm ← gets (λ s, cache_manager (pm s));
  prog ← call "Failed to pre-load program: "
           (pre_load (lr_name request) program_type (lr_metadata request) cm map_to_prog_id);
  call "Failed to load program: " (load prog);;
  prog_info ← call "Failed to get program info: " (get_info prog);
  mret {| lres_info := Some prog_info |}.

Fixpoint list_entries (progs : list loc) (acc : list ListResult) :
    M (Sys P W) Status (list ListResult) :=
  match progs with
  | [] => mret acc
  | prog :: rest =>
      info ← call "Failed to get program info: " (get_info prog);
      list_entries rest (acc ++ [{| lsres_info := Some info |}])
  end.

Definition rpc_list (request : ListRequest) : M (Sys P W) Status ListResponse :=
  let list_filter := ListFilter_new (lsr_program_type request) (lsr_match_metadata request) in
  progs ← call "" (list_ list_filter);
  rs ← list_entries progs [];
  mret {| results := rs |}.

(** [todo!()] *)
Definition rpc_pull_bytecode (_ : PullBytecodeRequest) : M (Sys P W) Status PullBytecodeResponse :=
  throw (HandlerPanic "not yet implemented").

Definition rpc_get (request : GetRequest) : M (Sys P W) Status GetResponse :=
  found ← call "" (get (gr_name request) None);
  prog ← lift (ok_or (Aborted ("Program " +:+ gr_name request +:+ " not found")) found);
  prog_info ← call "Failed to get program info: " (get_info prog);
  mret {| gres_info := Some prog_info |}.

(** ** Lemmas *)

Lemma call_bind {A B} what (m : M (Sys P W) Error A) (f : A → M (Sys P W) Status B) s :
  (call what m ≫= f) s =
  match m s with (Ok a, s') => f a s' | (Err e, s') => (Err (AbortedWith what e), s') end.
Proof. unfold call, mbind, M_bind. by destruct (m s) as [[a|e] s']. Qed.

Lemma prog_ids_loop_spec loaded l acc :
  match prog_ids_loop loaded l acc with
  | Ok m => Forall (λ p, is_Some (loaded !! p.2)) l ∧
      (NoDup l.*1 → ∀ k, m !! k =
         match (list_to_map l : gmap string string) !! k with
         | Some prog => loaded !! prog
         | None => acc !! k
         end)
  | Err e => ∃ map_name prog_name, (map_name, prog_name) ∈ l ∧ loaded !! prog_name = None ∧
      e = Msg ("Required eBPF program " +:+ prog_name +:+ " not loaded")
  end.
Proof.
  revert acc. induction l as [|[k prog] l IH]; intros acc; simpl.
  { split; [constructor|]. intros _ k. by rewrite lookup_empty. }
  destruct (loaded !! prog) as [id|] eqn:Hl; cbn [ok_or mbind result_bind].
  2: { exists k, prog. split_and!; [constructor|done|done]. }
  specialize (IH (<[k := id]> acc)). destruct (prog_ids_loop _ l _) as [m|e].
  - destruct IH as [Hall Hm]. split; [constructor; simpl; eauto|].
    intros [Hk Hnd]%NoDup_cons k'. rewrite Hm by done.
    destruct (decide (k = k')) as [->|Hne].
    + rewrite (not_elem_of_list_to_map_1 l k') by done. by rewrite !lookup_insert_eq.
    + by rewrite !lookup_insert_ne.
  - destruct IH as (k' & prog' & Hin & ?). exists k', prog'. split; [by constructor|done].
Qed.

Lemma list_entries_spec progs acc s :
  match list_entries progs acc s with
  | (Ok rs, s') => s' = s ∧ ∃ new, rs = acc ++ new ∧
      Forall2 (λ l r, ∃ p info, heap s !! l = Some p ∧ get_program_info p = Ok info ∧
                                lsres_info r = Some info) progs new
  | (Err _, s') => s' = s ∧ ∃ l, l ∈ progs ∧
      ∀ p info, heap s !! l = Some p → get_program_info p ≠ Ok info
  end.
Proof.
  revert acc. induction progs as [|l progs IH]; intros acc; cbn [list_entries].
  { unfold mret, M_ret. split; [done|]. exists []. by rewrite app_nil_r. }
  unfold call, get_info, deref, mbind, M_bind, lift.
  destruct (heap s !! l) as [p|] eqn:Hp.
  2: { simpl. split; [done|]. exists l. split; [constructor|]. congruence. }
  destruct (get_program_info p) as [info|e] eqn:Hi; simpl.
  2: { split; [done|]. exists l. split; [constructor|]. congruence. }
  specialize (IH (acc ++ [{| lsres_info := Some info |}])).
  destruct (list_entries progs _ s) as [[rs|e] s'].
  - destruct IH as (-> & new & -> & Hf). split; [done|].
    exists ({| lsres_info := Some info |} :: new). split; [by rewrite <- app_assoc|].
    constructor; [by exists p, info|done].
  - destruct IH as (-> & l' & Hin & Hl'). split; [done|]. exists l'. split; [by constructor|done].
Qed.

(** ** Properties *)

(** The eBPF maps of a request are resolved to program ids exactly when every
    named eBPF program is loaded; each map gets the id bpfman reports for its
    program, in whatever order the request's map is walked.  Otherwise the
    error names one of the missing programs. *)
Lemma prog_ids_resolved rs (maps : gmap string string) :
  match get_prog_ids_for_maps (Ok rs) maps with
  | Ok ids => ∀ k, ids !! k = maps !! k ≫= λ prog, loaded_ebpf_progs rs !! prog
  | Err e => ∃ k prog, maps !! k = Some prog ∧ loaded_ebpf_progs rs !! prog = None ∧
      e = Msg ("Required eBPF program " +:+ prog +:+ " not loaded")
  end ∧
  (is_ok (get_prog_ids_for_maps (Ok rs) maps) = true ↔
   ∀ k prog, maps !! k = Some prog → is_Some (loaded_ebpf_progs rs !! prog)).
Proof.
  unfold get_prog_ids_for_maps, mbind, result_bind.
  pose proof (prog_ids_loop_spec (loaded_ebpf_progs rs) (hm_iter maps) ∅) as H.
  assert (∀ k, (list_to_map (hm_iter maps) : gmap string string) !! k = maps !! k) as Hk.
  { intros k. apply option_eq. intros v. rewrite <- elem_of_list_to_map by apply NoDup_fst_hm_iter.
    apply elem_of_hm_iter. }
  destruct (prog_ids_loop _ _ _) as [m|e].
  - destruct H as [Hall Hm]. split.
    + intros k. rewrite Hm, Hk by apply NoDup_fst_hm_iter.
      destruct (maps !! k); [done|]. by rewrite lookup_empty.
    + split; [|done]. intros _ k prog Hp. apply elem_of_hm_iter in Hp.
      by apply (proj1 (Forall_forall _ _) Hall (k, prog)).
  - destruct H as (k & prog & Hin & Hl & ->). apply elem_of_hm_iter in Hin.
    split; [by exists k, prog|]. split; [done|]. intros H. destruct (H _ _ Hin). congruence.
Qed.

(** [list] replies with the information of exactly the programs that match
    the request's type and metadata, in registry order, and changes nothing; it
    fails only if one of them cannot describe itself. *)
Lemma rpc_list_spec request s :
  let progs := list_programs (heap s) (registry_manager (pm s))
                 (ListFilter_new (lsr_program_type request) (lsr_match_metadata request)) in
  match rpc_list request s with
  | (Ok reply, s') => s' = s ∧
      Forall2 (λ l r, ∃ p info, heap s !! l = Some p ∧ get_program_info p = Ok info ∧
                                lsres_info r = Some info) progs (results reply)
  | (Err _, s') => s' = s ∧ ∃ l, l ∈ progs ∧
      ∀ p info, heap s !! l = Some p → get_program_info p ≠ Ok info
  end.
Proof.
  intros progs. unfold rpc_list, call, list_, gets, mbind, M_bind. simpl. fold progs.
  pose proof (list_entries_spec progs [] s) as H.
  destruct (list_entries progs [] s) as [[rs|e] s']; [|done].
  destruct H as (-> & new & -> & H). done.
Qed.
Lemma rpc_load_resolved reply request s ty ids :
  get_prog_ids_for_maps reply (lr_ebpf_maps request) = Ok ids →
  ProgramType_try_from (lr_program_type request) = Ok ty →
  rpc_load reply request s =
  (prog ← call "Failed to pre-load program: "
            (pre_load (lr_name request) ty (lr_metadata request) (cache_manager (pm s)) ids);
   call "Failed to load program: " (load prog);;
   prog_info ← call "Failed to get program info: " (get_info prog);
   mret {| lres_info := Some prog_info |}) s.
Proof.
  intros Hids Hty. unfold rpc_load. rewrite Hids, Hty. reflexivity.
Qed.

Context `{!ProgramLaws P W}.

(** C9: loading an uninitialised program whose maps resolve: if [init] succeeds,
    the reply describes the program in state Initialized with the request's
    metadata as [init] stored it, one new task is spawned for it and its handle
    is registered under the program's name; if [init] fails, the reply carries
    its error, no task is spawned and the program can be loaded again. *)
Theorem rpc_load_uninitialized reply request s ty ids l p :
  Inv s →
  get_prog_ids_for_maps reply (lr_ebpf_maps request) = Ok ids →
  ProgramType_try_from (lr_program_type request) = Ok ty →
  get_program (registry_manager (pm s)) (lr_name request) (Some ty) = Some l →
  heap s !! l = Some p → get_state p = Uninitialized →
  match init (lr_metadata request) (cache_manager (pm s)) ids p with
  | (Ok _, p') =>
      ∀ info, get_program_info (set_state Initialized p') = Ok info →
      ∃ s' t, rpc_load reply request s = (Ok {| lres_info := Some info |}, s') ∧
        pi_name info = lr_name request ∧ pi_state info = 1 ∧ pi_metadata info = get_metadata p' ∧
        state_at s' l = Some Initialized ∧
        tasks s !! t = None ∧
        tasks s' = <[t := {| t_prog := l; t_state := Spawned; t_rx := [] |}]> (tasks s) ∧
        program_handles (pm s') = <[lr_name request := t]> (program_handles (pm s))
  | (Err e, p') =>
      rpc_load reply request s =
        (Err (AbortedWith "Failed to pre-load program: " e), set_heap (<[l := p']> (heap s)) s) ∧
      get_state p' = Uninitialized
  end.
Proof.
  intros HI' Hids Hty Hg Hp Hst. rewrite (rpc_load_resolved _ _ _ _ _ Hids Hty).
  pose proof (init_identity (lr_metadata request) (cache_manager (pm s)) ids p) as (Hn & _ & Hs).
  rewrite call_bind, (pre_load_run _ _ _ _ _ _ _ _ Hg Hp), decide_True by done.
  destruct (init _ _ _ _) as [[[]|e] p'] eqn:Hinit; cbn [fst snd] in *;
    [|split; congruence].
  intros info Hinfo. set (s1 := set_heap _ _).
  set (p1 := set_state Initialized p') in *.
  assert (heap s1 !! l = Some p1) as Hp1 by apply lookup_insert_eq.
  assert (get_name p1 = lr_name request) as Hname.
  { unfold p1. rewrite set_state_name, Hn.
    destruct (Inv_registered _ _ _ _ HI' Hg) as (p2 & Hp2 & <-). congruence. }
  rewrite call_bind, (load_run _ _ _ Hp1), decide_True by apply set_state_state.
  rewrite call_bind. set (s2 := set_pm _ _).
  assert (get_info l s2 = (Ok info, s2)) as ->.
  { unfold get_info, deref, mbind, M_bind, lift. change (heap s2) with (heap s1).
    by rewrite Hp1, Hinfo. }
  destruct (program_info_ok _ _ Hinfo) as (Hpn & Hpm & _ & Hps).
  eexists _, (fresh (dom (tasks s))). split; [reflexivity|]. split_and!.
  - congruence.
  - unfold p1 in Hps. rewrite set_state_state in Hps. by injection Hps.
  - rewrite Hpm. apply set_state_metadata.
  - unfold state_at. simpl. rewrite lookup_insert_eq. simpl. f_equal. apply set_state_state.
  - apply (not_elem_of_dom (D := gset TaskId)), is_fresh.
  - reflexivity.
  - simpl. by rewrite Hname.
Qed.

(** A program that is running, stopped or failed cannot be loaded: the request
    is refused with its state in the message and nothing changes, so a program
    that has stopped or failed must be unloaded before it can run again. *)
Lemma rpc_load_refused reply request s ty ids l p :
  get_prog_ids_for_maps reply (lr_ebpf_maps request) = Ok ids →
  ProgramType_try_from (lr_program_type request) = Ok ty →
  get_program (registry_manager (pm s)) (lr_name request) (Some ty) = Some l →
  heap s !! l = Some p → get_state p ∈ [Running; Stopped; Failed] →
  rpc_load reply request s =
    (Err (AbortedWith "Failed to load program: "
            (Msg ("Program " +:+ get_name p +:+ " is in an invalid state to be loaded: " +:+
                  ProgramState_debug (get_state p)))), s).
Proof using Type.
  intros Hids Hty Hg Hp Hst. rewrite (rpc_load_resolved _ _ _ _ _ Hids Hty).
  assert (get_state p ≠ Uninitialized ∧ get_state p ≠ Initialized) as [H1 H2].
  { apply list_elem_of_In in Hst. destruct Hst as [<-|[<-|[<-|[]]]]; split; discriminate. }
  rewrite call_bind, (pre_load_run _ _ _ _ _ _ _ _ Hg Hp), decide_False by done.
  rewrite call_bind, (load_run _ _ _ Hp), decide_False by done. reflexivity.
Qed.

(** [get] finds a program by name in either registry and replies with its
    description; an unknown name is refused.  Neither changes the system. *)
Lemma rpc_get_spec request s :
  Inv s →
  match get_program (registry_manager (pm s)) (gr_name request) None with
  | None => rpc_get request s = (Err (Aborted ("Program " +:+ gr_name request +:+ " not found")), s)
  | Some l => ∃ p, heap s !! l = Some p ∧ get_name p = gr_name request ∧
      rpc_get request s =
        match get_program_info p with
        | Ok info => (Ok {| gres_info := Some info |}, s)
        | Err e => (Err (AbortedWith "Failed to get program info: " e), s)
        end
  end.
Proof using Type.
  intros HI'. unfold rpc_get. rewrite call_bind. unfold get, gets.
  destruct (get_program (registry_manager (pm s)) (gr_name request) None) as [l|] eqn:Hg;
    [|reflexivity].
  destruct (Inv_registered _ _ _ _ HI' Hg) as (p & Hp & Hn). exists p. split; [done|].
  split; [done|]. cbn [ok_or]. unfold lift at 1, mbind at 1, M_bind at 1. rewrite call_bind.
  unfold get_info, deref, mbind, M_bind, lift. rewrite Hp.
  by destruct (get_program_info p).
Qed.
End service.

(** ** Witnesses *)

Definition ex_request : LoadRequest := {|
  lr_bytecode := None; lr_name := "service_map"; lr_program_type := 0;
  lr_ebpf_maps := {[ "CONNECTIONS" := "sock_conn_tracer" ]}; lr_metadata := {[ "owner" := "acme" ]} |}.
Definition ex_reply : BpfmanList :=
  Ok [{| kernel_info := None |};
      {| kernel_info := Some {| ki_name := "sock_conn_tracer"; ki_id := 12 |} |}].

Lemma ex_new_inv : Inv (Program0 := ex_program) ex_new.
Proof. by apply Inv_new. Qed.

Lemma rpc_load_uninitialized_witness :
  ∃ s', rpc_load (HI := hm_iter_default) (Program0 := ex_program) ex_reply ex_request ex_new
        = (Ok {| lres_info := Some {|
             pi_name := "service_map"; pi_program_type := 0; pi_state := 1; pi_bytecode := None;
             pi_ebpf_maps := {[ "CONNECTIONS" := 12 ]}; pi_metadata := {[ "owner" := "acme" ]} |} |}, s').
Proof.
  pose proof (rpc_load_uninitialized (HI := hm_iter_default) (Program0 := ex_program)
    (ProgramLaws0 := ex_program_laws) ex_reply ex_request ex_new Builtin
    {[ "CONNECTIONS" := 12 ]} 0%nat Inner_new ex_new_inv) as H.
  destruct (H eq_refl eq_refl eq_refl eq_refl eq_refl
              {| pi_name := "service_map"; pi_program_type := 0; pi_state := 1; pi_bytecode := None;
                 pi_ebpf_maps := {[ "CONNECTIONS" := 12 ]};
                 pi_metadata := {[ "owner" := "acme" ]} |} eq_refl) as (s' & t & Hr & _).
  exists s'. exact Hr.
Defined.

Definition ex_stopped : Inner := set_program_state Stopped Inner_new.

Lemma rpc_load_refused_witness :
  is_ok (rpc_load (HI := hm_iter_default) (Program0 := ex_program) ex_reply ex_request
           (set_heap {[ 0%nat := ex_stopped ]} ex_new)).1 = false.
Proof.
  rewrite (rpc_load_refused (HI := hm_iter_default) (Program0 := ex_program) ex_reply ex_request
             (set_heap {[ 0%nat := ex_stopped ]} ex_new) Builtin {[ "CONNECTIONS" := 12 ]} 0%nat
             ex_stopped); try reflexivity.
  right. left.
Defined.

Lemma rpc_get_witness :
  rpc_get (Program0 := ex_program) {| gr_name := "nginx" |} ex_new
  = (Err (Aborted "Program nginx not found"), ex_new).
Proof. exact (rpc_get_spec (Program0 := ex_program) {| gr_name := "nginx" |} ex_new ex_new_inv). Defined.
