(* ===== verification/AgentAsync.v ===== *)
(** * The agent's RPC service while the agent goes on

    The handlers of [agent/src/server/rpc.rs] on the multi-threaded runtime: between
    any two accesses of a handler to shared state, the tasks of the programs, the
    scrapes and the other requests take steps of [ManagerConcurrent].  In particular
    the task that [load] spawns may have set its program Running, or another request
    may have unloaded it, before the handler describes the program in its reply.

    An async function is a relation between the state when it is called, its result
    and the state when it has answered.  The theorems say what an accepted load and
    an unload have done, and when, under every interleaving; the handlers of
    [AgentService] are the special case in which nothing interferes. *)
From S2P Require Import Prelude RustStd AgentApi Program ServiceMap Registry Collector ProgManager ManagerConcurrent AgentService.
From stdpp Require Import base gmap strings list relations.
From Stdlib Require Import ZArith Lia.

(** ** Async functions *)

Definition Async (S E A : Type) : Type := S → result E A → S → Prop.

Global Instance Async_ret {S E} : MRet (Async S E) := λ A x s r s', r = Ok x ∧ s' = s.
Global Instance Async_bind {S E} : MBind (Async S E) := λ A B f m s r s',
  (∃ e, m s (Err e) s' ∧ r = Err e) ∨ (∃ a s1, m s (Ok a) s1 ∧ f a s1 r s').

Definition async_map_err {S E E' A} (f : E → E') (m : Async S E A) : Async S E' A := λ s r s',
  ∃ r0, m s r0 s' ∧ r = map_err f r0.
Definition async_lift {S E A} (r : result E A) : Async S E A := λ s r' s', r' = r ∧ s' = s.

Lemma bind_async_ok {S E A B} (m : Async S E A) (f : A → Async S E B) s b s' :
  (m ≫= f) s (Ok b) s' → ∃ a s1, m s (Ok a) s1 ∧ f a s1 (Ok b) s'.
Proof. intros [(e & _ & [=])|H]; done. Qed.

Lemma map_err_async_ok {S E E' A} (f : E → E') (m : Async S E A) s a s' :
  async_map_err f m s (Ok a) s' → m s (Ok a) s'.
Proof. intros (r & Hm & Hr). destruct r; simplify_eq/=. done. Qed.

Lemma lift_async_ok {S E E' A} (f : E → E') (r : result E A) (s : S) a s' :
  async_lift (map_err f r) s (Ok a) s' → r = Ok a ∧ s' = s.
Proof. intros [Hr ->]. destruct r; simplify_eq/=. done. Qed.

Section async_handlers.
Context `{HI : HashIter} {P W : Type} `{!Program P W} `{BR : Broadcast}.

(** The agent and the handlers of other requests. *)
Notation Cfg := (Sys P W * list Handler)%type.
Implicit Types (s : Sys P W) (a b c d : Cfg) (l : loc) (name : string) (h : Handler).

(** ** A handler among the others *)

(** One access of the handler, or a step of anything else. *)
Inductive ostep : Handler * Cfg → Handler * Cfg → Prop :=
  | o_own h h' s s' hs : hstep h s = Some (h', s') → ostep (h, (s, hs)) (h', (s', hs))
  | o_other h a b : mstep a b → ostep (h, a) (h, b).

(** The methods of the manager. *)
Definition pre_load_async name (program_type : ProgramType) (metadata : gmap string string)
    (map_to_prog_id : gmap string Z) : Async Cfg Error loc := λ a r b,
  rtc ostep (PGet name program_type metadata map_to_prog_id, a) (PDone r, b).
Definition load_async (prog : loc) : Async Cfg Error unit := λ a r b,
  rtc ostep (LCheck prog, a) (Answered r, b).
Definition unload_async name : Async Cfg Error unit := λ a r b,
  rtc ostep (UGet name, a) (Answered r, b).

(** The rest of the agent goes on. *)
Definition meanwhile {E} : Async Cfg E unit := λ a r b, r = Ok () ∧ rtc mstep a b.
Definition answered {E A} (m : Async Cfg E A) : Async Cfg E A := λ a r b, ∃ c, m a r c ∧ rtc mstep c b.
(** A method of a program or of the registry, at one moment. *)
Definition at_once {E A} (m : M (Sys P W) E A) : Async Cfg E A := λ a r b, (m a.1).1 = r ∧ b = a.

(** ** The handlers *)

Definition rpc_load_async (reply : BpfmanList) (request : LoadRequest) : Async Cfg Status LoadResponse :=
  answered (
  _ ← meanwhile;
  map_to_prog_id ← async_lift (map_err (AbortedWith "Failed to get eBPF program IDs: ")
                                 (get_prog_ids_for_maps reply (lr_ebpf_maps request)));
  program_type ← async_lift (map_err (λ _, Aborted ("Failed to convert program type: " +:+
                                                    display_u (lr_program_type request)))
                               (ProgramType_try_from (lr_program_type request)));
  prog ← async_map_err (AbortedWith "Failed to pre-load program: ")
           (pre_load_async (lr_name request) program_type (lr_metadata request) map_to_prog_id);
  _ ← async_map_err (AbortedWith "Failed to load program: ") (load_async prog);
  prog_info ← async_map_err (AbortedWith "Failed to get program info: ") (at_once (get_info prog));
  mret {| lres_info := Some prog_info |}).

Definition rpc_unload_async (request : UnloadRequest) : Async Cfg Status UnloadResponse :=
  answered (
  _ ← meanwhile;
  _ ← async_map_err (AbortedWith "Failed to unload program: ") (unload_async (ur_name request));
  mret Build_UnloadResponse).

Fixpoint list_entries_async (progs : list loc) (acc : list ListResult) : Async Cfg Status (list ListResult) :=
  match progs with
  | [] => mret acc
  | prog :: rest =>
      _ ← meanwhile;
      info ← async_map_err (AbortedWith "Failed to get program info: ") (at_once (get_info prog));
      list_entries_async rest (acc ++ [{| lsres_info := Some info |}])
  end.

Definition rpc_list_async (request : ListRequest) : Async Cfg Status ListResponse :=
  let list_filter := ListFilter_new (lsr_program_type request) (lsr_match_metadata request) in
  answered (
  _ ← meanwhile;
  progs ← async_map_err (AbortedWith "") (at_once (list_ list_filter));
  rs ← list_entries_async progs [];
  mret {| results := rs |}).

(** [todo!()] *)
Definition rpc_pull_bytecode_async (_ : PullBytecodeRequest) : Async Cfg Status PullBytecodeResponse :=
  _ ← meanwhile;
  async_lift (Err (HandlerPanic "not yet implemented")).

Definition rpc_get_async (request : GetRequest) : Async Cfg Status GetResponse :=
  answered (
  _ ← meanwhile;
  found ← async_map_err (AbortedWith "") (at_once (get (gr_name request) None));
  prog ← async_lift (ok_or (Aborted ("Program " +:+ gr_name request +:+ " not found")) found);
  _ ← meanwhile;
  prog_info ← async_map_err (AbortedWith "Failed to get program info: ") (at_once (get_info prog));
  mret {| gres_info := Some prog_info |}).

(** ** Moments *)

(** A step of anything: of the handler itself, or of something else. *)
Definition moves a b : Prop := mstep a b ∨ ∃ h h', hstep h a.1 = Some (h', b.1) ∧ b.2 = a.2.
(** One in which the handler itself neither spawns nor signals a task. *)
Definition calm a b : Prop :=
  mstep a b ∨ ∃ h h', hstep h a.1 = Some (h', b.1) ∧ b.2 = a.2 ∧ tasks b.1 = tasks a.1.

Lemma others_calm a b : rtc mstep a b → rtc calm a b.
Proof. apply rtc_subrel. by left. Qed.
Lemma calm_moves a b : rtc calm a b → rtc moves a b.
Proof. apply rtc_subrel. intros x y [H|(h & h' & H1 & H2 & _)]; [by left|right; eauto]. Qed.
Lemma others_move a b : rtc mstep a b → rtc moves a b.
Proof. intros ?%others_calm. by apply calm_moves. Qed.

(** The registry is fixed. *)
Definition registry a : RegistryManager := registry_manager (pm a.1).

Lemma hstep_registry h s h' s' : hstep h s = Some (h', s') → registry_manager (pm s') = registry_manager (pm s).
Proof.
  unfold hstep, pre_load_step, load_step, unload_step, on_program, read_program, send, spawn, then_load.
  intros H. repeat case_match; simplify_eq/=; try done;
    repeat match goal with H : (_ ≫= _) = Some _ |- _ => apply bind_Some in H as (? & ? & ?); simplify_eq/= end;
    try done.
Qed.

Lemma mstep_registry a b : mstep a b → registry b = registry a.
Proof.
  intros [s hs h _|s s' before h h' after Hh|s before h after _|s before u after|s s' hs Ha]; try done.
  - by apply hstep_registry in Hh.
  - unfold registry. simpl. destruct Ha as [s t T p _ _ _|s t T p ev rx _ _ _ _|s|s|s w]; try done.
    + unfold task_begin. by destruct (task_result_frame t T (t_rx T) (set_state Running p)
        ((λ _, None) <$> start_begin (set_state Running p)) s) as (-> & _).
    + unfold task_event. destruct (start_step ev (p, world s)) as [r [p' w']].
      by destruct (task_result_frame t T rx p' r (set_world w' s)) as (-> & _).
    + unfold state_of, send. by case_decide.
Qed.

Lemma moves_registry a b : rtc moves a b → registry b = registry a.
Proof.
  induction 1 as [|a1 a2 a3 H _ IH]; [done|]. rewrite IH.
  destruct H as [H|(h & h' & H & _)]; [by apply mstep_registry|by apply hstep_registry in H].
Qed.

Context `{!ProgramLaws P W}.

(** ** What a handler knows stays true *)

Lemma mstep_refs a b : MInv a → mstep a b → same_refs a.1 b.1.
Proof.
  intros [HI' Hhs] Hstep. destruct Hstep as [s hs h _|s s' before h h' after Hh|s before h after _|s before u after
    |s s' hs Ha]; simpl in *; try by apply keeps_same_refs, keeps_refl.
  - apply Forall_app in Hhs as [_ [Hok _]%Forall_cons].
    destruct (hstep_ok _ _ _ _ HI' Hok Hh) as (_ & Hk & _). by apply keeps_same_refs.
  - by apply agent_step_refs.
Qed.

(** The invariant of the agent with the handler. *)
Definition OInv (x : Handler * Cfg) : Prop := MInv x.2 ∧ handler_ok x.2.1 x.1.

Lemma OInv_ostep x y : OInv x → ostep x y → OInv y.
Proof.
  intros [HM Hok] Hstep. destruct Hstep as [h h' s s' hs Hh|h a b Hm]; simpl in *.
  - destruct HM as [HI' Hhs]. destruct (hstep_ok _ _ _ _ HI' Hok Hh) as (HIs & Hk & Hok').
    split; [|done]. split; [done|]. eapply Forall_impl; [exact Hhs|].
    intros g. by apply handler_ok_refs, keeps_same_refs.
  - split; [by eapply MInv_mstep|]. eapply handler_ok_refs; [by apply mstep_refs|done].
Qed.

Lemma OInv_run x y : OInv x → rtc ostep x y → OInv y.
Proof. intros HO Hr. induction Hr as [|x1 x2 x3 Hs _ IH]; [done|]. by eapply IH, OInv_ostep. Qed.

Lemma moves_own h h' s s' hs : hstep h s = Some (h', s') → moves (s, hs) (s', hs).
Proof. intros H. right. eauto. Qed.
Lemma calm_own h h' s s' hs : hstep h s = Some (h', s') → tasks s' = tasks s → calm (s, hs) (s', hs).
Proof. intros H Ht. right. eauto. Qed.

(** ** Runs of the methods *)

(** A property of the rest of a run, from every place of the handler. *)
Lemma ostep_rest (Q : Handler → Cfg → Cfg → Prop) h' b :
  (Q h' b b) →
  (∀ h a c, OInv (h, a) → mstep a c → Q h c b → Q h a b) →
  (∀ h g s s' hs, OInv (h, (s, hs)) → hstep h s = Some (g, s') → Q g (s', hs) b → Q h (s, hs) b) →
  ∀ h a, OInv (h, a) → rtc ostep (h, a) (h', b) → Q h a b.
Proof.
  intros Hend Hother Hown h a HO Hr. remember (h, a) as x eqn:Hx. remember (h', b) as y eqn:Hy.
  revert h a Hx HO. induction Hr as [x|x1 x2 x3 Hs Hr IH]; intros h a ? HO; subst.
  - by simplify_eq.
  - pose proof (OInv_ostep _ _ HO Hs) as HO2.
    inversion Hs; subst; [eapply Hown; eauto|eapply Hother; eauto].
Qed.

(** [init] of the program fails at a moment of the run. *)
Definition init_fails l md ids e a : Prop := ∃ c p, rtc calm a c ∧ heap c.1 !! l = Some p ∧
  (init md (cache_manager (pm c.1)) ids p).1 = Err e.

(** What is to come of a [pre_load] that ends with [r]. *)
Definition pre_load_rest (r : result Error loc) h a b : Prop :=
  match h with
  | PGet name ty md ids => rtc calm a b ∧
      match r with
      | Ok l => get_program (registry a) name (Some ty) = Some l
      | Err e =>
          (get_program (registry a) name (Some ty) = None ∧ e = Msg ("Program " +:+ name +:+ " not found.")) ∨
          ∃ l, get_program (registry a) name (Some ty) = Some l ∧ init_fails l md ids e a
      end
  | PState l md ids | PInit l md ids => rtc calm a b ∧
      match r with Ok l' => l' = l | Err e => init_fails l md ids e a end
  | PSet l => rtc calm a b ∧ r = Ok l
  | PDone r' => rtc calm a b ∧ r' = r
  | _ => False
  end.

Lemma init_fails_before l md ids e a c : rtc calm a c → init_fails l md ids e c → init_fails l md ids e a.
Proof. intros Hr (d & p & Hd & Hp). exists d, p. split; [by etrans|done]. Qed.

Lemma pre_load_rest_step r h a c b :
  registry c = registry a → rtc calm a c → pre_load_rest r h c b → pre_load_rest r h a b.
Proof.
  intros Hreg Hc. destruct h; simpl; try done; try (intros [Hr ?]; split; [by etrans|]; try done).
  - rewrite Hreg in *. destruct r; [done|]. naive_solver eauto using init_fails_before.
  - destruct r; [done|]. eauto using init_fails_before.
  - destruct r; [done|]. eauto using init_fails_before.
Qed.

(** Past the end of [pre_load], and past the end of [load]. *)
Definition after_pre_load h : bool :=
  match h with PGet _ _ _ _ | PState _ _ _ | PInit _ _ _ | PSet _ | PDone _ => false | _ => true end.

Lemma after_pre_load_step h g s s' : hstep h s = Some (g, s') → after_pre_load h = true → after_pre_load g = true.
Proof.
  unfold hstep, pre_load_step, load_step, unload_step, on_program, read_program.
  intros H. destruct h; try done; intros _;
    repeat match goal with H : (_ ≫= _) = Some _ |- _ => apply bind_Some in H as (? & ? & ?) end;
    repeat case_match; by simplify_eq/=.
Qed.

Lemma pre_load_rest_own r h g s s' hs b :
  hstep h s = Some (g, s') → pre_load_rest r g (s', hs) b → pre_load_rest r h (s, hs) b.
Proof.
  intros Hh Hq. destruct (after_pre_load h) eqn:Ha.
  { apply (after_pre_load_step _ _ _ _ Hh) in Ha. by destruct g. }
  destruct h as [| | | |rd| | | | | | | | | | |]; try done.
  - cbn [hstep pre_load_step] in Hh. simplify_eq. cbn [pre_load_rest]. unfold registry. cbn [fst].
    destruct (get_program _ name (Some program_type)) as [l|] eqn:Hg; cbn [pre_load_rest] in Hq; destruct Hq as [Hr Hq].
    + split; [done|]. destruct r; naive_solver.
    + subst r. eauto.
  - apply read_program_Some in Hh as [-> (p & Hp & ->)]. destruct (get_state p); simpl in *; destruct Hq as [Hr Hq];
      (split; [done|]); by subst.
  - simpl in Hh. unfold on_program in Hh. destruct (heap s !! prog) as [p|] eqn:Hp; [|done]. cbn [mbind option_bind] in Hh.
    destruct (init metadata (cache_manager (pm s)) map_to_prog_id p) as [r0 p'] eqn:Hi. simpl in Hh. simplify_eq.
    assert (calm (s, hs) (set_heap (<[prog := p']> (heap s)) s, hs)) as Hc.
    { eapply (calm_own (PInit prog metadata map_to_prog_id)); [|done].
      simpl. unfold on_program. rewrite Hp. cbn [mbind option_bind]. by rewrite Hi. }
    destruct r0 as [[]|e]; simpl in *; destruct Hq as [Hr Heq]; subst r; (split; [by eapply rtc_l|]).
    + done.
    + exists (s, hs), p. split_and!; [done|done|]. simpl. by rewrite Hi.
  - pose proof Hh as Hc. simpl in Hh. unfold on_program in Hh. destruct (heap s !! prog) as [p|] eqn:Hp; [|done].
    simpl in Hh. simplify_eq. simpl in *. destruct Hq as [Hr Heq]. subst r. split; [|done].
    eapply rtc_l; [|exact Hr]. by eapply (calm_own (PSet prog)).
  - destruct rd; simpl in Hh; by simplify_eq/=.
Qed.

Lemma pre_load_async_spec name ty md ids a r b :
  MInv a → pre_load_async name ty md ids a r b → pre_load_rest r (PGet name ty md ids) a b.
Proof.
  intros HM Hr. refine (ostep_rest (pre_load_rest r) (PDone r) b _ _ _ _ a _ Hr); [done| | |by split].
  - intros h a' c _ Hm. apply pre_load_rest_step; [by apply mstep_registry|]. apply rtc_once. by left.
  - intros h g s s' hs _. apply pre_load_rest_own.
Qed.

(** The handler spawns a new task for the program. *)
Definition spawns l t a b : Prop := spawn l a.1 = (Ok t, b.1) ∧ b.2 = a.2 ∧ tasks a.1 !! t = None.

Lemma spawns_moves l t a b : spawns l t a b → moves a b.
Proof. intros (Hs & H2 & _). right. exists (LSpawn l), (LInsert l t). split; [|done]. cbn [hstep load_step]. by rewrite Hs. Qed.

(** The handle of the task is under the program's name at a moment of the run. *)
Definition handle_kept l t a b : Prop := ∃ c name, rtc calm a c ∧ rtc calm c b ∧
  name_of c.1 l = Some name ∧ program_handles (pm c.1) !! name = Some t.

(** What is to come of a [load] that ends with [r]. *)
Definition load_rest (r : result Error unit) h a b : Prop :=
  match h, r with
  | LCheck l, Ok _ => ∃ c d t, (∃ e p, rtc calm a e ∧ rtc calm e c ∧ heap e.1 !! l = Some p ∧
        get_state p = Initialized) ∧ spawns l t c d ∧ handle_kept l t d b
  | LCheck l, Err e => rtc calm a b ∧
      (∃ c p, rtc calm a c ∧ rtc calm c b ∧ heap c.1 !! l = Some p ∧ get_state p ≠ Initialized) ∧
      ∃ c p, rtc calm a c ∧ rtc calm c b ∧ heap c.1 !! l = Some p ∧
        e = Msg ("Program " +:+ get_name p +:+ " is in an invalid state to be loaded: " +:+
                 ProgramState_debug (get_state p))
  | LSpawn l, Ok _ => ∃ c d t, rtc calm a c ∧ spawns l t c d ∧ handle_kept l t d b
  | LInsert l t, Ok _ => handle_kept l t a b
  | LRefuse l, Err e => ∃ c p, rtc calm a c ∧ rtc calm c b ∧ heap c.1 !! l = Some p ∧
      e = Msg ("Program " +:+ get_name p +:+ " is in an invalid state to be loaded: " +:+
               ProgramState_debug (get_state p))
  | Answered r', _ => r' = r ∧ rtc calm a b
  | LSpawn _, Err _ | LInsert _ _, Err _ | LRefuse _, Ok _ => False
  | _, _ => True
  end.

Lemma handle_kept_before l t a c b : rtc calm a c → handle_kept l t c b → handle_kept l t a b.
Proof. intros Hr (d & name & Hd & Hn). exists d, name. split; [by etrans|done]. Qed.

Lemma load_rest_step r h a c b : rtc calm a c → load_rest r h c b → load_rest r h a b.
Proof.
  intros Hc. destruct h; simpl; try done; try (destruct r as [[]|e]; try done).
  - intros (d & d' & t & (e & p & He & Hr) & H). exists d, d', t. split; [|done]. exists e, p. split; [by etrans|done].
  - intros (Hr & (d & p & Hd & H1) & (d' & p' & Hd' & H2)). split_and!; [by etrans|exists d, p|exists d', p'];
      (split; [by etrans|done]).
  - intros (d & d' & t & Hr & H). exists d, d', t. split; [by etrans|done].
  - by apply handle_kept_before.
  - intros (d & p & Hd & H). exists d, p. split; [by etrans|done].
  - intros [-> Hr]. split; [done|by etrans].
  - intros [-> Hr]. split; [done|by etrans].
Qed.

Lemma load_rest_own r h g s s' hs b :
  OInv (h, (s, hs)) → hstep h s = Some (g, s') → load_rest r g (s', hs) b → load_rest r h (s, hs) b.
Proof.
  intros [[HI' _] Hok] Hh Hq. simpl in HI', Hok. destruct h as [| | | | |l|l|l t|l| | | | | | |]; try done.
  - apply read_program_Some in Hh as [-> (p & Hp & ->)].
    destruct (decide (get_state p = Initialized)) as [Hst|Hst].
    + rewrite Hst in Hq. destruct r as [[]|e]; [|done]. destruct Hq as (c & d & t & Hr & H).
      exists c, d, t. split; [|done]. by exists (s, hs), p.
    + destruct r as [[]|e]; [by destruct (get_state p)|].
      assert (load_rest (Err e) (LRefuse l) (s, hs) b) as Hq' by (by destruct (get_state p)).
      destruct Hq' as (c & q & Hc & Hcb & H). split_and!; [by etrans| |by exists c, q].
      exists (s, hs), p. split_and!; [done|by etrans|done|done].
  - cbn [hstep load_step spawn] in Hh. simplify_eq. destruct r as [[]|e]; [|done].
    eexists (s, hs), _, _. split_and!; [done| |exact Hq]. split_and!; [done|done|].
    apply (not_elem_of_dom (D := gset TaskId)), is_fresh.
  - pose proof Hh as Hc. cbn [hstep load_step] in Hh. destruct (heap s !! l) as [p|] eqn:Hp; [|done]. simpl in Hh. simplify_eq.
    destruct Hq as [Hr Hq]. subst r. eexists _, (get_name p). split_and!; [|exact Hq| |apply lookup_insert_eq].
    + apply rtc_once. by eapply (calm_own (LInsert l t)).
    + unfold name_of. simpl. by rewrite Hp.
  - apply read_program_Some in Hh as [-> (p & Hp & ->)]. destruct Hq as [Hr Hq]. subst r.
    exists (s, hs), p. by split_and!.
Qed.

Lemma load_async_spec l a r b :
  MInv a → is_Some (name_of a.1 l) → load_async l a r b → load_rest r (LCheck l) a b.
Proof.
  intros HM Hl Hr. refine (ostep_rest (load_rest r) (Answered r) b _ _ _ _ a _ Hr); [by destruct r| | |by split].
  - intros h a' c _ Hm. apply load_rest_step, rtc_once. by left.
  - intros h g s s' hs. apply load_rest_own.
Qed.

(** ** Properties *)

Lemma OInv_moves h a h' b : OInv (h, a) → rtc ostep (h, a) (h', b) → MInv b.
Proof. intros HO Hr. by destruct (OInv_run _ _ HO Hr). Qed.
Lemma MInv_others a b : MInv a → rtc mstep a b → MInv b.
Proof. intros HM. induction 1; eauto using MInv_mstep. Qed.

(** Why a load is refused, with the moments at which it was decided.  Only an error of
    [get_program_info] comes after the task was spawned. *)
Inductive load_refused (reply : BpfmanList) (request : LoadRequest) a b : Status → Prop :=
  | refused_ids e : get_prog_ids_for_maps reply (lr_ebpf_maps request) = Err e → rtc mstep a b →
      load_refused reply request a b (AbortedWith "Failed to get eBPF program IDs: " e)
  | refused_type : is_ok (ProgramType_try_from (lr_program_type request)) = false → rtc mstep a b →
      load_refused reply request a b (Aborted ("Failed to convert program type: " +:+ display_u (lr_program_type request)))
  | refused_missing ty : ProgramType_try_from (lr_program_type request) = Ok ty → rtc calm a b →
      get_program (registry a) (lr_name request) (Some ty) = None →
      load_refused reply request a b (AbortedWith "Failed to pre-load program: "
        (Msg ("Program " +:+ lr_name request +:+ " not found.")))
  | refused_init ty ids l e : ProgramType_try_from (lr_program_type request) = Ok ty → rtc calm a b →
      get_prog_ids_for_maps reply (lr_ebpf_maps request) = Ok ids →
      get_program (registry a) (lr_name request) (Some ty) = Some l →
      init_fails l (lr_metadata request) ids e a →
      load_refused reply request a b (AbortedWith "Failed to pre-load program: " e)
  | refused_state ty l c p e : ProgramType_try_from (lr_program_type request) = Ok ty → rtc calm a c → rtc calm c b →
      get_program (registry a) (lr_name request) (Some ty) = Some l →
      heap c.1 !! l = Some p → get_state p ≠ Initialized →
      load_refused reply request a b (AbortedWith "Failed to load program: " e)
  | refused_info l c p e : rtc moves a c → rtc moves c b → heap c.1 !! l = Some p → get_program_info p = Err e →
      load_refused reply request a b (AbortedWith "Failed to get program info: " e).

(** Programs keep their names. *)
Lemma hstep_names h s h' s' l : hstep h s = Some (h', s') → name_of s' l = name_of s l.
Proof.
  unfold hstep, pre_load_step, load_step, unload_step, on_program, read_program, send, spawn, then_load.
  intros H. destruct h; simplify_eq/=; try done;
    repeat match goal with H : (_ ≫= _) = Some _ |- _ => apply bind_Some in H as (? & ? & ?); simplify_eq/= end;
    try (repeat case_match; by simplify_eq/=).
  - eapply name_of_put; [done|]. pose proof (init_identity metadata (cache_manager (pm s)) map_to_prog_id x) as (Hn & _).
    by destruct (init _ _ _ x).
  - eapply name_of_put; [done|]. apply set_state_name.
  - eapply name_of_put; [done|]. pose proof (stop_identity x) as (Hn & _). by destruct (stop x).
  - eapply name_of_put; [done|]. apply set_state_name.
Qed.

Lemma moves_names a b l : rtc moves a b → name_of b.1 l = name_of a.1 l.
Proof.
  induction 1 as [|a1 a2 a3 H _ IH]; [done|]. rewrite IH. destruct H as [H|(h & h' & H & _)]; [|by eapply hstep_names].
  destruct H as [s hs h _|s s' before h h' after Hh|s before h after _|s before u after|s s' hs Ha]; try done.
  - by eapply hstep_names. - by apply agent_step_refs.
Qed.

(** What an accepted load has done by [b], with the moments: [e] is when it checked the
    state, [c] and [d] are before and after it spawned the task, [f] is when the handle
    was in the table, [g] when the reply was made. *)
Definition load_accepted (reply : BpfmanList) (request : LoadRequest) a (resp : LoadResponse) b : Prop :=
  ∃ ty ids l c d t,
    ProgramType_try_from (lr_program_type request) = Ok ty ∧
    get_prog_ids_for_maps reply (lr_ebpf_maps request) = Ok ids ∧
    get_program (registry a) (lr_name request) (Some ty) = Some l ∧
    (∃ e p, rtc calm a e ∧ rtc calm e c ∧ heap e.1 !! l = Some p ∧ get_state p = Initialized) ∧
    spawns l t c d ∧
    ∃ f g q info, rtc calm d f ∧ program_handles (pm f.1) !! lr_name request = Some t ∧
      rtc calm f g ∧ heap g.1 !! l = Some q ∧ get_name q = lr_name request ∧
      get_program_info q = Ok info ∧ lres_info resp = Some info ∧ rtc calm g b.

Lemma load_outcome reply request a r b :
  MInv a → rpc_load_async reply request a r b →
  MInv b ∧
  match r with
  | Ok resp => load_accepted reply request a resp b
  | Err st => load_refused reply request a b st
  end.
Proof.
  intros HM (b0 & Hm & Hb). destruct Hm as [(e & [[=] _] & _)|([] & a1 & [_ Ha1] & Hm)].
  pose proof (MInv_others _ _ HM Ha1) as HM1. pose proof (moves_registry _ _ (others_move _ _ Ha1)) as Hreg.
  destruct Hm as [(e & [He ->] & ->)|(ids & ? & [Hids ->]%lift_async_ok & Hm)].
  { split; [by eapply MInv_others|]. destruct (get_prog_ids_for_maps _ _) as [|e0] eqn:E; simplify_eq/=.
    apply refused_ids; [done|by etrans]. }
  destruct Hm as [(e & [He ->] & ->)|(ty & ? & [Hty ->]%lift_async_ok & Hm)].
  { split; [by eapply MInv_others|]. destruct (ProgramType_try_from _) as [|e0] eqn:E; simplify_eq/=.
    apply refused_type; [by rewrite E|by etrans]. }
  destruct Hm as [(e & (r0 & Hp & He) & ->)|(l & a2 & Hp%map_err_async_ok & Hm)].
  { destruct r0 as [|e0]; simplify_eq/=. assert (MInv b0) as HMb.
    { eapply (OInv_moves (PGet _ _ _ _)); [by split|exact Hp]. }
    split; [by eapply MInv_others|]. apply pre_load_async_spec in Hp as [Hr Hp]; [|done].
    apply others_calm in Ha1, Hb. assert (rtc calm a b) by (etrans; [exact Ha1|etrans; [exact Hr|exact Hb]]).
    rewrite Hreg in Hp. destruct Hp as [[Hn ->]|(l & Hg & Hi)]; [by apply (refused_missing _ _ _ _ ty)|].
    apply (refused_init _ _ _ _ ty ids l); try done. exact (init_fails_before _ _ _ _ _ _ Ha1 Hi). }
  assert (MInv a2) as HM2. { eapply (OInv_moves (PGet _ _ _ _)); [by split|exact Hp]. }
  apply pre_load_async_spec in Hp as [Hr Hg]; [|done]. rewrite Hreg in Hg.
  assert (rtc calm a a2) as Ha2 by (etrans; [by apply others_calm|done]).
  assert (name_of a2.1 l = Some (lr_name request)) as Hname.
  { rewrite (moves_names _ _ _ (calm_moves _ _ Ha2)). destruct HM as [HI' _]. by eapply inv_reg. }
  destruct Hm as [(e & (r0 & Hl & He) & ->)|([] & a3 & Hl%map_err_async_ok & Hm)].
  { destruct r0 as [|e0]; simplify_eq/=. assert (MInv b0) as HMb.
    { eapply (OInv_moves (LCheck l)); [split; [done|simpl; by rewrite Hname]|exact Hl]. }
    split; [by eapply MInv_others|]. apply load_async_spec in Hl as (_ & (c & p & Hc & Hcb & Hpc & Hst) & _); [|done|eauto].
    eapply (refused_state reply request a b ty l c p); [done|by etrans| |done..]. etrans; [done|by apply others_calm]. }
  assert (MInv a3) as HM3. { eapply (OInv_moves (LCheck l)); [split; [done|simpl; by rewrite Hname]|exact Hl]. }
  apply load_async_spec in Hl; [|done|eauto].
  destruct Hl as (c & d & t & (e & p & He & Hec & Hpe & Hst) & Hsp & (f & name & Hf & Hfb & Hn & Hh)).
  assert (rtc moves a f) as Haf.
  { etrans; [by apply calm_moves|]. etrans; [by apply calm_moves|]. etrans; [by apply calm_moves|].
    apply rtc_l with d; [|by apply calm_moves]. by apply (spawns_moves l t). }
  assert (name = lr_name request) as ->.
  { rewrite (moves_names _ _ _ Haf) in Hn. destruct HM as [HI' _]. rewrite (inv_reg _ HI' _ _ _ Hg) in Hn. congruence. }
  assert (MInv b ∧ rtc calm a3 b ∧ rtc moves a a3) as (HMb & Hcb & Hmv).
  { destruct Hm as [(e0 & (r0 & [_ ->] & _) & _)|(info & ? & [_ ->]%map_err_async_ok & [_ ->])];
      (split_and!; [by eapply MInv_others|by apply others_calm|etrans; [exact Haf|by apply calm_moves]]). }
  split; [done|].
  destruct (name_of_is_Some a3.1 l) as [q Hq].
  { rewrite (moves_names _ _ _ Hmv). destruct HM as [HI' _]. rewrite (inv_reg _ HI' _ _ _ Hg). eauto. }
  assert ((get_info l a3.1).1 = get_program_info q) as Hinfo.
  { unfold get_info, deref, mbind, M_bind, lift. by rewrite Hq. }
  destruct Hm as [(e0 & (r0 & [Hi ->] & He0) & ->)|(info & ? & [Hi ->]%map_err_async_ok & [-> ->])].
  - destruct r0 as [|e1]; simplify_eq/=. rewrite Hinfo in Hi.
    eapply (refused_info reply request a b l a3 q); [done|by apply calm_moves|done|done].
  - rewrite Hinfo in Hi. exists ty, ids, l, c, d, t. split_and!; [done|done|done| |done|].
    + exists e, p. split; [by etrans|done].
    + exists f, a3, q, info. split_and!; try done.
      pose proof (moves_names _ _ l Hmv) as Hn'. unfold name_of at 1 in Hn'. rewrite Hq in Hn'. simpl in Hn'.
      destruct HM as [HI' _]. rewrite (inv_reg _ HI' _ _ _ Hg) in Hn'. congruence.
Qed.


(** What an unload does, access by access; between any two of them anything may move. *)
Definition resets l a b : Prop :=
  ∃ c, rtc moves a c ∧ state_at c.1 l = Some Uninitialized ∧ rtc moves c b.
Definition joins (u : Waiting) a b : Prop :=
  ∃ c, rtc moves a c ∧ joined u c.1 = true ∧ resets (u_prog u) c b.
Definition takes_handle name l a b : Prop :=
  ∃ c, rtc moves a c ∧
    joins {| u_name := name; u_prog := l; u_handle := program_handles (pm c.1) !! name |} c b.
Definition signals name l a b : Prop :=
  ∃ c d, rtc moves a c ∧ send (ProgramName name) c.1 = (Ok (), d.1) ∧ takes_handle name l d b.
Definition stops name l a b : Prop :=
  ∃ c p, rtc moves a c ∧ heap c.1 !! l = Some p ∧ (stop p).1 = Ok () ∧ signals name l c b.

(** Why it fails. *)
Definition stop_fails l e a : Prop := ∃ c p, rtc moves a c ∧ heap c.1 !! l = Some p ∧ (stop p).1 = Err e.
Definition send_fails name e a : Prop := ∃ c, rtc moves a c ∧ (send (ProgramName name) c.1).1 = Err e.

Definition unload_rest (r : result Error unit) h a b : Prop :=
  match h, r with
  | UGet name, Ok _ => ∃ l, get_program (registry a) name None = Some l ∧ stops name l a b
  | UGet name, Err e =>
      (get_program (registry a) name None = None ∧
       e = Msg ("Failed to get program " +:+ name +:+ " for unloading.")) ∨
      ∃ l, get_program (registry a) name None = Some l ∧ (stop_fails l e a ∨ send_fails name e a)
  | UStop name l, Ok _ => stops name l a b
  | UStop name l, Err e => stop_fails l e a ∨ send_fails name e a
  | USend name l, Ok _ => signals name l a b
  | USend name l, Err e => send_fails name e a
  | URemove name l, Ok _ => takes_handle name l a b
  | UJoin u, Ok _ => joins u a b
  | USet u, Ok _ => resets (u_prog u) a b
  | Answered r', _ => r' = r ∧ rtc moves a b
  | URemove _ _, Err _ | UJoin _, Err _ | USet _, Err _ => False
  | _, _ => True
  end.

Lemma unload_rest_step r h a c b :
  registry c = registry a → rtc moves a c → unload_rest r h c b → unload_rest r h a b.
Proof.
  intros Hreg Hc. assert (∀ d, rtc moves c d → rtc moves a d) as Hac by (intros; by etrans).
  destruct h as [| | | | | | | | |name|name l|name l|name l|u|u|]; simpl; try done; try (destruct r as [[]|e]; try done);
    rewrite ?Hreg; unfold stops, signals, takes_handle, joins, resets, stop_fails, send_fails; naive_solver.
Qed.

Lemma unload_rest_own r h g s s' hs b :
  hstep h s = Some (g, s') → unload_rest r g (s', hs) b → unload_rest r h (s, hs) b.
Proof.
  intros Hh Hq. assert (moves (s, hs) (s', hs)) as Hm by (by eapply moves_own).
  destruct h as [| | | | | | | | |name|name l|name l|name l|u|u|]; try done.
  - cbn [hstep unload_step] in Hh. simplify_eq. cbn [unload_rest]. unfold registry. cbn [fst].
    destruct (get_program _ name None) as [l|] eqn:Hg; cbn [unload_rest] in Hq.
    + destruct r as [[]|e]; [by exists l|]. right. by exists l.
    + destruct Hq as [<- _]. by left.
  - cbn [hstep unload_step] in Hh. unfold on_program in Hh. destruct (heap s !! l) as [p|] eqn:Hp; [|done].
    cbn [mbind option_bind] in Hh. destruct (stop p) as [r0 p'] eqn:Hs. simpl in Hh. simplify_eq.
    destruct r0 as [[]|e0]; cbn [unload_rest] in Hq.
    + destruct r as [[]|e].
      * exists (s, hs), p. rewrite Hs. split_and!; [done..|]. destruct Hq as (c & d & Hc & Hd). exists c, d.
        split; [by eapply rtc_l|done].
      * right. destruct Hq as (c & Hc & He). exists c. split; [by eapply rtc_l|done].
    + destruct Hq as [<- _]. left. exists (s, hs), p. by rewrite Hs.
  - cbn [hstep unload_step] in Hh. destruct (send (ProgramName name) s) as [[[]|e0] s0] eqn:Hs; simplify_eq.
    + destruct r as [[]|e]; [|done]. by exists (s, hs), (s', hs).
    + destruct Hq as [<- _]. exists (s, hs). cbn [fst]. by rewrite Hs.
  - cbn [hstep unload_step] in Hh. simplify_eq. destruct r as [[]|e]; [|done].
    exists (s, hs). split; [done|]. destruct Hq as (c & Hc & Hj). exists c. split; [by eapply rtc_l|done].
  - cbn [hstep unload_step] in Hh. destruct (joined u s) eqn:Hj; simplify_eq.
    destruct r as [[]|e]; [|done]. by exists (s', hs).
  - cbn [hstep unload_step] in Hh. unfold on_program in Hh. destruct (heap s !! u_prog u) as [p|] eqn:Hp; [|done].
    simpl in Hh. simplify_eq. destruct Hq as [<- Hq]. eexists. split_and!; [by apply rtc_once| |exact Hq].
    unfold state_at. simpl. rewrite lookup_insert_eq. simpl. by rewrite set_state_state.
Qed.

Definition unload_refused name a e : Prop :=
  (get_program (registry a) name None = None ∧
   e = Msg ("Failed to get program " +:+ name +:+ " for unloading.")) ∨
  ∃ l, get_program (registry a) name None = Some l ∧ (stop_fails l e a ∨ send_fails name e a).

Lemma unload_outcome request a r b :
  MInv a → rpc_unload_async request a r b →
  MInv b ∧
  match r with
  | Ok _ => ∃ l, get_program (registry a) (ur_name request) None = Some l ∧ stops (ur_name request) l a b
  | Err st => ∃ e, st = AbortedWith "Failed to unload program: " e ∧ unload_refused (ur_name request) a e
  end.
Proof.
  intros HM (b0 & Hm & Hb). destruct Hm as [(e & [[=] _] & _)|([] & a1 & [_ Ha1] & Hm)].
  pose proof (MInv_others _ _ HM Ha1) as HM1.
  assert (∃ r0 b1, unload_async (ur_name request) a1 r0 b1 ∧ rtc mstep b1 b ∧
    r = match r0 with Ok _ => Ok Build_UnloadResponse | Err e => Err (AbortedWith "Failed to unload program: " e) end)
    as (r0 & b1 & Hu & Hb1 & ->).
  { destruct Hm as [(e & (r0 & Hu & He) & ->)|([] & b1 & Hu%map_err_async_ok & [-> ->])]; [|by exists (Ok ()), b1].
    destruct r0 as [|e0]; simplify_eq/=. by exists (Err e0), b0. }
  split. { eapply MInv_others; [|exact Hb1]. eapply (OInv_moves (UGet _)); [by split|exact Hu]. }
  assert (unload_rest r0 (UGet (ur_name request)) a b) as Hq.
  { eapply unload_rest_step; [apply moves_registry| |]; [by apply others_move..|].
    refine (ostep_rest (λ h a _, unload_rest r0 h a b) (Answered r0) b1 _ _ _ _ a1 _ Hu); [|..|by split].
    - simpl. split; [done|]. by apply others_move.
    - intros h a' c _ Hmv. apply unload_rest_step; [by apply mstep_registry|]. apply rtc_once. by left.
    - intros h g s s' hs _. apply unload_rest_own. }
  destruct r0 as [[]|e]; [exact Hq|]. by exists e.
Qed.


(** [get] replies with the named program as it is at a moment of the call. *)
Lemma get_interleaved request a resp b :
  MInv a → rpc_get_async request a (Ok resp) b →
  ∃ l c p info, get_program (registry a) (gr_name request) None = Some l ∧ rtc mstep a c ∧ rtc mstep c b ∧
    heap c.1 !! l = Some p ∧ get_name p = gr_name request ∧ get_program_info p = Ok info ∧
    gres_info resp = Some info.
Proof.
  intros HM (b0 & Hm & Hb). apply bind_async_ok in Hm as ([] & a1 & [_ Ha1] & Hm).
  apply bind_async_ok in Hm as (found & ? & [Hf ->]%map_err_async_ok & Hm).
  apply bind_async_ok in Hm as (l & ? & [Hl ->] & Hm).
  apply bind_async_ok in Hm as ([] & a2 & [_ Ha2] & Hm).
  apply bind_async_ok in Hm as (info & ? & [Hi ->]%map_err_async_ok & [Hresp ->]). injection Hresp as ->.
  assert (found = get_program (registry a1) (gr_name request) None) as -> by (by injection Hf).
  rewrite (moves_registry _ _ (others_move _ _ Ha1)) in Hl.
  destruct (get_program (registry a) (gr_name request) None) as [l'|] eqn:Hg; [|discriminate Hl]. injection Hl as ->.
  assert (rtc mstep a a2) as Ha by (by etrans).
  destruct HM as [HI' _]. pose proof (inv_reg _ HI' _ _ _ Hg) as Hn.
  rewrite <- (moves_names _ _ _ (others_move _ _ Ha)) in Hn.
  destruct (name_of_is_Some a2.1 l') as [p Hp]; [eauto|]. unfold name_of in Hn. rewrite Hp in Hn. injection Hn as Hn.
  unfold get_info, deref, mbind, M_bind, lift in Hi. rewrite Hp in Hi.
  exists l', a2, p, info. by split_and!.
Qed.

(** [list] replies with the programs that match at one moment, each as it is at a
    later moment of its own. *)
Definition listed a b l (r : ListResult) : Prop := ∃ c p info, rtc mstep a c ∧ rtc mstep c b ∧
  heap c.1 !! l = Some p ∧ get_program_info p = Ok info ∧ lsres_info r = Some info.

Lemma list_entries_interleaved progs acc a rs b :
  list_entries_async progs acc a (Ok rs) b →
  rtc mstep a b ∧ ∃ new, rs = acc ++ new ∧ Forall2 (listed a b) progs new.
Proof.
  revert acc a. induction progs as [|l progs IH]; intros acc a Hm.
  { destruct Hm as [[= ->] ->]. split; [done|]. exists []. by rewrite app_nil_r. }
  apply bind_async_ok in Hm as ([] & a1 & [_ Ha1] & Hm).
  apply bind_async_ok in Hm as (info & ? & [Hi ->]%map_err_async_ok & Hm).
  apply IH in Hm as (Hr & new & -> & Hnew). split; [by etrans|].
  exists ({| lsres_info := Some info |} :: new). split; [by rewrite <- app_assoc|]. constructor.
  - unfold get_info, deref, mbind, M_bind, lift in Hi. destruct (heap a1.1 !! l) as [p|] eqn:Hp; [|done].
    exists a1, p, info. by split_and!.
  - eapply Forall2_impl; [exact Hnew|]. intros l' r' (c & p & i & Hc & H). exists c, p, i. split; [etrans; [exact Ha1|exact Hc]|exact H].
Qed.

Lemma list_interleaved request a resp b :
  rpc_list_async request a (Ok resp) b →
  ∃ c, rtc mstep a c ∧ Forall2 (listed c b)
    (list_programs (heap c.1) (registry a)
       (ListFilter_new (lsr_program_type request) (lsr_match_metadata request))) (results resp).
Proof.
  intros (b0 & Hm & Hb). apply bind_async_ok in Hm as ([] & a1 & [_ Ha1] & Hm).
  apply bind_async_ok in Hm as (progs & ? & [Hl ->]%map_err_async_ok & Hm).
  set (f := ListFilter_new _ _) in *.
  assert (progs = list_programs (heap a1.1) (registry a1) f) as -> by (by injection Hl).
  apply bind_async_ok in Hm as (rs & ? & Hm%list_entries_interleaved & [Hresp ->]). injection Hresp as ->.
  destruct Hm as (_ & new & -> & Hnew). exists a1. split; [done|].
  rewrite <- (moves_registry _ _ (others_move _ _ Ha1)). eapply Forall2_impl; [exact Hnew|].
  intros l' r' (c & p & i & Hc & Hcb & H). exists c, p, i. split_and!; [done|by etrans|apply H..].
Qed.

(** ** Without interference *)

Lemma alone_ostep h s h' s' hs : rtc alone (h, s) (h', s') → rtc ostep (h, (s, hs)) (h', (s', hs)).
Proof.
  apply (rtc_congruence (λ x, (x.1, (x.2, hs))) ostep (h, s) (h', s')). intros [h1 s1] [h2 s2] Hs. by apply o_own.
Qed.

Lemma at_once_call {E E' A} (f : E → E') (m : M (Sys P W) E A) s hs r s' :
  m s = (r, s') → s' = s → async_map_err f (at_once m) (s, hs) (map_err f r) (s', hs).
Proof. intros Hm ->. exists r. split; [|done]. split; [cbn [fst]; by rewrite Hm|done]. Qed.

(** The load handler on its own is one of the ways to run it. *)
Lemma load_alone reply request s r s' hs :
  Inv s → rpc_load reply request s = (r, s') → rpc_load_async reply request (s, hs) r (s', hs).
Proof.
  intros HI' Hrun. exists (s', hs). split; [|done]. right. exists (), (s, hs). split; [by split|].
  destruct (get_prog_ids_for_maps reply (lr_ebpf_maps request)) as [ids|e] eqn:Hids.
  2: { unfold rpc_load, lift, mbind, M_bind in Hrun. rewrite Hids in Hrun. simplify_eq/=.
       left. eexists. by split_and!. }
  right. exists ids, (s, hs). split; [by split|].
  destruct (ProgramType_try_from (lr_program_type request)) as [ty|e] eqn:Hty.
  2: { unfold rpc_load, lift, mbind, M_bind in Hrun. rewrite Hids, Hty in Hrun. simplify_eq/=.
       left. eexists. by split_and!. }
  right. exists ty, (s, hs). split; [by split|].
  rewrite (rpc_load_resolved _ _ _ _ _ Hids Hty), call_bind in Hrun.
  pose proof (alone_pre_load s (lr_name request) ty (lr_metadata request) ids HI') as Hpre.
  destruct (pre_load _ _ _ _ _ s) as [[l|e] s1] eqn:Hp.
  2: { simplify_eq. left. eexists. split; [|done]. exists (Err e). split; [by apply alone_ostep|done]. }
  right. exists l, (s1, hs). split; [exists (Ok l); split; [by apply alone_ostep|done]|].
  assert (OInv (PDone (Ok l), (s1, []))) as [_ Hok].
  { eapply OInv_run; [|exact (alone_ostep _ _ _ _ [] Hpre)]. split; [split; [done|constructor]|done]. }
  destruct (name_of_is_Some s1 l Hok) as [p Hl].
  rewrite call_bind in Hrun. pose proof (alone_load s1 l p Hl) as Hload.
  destruct (load l s1) as [[[]|e] s2] eqn:Hld.
  2: { simplify_eq. left. eexists. split; [|done]. exists (Err e). split; [by apply alone_ostep|done]. }
  right. exists (), (s2, hs). split; [exists (Ok ()); split; [by apply alone_ostep|done]|].
  rewrite call_bind in Hrun.
  assert ((get_info l s2).2 = s2) as Hsame by (unfold get_info, deref, mbind, M_bind, lift; by destruct (heap s2 !! l)).
  destruct (get_info l s2) as [[info|e] s3] eqn:Hi; simpl in Hsame; subst s3.
  - right. exists info, (s2, hs). unfold mret, M_ret in Hrun. simplify_eq.
    split; [|done]. by apply (at_once_call _ _ _ _ (Ok info)).
  - simplify_eq. left. eexists. split; [|done]. by apply (at_once_call _ _ _ _ (Err e)).
Qed.

Lemma list_entries_alone progs acc s rs s' hs :
  list_entries progs acc s = (Ok rs, s') → list_entries_async progs acc (s, hs) (Ok rs) (s', hs).
Proof.
  revert acc. induction progs as [|l progs IH]; intros acc; cbn [list_entries list_entries_async].
  { unfold mret, M_ret. intros [= -> ->]. done. }
  rewrite call_bind. intros Hrun. right. exists (), (s, hs). split; [by split|].
  assert ((get_info l s).2 = s) as Hsame by (unfold get_info, deref, mbind, M_bind, lift; by destruct (heap s !! l)).
  destruct (get_info l s) as [[info|e] s1] eqn:Hi; [|done]. simpl in Hsame. subst s1.
  right. exists info, (s, hs). split; [|by apply IH]. by apply (at_once_call _ _ _ _ (Ok info)).
Qed.

(** So is the list handler. *)
Lemma list_alone request s reply s' hs :
  rpc_list request s = (Ok reply, s') → rpc_list_async request (s, hs) (Ok reply) (s', hs).
Proof.
  unfold rpc_list. rewrite call_bind. unfold list_, gets. set (progs := list_programs _ _ _). intros Hrun.
  exists (s', hs). split; [|done]. right. exists (), (s, hs). split; [by split|].
  right. exists progs, (s, hs). split; [by apply (at_once_call _ _ _ _ (Ok progs))|].
  unfold mbind, M_bind in Hrun. destruct (list_entries progs [] s) as [[rs|e] s1] eqn:Hl; [|done].
  unfold mret, M_ret in Hrun. simplify_eq. right. exists rs, (s', hs). split; [by apply list_entries_alone|done].
Qed.
End async_handlers.

(** ** Witnesses *)

#[local] Existing Instance hm_iter_default.
#[local] Existing Instance ex_program.
#[local] Existing Instance ex_program_laws.
Local Notation ex_br := (bounded_broadcast 32).

Lemma ex_idle_inv s : Inv s → MInv (s, []).
Proof. intros HI'. split; [exact HI'|constructor]. Qed.

(** The task of the program has begun before the handler of [load] goes on. *)
Definition ex_load_request : LoadRequest := {|
  lr_bytecode := None; lr_name := "service_map"; lr_program_type := 0;
  lr_ebpf_maps := {[ "CONNECTIONS" := "sock_conn_tracer" ]}; lr_metadata := ∅ |}.
Definition ex_task : Task := {| t_prog := 0%nat; t_state := Spawned; t_rx := [] |}.
Definition ex_program_loaded : Inner := default Inner_new (heap ex_loaded !! 0%nat).
Definition ex_started : Sys Inner KMaps := task_begin 0%nat ex_task ex_program_loaded ex_loaded.
Definition ex_started_info : ProgramInfo := {|
  pi_name := "service_map"; pi_program_type := 0; pi_state := 2; pi_bytecode := None;
  pi_ebpf_maps := {[ "CONNECTIONS" := 12%Z ]}; pi_metadata := ∅ |}.

Lemma ex_load_run : rpc_load_async (BR := ex_br) ex_reply ex_load_request (ex_new, [])
  (Ok {| lres_info := Some ex_started_info |}) (ex_started, []).
Proof.
  exists (ex_started, []). split; [|done]. right. exists (), (ex_new, []). split; [by split|].
  right. exists {[ "CONNECTIONS" := 12%Z ]}, (ex_new, []). split; [by split|].
  right. exists Builtin, (ex_new, []). split; [by split|].
  right. exists 0%nat, (ex_preloaded, []). split.
  { exists (Ok 0%nat). split; [|done]. apply alone_ostep.
    exact (alone_pre_load ex_new "service_map" Builtin ∅ {[ "CONNECTIONS" := 12%Z ]} ex_new_inv). }
  right. exists (), (ex_started, []). split.
  { exists (Ok ()). split; [|done]. eapply rtc_r.
    - apply alone_ostep. exact (alone_load ex_preloaded 0%nat (default Inner_new (heap ex_preloaded !! 0%nat)) eq_refl).
    - apply o_other, m_agent. apply agent_begin; reflexivity. }
  right. exists ex_started_info, (ex_started, []). split; [|done].
  exists (Ok ex_started_info). split; [|done]. split; [vm_compute; reflexivity|done].
Qed.


(** An unload of the program that waits for its task to read the signal. *)
Definition ex_signalled : Sys Inner KMaps :=
  set_tasks (push_signal (ProgramName "service_map") <$> tasks ex_loaded)
    (set_heap (<[0%nat := snd (stop ex_program_loaded)]> (heap ex_loaded)) ex_loaded).
Definition ex_taken : Sys Inner KMaps :=
  set_pm (set_handles (delete "service_map" (program_handles (pm ex_signalled))) (pm ex_signalled)) ex_signalled.

Lemma ex_unload_signalled :
  rtc (ostep (BR := ex_br)) (UGet "service_map", (ex_loaded, [])) (UJoin ex_waiting, (ex_taken, [])).
Proof.
  eapply rtc_r.
  - apply alone_ostep, (alone_signal ex_loaded "service_map" 0%nat ex_program_loaded);
      [vm_compute; reflexivity..|vm_compute; lia].
  - apply (o_own _ _ _ ex_taken). vm_compute. reflexivity.
Qed.

Lemma ex_taken_stopping : stopping 0%nat "service_map" ex_taken.
Proof.
  eexists. split; [vm_compute; reflexivity|]. split; [vm_compute; reflexivity|]. right. vm_compute. left.
Qed.

Lemma ex_unload_run : ∃ s, rpc_unload_async (BR := ex_br) {| ur_name := "service_map" |} (ex_loaded, [])
  (Ok Build_UnloadResponse) (s, []).
Proof.
  assert (OInv (UJoin ex_waiting, (ex_taken, []))) as [[HI' _] Hok].
  { eapply OInv_run; [|exact ex_unload_signalled]. split; [by apply ex_idle_inv, ex_loaded_inv|done]. }
  destruct (stopping_completes (BR := ex_br) ex_taken ex_waiting 0%nat "service_map" HI'
    (ex_in_time ex_taken ltac:(vm_compute; reflexivity)) ex_taken_stopping Hok eq_refl) as (s3 & s4 & Hr & Hj & Hs & _).
  exists s4, (s4, []). split; [|done]. right. exists (), (ex_loaded, []). split; [by split|].
  right. exists (), (s4, []). split; [|done]. exists (Ok ()). split; [|done].
  unfold unload_async. etrans; [exact ex_unload_signalled|]. etrans.
  { apply (rtc_congruence (λ s, (UJoin ex_waiting, (s, []))) (ostep (BR := ex_br)) _ _) in Hr; [exact Hr|].
    intros x y Hxy. by apply o_other, m_agent, (reads_on_agent 0%nat). }
  eapply rtc_l; [by apply o_own|]. apply rtc_once. by apply o_own.
Qed.

