(* ===== verification/Rpc.v ===== *)
(** * The stubs between the command line client and the agent

    [agent-api/src/agent.v1.rs] (the modules [agent_client] and [agent_server])
    and the channel of [agent-api/src/lib.rs]: the client sends each request to a
    path, the server finds the method of the path and hands it the request.

    The tonic library that encodes, sends and decodes is a parameter, the class
    [Tonic]; what the stubs rely on is [TonicLaws].  The agent behind the stubs is
    that of [AgentAsync], which goes on while a request is handled. *)
From S2P Require Import Prelude RustStd AgentApi Program ServiceMap Registry Collector ProgManager ManagerConcurrent AgentService AgentAsync.
From stdpp Require Import base gmap strings list relations.
From Stdlib Require Import ZArith Lia.

Local Open Scope Z_scope.

(** ** Parameters: the tonic library *)

(** [tonic::Status]; the codes are those of gRPC. *)
Record TonicStatus := { code : Z; message : string }.
Definition Code_Unknown : Z := 2.
Definition Code_Aborted : Z := 10.
Definition Code_OutOfRange : Z := 11.
Definition Code_Unimplemented : Z := 12.

(** What the stubs use of tonic, http and prost: message bodies with the length
    of a message in protobuf encoding, and the two ends of a unary call. *)
Record HttpRequest (B : Type) := { uri_path : string; req_body : B }.
Record HttpResponse (B : Type) := {
  http_status : Z; http_headers : list (string * string); resp_body : B }.
Arguments uri_path {B} _.
Arguments req_body {B} _.
Arguments Build_HttpRequest {B} _ _.
Arguments http_status {B} _.
Arguments http_headers {B} _.
Arguments resp_body {B} _.
Arguments Build_HttpResponse {B} _ _ _.

Class Message (B A : Type) := {
  encoded_len : A → Z;
  body_of : A → B;
  decode : B → option A;
  decode_body_of m : decode (body_of m) = Some m }.

(** The settings of one end: the compression it sends and accepts, and the
    limits on decoded and encoded messages. *)
Record GrpcConfig (C : Type) := {
  accept_compression_encodings : list C;
  send_compression_encodings : list C;
  max_decoding_message_size : option Z;
  max_encoding_message_size : option Z }.
Arguments accept_compression_encodings {C} _.
Arguments send_compression_encodings {C} _.
Arguments max_decoding_message_size {C} _.
Arguments max_encoding_message_size {C} _.

(** The defaults: 4MB, and [usize::MAX]. *)
Definition decode_limit {C} (g : GrpcConfig C) : Z := default 4194304 (max_decoding_message_size g).
Definition encode_limit {C} (g : GrpcConfig C) : Z := default (2 ^ 64 - 1) (max_encoding_message_size g).

Class Tonic := {
  Body : Type;
  empty_body : Body;
  CompressionEncoding : Type;
  server_unary {S Req Resp} `{!Message Body Req} `{!Message Body Resp} :
    GrpcConfig CompressionEncoding → (Req → Async S TonicStatus Resp) →
    HttpRequest Body → S → HttpResponse Body → S → Prop;
  client_unary {S Req Resp} `{!Message Body Req} `{!Message Body Resp} :
    GrpcConfig CompressionEncoding → (HttpRequest Body → Async S string (HttpResponse Body)) →
    string → Req → Async S TonicStatus Resp;
  (** The response that carries a result, and how it is read back. *)
  respond {Resp} `{!Message Body Resp} :
    GrpcConfig CompressionEncoding → result TonicStatus Resp → HttpResponse Body;
  read_answer {Resp} `{!Message Body Resp} :
    GrpcConfig CompressionEncoding → HttpResponse Body → result TonicStatus Resp;
  transport_status : string → TonicStatus }.

Definition plain {C} (g : GrpcConfig C) : Prop :=
  accept_compression_encodings g = [] ∧ send_compression_encodings g = [].

Definition fits {C A B} `{!Message B A} (server client : GrpcConfig C) (a : result TonicStatus A) : Prop :=
  match a with
  | Ok m => encoded_len m ≤ encode_limit server ∧ encoded_len m ≤ decode_limit client
  | Err _ => True
  end.

(** The documented behaviour, for ends that do not compress. *)
Class TonicLaws (T : Tonic) := {
  server_unary_ok {S Req Resp} `{!Message Body Req} `{!Message Body Resp} g
      (svc : Req → Async S TonicStatus Resp) p (m : Req) s r s' :
    plain g → encoded_len m ≤ decode_limit g →
    server_unary g svc {| uri_path := p; req_body := body_of m |} s r s' ↔
    ∃ a, svc m s a s' ∧ r = respond g a;
  server_unary_too_large {S Req Resp} `{!Message Body Req} `{!Message Body Resp} g
      (svc : Req → Async S TonicStatus Resp) p (m : Req) s r s' :
    plain g → decode_limit g < encoded_len m →
    server_unary g svc {| uri_path := p; req_body := body_of m |} s r s' →
    s' = s ∧ ∃ st, code st = Code_OutOfRange ∧ r = respond g (Err st : result TonicStatus Resp);
  client_unary_ok {S Req Resp} `{!Message Body Req} `{!Message Body Resp} g
      (svc : HttpRequest Body → Async S string (HttpResponse Body)) p (m : Req) s
      (a : result TonicStatus Resp) s' :
    plain g → encoded_len m ≤ encode_limit g →
    client_unary g svc p m s a s' ↔
    ∃ r, svc {| uri_path := p; req_body := body_of m |} s r s' ∧
         a = match r with Ok resp => read_answer g resp | Err e => Err (transport_status e) end;
  read_respond {Resp} `{!Message Body Resp} gs gc (a : result TonicStatus Resp) :
    plain gs → plain gc → fits gs gc a → read_answer gc (respond gs a) = a;
  read_unimplemented {Resp} `{!Message Body Resp} g r :
    ("grpc-status", "12") ∈ http_headers r →
    ∃ st, (read_answer g r : result TonicStatus Resp) = Err st ∧ code st = Code_Unimplemented }.

(** The ten messages have encodings (the derive macros of prost). *)
Class AgentMessages (B : Type) := {
  load_request_message :: Message B LoadRequest;
  load_response_message :: Message B LoadResponse;
  unload_request_message :: Message B UnloadRequest;
  unload_response_message :: Message B UnloadResponse;
  list_request_message :: Message B ListRequest;
  list_response_message :: Message B ListResponse;
  pull_request_message :: Message B PullBytecodeRequest;
  pull_response_message :: Message B PullBytecodeResponse;
  get_request_message :: Message B GetRequest;
  get_response_message :: Message B GetResponse }.

(** ** The trait [Agent] *)

Record Agent (S : Type) := {
  agent_load : LoadRequest → Async S TonicStatus LoadResponse;
  agent_unload : UnloadRequest → Async S TonicStatus UnloadResponse;
  agent_list : ListRequest → Async S TonicStatus ListResponse;
  agent_pull_bytecode : PullBytecodeRequest → Async S TonicStatus PullBytecodeResponse;
  agent_get : GetRequest → Async S TonicStatus GetResponse }.
Arguments agent_load {S} _ _.
Arguments agent_unload {S} _ _.
Arguments agent_list {S} _ _.
Arguments agent_pull_bytecode {S} _ _.
Arguments agent_get {S} _ _.

Section stubs.
Context `{T : Tonic} `{AM : !AgentMessages Body} {S : Type}.
Notation Config := (GrpcConfig CompressionEncoding).

Definition default_config : Config := {|
  accept_compression_encodings := []; send_compression_encodings := [];
  max_decoding_message_size := None; max_encoding_message_size := None |}.

(** [EnabledCompressionEncodings::enable] and the builders of both ends. *)
Definition cfg_accept_compressed (e : CompressionEncoding) (g : Config) : Config := {|
  accept_compression_encodings := e :: accept_compression_encodings g;
  send_compression_encodings := send_compression_encodings g;
  max_decoding_message_size := max_decoding_message_size g;
  max_encoding_message_size := max_encoding_message_size g |}.
Definition cfg_send_compressed (e : CompressionEncoding) (g : Config) : Config := {|
  accept_compression_encodings := accept_compression_encodings g;
  send_compression_encodings := e :: send_compression_encodings g;
  max_decoding_message_size := max_decoding_message_size g;
  max_encoding_message_size := max_encoding_message_size g |}.
Definition cfg_max_decoding (limit : Z) (g : Config) : Config := {|
  accept_compression_encodings := accept_compression_encodings g;
  send_compression_encodings := send_compression_encodings g;
  max_decoding_message_size := Some limit;
  max_encoding_message_size := max_encoding_message_size g |}.
Definition cfg_max_encoding (limit : Z) (g : Config) : Config := {|
  accept_compression_encodings := accept_compression_encodings g;
  send_compression_encodings := send_compression_encodings g;
  max_decoding_message_size := max_decoding_message_size g;
  max_encoding_message_size := Some limit |}.

(** ** [agent_server] *)

Record AgentServer := { inner : Agent S; config : Config }.

Definition AgentServer_from_arc (inner : Agent S) : AgentServer :=
  {| inner := inner; config := default_config |}.
Definition AgentServer_new (inner : Agent S) : AgentServer := AgentServer_from_arc inner.
Definition server_set (f : Config → Config) (srv : AgentServer) : AgentServer :=
  {| inner := inner srv; config := f (config srv) |}.
Definition server_accept_compressed e := server_set (cfg_accept_compressed e).
Definition server_send_compressed e := server_set (cfg_send_compressed e).
Definition server_max_decoding_message_size limit := server_set (cfg_max_decoding limit).
Definition server_max_encoding_message_size limit := server_set (cfg_max_encoding limit).
Definition AgentServer_clone (srv : AgentServer) : AgentServer :=
  {| inner := inner srv; config := config srv |}.
Definition NAME : string := "agent.v1.agent".

(** [poll_ready] is always [Ready(Ok(()))]. *)
Definition poll_ready (_ : AgentServer) : Async S string unit := mret ().

(** The reply to any other path. *)
Definition unimplemented : HttpResponse Body := {|
  http_status := 200;
  http_headers := [("grpc-status", "12"); ("content-type", "application/grpc")];
  resp_body := empty_body |}.

(** The arm of each path: the service that calls the method, under the settings of
    the server. *)
Definition LoadSvc (srv : AgentServer) (req : HttpRequest Body) : S → HttpResponse Body → S → Prop :=
  server_unary (config srv) (agent_load (inner srv)) req.
Definition UnloadSvc (srv : AgentServer) (req : HttpRequest Body) : S → HttpResponse Body → S → Prop :=
  server_unary (config srv) (agent_unload (inner srv)) req.
Definition ListSvc (srv : AgentServer) (req : HttpRequest Body) : S → HttpResponse Body → S → Prop :=
  server_unary (config srv) (agent_list (inner srv)) req.
Definition PullBytecodeSvc (srv : AgentServer) (req : HttpRequest Body) : S → HttpResponse Body → S → Prop :=
  server_unary (config srv) (agent_pull_bytecode (inner srv)) req.
Definition GetSvc (srv : AgentServer) (req : HttpRequest Body) : S → HttpResponse Body → S → Prop :=
  server_unary (config srv) (agent_get (inner srv)) req.

Definition server_call (srv : AgentServer) (req : HttpRequest Body) :
    S → HttpResponse Body → S → Prop :=
  if decide (uri_path req = "/agent.v1.agent/Load") then LoadSvc srv req
  else if decide (uri_path req = "/agent.v1.agent/Unload") then UnloadSvc srv req
  else if decide (uri_path req = "/agent.v1.agent/List") then ListSvc srv req
  else if decide (uri_path req = "/agent.v1.agent/PullBytecode") then PullBytecodeSvc srv req
  else if decide (uri_path req = "/agent.v1.agent/Get") then GetSvc srv req
  else λ s r s', r = unimplemented ∧ s' = s.

(** ** [agent_client] *)

(** What a client talks to ([GrpcService]): it may not be ready, and a call may
    fail on the way. *)
Record Service := {
  svc_ready : Async S string unit;
  svc_call : HttpRequest Body → Async S string (HttpResponse Body) }.

Record AgentClient := { cl_service : Service; cl_origin : string; cl_config : Config }.

Definition AgentClient_new (inner : Service) : AgentClient :=
  {| cl_service := inner; cl_origin := ""; cl_config := default_config |}.
Definition AgentClient_with_origin (inner : Service) (origin : string) : AgentClient :=
  {| cl_service := inner; cl_origin := origin; cl_config := default_config |}.
Definition client_set (f : Config → Config) (c : AgentClient) : AgentClient :=
  {| cl_service := cl_service c; cl_origin := cl_origin c; cl_config := f (cl_config c) |}.
Definition client_send_compressed e := client_set (cfg_send_compressed e).
Definition client_accept_compressed e := client_set (cfg_accept_compressed e).
Definition client_max_decoding_message_size limit := client_set (cfg_max_decoding limit).
Definition client_max_encoding_message_size limit := client_set (cfg_max_encoding limit).

Definition not_ready (e : string) : TonicStatus :=
  {| code := Code_Unknown; message := "Service was not ready: " +:+ e |}.

Definition client_load (c : AgentClient) (request : LoadRequest) : Async S TonicStatus LoadResponse :=
  _ ← async_map_err not_ready (svc_ready (cl_service c));
  client_unary (cl_config c) (svc_call (cl_service c)) "/agent.v1.agent/Load" request.
Definition client_unload (c : AgentClient) (request : UnloadRequest) : Async S TonicStatus UnloadResponse :=
  _ ← async_map_err not_ready (svc_ready (cl_service c));
  client_unary (cl_config c) (svc_call (cl_service c)) "/agent.v1.agent/Unload" request.
Definition client_list (c : AgentClient) (request : ListRequest) : Async S TonicStatus ListResponse :=
  _ ← async_map_err not_ready (svc_ready (cl_service c));
  client_unary (cl_config c) (svc_call (cl_service c)) "/agent.v1.agent/List" request.
Definition client_pull_bytecode (c : AgentClient) (request : PullBytecodeRequest) :
    Async S TonicStatus PullBytecodeResponse :=
  _ ← async_map_err not_ready (svc_ready (cl_service c));
  client_unary (cl_config c) (svc_call (cl_service c)) "/agent.v1.agent/PullBytecode" request.
Definition client_get (c : AgentClient) (request : GetRequest) : Async S TonicStatus GetResponse :=
  _ ← async_map_err not_ready (svc_ready (cl_service c));
  client_unary (cl_config c) (svc_call (cl_service c)) "/agent.v1.agent/Get" request.

(** ** The channel of [lib.rs] *)

(** [Endpoint::try_from] and the lazily connected channel are parameters. *)
Definition select_channel (try_from : string → result string unit) (connect : string → Service)
    (path : string) : option Service :=
  match try_from ("unix:/" +:+ path) with
  | Err _ => None
  | Ok _ => Some (connect path)
  end.

Definition new_agent_client (try_from : string → result string unit) (connect : string → Service)
    (sock_path : string) : result Failure AgentClient :=
  match select_channel try_from connect sock_path with
  | None => Err (Panic "called `Option::unwrap()` on a `None` value")
  | Some channel => Ok (AgentClient_new channel)
  end.

(** ** A channel that is connected to a server *)

Definition connected (srv : AgentServer) : Service := {|
  svc_ready := poll_ready srv;
  svc_call := λ req s r s', ∃ resp, server_call srv req s resp s' ∧ r = Ok resp |}.

(** ** Interceptors *)

(** [InterceptedService] of tonic: the interceptor sees the metadata of each
    request first; it lets the request pass or answers with a status. *)
Class Intercepting := {
  Interceptor : Type;
  intercept : Interceptor → Async S TonicStatus unit;
  status_response : TonicStatus → HttpResponse Body;
  InterceptedService_new : Service → Interceptor → Service;
  intercepted_ready svc i : svc_ready (InterceptedService_new svc i) = svc_ready svc;
  intercepted_call svc i req s r s' :
    svc_call (InterceptedService_new svc i) req s r s' ↔
    ∃ a s1, intercept i s a s1 ∧
      match a with
      | Ok _ => svc_call svc req s1 r s'
      | Err st => r = Ok (status_response st) ∧ s' = s1
      end }.

(** Interceptors that always give the same answer. *)
Definition constant_interceptors (status_response : TonicStatus → HttpResponse Body) : Intercepting.
Proof.
  refine {| Interceptor := result TonicStatus unit; intercept := λ i s r s', r = i ∧ s' = s;
            status_response := status_response;
            InterceptedService_new := λ svc i, {|
              svc_ready := svc_ready svc;
              svc_call := λ req s r s',
                match i with
                | Ok _ => svc_call svc req s r s'
                | Err st => r = Ok (status_response st) ∧ s' = s
                end |} |}; [done|].
  intros svc i req s r s'. simpl. split.
  - intros H. by exists i, s.
  - by intros (a & s1 & [-> ->] & H).
Defined.

Definition AgentClient_with_interceptor {IC : Intercepting} (inner : Service) (i : Interceptor) :
    AgentClient := AgentClient_new (InterceptedService_new inner i).
Definition AgentServer_with_interceptor {IC : Intercepting} (inner : Agent S) (i : Interceptor) :
    Service := InterceptedService_new (connected (AgentServer_new inner)) i.

(** ** Lemmas *)

Lemma ready_bind {A} srv (f : unit → Async S TonicStatus A) s a s' :
  (async_map_err not_ready (poll_ready srv) ≫= f) s a s' ↔ f () s a s'.
Proof.
  unfold poll_ready, async_map_err, mbind, Async_bind, mret, Async_ret. split.
  - intros [(e & (r & [-> ->] & Hr) & _)|([] & s1 & (r & [-> ->] & _) & Hf)]; [done|exact Hf].
  - intros Hf. right. exists (), s. split; [|done]. exists (Ok ()). done.
Qed.

Context {L : TonicLaws T}.

(** A request to a path that the server hands to [svc]. *)
Lemma unary_through {Req Resp} `{!Message Body Req} `{!Message Body Resp} srv g p
    (svc : Req → Async S TonicStatus Resp) m s a s' :
  plain (config srv) → plain g →
  (∀ req, uri_path req = p → server_call srv req = server_unary (config srv) svc req) →
  encoded_len m ≤ encode_limit g → encoded_len m ≤ decode_limit (config srv) →
  client_unary g (svc_call (connected srv)) p m s a s' ↔
  ∃ a0, svc m s a0 s' ∧ a = read_answer g (respond (config srv) a0).
Proof.
  intros Hs Hg Hp He Hd. rewrite client_unary_ok by done. simpl. rewrite Hp by done. split.
  - intros (r & (resp & Hr & ->) & ->). apply server_unary_ok in Hr as (a0 & H & ->); eauto.
  - intros (a0 & H & ->). exists (Ok (respond (config srv) a0)). split; [|reflexivity].
    eexists. split; [|reflexivity]. apply server_unary_ok; eauto.
Qed.

Definition within {Req} `{!Message Body Req} srv (g : Config) (m : Req) : Prop :=
  encoded_len m ≤ encode_limit g ∧ encoded_len m ≤ decode_limit (config srv).

(** The stub of a client is the handler, for requests and answers in the limits. *)
Definition transparent {Req Resp} `{!Message Body Req} `{!Message Body Resp} srv (g : Config)
    (stub handler : Req → Async S TonicStatus Resp) : Prop :=
  ∀ m s, within srv g m → (∀ a s', handler m s a s' → fits (config srv) g a) →
  ∀ a s', stub m s a s' ↔ handler m s a s'.

Lemma unary_transparent {Req Resp} `{!Message Body Req} `{!Message Body Resp} srv g p
    (svc : Req → Async S TonicStatus Resp) :
  plain (config srv) → plain g →
  (∀ req, uri_path req = p → server_call srv req = server_unary (config srv) svc req) →
  transparent srv g (λ m, async_map_err not_ready (poll_ready srv) ≫=
                          λ _, client_unary g (svc_call (connected srv)) p m) svc.
Proof.
  intros Hs Hg Hp m s [He Hd] Hfit a s'. rewrite ready_bind, (unary_through _ _ _ svc) by done.
  split.
  - intros (a0 & H & ->). rewrite read_respond by eauto. done.
  - intros H. exists a. split; [done|]. by rewrite read_respond by eauto.
Qed.

Lemma stubs_transparent srv c :
  plain (config srv) → plain (cl_config c) → cl_service c = connected srv →
  transparent srv (cl_config c) (client_load c) (agent_load (inner srv)) ∧
  transparent srv (cl_config c) (client_unload c) (agent_unload (inner srv)) ∧
  transparent srv (cl_config c) (client_list c) (agent_list (inner srv)) ∧
  transparent srv (cl_config c) (client_pull_bytecode c) (agent_pull_bytecode (inner srv)) ∧
  transparent srv (cl_config c) (client_get c) (agent_get (inner srv)).
Proof.
  intros Hs Hc Hsvc.
  unfold client_load, client_unload, client_list, client_pull_bytecode, client_get.
  rewrite Hsvc. split_and!; apply unary_transparent; try done;
    intros req Hp; unfold server_call; rewrite Hp; reflexivity.
Qed.

(** ** Properties *)

(** C13: the stubs are wired to one another: a call of any of the five methods of
    a client whose channel is connected to the server has exactly the results
    and effects of that method of the agent, for requests and answers within
    the size limits of the two ends. *)
Theorem client_calls_are_handler_calls srv c :
  plain (config srv) → plain (cl_config c) → cl_service c = connected srv →
  transparent srv (cl_config c) (client_load c) (agent_load (inner srv)) ∧
  transparent srv (cl_config c) (client_unload c) (agent_unload (inner srv)) ∧
  transparent srv (cl_config c) (client_list c) (agent_list (inner srv)) ∧
  transparent srv (cl_config c) (client_pull_bytecode c) (agent_pull_bytecode (inner srv)) ∧
  transparent srv (cl_config c) (client_get c) (agent_get (inner srv)).
Proof. apply stubs_transparent. Qed.

(** An interceptor that lets every request pass changes nothing, on either side;
    one that refuses every request keeps all of them from the agent. *)
Lemma interceptors_between {IC : Intercepting} srv_agent i req s r s' :
  (intercept i = mret () →
     svc_call (AgentServer_with_interceptor srv_agent i) req s r s' ↔
     svc_call (connected (AgentServer_new srv_agent)) req s r s') ∧
  (∀ st, intercept i = (λ s r s', r = Err st ∧ s' = s) →
     svc_call (AgentServer_with_interceptor srv_agent i) req s r s' →
     s' = s ∧ r = Ok (status_response st)).
Proof.
  unfold AgentServer_with_interceptor. split.
  - intros Hi. rewrite intercepted_call. split.
    + intros (a & s1 & Ha & H). rewrite Hi in Ha. by destruct Ha as [-> ->].
    + intros H. exists (Ok ()), s. by rewrite Hi.
  - intros st Hi (a & s1 & Ha & H)%intercepted_call. rewrite Hi in Ha. destruct Ha as [-> ->].
    by destruct H as [-> ->].
Qed.

Lemma intercepted_load {IC : Intercepting} svc i m s a s' st :
  svc_ready svc = mret () → intercept i = (λ s r s', r = Err st ∧ s' = s) →
  encoded_len m ≤ encode_limit (default_config : Config) →
  client_load (AgentClient_with_interceptor svc i) m s a s' →
  s' = s ∧ a = read_answer default_config (status_response st).
Proof.
  intros Hready Hi Hlen. unfold client_load. simpl. rewrite intercepted_ready, Hready.
  unfold async_map_err, mret, Async_ret, mbind, Async_bind.
  intros [(e & (r & [-> ->] & Hr) & _)|([] & s1 & (r & [-> ->] & _) & Hf)]; [done|].
  apply client_unary_ok in Hf as (r & Hr & ->); [|split; done|done].
  apply intercepted_call in Hr as (x & s1 & Hx & Hr). rewrite Hi in Hx. destruct Hx as [-> ->].
  by destruct Hr as [-> ->].
Qed.

Definition paths : list string :=
  ["/agent.v1.agent/Load"; "/agent.v1.agent/Unload"; "/agent.v1.agent/List";
   "/agent.v1.agent/PullBytecode"; "/agent.v1.agent/Get"].

Lemma server_call_other srv req : uri_path req ∉ paths →
  server_call srv req = λ s r s', r = unimplemented ∧ s' = s.
Proof.
  unfold paths, server_call. rewrite !not_elem_of_cons. intros (? & ? & ? & ? & ? & _).
  by rewrite !decide_False.
Qed.

Lemma server_call_too_large {Req Resp} `{!Message Body Req} `{!Message Body Resp} srv p
    (svc : Req → Async S TonicStatus Resp) (m : Req) s r s' :
  plain (config srv) →
  (∀ req, uri_path req = p → server_call srv req = server_unary (config srv) svc req) →
  decode_limit (config srv) < encoded_len m →
  server_call srv {| uri_path := p; req_body := body_of m |} s r s' → s' = s.
Proof. intros Hs Hp Hl. rewrite Hp by done. intros H. by eapply server_unary_too_large in H as [-> _]. Qed.

(** What the agent does not see.  A load request over the server's limit, a
    request to any other path (answered as unimplemented, status 12), and a
    call on a channel that does not become ready (answered with code Unknown)
    all leave the agent as it was. *)
Lemma refused_calls_leave_agent srv :
  plain (config srv) →
  (∀ (m : LoadRequest) s r s', decode_limit (config srv) < encoded_len m →
     server_call srv {| uri_path := "/agent.v1.agent/Load"; req_body := body_of m |} s r s' → s' = s) ∧
  (∀ p b, p ∉ paths → ∀ s r s', server_call srv {| uri_path := p; req_body := b |} s r s' →
     s' = s ∧ http_status r = 200 ∧
     ∀ g, ∃ st, (read_answer g r : result TonicStatus LoadResponse) = Err st ∧
                code st = Code_Unimplemented) ∧
  (∀ c e (m : LoadRequest), svc_ready (cl_service c) = (λ s r s', r = Err e ∧ s' = s) →
     ∀ s a s', client_load c m s a s' → s' = s ∧ a = Err (not_ready e)).
Proof.
  intros Hs. split_and!.
  - intros m s r s' Hl. apply (server_call_too_large srv _ (agent_load (inner srv))); try done.
    intros req Hp. unfold server_call. by rewrite Hp.
  - intros p b Hp s r s'. rewrite server_call_other by done. intros [-> ->]. split_and!; [done..|].
    intros g. apply read_unimplemented. simpl. left.
  - intros c e m Hr s a s'. unfold client_load, mbind, Async_bind, async_map_err. rewrite Hr.
    intros [(e' & (r & [-> ->] & [= <-]) & ->)|(u & s1 & (r & [-> ->] & H) & _)]; done.
Qed.
End stubs.

Arguments AgentServer {T} S.
Arguments AgentClient {T} S.
Arguments Service {T} S.

(** ** The agent behind the stubs *)

Section agent.
Context `{HI : HashIter} {P W : Type} `{!Program P W} `{BR : Broadcast}.
Context `{T : Tonic} `{AM : !AgentMessages Body}.

(** The status a handler returns, with the debug form of the error it embeds; a
    handler that panics returns nothing. *)
Definition to_status (debug : Error → string) (st : Status) : option TonicStatus :=
  match st with
  | Aborted msg => Some {| code := Code_Aborted; message := msg |}
  | AbortedWith what cause => Some {| code := Code_Aborted; message := what +:+ debug cause |}
  | HandlerPanic _ => None
  end.

Definition answers {A} (debug : Error → string) (r : result Status A) (a : result TonicStatus A) : Prop :=
  match r with
  | Ok x => a = Ok x
  | Err st => ∃ ts, to_status debug st = Some ts ∧ a = Err ts
  end.

(** A method of the service, with the status it answers. *)
Definition service_method {A} (debug : Error → string) (m : Async (Sys P W * list Handler) Status A) :
    Async (Sys P W * list Handler) TonicStatus A := λ a r b, ∃ r0, m a r0 b ∧ answers debug r0 r.

(** The implementation of [Agent] by [AgentService]; bpfman may reply anything. *)
Definition agent_service (debug : Error → string) : Agent (Sys P W * list Handler) := {|
  agent_load := λ m a r b, ∃ reply, service_method debug (rpc_load_async reply m) a r b;
  agent_unload := λ m, service_method debug (rpc_unload_async m);
  agent_list := λ m, service_method debug (rpc_list_async m);
  agent_pull_bytecode := λ m, service_method debug (rpc_pull_bytecode_async m);
  agent_get := λ m, service_method debug (rpc_get_async m) |}.
End agent.

(** ** Witnesses *)

(** A transport that carries messages as they are. *)
Section example.
Context {B : Type} (empty : B).

Definition ex_respond {Resp} `{!Message B Resp} (_ : GrpcConfig unit) (a : result TonicStatus Resp) :
    HttpResponse B :=
  match a with
  | Ok m => {| http_status := 200; http_headers := []; resp_body := body_of m |}
  | Err st => {| http_status := code st; http_headers := [("grpc-message", message st)];
                 resp_body := empty |}
  end.

Definition ex_read {Resp} `{!Message B Resp} (_ : GrpcConfig unit) (r : HttpResponse B) :
    result TonicStatus Resp :=
  if decide (("grpc-status", "12") ∈ http_headers r) then
    Err {| code := Code_Unimplemented; message := "" |}
  else match http_headers r with
       | [(_, msg)] => Err {| code := http_status r; message := msg |}
       | _ => ok_or {| code := 13; message := "invalid body" |} (decode (resp_body r))
       end.

Definition ex_tonic : Tonic := {|
  Body := B; empty_body := empty; CompressionEncoding := unit;
  server_unary S Req Resp _ _ g svc req := λ s r s',
    match decode (req_body req) with
    | Some m =>
        if encoded_len m <=? decode_limit g then ∃ a, svc m s a s' ∧ r = ex_respond g a
        else s' = s ∧ r = ex_respond g (Err {| code := Code_OutOfRange; message := "too large" |}
                                          : result TonicStatus Resp)
    | None => s' = s ∧ r = ex_respond g (Err {| code := 13; message := "invalid body" |}
                                           : result TonicStatus Resp)
    end;
  client_unary S Req Resp _ _ g svc p m := λ s a s',
    ∃ r, svc {| uri_path := p; req_body := body_of m |} s r s' ∧
         a = match r with Ok resp => ex_read g resp
             | Err e => Err {| code := 14; message := e |} end;
  respond Resp _ := ex_respond;
  read_answer Resp _ := ex_read;
  transport_status e := {| code := 14; message := e |} |}.

Lemma ex_tonic_laws : TonicLaws ex_tonic.
Proof.
  split.
  - intros S Req Resp ? ? g svc p m s r s' _ Hl. simpl in *. rewrite decode_body_of.
    destruct (Z.leb_spec (encoded_len m) (decode_limit g)); [reflexivity|lia].
  - intros S Req Resp ? ? g svc p m s r s' _ Hl. simpl in *. rewrite decode_body_of.
    destruct (Z.leb_spec (encoded_len m) (decode_limit g)); [lia|]. intros [-> ->].
    split; [done|].
    exists {| code := Code_OutOfRange; message := "too large" |}. done.
  - done.
  - intros Resp ? gs gc a _ _ _. destruct a as [m|[c msg]]; unfold read_answer, respond, ex_tonic, ex_read, ex_respond;
      cbn [http_headers http_status resp_body code message].
    + case_decide as H; [by apply elem_of_nil in H|]. by rewrite decode_body_of.
    + case_decide as H; [by apply list_elem_of_singleton in H|done].
  - intros Resp ? g r Hr. simpl. unfold ex_read. rewrite decide_True by done. by eexists.
Qed.
End example.

Inductive ExBody :=
  | BEmpty | BLoadRequest (m : LoadRequest) | BLoadResponse (m : LoadResponse)
  | BUnloadRequest (m : UnloadRequest) | BUnloadResponse (m : UnloadResponse)
  | BListRequest (m : ListRequest) | BListResponse (m : ListResponse)
  | BPullRequest (m : PullBytecodeRequest) | BPullResponse (m : PullBytecodeResponse)
  | BGetRequest (m : GetRequest) | BGetResponse (m : GetResponse).

Definition ex_messages : AgentMessages ExBody.
Proof.
  split.
  - by refine (Build_Message _ _ (λ m, Z.of_nat (String.length (lr_name m))) BLoadRequest
                 (λ b, match b with BLoadRequest m => Some m | _ => None end) _).
  - by refine (Build_Message _ _ (λ _, 0) BLoadResponse
                 (λ b, match b with BLoadResponse m => Some m | _ => None end) _).
  - by refine (Build_Message _ _ (λ _, 0) BUnloadRequest
                 (λ b, match b with BUnloadRequest m => Some m | _ => None end) _).
  - by refine (Build_Message _ _ (λ _, 0) BUnloadResponse
                 (λ b, match b with BUnloadResponse m => Some m | _ => None end) _).
  - by refine (Build_Message _ _ (λ _, 0) BListRequest
                 (λ b, match b with BListRequest m => Some m | _ => None end) _).
  - by refine (Build_Message _ _ (λ _, 0) BListResponse
                 (λ b, match b with BListResponse m => Some m | _ => None end) _).
  - by refine (Build_Message _ _ (λ _, 0) BPullRequest
                 (λ b, match b with BPullRequest m => Some m | _ => None end) _).
  - by refine (Build_Message _ _ (λ _, 0) BPullResponse
                 (λ b, match b with BPullResponse m => Some m | _ => None end) _).
  - by refine (Build_Message _ _ (λ _, 0) BGetRequest
                 (λ b, match b with BGetRequest m => Some m | _ => None end) _).
  - by refine (Build_Message _ _ (λ _, 0) BGetResponse
                 (λ b, match b with BGetResponse m => Some m | _ => None end) _).
Defined.

Definition ex_debug (_ : Error) : string := "error".

(** The agent of the examples, its server, and a client of it. *)
#[local] Instance ex_rpc : Tonic := ex_tonic BEmpty.
#[local] Instance ex_rpc_laws : TonicLaws ex_rpc := ex_tonic_laws BEmpty.
#[local] Instance ex_rpc_messages : AgentMessages Body := ex_messages.
Definition ex_agent : Agent (Sys Inner KMaps * list Handler) :=
  agent_service (HI := hm_iter_default) (Program0 := ex_program) (BR := bounded_broadcast 32) ex_debug.
Definition ex_server : AgentServer (Sys Inner KMaps * list Handler) := AgentServer_new ex_agent.
Definition ex_client : AgentClient (Sys Inner KMaps * list Handler) := AgentClient_new (connected ex_server).

Lemma client_calls_witness :
  client_list ex_client {| lsr_program_type := Some 1; lsr_match_metadata := ∅ |} (ex_new, [])
    (Ok {| results := [] |}) (ex_new, []).
Proof.
  destruct (client_calls_are_handler_calls ex_server ex_client) as (_ & _ & H & _);
    [split; reflexivity|split; reflexivity|reflexivity|].
  apply H; [split; vm_compute; discriminate| |].
  - intros a s' (r & _ & Ha). destruct r as [x|st]; simpl in Ha.
    + subst. split; vm_compute; discriminate.
    + destruct Ha as (ts & _ & ->). exact I.
  - exists (Ok {| results := [] |}). split; [|reflexivity]. apply list_alone. reflexivity.
Defined.

Lemma refused_calls_witness :
  2 < encoded_len ex_request ∧
  ∀ r s', server_call (server_max_decoding_message_size 2 ex_server)
            {| uri_path := "/agent.v1.agent/Load"; req_body := body_of ex_request |} (ex_new, []) r s' →
          s' = (ex_new, []).
Proof.
  split; [reflexivity|]. intros r s'.
  destruct (refused_calls_leave_agent (server_max_decoding_message_size 2 ex_server))
    as (H & _ & _); [split; reflexivity|].
  apply H. reflexivity.
Defined.
