(* ===== verification/Server.v ===== *)
(** * The agent's servers

    [agent/src/server/mod.rs], [agent/src/server/http.rs] and the listening part
    of [agent/src/server/rpc.rs]: start-up, the loops of the two listeners, the
    metrics handler and the shutdown handler.  A loop over the futures of the
    runtime is a function of the sequence of events that [select!] or [recv]
    hands it; [None] means that it is still waiting after them. *)
From S2P Require Import Prelude AgentApi Program ServiceMap Registry Collector ProgManager.
From stdpp Require Import base gmap strings list pretty.
From Stdlib Require Import ZArith Lia.

Local Open Scope Z_scope.

(** [constants::directories::SOCK_MODE], 0o0660 *)
Definition SOCK_MODE : Z := 432.

(** ** The Unix socket of the RPC server *)

(** The socket's path, and what the system answers. *)
Record Sock := { present : bool; bound : bool; mode : Z }.

Section rpc.
Context (remove_file : result Error unit).
Context (can_bind : result Error unit).

(** [UnixListener::bind] fails on a path that exists. *)
Definition bind_socket : M Sock Error unit := λ s,
  if present s then (Err (Msg "Address already in use"), s)
  else match can_bind with
       | Ok _ => (Ok (), {| present := true; bound := true; mode := mode s |})
       | Err e => (Err e, s)
       end.

Definition rpc_serve : M Sock Error unit :=
  exists_ ← gets present;
  (if exists_ : bool then
     lift remove_file;; modify (λ s, {| present := false; bound := bound s; mode := mode s |})
   else mret ());;
  bind_socket;;
  modify (λ s, {| present := present s; bound := bound s; mode := SOCK_MODE |}).
End rpc.

(** The future that ends the RPC server. *)
Fixpoint rpc_shutdown (evs : list (result string ShutdownSignal)) : option unit :=
  match evs with
  | [] => None
  | Ok All :: _ => Some ()
  | Err _ :: rest => rpc_shutdown rest
  | Ok (ProgramName _) :: rest => rpc_shutdown rest
  end.

(** The task that [serve] spawns: it ends when the server fails, which is logged,
    or when that future is ready. *)
Definition rpc_task (server_error : option string) (evs : list (result string ShutdownSignal)) :
    option unit :=
  match server_error with Some _ => Some () | None => rpc_shutdown evs end.

(** ** The metrics server *)

(** What the [select!] of [start_metrics_server] hands out: a received signal,
    an accepted connection, or an error of the listening socket.  A receive
    error does not match the pattern of its branch and is not handed out. *)
Inductive HttpEvent := Signal (s : ShutdownSignal) | Accepted | AcceptError (e : Error).

Definition accepted (ev : HttpEvent) : bool := match ev with Accepted => true | _ => false end.

(** The number of connections spawned, and how the server ended. *)
Fixpoint metrics_loop (evs : list HttpEvent) (spawned : nat) : nat * option (result Error unit) :=
  match evs with
  | [] => (spawned, None)
  | Signal All :: _ => (spawned, Some (Ok ()))
  | Signal (ProgramName _) :: rest => metrics_loop rest spawned
  | Accepted :: rest => metrics_loop rest (S spawned)
  | AcceptError e :: _ => (spawned, Some (Err e))
  end.

Definition start_metrics_server (bind : result Error unit) (evs : list HttpEvent) :
    nat * option (result Error unit) :=
  match bind with
  | Err e => (0%nat, Some (Err e))
  | Ok _ => metrics_loop evs 0
  end.

(** The timeouts of a connection, in seconds. *)
Definition connection_timeouts : list Z := [5; 2].

(** The task of a connection: for each timeout either the connection completes
    first ([true]) or the time is up, which asks for a graceful shutdown.  The
    result: whether it completed, the shutdowns asked for and the seconds it was
    given. *)
Fixpoint serve_connection (timeouts : list Z) (completes : list bool) (asked : nat) (secs : Z) :
    bool * nat * Z :=
  match timeouts, completes with
  | d :: _, true :: _ => (true, asked, secs + d)
  | d :: rest, false :: more => serve_connection rest more (S asked) (secs + d)
  | _, _ => (false, asked, secs)
  end.

Record Response := { status : Z; content_type : option string; body : string }.

(** [encode(&mut buf, &registry)] of the prometheus client is the argument. *)
Definition request_handler (encoded : result unit string) : Response :=
  match encoded with
  | Ok buf => {| status := 200;
                 content_type := Some "application/openmetrics-text; version=1.0.0; charset=utf-8";
                 body := buf |}
  | Err _ => {| status := 500; content_type := None; body := "" |}
  end.

(** [http::serve]: only a bad address is an error of the start-up; a failing
    bind panics the spawned task. *)
Definition http_serve (parsed : result Error unit) (bind : result Error unit)
    (evs : list HttpEvent) : result Error (option (result Failure unit)) :=
  _ ← parsed;
  Ok (match (start_metrics_server bind evs).2 with
      | None => None
      | Some (Ok _) => Some (Ok ())
      | Some (Err _) => Some (Err (Panic "called `Result::unwrap()` on an `Err` value"))
      end).

(** ** [fetch_url], the client of the metrics *)

Record Uri := { u_host : option string; u_port : option Z; u_authority : option string; u_path : string }.
Record HttpRequest := { hr_uri : string; hr_host : string }.

(** The connection, its HTTP handshake, the check of the request and its answer. *)
Definition fetch_url {Conn} (connect : string → result Error Conn) (handshake : Conn → result Error unit)
    (valid : HttpRequest → result Error unit) (send_request : Conn → HttpRequest → result Error Response)
    (url : Uri) : result Failure Response :=
  host ← ok_or (Panic "uri has no host") (u_host url);
  let addr := host +:+ ":" +:+ pretty (default 80 (u_port url)) in
  stream ← map_err Fail (connect addr);
  map_err Fail (handshake stream) ≫= λ _,
  authority ← ok_or (Panic "called `Option::unwrap()` on a `None` value") (u_authority url);
  let req := {| hr_uri := u_path url; hr_host := authority |} in
  map_err Fail (valid req) ≫= λ _,
  map_err Fail (send_request stream req).

(** ** Shutdown and the whole server *)

Section shutdown.
Context {P W : Type} `{!Program P W}.

(** After the first of SIGINT and SIGTERM: [shutdown_tx.send(All).unwrap()]. *)
Definition shutdown_handler : M (Sys P W) Failure unit := λ s,
  match send All s with
  | (Ok _, s') => (Ok (), s')
  | (Err _, s') => (Err (Panic "called `Result::unwrap()` on an `Err` value"), s')
  end.
End shutdown.

(** A join error of a listener is printed. *)
Definition join_listeners (ends : list (result Failure unit)) : unit := foldl (λ _ _, ()) () ends.

(** [server::serve]: what the parts of the start-up return, in order, then the
    joined ends of the listeners and of the shutdown handler. *)
Definition serve (channel manager rpc http : result Error unit)
    (listener_ends : list (result Failure unit)) (shutdown_end : result Failure unit) :
    result Failure unit :=
  match channel with
  | Err _ => Err (Panic "called `Result::unwrap()` on an `Err` value")
  | Ok _ =>
      _ ← map_err Fail manager;
      _ ← map_err Fail rpc;
      _ ← map_err Fail http;
      let _ := join_listeners listener_ends in
      match shutdown_end with
      | Ok _ => Ok ()
      | Err _ => Err (Fail (Msg "JoinError"))
      end
  end.

(** ** Properties *)

(** What the test of the metrics server checks: [fetch_url] of any path of the server
    gives the encoded metrics with status 200, on port 80 when the address has
    none; an address without a host panics before anything is sent. *)
Lemma fetch_url_metrics {Conn} connect handshake valid send_request (c : Conn) url host authority text :
  (u_host url = None →
   fetch_url connect handshake valid send_request url = Err (Panic "uri has no host")) ∧
  (u_host url = Some host → u_authority url = Some authority →
   connect (host +:+ ":" +:+ pretty (default 80 (u_port url))) = Ok c → handshake c = Ok () →
   valid {| hr_uri := u_path url; hr_host := authority |} = Ok () →
   (∀ req, send_request c req = Ok (request_handler (Ok text))) →
   ∃ r, fetch_url connect handshake valid send_request url = Ok r ∧ status r = 200 ∧ body r = text ∧
     content_type r = Some "application/openmetrics-text; version=1.0.0; charset=utf-8").
Proof.
  unfold fetch_url. split; [by intros ->|]. intros -> -> Hc Hh Hv Hs. cbn [ok_or mbind result_bind].
  rewrite Hc. cbn [map_err mbind result_bind]. rewrite Hh. cbn [map_err mbind result_bind].
  rewrite Hv. cbn [map_err mbind result_bind]. rewrite Hs. by eexists.
Qed.

Lemma rpc_shutdown_spec evs : rpc_shutdown evs = Some () ↔ Ok All ∈ evs.
Proof.
  induction evs as [|[[|n]|e] evs IH]; simpl.
  - split; [done|]. intros H. by apply not_elem_of_nil in H.
  - split; [constructor|done].
  - rewrite IH. split; [by constructor|]. intros [?|?]%elem_of_cons; done.
  - rewrite IH. split; [by constructor|]. intros [?|?]%elem_of_cons; done.
Qed.

(** The RPC server stays up until it fails or is told to stop: signals for single
    programs and receive errors do not end it. *)
Lemma rpc_task_ends server_error evs :
  rpc_task server_error evs = Some () ↔ is_Some server_error ∨ Ok All ∈ evs.
Proof.
  unfold rpc_task. destruct server_error as [e|]; [split; [eauto|done]|].
  rewrite rpc_shutdown_spec. split; [auto|]. by intros [[? [=]]|].
Qed.

Lemma metrics_loop_ok evs n m :
  metrics_loop evs n = (m, Some (Ok ())) ↔
  ∃ pre rest, evs = pre ++ Signal All :: rest ∧
    Forall (λ ev, ev ≠ Signal All ∧ ∀ e, ev ≠ AcceptError e) pre ∧
    m = (n + length (filter (λ ev, accepted ev = true) pre))%nat.
Proof.
  revert n. induction evs as [|ev evs IH]; intros n; cbn [metrics_loop].
  { split; [done|]. intros ([] & ? & ? & _); done. }
  destruct ev as [[|name]| |e].
  - split.
    + intros [= <-]. exists [], evs. split_and!; [done|constructor|simpl; lia].
    + intros (pre & rest & Heq & Hpre & ->). destruct pre as [|ev pre]; simpl in *.
      * do 2 f_equal. lia.
      * apply Forall_cons in Hpre as [[Hne _] _]. simplify_eq.
  - rewrite IH. split.
    + intros (pre & rest & -> & Hpre & ->). exists (Signal (ProgramName name) :: pre), rest.
      split_and!; [done|by constructor|]. done.
    + intros (pre & rest & Heq & Hpre & ->). destruct pre as [|ev pre]; simplify_eq/=.
      apply Forall_cons in Hpre as [_ Hpre]. by exists pre, rest.
  - rewrite IH. split.
    + intros (pre & rest & -> & Hpre & ->). exists (Accepted :: pre), rest.
      split_and!; [done|by constructor|]. rewrite filter_cons_True by done. simpl. lia.
    + intros (pre & rest & Heq & Hpre & ->). destruct pre as [|ev pre]; simplify_eq/=.
      apply Forall_cons in Hpre as [_ Hpre]. exists pre, rest. split_and!; [done..|lia].
  - split; [done|]. intros (pre & rest & Heq & Hpre & ->). destruct pre as [|ev pre]; simplify_eq/=.
    apply Forall_cons in Hpre as [[_ Hne] _]. by destruct (Hne e).
Qed.

(** A signal for one program never stops a listener: the RPC server stops
    exactly when the signal for all is received, whatever errors and other
    signals come before it, and the metrics server ends well exactly when that
    signal comes before any error of its socket, having served every connection
    accepted until then. *)
Lemma listeners_stop_on_all :
  (∀ evs, rpc_shutdown evs = Some () ↔ Ok All ∈ evs) ∧
  (∀ evs n, start_metrics_server (Ok ()) evs = (n, Some (Ok ())) ↔
     ∃ pre rest, evs = pre ++ Signal All :: rest ∧
       Forall (λ ev, ev ≠ Signal All ∧ ∀ e, ev ≠ AcceptError e) pre ∧
       n = length (filter (λ ev, accepted ev = true) pre)).
Proof.
  split; [apply rpc_shutdown_spec|]. intros evs n. unfold start_metrics_server.
  rewrite metrics_loop_ok. done.
Qed.

Lemma serve_connection_bound ts cs asked secs :
  Forall (λ d, 0 ≤ d) ts →
  let '(done_, asked', secs') := serve_connection ts cs asked secs in
  (asked ≤ asked' ≤ asked + length ts)%nat ∧ secs ≤ secs' ≤ secs + foldr Z.add 0 ts.
Proof.
  intros Hts. revert cs asked secs. induction Hts as [|d ts Hd Hts IH]; intros cs asked secs; simpl.
  { lia. }
  assert (0 ≤ foldr Z.add 0 ts) by (clear IH; induction Hts; simpl; lia).
  destruct cs as [|[] cs]; simpl; [lia|lia|].
  specialize (IH cs (S asked) (secs + d)). destruct (serve_connection _ _ _ _) as [[? ?] ?]. lia.
Qed.

(** A metrics connection is served for at most 7 seconds and asked to shut
    down at most twice, whatever it does. *)
Lemma connection_bounded cs :
  let '(_, asked, secs) := serve_connection connection_timeouts cs 0 0 in
  (asked ≤ 2)%nat ∧ 0 ≤ secs ≤ 7.
Proof.
  pose proof (serve_connection_bound connection_timeouts cs 0 0) as H.
  destruct (serve_connection _ _ _ _) as [[? ?] ?]. simpl in H.
  destruct H as [? ?]; [repeat constructor; lia|]. lia.
Qed.

(** A stale socket left at the path does not stop the agent from listening:
    when it can be removed and the path is usable, the server ends up bound to
    the path with mode 0660; a failed removal or bind is returned. *)
Lemma rpc_serve_rebinds remove_file can_bind s :
  match rpc_serve remove_file can_bind s with
  | (Ok _, s') => s' = {| present := true; bound := true; mode := SOCK_MODE |} ∧
      can_bind = Ok () ∧ (present s = true → remove_file = Ok ())
  | (Err e, _) => (present s = true ∧ remove_file = Err e) ∨ can_bind = Err e
  end.
Proof.
  unfold rpc_serve, bind_socket, gets, modify, lift, mbind, M_bind, mret, M_ret.
  destruct (present s) eqn:Hp.
  - destruct remove_file as [[]|e]; [|by left]. simpl. destruct can_bind as [[]|e]; [done|by right].
  - rewrite Hp. destruct can_bind as [[]|e]; [done|by right].
Qed.

(** While a listener is up, the shutdown handler does not panic, and the
    signal for all reaches the receiver of every live program task. *)
Lemma shutdown_reaches_tasks {P W} (s : Sys P W) :
  (0 < listeners s)%nat →
  ∃ s', shutdown_handler s = (Ok (), s') ∧
    ∀ t T, tasks s !! t = Some T → task_live T = true →
      ∃ T', tasks s' !! t = Some T' ∧ t_rx T' = t_rx T ++ [All] ∧ t_state T' = t_state T.
Proof.
  intros Hl. unfold shutdown_handler, send, receivers.
  rewrite decide_False by lia. eexists. split; [reflexivity|]. intros t T HT Hlive.
  exists (push_signal All T). simpl. rewrite lookup_fmap, HT.
  split; [done|]. unfold push_signal. by rewrite Hlive.
Qed.

(** ** Witness *)

Lemma shutdown_reaches_tasks_witness :
  ∃ s', shutdown_handler ex_loaded = (Ok (), s').
Proof.
  destruct (shutdown_reaches_tasks ex_loaded) as (s' & H & _).
  - vm_compute. lia.
  - exists s'. exact H.
Defined.
