(* ===== verification/Cli.v ===== *)
(** * The command line client

    [agent-cli/src]: the parser of key-value arguments, the requests each
    command builds, and the tables printed for the replies.  A table of the
    comfy-table crate is its header and its rows; the agent's client is a
    parameter, a function from requests to replies. *)
From S2P Require Import Prelude RustStd AgentApi Program ServiceMap Registry Collector ProgManager AgentService.
From stdpp Require Import base gmap strings list.
From Stdlib Require Import ZArith Lia Ascii.

Local Open Scope Z_scope.

(** ** [utils.rs] *)

Inductive ErrorKind := InvalidInput.

Definition parse_key_val (s : string) : result ErrorKind (string * string) :=
  pos ← ok_or InvalidInput (str_find "="%char s);
  Ok (str_take pos s, str_drop (pos + 1) s).

(** ** [table.rs] *)

Record ProgTable := { header : list string; rows : list (list string) }.

Definition add_row (row : list string) (t : ProgTable) : ProgTable :=
  {| header := header t; rows := rows t ++ [row] |}.

Definition state_label (st : ProgramState) : string :=
  match st with
  | Uninitialized => "Uninitialized"
  | Initialized => "Initialized"
  | Running => "Running"
  | Failed => "Failed"
  | Stopped => "Stopped"
  end.

(** The rows for a map: the first one carries the label. *)
Fixpoint pair_rows (label : string) (first : bool) (data : list string) (t : ProgTable) : ProgTable :=
  match data with
  | [] => t
  | d :: rest => pair_rows label false rest (add_row [if first then label else ""; d] t)
  end.

Section table.
Context `{HI : HashIter}.

(** The rows after the type: state, maps and metadata. *)
Definition state_map_rows (info : ProgramInfo) (t : ProgTable) : result Error ProgTable :=
  st ← map_err FromParse (ProgramState_try_from (pi_state info));
  let t := add_row ["State:"; state_label st] t in
  let t := if decide (pi_ebpf_maps info = ∅) then add_row ["Maps:"; "None"] t
           else pair_rows "eBPF Maps:" true
                  ((λ p, "map_name=" +:+ p.1 +:+ ", prog_id=" +:+ display_u p.2)
                     <$> hm_iter (pi_ebpf_maps info)) t in
  Ok (if decide (pi_metadata info = ∅) then add_row ["Metadata:"; "None"] t
      else pair_rows "Metadata:" true
             ((λ p, p.1 +:+ "=" +:+ p.2) <$> hm_iter (pi_metadata info)) t).

Definition new_program (r : option ProgramInfo) : result Error ProgTable :=
  let table := {| header := ["eBPFConductor State"]; rows := [] |} in
  match r with
  | None => Ok (add_row ["NONE"] table)
  | Some info =>
      let table := if decide (pi_name info = "") then add_row ["Name:"; "None"] table
                   else add_row ["Name:"; pi_name info] table in
      ty ← map_err FromParse (ProgramType_try_from (pi_program_type info));
      match ty with
      | Builtin => state_map_rows info (add_row ["Type:"; "Builtin"] table)
      | Wasm =>
          let table := add_row ["Type:"; "Wasm"] table in
          match pi_bytecode info with
          | None => Ok (add_row ["NONE"] table)
          | Some b =>
              match location b with
              | Some (Image i) =>
                  let table := add_row ["Image URL:"; url i] table in
                  policy ← map_err FromParse (ImagePullPolicy_try_from_i32 (image_pull_policy i));
                  state_map_rows info (add_row ["Pull Policy:"; ImagePullPolicy_fmt policy] table)
              | Some (File p) => state_map_rows info (add_row ["Path:"; p] table)
              | None => Ok (add_row ["NONE"] table)
              end
          end
      end
  end.
End table.

Definition new_list : ProgTable := {| header := ["Program Name"; "Type"; "State"]; rows := [] |}.

Definition add_row_list (name type_ state : string) (t : ProgTable) : ProgTable :=
  add_row [name; type_; state] t.

Definition type_label (ty : ProgramType) : string :=
  match ty with Builtin => "Builtin" | Wasm => "Wasm" end.

Definition add_response_prog (r : ListResult) (t : ProgTable) : result Error ProgTable :=
  match lsres_info r with
  | None => Ok (add_row ["NONE"] t)
  | Some info =>
      ty ← map_err FromParse (ProgramType_try_from (pi_program_type info));
      st ← map_err FromParse (ProgramState_try_from (pi_state info));
      Ok (add_row_list (pi_name info) (type_label ty) (state_label st) t)
  end.

(** ** The commands *)

Definition pairs_map (l : option (list (string * string))) : gmap string string :=
  collect_map (default [] l).

Record LoadBuiltinArgs := {
  lb_name : string;
  lb_metadata : option (list (string * string));
  lb_ebpf_maps : option (list (string * string)) }.

Record PullBytecodeArgs := {
  image_url : string; registry_auth : option string; pull_policy : string }.
Record LoadWasmArgs := {
  pull_args : PullBytecodeArgs;
  lw_name : string;
  lw_metadata : option (list (string * string));
  lw_ebpf_maps : option (list (string * string)) }.

Inductive LoadCommand := LoadBuiltin (a : LoadBuiltinArgs) | LoadWasm (a : LoadWasmArgs).
Record UnloadCommand := { uc_name : string }.
Record ListCommand := {
  lc_program_type : option Z; lc_match_metadata : option (list (string * string)) }.
Record GetCommand := { gc_name : string }.
Inductive SubCommands :=
  | CLoad (l : LoadCommand) | CUnload (u : UnloadCommand) | CList (l : ListCommand)
  | CGet (g : GetCommand).

(** The agent as the client sees it. *)
Record AgentClient := {
  ac_load : LoadRequest → result Error LoadResponse;
  ac_unload : UnloadRequest → result Error UnloadResponse;
  ac_list : ListRequest → result Error ListResponse;
  ac_get : GetRequest → result Error GetResponse }.

Definition load_builtin_request (args : LoadBuiltinArgs) : LoadRequest := {|
  lr_bytecode := None; lr_name := lb_name args; lr_program_type := 0;
  lr_metadata := pairs_map (lb_metadata args); lr_ebpf_maps := pairs_map (lb_ebpf_maps args) |}.

Definition list_request (c : ListCommand) : ListRequest := {|
  lsr_program_type := lc_program_type c; lsr_match_metadata := pairs_map (lc_match_metadata c) |}.

Section commands.
Context `{HI : HashIter} (client : AgentClient).

Definition execute_load_builtin (args : LoadBuiltinArgs) : result Failure ProgTable :=
  map_err Fail (response ← ac_load client (load_builtin_request args);
                new_program (lres_info response)).

(** [todo!()] *)
Definition execute_load_wasm (_ : LoadWasmArgs) : result Failure ProgTable :=
  Err (Panic "not yet implemented").

Definition load_execute (c : LoadCommand) : result Failure ProgTable :=
  match c with
  | LoadBuiltin l => execute_load_builtin l
  | LoadWasm l => execute_load_wasm l
  end.

Definition get_execute (c : GetCommand) : result Failure ProgTable :=
  map_err Fail (response ← ac_get client {| gr_name := gc_name c |};
                new_program (gres_info response)).

Fixpoint list_rows (rs : list ListResult) (t : ProgTable) : result Error ProgTable :=
  match rs with
  | [] => Ok t
  | r :: rest => t' ← add_response_prog r t; list_rows rest t'
  end.

Definition list_execute (c : ListCommand) : result Failure ProgTable :=
  map_err Fail (response ← ac_list client (list_request c); list_rows (results response) new_list).

Definition unload_execute (c : UnloadCommand) : result Failure unit :=
  map_err Fail (_ ← ac_unload client {| ur_name := uc_name c |}; Ok ()).

(** The table that is printed, if any. *)
Definition execute (c : SubCommands) : result Failure (option ProgTable) :=
  match c with
  | CLoad l => Some <$> load_execute l
  | CUnload u => (λ _, None) <$> unload_execute u
  | CList l => Some <$> list_execute l
  | CGet g => Some <$> get_execute g
  end.
End commands.

(** ** Lemmas *)

Lemma rows_add_row row t : rows (add_row row t) = rows t ++ [row].
Proof. done. Qed.

Lemma pair_rows_rows label first data t :
  ∃ new, rows (pair_rows label first data t) = rows t ++ new ∧ length new = length data ∧
    Forall2 (λ d r, ∃ lab, r = [lab; d]) data new.
Proof.
  revert first t. induction data as [|d data IH]; intros first t; simpl.
  { exists []. by rewrite app_nil_r. }
  destruct (IH false (add_row [if first then label else ""; d] t)) as (new & Hr & Hl & Hf).
  exists ([if first then label else ""; d] :: new). split_and!.
  - rewrite Hr, rows_add_row, <- app_assoc. done.
  - simpl. lia.
  - constructor; eauto.
Qed.

(** What was in a table stays in it. *)
Lemma state_map_rows_ok `{HI : HashIter} info t st :
  ProgramState_try_from (pi_state info) = Ok st →
  ∃ t' new, state_map_rows info t = Ok t' ∧
    rows t' = rows t ++ ["State:"; state_label st] :: new ∧
    (∀ k v, pi_metadata info !! k = Some v → ∃ lab, [lab; k +:+ "=" +:+ v] ∈ new).
Proof.
  intros Hst. unfold state_map_rows. rewrite Hst. cbn [map_err mbind result_bind].
  set (t1 := add_row ["State:"; state_label st] t).
  set (t2 := if decide (pi_ebpf_maps info = ∅) then _ else _).
  assert (∃ new, rows t2 = rows t1 ++ new) as [new2 Ht2].
  { unfold t2. case_decide; [by eexists|].
    destruct (pair_rows_rows "eBPF Maps:" true ((λ p, "map_name=" +:+ p.1 +:+ ", prog_id=" +:+ display_u p.2)
      <$> hm_iter (pi_ebpf_maps info)) t1) as (new & -> & _). by exists new. }
  case_decide as Hmd.
  - eexists _, _. split; [done|]. rewrite rows_add_row, Ht2. unfold t1. rewrite rows_add_row.
    split; [rewrite <- !app_assoc; done|]. rewrite Hmd. intros k v. by rewrite lookup_empty.
  - destruct (pair_rows_rows "Metadata:" true ((λ p, p.1 +:+ "=" +:+ p.2) <$> hm_iter (pi_metadata info)) t2)
      as (new & Hr & _ & Hf). eexists _, (new2 ++ new). split; [done|].
    rewrite Hr, Ht2. unfold t1. rewrite rows_add_row. split; [by rewrite <- !app_assoc|].
    intros k v Hkv. apply elem_of_hm_iter in Hkv.
    destruct (list_elem_of_lookup_1 _ _ Hkv) as [i Hi].
    destruct (Forall2_lookup_l _ _ _ i (k +:+ "=" +:+ v) Hf) as (r & Hri & lab & ->).
    { by rewrite list_lookup_fmap, Hi. }
    exists lab. apply elem_of_app. right. by eapply list_elem_of_lookup_2.
Qed.

(** ** Properties *)

(** A key-value argument is split at its first equals sign: parsing inverts
    joining whenever the key has none, the value may contain more of them, and
    an argument is refused exactly when it has none at all. *)
Lemma parse_key_val_roundtrip :
  (∀ k v, str_elem "=" k = false → parse_key_val (k +:+ "=" +:+ v) = Ok (k, v)) ∧
  (∀ s k v, parse_key_val s = Ok (k, v) → s = k +:+ "=" +:+ v ∧ str_elem "=" k = false) ∧
  (∀ s, parse_key_val s = Err InvalidInput ↔ str_elem "=" s = false).
Proof.
  unfold parse_key_val. split_and!.
  - intros k v Hk. change (k +:+ "=" +:+ v) with (k +:+ String "="%char v).
    rewrite str_find_app by done. simpl. rewrite str_take_app.
    by rewrite Nat.add_1_r, str_drop_app_S.
  - intros s k v. destruct (str_find "=" s) as [n|] eqn:Hf; simpl; [|done].
    intros [= <- <-]. rewrite Nat.add_1_r. destruct (str_find_split _ _ _ Hf) as [Hs Hel].
    split; [exact Hs|done].
  - intros s. rewrite <- str_find_none. destruct (str_find "=" s); simpl; split; done.
Qed.

(** A described built-in program is always printed, with its name, its state
    and every metadata pair; a description whose state number is not one of the
    five is an error. *)
Lemma new_program_shows `{HI : HashIter} info :
  pi_program_type info = 0 →
  match ProgramState_try_from (pi_state info) with
  | Ok st => ∃ t, new_program (Some info) = Ok t ∧
      (pi_name info ≠ "" → ["Name:"; pi_name info] ∈ rows t) ∧
      ["Type:"; "Builtin"] ∈ rows t ∧ ["State:"; state_label st] ∈ rows t ∧
      (∀ k v, pi_metadata info !! k = Some v → ∃ lab, [lab; k +:+ "=" +:+ v] ∈ rows t)
  | Err e => new_program (Some info) = Err (FromParse e)
  end.
Proof.
  intros Hty. unfold new_program. rewrite Hty. simpl.
  set (t0 := add_row ["Type:"; "Builtin"] _).
  destruct (ProgramState_try_from (pi_state info)) as [st|e] eqn:Hst.
  2: { unfold state_map_rows. by rewrite Hst. }
  destruct (state_map_rows_ok info t0 st Hst) as (t & new & Ht & Hr & Hmd).
  exists t. rewrite Hr. split_and!; [done| | | |].
  - intros Hn. unfold t0. rewrite decide_False by done. apply elem_of_app. left.
    rewrite !rows_add_row. set_solver.
  - unfold t0. rewrite rows_add_row. set_solver.
  - set_solver.
  - intros k v Hkv. destruct (Hmd _ _ Hkv) as [lab Hin]. exists lab. set_solver.
Qed.

Lemma list_rows_spec rs t :
  match list_rows rs t with
  | Ok t' => header t' = header t ∧ ∃ new, rows t' = rows t ++ new ∧
      Forall2 (λ r row, match lsres_info r with
                        | None => row = ["NONE"]
                        | Some info => ∃ ty st, ProgramType_try_from (pi_program_type info) = Ok ty ∧
                            ProgramState_try_from (pi_state info) = Ok st ∧
                            row = [pi_name info; type_label ty; state_label st]
                        end) rs new
  | Err _ => ∃ r info, r ∈ rs ∧ lsres_info r = Some info ∧
      (is_ok (ProgramType_try_from (pi_program_type info)) = false ∨
       is_ok (ProgramState_try_from (pi_state info)) = false)
  end.
Proof.
  revert t. induction rs as [|r rs IH]; intros t; cbn [list_rows].
  { split; [done|]. exists []. by rewrite app_nil_r. }
  unfold add_response_prog, mbind, result_bind.
  destruct (lsres_info r) as [info|] eqn:Hi.
  - destruct (ProgramType_try_from (pi_program_type info)) as [ty|e] eqn:Hty; simpl.
    2: { exists r, info. rewrite Hty. split_and!; [constructor|done|by left]. }
    destruct (ProgramState_try_from (pi_state info)) as [st|e] eqn:Hst; simpl.
    2: { exists r, info. rewrite Hst. split_and!; [constructor|done|by right]. }
    specialize (IH (add_row_list (pi_name info) (type_label ty) (state_label st) t)).
    destruct (list_rows rs _) as [t'|e].
    + destruct IH as (Hh & new & Hr & Hf). split; [done|].
      exists ([pi_name info; type_label ty; state_label st] :: new).
      split; [rewrite Hr; unfold add_row_list; by rewrite rows_add_row, <- app_assoc|].
      constructor; [|done]. rewrite Hi. by exists ty, st.
    + destruct IH as (r' & info' & Hin & ?). exists r', info'. split; [by constructor|done].
  - specialize (IH (add_row ["NONE"] t)). destruct (list_rows rs _) as [t'|e].
    + destruct IH as (Hh & new & Hr & Hf). split; [done|]. exists (["NONE"] :: new).
      split; [by rewrite Hr, rows_add_row, <- app_assoc|]. constructor; [by rewrite Hi|done].
    + destruct IH as (r' & info' & Hin & ?). exists r', info'. split; [by constructor|done].
Qed.

(** [list] against the agent's service prints one row per registered program
    that matches the command's type and metadata, with the program's name, type
    and current state. *)
Lemma list_shows_programs `{HI : HashIter} {P W : Type} `{!Program P W} `{!ProgramLaws P W}
    (s : Sys P W) (client : AgentClient) (c : ListCommand) (reply : ListResponse) :
  rpc_list (list_request c) s = (Ok reply, s) → ac_list client (list_request c) = Ok reply →
  ∃ t, list_execute client c = Ok t ∧
    Forall2 (λ l row, ∃ p, heap s !! l = Some p ∧
               row = [get_name p; type_label (get_type p); state_label (get_state p)])
      (list_programs (heap s) (registry_manager (pm s))
         (ListFilter_new (lc_program_type c) (pairs_map (lc_match_metadata c))))
      (rows t).
Proof.
  intros Hrpc Hc. pose proof (rpc_list_spec (list_request c) s) as Hl. simpl in Hl.
  rewrite Hrpc in Hl. destruct Hl as [_ Hl].
  unfold list_execute. rewrite Hc. cbn [mbind result_bind].
  pose proof (list_rows_spec (results reply) new_list) as Hr.
  assert (∀ r info, r ∈ results reply → lsres_info r = Some info →
          ∃ p, get_program_info p = Ok info) as Hinfo.
  { intros r info Hin Hi. destruct (list_elem_of_lookup_1 _ _ Hin) as [i Hri].
    destruct (Forall2_lookup_r _ _ _ i r Hl Hri) as (l & _ & p & info' & _ & Hp & Hi').
    exists p. congruence. }
  destruct (list_rows (results reply) new_list) as [t|e].
  - destruct Hr as (_ & new & Hrows & Hf). exists t. split; [done|]. rewrite Hrows. simpl.
    clear Hc Hrpc Hrows Hinfo. revert new Hf. induction Hl as [|l r ls rs Hp Hl IH]; intros new Hf;
      inversion Hf as [|? row ? new' Hrow Hf']; subst; constructor; [|by apply IH].
    destruct Hp as (p & info & Hp & Hi & Hri). exists p. split; [done|]. rewrite Hri in Hrow.
    destruct Hrow as (ty & st & Hty & Hst & ->).
    destruct (program_info_ok _ _ Hi) as (-> & _ & Hty' & Hst').
    apply ProgramType_decode in Hty'. apply ProgramState_decode in Hst'. congruence.
  - exfalso. destruct Hr as (r & info & Hin & Hi & Hbad).
    destruct (Hinfo _ _ Hin Hi) as [p Hp]. destruct (program_info_ok _ _ Hp) as (_ & _ & Hty' & Hst').
    apply ProgramType_decode in Hty'. apply ProgramState_decode in Hst'.
    rewrite Hty', Hst' in Hbad. by destruct Hbad.
Qed.

(** ** Witnesses *)

Lemma parse_key_val_witness : parse_key_val "owner=a=b" = Ok ("owner", "a=b").
Proof. destruct parse_key_val_roundtrip as [H _]. exact (H "owner" "a=b" eq_refl). Defined.

Definition ex_info : ProgramInfo := {|
  pi_name := "service_map"; pi_program_type := 0; pi_state := 2; pi_bytecode := None;
  pi_ebpf_maps := {[ "CONNECTIONS" := 12 ]}; pi_metadata := {[ "owner" := "acme" ]} |}.

Lemma new_program_shows_witness :
  ∃ t, new_program (HI := hm_iter_default) (Some ex_info) = Ok t ∧ ["State:"; "Running"] ∈ rows t.
Proof.
  destruct (new_program_shows (HI := hm_iter_default) ex_info eq_refl) as (t & Ht & _ & _ & Hs & _).
  exists t. split; [exact Ht|exact Hs].
Defined.

Definition ex_list : ListCommand := {| lc_program_type := Some 0; lc_match_metadata := None |}.
Definition ex_list_reply : ListResponse := {| results :=
  [{| lsres_info := Some {| pi_name := "service_map"; pi_program_type := 0; pi_state := 0;
        pi_bytecode := None; pi_ebpf_maps := ∅; pi_metadata := ∅ |} |}] |}.
Definition ex_client : AgentClient := {|
  ac_load := λ _, Err (Msg "refused"); ac_unload := λ _, Ok Build_UnloadResponse;
  ac_list := λ _, Ok ex_list_reply; ac_get := λ _, Ok {| gres_info := None |} |}.

Lemma list_shows_programs_witness : ∃ t, list_execute ex_client ex_list = Ok t.
Proof.
  destruct (list_shows_programs (HI := hm_iter_default) (Program0 := ex_program)
              (ProgramLaws0 := ex_program_laws) ex_new ex_client ex_list ex_list_reply)
    as (t & Ht & _).
  - reflexivity.
  - reflexivity.
  - exists t. exact Ht.
Defined.
