(* ===== verification/CliAgent.v ===== *)
(** * The command line client in front of a running agent

    [agent-cli/src/args.rs] and the [execute] methods of the commands, over the
    generated client: a command connects to the agent's socket, sends one request
    through the stubs of [Rpc], waits for the answer while the agent goes on, and
    prints a table.  The theorem says what is printed in terms of the states of the
    agent during the call. *)
From S2P Require Import Prelude RustStd AgentApi Program ServiceMap Registry Collector ProgManager ManagerConcurrent AgentService AgentAsync Rpc Cli.
From stdpp Require Import base gmap strings list relations.
From Stdlib Require Import ZArith Lia.

Local Open Scope Z_scope.

(** ** The commands over the stubs *)

(** What ends a command without a table: the status of the call, an answer that
    cannot be shown, or a panic. *)
Inductive CliError :=
  | FromStatus (st : TonicStatus)
  | FromTable (e : Error)
  | CliPanic (why : string).

Definition of_failure (f : Failure) : CliError :=
  match f with Fail e => FromTable e | Panic why => CliPanic why end.

Section cli.
Context `{HI : HashIter} `{T : Tonic} `{AM : !AgentMessages Body} {S : Type}.

(** [table.print()] is the result of a command. *)
Definition run_load_builtin (c : Rpc.AgentClient S) (args : LoadBuiltinArgs) : Async S CliError ProgTable :=
  response ← async_map_err FromStatus (client_load c (load_builtin_request args));
  async_lift (map_err FromTable (new_program (lres_info response))).

Definition run_load_wasm (_ : Rpc.AgentClient S) (args : LoadWasmArgs) : Async S CliError ProgTable :=
  async_lift (Err (CliPanic "not yet implemented")).

Definition run_load (c : Rpc.AgentClient S) (l : LoadCommand) : Async S CliError ProgTable :=
  match l with
  | LoadBuiltin l => run_load_builtin c l
  | LoadWasm l => run_load_wasm c l
  end.

Definition run_unload (c : Rpc.AgentClient S) (u : UnloadCommand) : Async S CliError unit :=
  _ ← async_map_err FromStatus (client_unload c {| ur_name := uc_name u |});
  mret ().

Definition run_list (c : Rpc.AgentClient S) (l : ListCommand) : Async S CliError ProgTable :=
  response ← async_map_err FromStatus (client_list c (list_request l));
  async_lift (map_err FromTable (list_rows (results response) new_list)).

Definition run_get (c : Rpc.AgentClient S) (g : GetCommand) : Async S CliError ProgTable :=
  response ← async_map_err FromStatus (client_get c {| gr_name := gc_name g |});
  async_lift (map_err FromTable (new_program (gres_info response))).

Definition async_map {E A B} (f : A → B) (m : Async S E A) : Async S E B := a ← m; mret (f a).

(** [AgentCli::execute]: the table that is printed, if any. *)
Definition AgentCli_execute (try_from : string → result string unit) (connect : string → Service S)
    (command : SubCommands) : Async S CliError (option ProgTable) :=
  agent_client ← async_lift (map_err of_failure (new_agent_client try_from connect "/run/eva/agent.sock"));
  match command with
  | CLoad l => async_map Some (run_load agent_client l)
  | CUnload u => async_map (λ _, None) (run_unload agent_client u)
  | CList l => async_map Some (run_list agent_client l)
  | CGet g => async_map Some (run_get agent_client g)
  end.

(** ** Lemmas *)

(** A command that printed a table got an answer from its call and showed it. *)
Lemma run_ok {A B} (call : Async S TonicStatus A) (show : A → result Error B) s b s' :
  (response ← async_map_err FromStatus call; async_lift (map_err FromTable (show response))) s (Ok b) s' →
  ∃ a, call s (Ok a) s' ∧ show a = Ok b.
Proof.
  intros (a & s1 & H1%map_err_async_ok & [H2 ->]%lift_async_ok)%bind_async_ok. eauto.
Qed.
End cli.

(** ** The commands against the agent *)

Section agent.
Context `{HI : HashIter} {P W : Type} `{!Program P W} `{!ProgramLaws P W} `{BR : Broadcast}.
Context `{T : Tonic} `{AM : !AgentMessages Body} {L : TonicLaws T}.
Notation Cfg := (Sys P W * list Handler)%type.
Implicit Types (a b c d : Cfg).

(** The client's channel leads to the agent's server. *)
Definition talks_to (debug : Error → string) (cl : Rpc.AgentClient Cfg) : Prop :=
  plain (cl_config cl) ∧ cl_service cl = connected (AgentServer_new (agent_service debug)).

(** Neither the request nor an answer to it exceeds the limits of the two ends. *)
Definition small {Req Resp} `{!Message Body Req} `{!Message Body Resp} (debug : Error → string)
    (cl : Rpc.AgentClient Cfg) (handler : Req → Async Cfg TonicStatus Resp) (m : Req) a : Prop :=
  let srv := AgentServer_new (agent_service debug) in
  within srv (cl_config cl) m ∧ ∀ r b, handler m a r b → fits (config srv) (cl_config cl) r.

(** The table of one built-in program: its name, type and state, and its metadata. *)
Definition shows_state (t : ProgTable) (p : P) : Prop :=
  get_type p = Builtin →
  (get_name p ≠ "" → ["Name:"; get_name p] ∈ rows t) ∧ ["Type:"; "Builtin"] ∈ rows t ∧
  ["State:"; state_label (get_state p)] ∈ rows t.
Definition shows_metadata (t : ProgTable) (p : P) : Prop :=
  get_type p = Builtin →
  ∀ k v, get_metadata p !! k = Some v → ∃ lab, [lab; k +:+ "=" +:+ v] ∈ rows t.

Lemma new_program_of p info t :
  get_program_info p = Ok info → new_program (Some info) = Ok t → shows_state t p ∧ shows_metadata t p.
Proof.
  intros Hi Ht. destruct (program_info_ok _ _ Hi) as (Hn & Hm & Hty' & Hst').
  apply ProgramState_decode in Hst'.
  assert (get_type p = Builtin → (get_name p ≠ "" → ["Name:"; get_name p] ∈ rows t) ∧
    ["Type:"; "Builtin"] ∈ rows t ∧ ["State:"; state_label (get_state p)] ∈ rows t ∧
    (∀ k v, get_metadata p !! k = Some v → ∃ lab, [lab; k +:+ "=" +:+ v] ∈ rows t)) as H.
  { intros Hty. rewrite Hty in Hty'. pose proof (new_program_shows info) as H. rewrite Hst' in H.
    destruct H as (t' & Ht' & H1 & H2 & H3 & H4); [by injection Hty'|].
    rewrite Ht in Ht'. injection Ht' as <-. rewrite <- Hn, <- Hm. by split_and!. }
  split; intros Hty; destruct (H Hty) as (H1 & H2 & H3 & H4); [by split_and!|done].
Qed.

(** The table shows the state of the program at a moment between [a] and [b], and its
    metadata at such a moment. *)
Definition shown_between (t : ProgTable) (l : loc) (name : string) a b : Prop :=
  (∃ c p, rtc moves a c ∧ rtc moves c b ∧ heap c.1 !! l = Some p ∧ get_name p = name ∧ shows_state t p) ∧
  (∃ c p, rtc moves a c ∧ rtc moves c b ∧ heap c.1 !! l = Some p ∧ shows_metadata t p).

Lemma shown_at t l name a c b p info :
  rtc moves a c → rtc moves c b → heap c.1 !! l = Some p → get_name p = name →
  get_program_info p = Ok info → new_program (Some info) = Ok t → shown_between t l name a b.
Proof.
  intros Ha Hb Hp Hn Hi Ht. destruct (new_program_of p info t Hi Ht) as [H1 H2].
  split; exists c, p; by split_and!.
Qed.

(** The rows of a list. *)
Lemma list_rows_listed progs rs t a b :
  Forall2 (listed a b) progs rs → list_rows rs new_list = Ok t →
  Forall2 (λ l row, ∃ c p, rtc moves a c ∧ rtc moves c b ∧ heap c.1 !! l = Some p ∧
             row = [get_name p; type_label (get_type p); state_label (get_state p)]) progs (rows t).
Proof.
  intros Hl Ht. pose proof (list_rows_spec rs new_list) as Hr. rewrite Ht in Hr.
  destruct Hr as (_ & new & Hrows & Hf). rewrite Hrows. simpl. clear Ht Hrows.
  revert new Hf. induction Hl as [|l r ls rs Hp Hl IH]; intros new Hf;
    inversion Hf as [|? row ? new' Hrow Hf']; subst; constructor; [|by apply IH].
  destruct Hp as (c & p & info & Ha & Hb & Hp & Hi & Hri). exists c, p.
  split_and!; [by apply others_move..|done|]. rewrite Hri in Hrow.
  destruct Hrow as (ty & st & Hty & Hst & ->).
  destruct (program_info_ok _ _ Hi) as (-> & _ & Hty' & Hst').
  apply ProgramType_decode in Hty'. apply ProgramState_decode in Hst'. congruence.
Qed.

(** An answer that is not an error is the handler's. *)
Lemma service_ok {A} debug (m : Async Cfg Status A) a x b :
  service_method debug m a (Ok x) b → m a (Ok x) b.
Proof. intros (r & Hm & Ha). destruct r as [y|st]; simpl in Ha; [congruence|by destruct Ha as (ts & _ & [=])]. Qed.

End agent.

(** ** The whole command *)

Section execute.
Context `{HI : HashIter} `{T : Tonic} `{AM : !AgentMessages Body} {S : Type}.

(** A command that ends well has connected to the socket and run over that
    connection; a table is printed by all commands but [unload].  The wasm form
    of [load] never ends well and never asks the agent for anything. *)
Lemma execute_runs try_from connect command (s : S) o s' :
  AgentCli_execute try_from connect command s (Ok o) s' →
  try_from "unix://run/eva/agent.sock" = Ok () ∧
  let c := AgentClient_new (connect "/run/eva/agent.sock") in
  match command with
  | CLoad (LoadBuiltin a) => ∃ t, o = Some t ∧ run_load_builtin c a s (Ok t) s'
  | CLoad (LoadWasm _) => False
  | CUnload u => o = None ∧ run_unload c u s (Ok ()) s'
  | CList l => ∃ t, o = Some t ∧ run_list c l s (Ok t) s'
  | CGet g => ∃ t, o = Some t ∧ run_get c g s (Ok t) s'
  end.
Proof.
  intros (c & s1 & [Hc Hs] & Hrun)%bind_async_ok. subst s1.
  unfold new_agent_client, select_channel in Hc. simpl in Hc.
  destruct (try_from _) as [[]|e]; [|done]. injection Hc as ->. split; [done|].
  destruct command as [[a|a]|u|l|g]; cbv zeta;
    destruct (bind_async_ok _ _ _ _ _ Hrun) as (t & s2 & Ht & [[= ->] ->]).
  - eauto.
  - by destruct Ht as [[=] _].
  - destruct t. done.
  - eauto.
  - eauto.
Qed.

Lemma execute_wasm try_from connect a (s : S) r s' :
  AgentCli_execute try_from connect (CLoad (LoadWasm a)) s r s' → s' = s ∧ ∃ why, r = Err (CliPanic why).
Proof.
  intros [(e & [He ->] & ->)|(c & s1 & [_ ->] & Hrun)].
  - split; [done|]. unfold new_agent_client in He. destruct (select_channel _ _ _); [done|]. simpl in He.
    injection He as ->. eauto.
  - destruct Hrun as [(e & [[= ->] ->] & ->)|(t & s2 & [[=] _] & _)]. eauto.
Qed.
End execute.

(** ** Witnesses *)

#[local] Existing Instance hm_iter_default.
#[local] Existing Instance ex_rpc.
#[local] Existing Instance ex_rpc_laws.
#[local] Existing Instance ex_rpc_messages.

Lemma ex_run_list : run_list Rpc.ex_client ex_list (ex_new, [])
  (Ok {| header := header new_list; rows := [["service_map"; "Builtin"; "Uninitialized"]] |}) (ex_new, []).
Proof.
  right. exists ex_list_reply, (ex_new, []). split; [|by split].
  exists (Ok ex_list_reply). split; [|done].
  right. exists (), (ex_new, []). split; [by exists (Ok ())|].
  exists (Ok (respond default_config (Ok ex_list_reply))). split; [|reflexivity].
  eexists. split; [|reflexivity]. exists (Ok ex_list_reply). split; [|reflexivity].
  exists (Ok ex_list_reply). split; [|reflexivity]. apply list_alone. reflexivity.
Qed.

