(* ===== verification/SocketData.v ===== *)
(** * socket-tracer: data

    [ebpf/socket-tracer/socket-tracer-common/src/lib.rs] (what is shared with
    user space), [socket-tracer-ebpf/src/types.rs] (arguments kept between the
    entry and the return of a system call) and
    [socket-tracer-ebpf/src/maps.rs] (the maps and event buffers).

    A pointer is an address, 0 when null.  What the kernel answers during one
    invocation of a probe is the record [Kernel]; the events written to a
    perf buffer are kept in the order they are written. *)
From S2P Require Import Prelude RustStd Bpf.
From stdpp Require Import base gmap strings list.
From Stdlib Require Import ZArith Lia.

Local Open Scope Z_scope.

(** ** Constants *)

Definition AF_UNKNOWN : Z := 255.
Definition AF_INET : Z := 2.
Definition AF_INET6 : Z := 10.
Definition MAX_MSG_SIZE : Z := 30720.
Definition CHUNK_LIMIT : nat := 84.
Definition LOOP_LIMIT : nat := 882.
Definition PROTOCOL_VEC_LIMIT : nat := 3.
Definition CONN_STATS_DATA_THRESHOLD : Z := 65536.
Definition MAX_MAP_ENTRIES : Z := 128 * 1024.

(** ** Enums *)

Inductive ControlEventType := Open | Close.
Inductive MessageType := MsgUnknown | Request | Response.
Inductive TrafficDirection := Egress | Ingress.
Inductive EndpointRole := RoleUnknown | Client | Server.
Inductive TrafficProtocol :=
  | ProtoUnknown | HTTP | HTTP2 | DNS | MySQL | PGSQL | Redis | NATS | Kafka | AMQP | NumProtocols.
Inductive ControlValueIndex := TargetTGIDIndex | SelfTGIDIndex | NumControlValues.
Inductive SourceFunction :=
  | SourceFunctionUnknown | SyscallAccept | SyscallConnect | SyscallClose | SyscallWrite
  | SyscallRead | SyscallSend | SyscallRecv | SyscallSendTo | SyscallRecvFrom | SyscallSendMsg
  | SyscallRecvMsg | SyscallSendMMsg | SyscallRecvMMsg | SyscallWriteV | SyscallReadV
  | SyscallSendFile.
Inductive TargetTgidMatchResult := Unspecified | MatchAll | Matched | Unmatched.

Global Instance ControlEventType_eq_dec : EqDecision ControlEventType.
Proof. solve_decision. Defined.
Global Instance MessageType_eq_dec : EqDecision MessageType.
Proof. solve_decision. Defined.
Global Instance TrafficDirection_eq_dec : EqDecision TrafficDirection.
Proof. solve_decision. Defined.
Global Instance EndpointRole_eq_dec : EqDecision EndpointRole.
Proof. solve_decision. Defined.
Global Instance TrafficProtocol_eq_dec : EqDecision TrafficProtocol.
Proof. solve_decision. Defined.
Global Instance TargetTgidMatchResult_eq_dec : EqDecision TargetTgidMatchResult.
Proof. solve_decision. Defined.

(** The discriminants ([as u32], [as u64]). *)
Definition EndpointRole_u64 (r : EndpointRole) : Z :=
  match r with RoleUnknown => 1 | Client => 2 | Server => 4 end.
Definition TrafficProtocol_u32 (p : TrafficProtocol) : Z :=
  match p with
  | ProtoUnknown => 0 | HTTP => 1 | HTTP2 => 2 | DNS => 3 | MySQL => 4 | PGSQL => 5 | Redis => 6
  | NATS => 7 | Kafka => 8 | AMQP => 9 | NumProtocols => 10
  end.
Definition ControlValueIndex_u32 (i : ControlValueIndex) : Z :=
  match i with TargetTGIDIndex => 0 | SelfTGIDIndex => 1 | NumControlValues => 2 end.

(** ** Structures *)

Record ProtocolMessage := { pm_protocol : TrafficProtocol; msg_type : MessageType }.
Record Uid := { tgid : Z; start_time_ticks : Z }.
Record ConnId := { uid : Uid; id_fd : Z; tsid : Z }.

(** An IPv6 address is its 16 bytes. *)
Definition in6_zero : list Z := replicate 16 0.

Record ConnInfo := {
  id : ConnId;
  protocol : TrafficProtocol;
  role : EndpointRole;
  write_bytes : Z;
  read_bytes : Z;
  prev_reported_bytes : Z;
  src_addr_in4 : Z;
  src_addr_in6 : list Z;
  dst_addr_in4 : Z;
  dst_addr_in6 : list Z;
  sa_family : Z;
  src_port : Z;
  dst_port : Z;
  protocol_total_count : Z }.

Definition ConnId_default : ConnId := {| uid := {| tgid := 0; start_time_ticks := 0 |}; id_fd := 0; tsid := 0 |}.
Definition ConnInfo_default : ConnInfo := {|
  id := ConnId_default; protocol := ProtoUnknown; role := RoleUnknown; write_bytes := 0;
  read_bytes := 0; prev_reported_bytes := 0; src_addr_in4 := 0; src_addr_in6 := in6_zero;
  dst_addr_in4 := 0; dst_addr_in6 := in6_zero; sa_family := 0; src_port := 0; dst_port := 0;
  protocol_total_count := 0 |}.

Record SocketDataEventInner := {
  de_timestamp_ns : Z;
  de_id : ConnId;
  de_protocol : TrafficProtocol;
  de_role : EndpointRole;
  direction : TrafficDirection;
  ssl : bool;
  de_source_function : SourceFunction;
  position : Z;
  msg_size : Z;
  msg_buf_size : Z }.

(** [size_of::<SocketDataEventInner>()] with the C layout: 8 + 32 + 8 + 8 + 8 +
    1 (padded to 8) + 8 + 8 + 4 + 4. *)
Definition SIZE_OF_INNER : Z := 96.

Record SocketDataEvent := { inner : SocketDataEventInner; msg : list Z }.

Record ConnStatsEvent := {
  cs_timestamp_ns : Z;
  cs_id : ConnId;
  cs_sa_family : Z;
  cs_src_addr_in4 : Z; cs_src_addr_in6 : list Z; cs_src_port : Z;
  cs_dst_addr_in4 : Z; cs_dst_addr_in6 : list Z; cs_dst_port : Z;
  cs_role : EndpointRole;
  cs_write_bytes : Z;
  cs_read_bytes : Z;
  event_flags : Z }.

Record SocketControlEvent := {
  ce_id : ConnId;
  event_type : ControlEventType;
  ce_sa_family : Z;
  ce_timestamp_ns : Z;
  ce_source_function : SourceFunction;
  ce_role : EndpointRole;
  ce_src_addr_in4 : Z; ce_src_addr_in6 : list Z; ce_src_port : Z;
  ce_dst_addr_in4 : Z; ce_dst_addr_in6 : list Z; ce_dst_port : Z;
  ce_write_bytes : Z;
  ce_read_bytes : Z }.

(** ** Arguments kept between entry and return *)

Inductive AlignedBool := AFalse | ATrue.
Definition AlignedBool_into_bool (b : AlignedBool) : bool :=
  match b with AFalse => false | ATrue => true end.
Definition AlignedBool_from_bool (b : bool) : AlignedBool := if b then ATrue else AFalse.

Record ConnectArgs := { ca_fd : Z; ca_sockaddr : Z }.
Record AcceptArgs := { aa_sockaddr : Z; aa_sock : Z }.
Record DataArgs := {
  source_function : SourceFunction;
  iovlen : Z;
  buf : Z;
  iov : Z;
  sock_event : AlignedBool;
  msg_len : Z;
  da_fd : Z }.
Record CloseArgs := { cl_fd : Z }.
Record SendfileArgs := { out_fd : Z; in_fd : Z; sf_count : Z }.

(** ** What the kernel answers during an invocation *)

Record sock_common := {
  skc_family : Z; skc_rcv_saddr : Z; skc_daddr : Z; skc_num : Z; skc_dport : Z;
  skc_v6_rcv_saddr : list Z; skc_v6_daddr : list Z }.
Record sockaddr_in := { sin_port : Z; s_addr : Z }.
Record sockaddr_in6 := { sin6_port : Z; u6_addr8 : list Z }.
Record iovec := { iov_base : Z; iov_len : Z }.
(** [size_of::<iovec>()], by which [iov.add(i)] advances. *)
Definition SIZE_OF_IOVEC : Z := 16.
Record user_msghdr := { msg_name : Z; msg_iov : Z; msg_iovlen : Z }.
Record mmsghdr := { msg_hdr : user_msghdr; mm_msg_len : Z }.

Record Kernel := {
  ktime_get_ns : nat → Z;
  current_pid_tgid : Z;
  current_task : Z;
  read_group_leader : Z → result Z Z;
  read_start_boottime : Z → result Z Z;
  read_sock_common : Z → result Z sock_common;
  read_sa_family : Z → result Z Z;
  read_sockaddr_in : Z → result Z sockaddr_in;
  read_sockaddr_in6 : Z → result Z sockaddr_in6;
  read_user_buf : Z → Z → result Z (list Z);
  read_iovec : Z → result Z iovec;
  read_user_msghdr : Z → result Z user_msghdr;
  read_mmsghdr : Z → result Z mmsghdr }.

(** The registers of the probed call: its arguments and its return value. *)
Record ProbeContext := { arg : nat → option Z; ret : option Z }.

(** ** Maps and event buffers *)

Record Maps := {
  CONTROL_MAP : gmap Z Z;
  CONTROL_VALUES : gmap Z Z;
  SOCKET_DATA_EVENT_BUFFER : option SocketDataEvent;
  CONN_STATS_EVENT_BUFFER : option ConnStatsEvent;
  CONN_INFO_MAP : gmap Z ConnInfo;
  CONN_DISABLED_MAP : gmap Z Z;
  ACTIVE_ACCEPT_MAP : gmap Z AcceptArgs;
  ACTIVE_CONNECT_MAP : gmap Z ConnectArgs;
  ACTIVE_WRITE_MAP : gmap Z DataArgs;
  ACTIVE_READ_MAP : gmap Z DataArgs;
  ACTIVE_SENDFILE_MAP : gmap Z SendfileArgs;
  ACTIVE_CLOSE_MAP : gmap Z CloseArgs;
  SOCKET_CONTROL_EVENTS : list SocketControlEvent;
  SOCKET_DATA_EVENTS : list (SocketDataEvent * Z);
  CONN_STATS_EVENTS : list ConnStatsEvent;
  clock_reads : nat }.

Definition set_SOCKET_DATA_EVENT_BUFFER v (s : Maps) : Maps :=
  {| CONTROL_MAP := CONTROL_MAP s; CONTROL_VALUES := CONTROL_VALUES s;
     SOCKET_DATA_EVENT_BUFFER := v; CONN_STATS_EVENT_BUFFER := CONN_STATS_EVENT_BUFFER s;
     CONN_INFO_MAP := CONN_INFO_MAP s; CONN_DISABLED_MAP := CONN_DISABLED_MAP s;
     ACTIVE_ACCEPT_MAP := ACTIVE_ACCEPT_MAP s; ACTIVE_CONNECT_MAP := ACTIVE_CONNECT_MAP s;
     ACTIVE_WRITE_MAP := ACTIVE_WRITE_MAP s; ACTIVE_READ_MAP := ACTIVE_READ_MAP s;
     ACTIVE_SENDFILE_MAP := ACTIVE_SENDFILE_MAP s; ACTIVE_CLOSE_MAP := ACTIVE_CLOSE_MAP s;
     SOCKET_CONTROL_EVENTS := SOCKET_CONTROL_EVENTS s;
     SOCKET_DATA_EVENTS := SOCKET_DATA_EVENTS s; CONN_STATS_EVENTS := CONN_STATS_EVENTS s;
     clock_reads := clock_reads s |}.
Definition set_CONN_INFO_MAP v (s : Maps) : Maps :=
  {| CONTROL_MAP := CONTROL_MAP s; CONTROL_VALUES := CONTROL_VALUES s;
     SOCKET_DATA_EVENT_BUFFER := SOCKET_DATA_EVENT_BUFFER s;
     CONN_STATS_EVENT_BUFFER := CONN_STATS_EVENT_BUFFER s; CONN_INFO_MAP := v;
     CONN_DISABLED_MAP := CONN_DISABLED_MAP s; ACTIVE_ACCEPT_MAP := ACTIVE_ACCEPT_MAP s;
     ACTIVE_CONNECT_MAP := ACTIVE_CONNECT_MAP s; ACTIVE_WRITE_MAP := ACTIVE_WRITE_MAP s;
     ACTIVE_READ_MAP := ACTIVE_READ_MAP s; ACTIVE_SENDFILE_MAP := ACTIVE_SENDFILE_MAP s;
     ACTIVE_CLOSE_MAP := ACTIVE_CLOSE_MAP s; SOCKET_CONTROL_EVENTS := SOCKET_CONTROL_EVENTS s;
     SOCKET_DATA_EVENTS := SOCKET_DATA_EVENTS s; CONN_STATS_EVENTS := CONN_STATS_EVENTS s;
     clock_reads := clock_reads s |}.
Definition set_ACTIVE_ACCEPT_MAP v (s : Maps) : Maps :=
  {| CONTROL_MAP := CONTROL_MAP s; CONTROL_VALUES := CONTROL_VALUES s;
     SOCKET_DATA_EVENT_BUFFER := SOCKET_DATA_EVENT_BUFFER s;
     CONN_STATS_EVENT_BUFFER := CONN_STATS_EVENT_BUFFER s; CONN_INFO_MAP := CONN_INFO_MAP s;
     CONN_DISABLED_MAP := CONN_DISABLED_MAP s; ACTIVE_ACCEPT_MAP := v;
     ACTIVE_CONNECT_MAP := ACTIVE_CONNECT_MAP s; ACTIVE_WRITE_MAP := ACTIVE_WRITE_MAP s;
     ACTIVE_READ_MAP := ACTIVE_READ_MAP s; ACTIVE_SENDFILE_MAP := ACTIVE_SENDFILE_MAP s;
     ACTIVE_CLOSE_MAP := ACTIVE_CLOSE_MAP s; SOCKET_CONTROL_EVENTS := SOCKET_CONTROL_EVENTS s;
     SOCKET_DATA_EVENTS := SOCKET_DATA_EVENTS s; CONN_STATS_EVENTS := CONN_STATS_EVENTS s;
     clock_reads := clock_reads s |}.
Definition set_ACTIVE_CONNECT_MAP v (s : Maps) : Maps :=
  {| CONTROL_MAP := CONTROL_MAP s; CONTROL_VALUES := CONTROL_VALUES s;
     SOCKET_DATA_EVENT_BUFFER := SOCKET_DATA_EVENT_BUFFER s;
     CONN_STATS_EVENT_BUFFER := CONN_STATS_EVENT_BUFFER s; CONN_INFO_MAP := CONN_INFO_MAP s;
     CONN_DISABLED_MAP := CONN_DISABLED_MAP s; ACTIVE_ACCEPT_MAP := ACTIVE_ACCEPT_MAP s;
     ACTIVE_CONNECT_MAP := v; ACTIVE_WRITE_MAP := ACTIVE_WRITE_MAP s;
     ACTIVE_READ_MAP := ACTIVE_READ_MAP s; ACTIVE_SENDFILE_MAP := ACTIVE_SENDFILE_MAP s;
     ACTIVE_CLOSE_MAP := ACTIVE_CLOSE_MAP s; SOCKET_CONTROL_EVENTS := SOCKET_CONTROL_EVENTS s;
     SOCKET_DATA_EVENTS := SOCKET_DATA_EVENTS s; CONN_STATS_EVENTS := CONN_STATS_EVENTS s;
     clock_reads := clock_reads s |}.
Definition set_ACTIVE_WRITE_MAP v (s : Maps) : Maps :=
  {| CONTROL_MAP := CONTROL_MAP s; CONTROL_VALUES := CONTROL_VALUES s;
     SOCKET_DATA_EVENT_BUFFER := SOCKET_DATA_EVENT_BUFFER s;
     CONN_STATS_EVENT_BUFFER := CONN_STATS_EVENT_BUFFER s; CONN_INFO_MAP := CONN_INFO_MAP s;
     CONN_DISABLED_MAP := CONN_DISABLED_MAP s; ACTIVE_ACCEPT_MAP := ACTIVE_ACCEPT_MAP s;
     ACTIVE_CONNECT_MAP := ACTIVE_CONNECT_MAP s; ACTIVE_WRITE_MAP := v;
     ACTIVE_READ_MAP := ACTIVE_READ_MAP s; ACTIVE_SENDFILE_MAP := ACTIVE_SENDFILE_MAP s;
     ACTIVE_CLOSE_MAP := ACTIVE_CLOSE_MAP s; SOCKET_CONTROL_EVENTS := SOCKET_CONTROL_EVENTS s;
     SOCKET_DATA_EVENTS := SOCKET_DATA_EVENTS s; CONN_STATS_EVENTS := CONN_STATS_EVENTS s;
     clock_reads := clock_reads s |}.
Definition set_ACTIVE_READ_MAP v (s : Maps) : Maps :=
  {| CONTROL_MAP := CONTROL_MAP s; CONTROL_VALUES := CONTROL_VALUES s;
     SOCKET_DATA_EVENT_BUFFER := SOCKET_DATA_EVENT_BUFFER s;
     CONN_STATS_EVENT_BUFFER := CONN_STATS_EVENT_BUFFER s; CONN_INFO_MAP := CONN_INFO_MAP s;
     CONN_DISABLED_MAP := CONN_DISABLED_MAP s; ACTIVE_ACCEPT_MAP := ACTIVE_ACCEPT_MAP s;
     ACTIVE_CONNECT_MAP := ACTIVE_CONNECT_MAP s; ACTIVE_WRITE_MAP := ACTIVE_WRITE_MAP s;
     ACTIVE_READ_MAP := v; ACTIVE_SENDFILE_MAP := ACTIVE_SENDFILE_MAP s;
     ACTIVE_CLOSE_MAP := ACTIVE_CLOSE_MAP s; SOCKET_CONTROL_EVENTS := SOCKET_CONTROL_EVENTS s;
     SOCKET_DATA_EVENTS := SOCKET_DATA_EVENTS s; CONN_STATS_EVENTS := CONN_STATS_EVENTS s;
     clock_reads := clock_reads s |}.
Definition set_ACTIVE_SENDFILE_MAP v (s : Maps) : Maps :=
  {| CONTROL_MAP := CONTROL_MAP s; CONTROL_VALUES := CONTROL_VALUES s;
     SOCKET_DATA_EVENT_BUFFER := SOCKET_DATA_EVENT_BUFFER s;
     CONN_STATS_EVENT_BUFFER := CONN_STATS_EVENT_BUFFER s; CONN_INFO_MAP := CONN_INFO_MAP s;
     CONN_DISABLED_MAP := CONN_DISABLED_MAP s; ACTIVE_ACCEPT_MAP := ACTIVE_ACCEPT_MAP s;
     ACTIVE_CONNECT_MAP := ACTIVE_CONNECT_MAP s; ACTIVE_WRITE_MAP := ACTIVE_WRITE_MAP s;
     ACTIVE_READ_MAP := ACTIVE_READ_MAP s; ACTIVE_SENDFILE_MAP := v;
     ACTIVE_CLOSE_MAP := ACTIVE_CLOSE_MAP s; SOCKET_CONTROL_EVENTS := SOCKET_CONTROL_EVENTS s;
     SOCKET_DATA_EVENTS := SOCKET_DATA_EVENTS s; CONN_STATS_EVENTS := CONN_STATS_EVENTS s;
     clock_reads := clock_reads s |}.
Definition set_ACTIVE_CLOSE_MAP v (s : Maps) : Maps :=
  {| CONTROL_MAP := CONTROL_MAP s; CONTROL_VALUES := CONTROL_VALUES s;
     SOCKET_DATA_EVENT_BUFFER := SOCKET_DATA_EVENT_BUFFER s;
     CONN_STATS_EVENT_BUFFER := CONN_STATS_EVENT_BUFFER s; CONN_INFO_MAP := CONN_INFO_MAP s;
     CONN_DISABLED_MAP := CONN_DISABLED_MAP s; ACTIVE_ACCEPT_MAP := ACTIVE_ACCEPT_MAP s;
     ACTIVE_CONNECT_MAP := ACTIVE_CONNECT_MAP s; ACTIVE_WRITE_MAP := ACTIVE_WRITE_MAP s;
     ACTIVE_READ_MAP := ACTIVE_READ_MAP s; ACTIVE_SENDFILE_MAP := ACTIVE_SENDFILE_MAP s;
     ACTIVE_CLOSE_MAP := v; SOCKET_CONTROL_EVENTS := SOCKET_CONTROL_EVENTS s;
     SOCKET_DATA_EVENTS := SOCKET_DATA_EVENTS s; CONN_STATS_EVENTS := CONN_STATS_EVENTS s;
     clock_reads := clock_reads s |}.
Definition set_SOCKET_CONTROL_EVENTS v (s : Maps) : Maps :=
  {| CONTROL_MAP := CONTROL_MAP s; CONTROL_VALUES := CONTROL_VALUES s;
     SOCKET_DATA_EVENT_BUFFER := SOCKET_DATA_EVENT_BUFFER s;
     CONN_STATS_EVENT_BUFFER := CONN_STATS_EVENT_BUFFER s; CONN_INFO_MAP := CONN_INFO_MAP s;
     CONN_DISABLED_MAP := CONN_DISABLED_MAP s; ACTIVE_ACCEPT_MAP := ACTIVE_ACCEPT_MAP s;
     ACTIVE_CONNECT_MAP := ACTIVE_CONNECT_MAP s; ACTIVE_WRITE_MAP := ACTIVE_WRITE_MAP s;
     ACTIVE_READ_MAP := ACTIVE_READ_MAP s; ACTIVE_SENDFILE_MAP := ACTIVE_SENDFILE_MAP s;
     ACTIVE_CLOSE_MAP := ACTIVE_CLOSE_MAP s; SOCKET_CONTROL_EVENTS := v;
     SOCKET_DATA_EVENTS := SOCKET_DATA_EVENTS s; CONN_STATS_EVENTS := CONN_STATS_EVENTS s;
     clock_reads := clock_reads s |}.
Definition set_SOCKET_DATA_EVENTS v (s : Maps) : Maps :=
  {| CONTROL_MAP := CONTROL_MAP s; CONTROL_VALUES := CONTROL_VALUES s;
     SOCKET_DATA_EVENT_BUFFER := SOCKET_DATA_EVENT_BUFFER s;
     CONN_STATS_EVENT_BUFFER := CONN_STATS_EVENT_BUFFER s; CONN_INFO_MAP := CONN_INFO_MAP s;
     CONN_DISABLED_MAP := CONN_DISABLED_MAP s; ACTIVE_ACCEPT_MAP := ACTIVE_ACCEPT_MAP s;
     ACTIVE_CONNECT_MAP := ACTIVE_CONNECT_MAP s; ACTIVE_WRITE_MAP := ACTIVE_WRITE_MAP s;
     ACTIVE_READ_MAP := ACTIVE_READ_MAP s; ACTIVE_SENDFILE_MAP := ACTIVE_SENDFILE_MAP s;
     ACTIVE_CLOSE_MAP := ACTIVE_CLOSE_MAP s; SOCKET_CONTROL_EVENTS := SOCKET_CONTROL_EVENTS s;
     SOCKET_DATA_EVENTS := v; CONN_STATS_EVENTS := CONN_STATS_EVENTS s;
     clock_reads := clock_reads s |}.
Definition set_CONN_STATS_EVENTS v (s : Maps) : Maps :=
  {| CONTROL_MAP := CONTROL_MAP s; CONTROL_VALUES := CONTROL_VALUES s;
     SOCKET_DATA_EVENT_BUFFER := SOCKET_DATA_EVENT_BUFFER s;
     CONN_STATS_EVENT_BUFFER := CONN_STATS_EVENT_BUFFER s; CONN_INFO_MAP := CONN_INFO_MAP s;
     CONN_DISABLED_MAP := CONN_DISABLED_MAP s; ACTIVE_ACCEPT_MAP := ACTIVE_ACCEPT_MAP s;
     ACTIVE_CONNECT_MAP := ACTIVE_CONNECT_MAP s; ACTIVE_WRITE_MAP := ACTIVE_WRITE_MAP s;
     ACTIVE_READ_MAP := ACTIVE_READ_MAP s; ACTIVE_SENDFILE_MAP := ACTIVE_SENDFILE_MAP s;
     ACTIVE_CLOSE_MAP := ACTIVE_CLOSE_MAP s; SOCKET_CONTROL_EVENTS := SOCKET_CONTROL_EVENTS s;
     SOCKET_DATA_EVENTS := SOCKET_DATA_EVENTS s; CONN_STATS_EVENTS := v;
     clock_reads := clock_reads s |}.
Definition set_clock_reads v (s : Maps) : Maps :=
  {| CONTROL_MAP := CONTROL_MAP s; CONTROL_VALUES := CONTROL_VALUES s;
     SOCKET_DATA_EVENT_BUFFER := SOCKET_DATA_EVENT_BUFFER s;
     CONN_STATS_EVENT_BUFFER := CONN_STATS_EVENT_BUFFER s; CONN_INFO_MAP := CONN_INFO_MAP s;
     CONN_DISABLED_MAP := CONN_DISABLED_MAP s; ACTIVE_ACCEPT_MAP := ACTIVE_ACCEPT_MAP s;
     ACTIVE_CONNECT_MAP := ACTIVE_CONNECT_MAP s; ACTIVE_WRITE_MAP := ACTIVE_WRITE_MAP s;
     ACTIVE_READ_MAP := ACTIVE_READ_MAP s; ACTIVE_SENDFILE_MAP := ACTIVE_SENDFILE_MAP s;
     ACTIVE_CLOSE_MAP := ACTIVE_CLOSE_MAP s; SOCKET_CONTROL_EVENTS := SOCKET_CONTROL_EVENTS s;
     SOCKET_DATA_EVENTS := SOCKET_DATA_EVENTS s; CONN_STATS_EVENTS := CONN_STATS_EVENTS s;
     clock_reads := v |}.

(** The hash maps the probes write. *)
Class SocketMaps := {
  bm_conn :: BpfMap Z ConnInfo;
  bm_accept :: BpfMap Z AcceptArgs;
  bm_connect :: BpfMap Z ConnectArgs;
  bm_data :: BpfMap Z DataArgs;
  bm_sendfile :: BpfMap Z SendfileArgs;
  bm_close :: BpfMap Z CloseArgs }.

Class SocketMapsLaws (B : SocketMaps) : Prop := {
  bl_conn :: HashLaws bm_conn;
  bl_accept :: HashLaws bm_accept;
  bl_connect :: HashLaws bm_connect;
  bl_data :: HashLaws bm_data;
  bl_sendfile :: HashLaws bm_sendfile;
  bl_close :: HashLaws bm_close }.

Definition bounded_maps (n : nat) : SocketMaps := {|
  bm_conn := bounded_hash n; bm_accept := bounded_hash n; bm_connect := bounded_hash n;
  bm_data := bounded_hash n; bm_sendfile := bounded_hash n; bm_close := bounded_hash n |}.

Lemma bounded_maps_laws n : SocketMapsLaws (bounded_maps n).
Proof. split; apply bounded_hash_laws. Qed.

(** A map update or deletion followed by [?]. *)
Definition map_insert_op {V} `{B : !BpfMap Z V} (get : Maps → gmap Z V)
    (set : gmap Z V → Maps → Maps) (k : Z) (v : V) : M Maps Z unit := λ s,
  match bpf_update (get s) k v with
  | Ok m => (Ok (), set m s)
  | Err e => (Err e, s)
  end.
Definition map_remove_op {V} `{B : !BpfMap Z V} (get : Maps → gmap Z V)
    (set : gmap Z V → Maps → Maps) (k : Z) : M Maps Z unit := λ s,
  match bpf_delete (get s) k with
  | Ok m => (Ok (), set m s)
  | Err e => (Err e, s)
  end.
