(* ===== verification/SocketTracer.v ===== *)
(** * socket-tracer: the library of the probes

    [socket-tracer-ebpf/src/lib.rs], [filters.rs], [helpers.rs] and
    [protocols.rs]: identification of connections, filters, protocol inference,
    the events written to user space and the processing of a system call's
    data. *)
From S2P Require Import Prelude RustStd Bpf SocketData.
From stdpp Require Import base gmap strings list.
From Stdlib Require Import ZArith Lia.

Local Open Scope Z_scope.

(** ** Updates of a connection's information *)

Definition with_id i (c : ConnInfo) : ConnInfo := {|
  id := i; protocol := protocol c; role := role c; write_bytes := write_bytes c;
  read_bytes := read_bytes c; prev_reported_bytes := prev_reported_bytes c;
  src_addr_in4 := src_addr_in4 c; src_addr_in6 := src_addr_in6 c; dst_addr_in4 := dst_addr_in4 c;
  dst_addr_in6 := dst_addr_in6 c; sa_family := sa_family c; src_port := src_port c;
  dst_port := dst_port c; protocol_total_count := protocol_total_count c |}.
Definition with_role r (c : ConnInfo) : ConnInfo := {|
  id := id c; protocol := protocol c; role := r; write_bytes := write_bytes c;
  read_bytes := read_bytes c; prev_reported_bytes := prev_reported_bytes c;
  src_addr_in4 := src_addr_in4 c; src_addr_in6 := src_addr_in6 c; dst_addr_in4 := dst_addr_in4 c;
  dst_addr_in6 := dst_addr_in6 c; sa_family := sa_family c; src_port := src_port c;
  dst_port := dst_port c; protocol_total_count := protocol_total_count c |}.
Definition with_family f (c : ConnInfo) : ConnInfo := {|
  id := id c; protocol := protocol c; role := role c; write_bytes := write_bytes c;
  read_bytes := read_bytes c; prev_reported_bytes := prev_reported_bytes c;
  src_addr_in4 := src_addr_in4 c; src_addr_in6 := src_addr_in6 c; dst_addr_in4 := dst_addr_in4 c;
  dst_addr_in6 := dst_addr_in6 c; sa_family := f; src_port := src_port c;
  dst_port := dst_port c; protocol_total_count := protocol_total_count c |}.
Definition with_addr4 src dst (c : ConnInfo) : ConnInfo := {|
  id := id c; protocol := protocol c; role := role c; write_bytes := write_bytes c;
  read_bytes := read_bytes c; prev_reported_bytes := prev_reported_bytes c;
  src_addr_in4 := src; src_addr_in6 := src_addr_in6 c; dst_addr_in4 := dst;
  dst_addr_in6 := dst_addr_in6 c; sa_family := sa_family c; src_port := src_port c;
  dst_port := dst_port c; protocol_total_count := protocol_total_count c |}.
Definition with_addr6 src dst (c : ConnInfo) : ConnInfo := {|
  id := id c; protocol := protocol c; role := role c; write_bytes := write_bytes c;
  read_bytes := read_bytes c; prev_reported_bytes := prev_reported_bytes c;
  src_addr_in4 := src_addr_in4 c; src_addr_in6 := src; dst_addr_in4 := dst_addr_in4 c;
  dst_addr_in6 := dst; sa_family := sa_family c; src_port := src_port c;
  dst_port := dst_port c; protocol_total_count := protocol_total_count c |}.
Definition with_ports src dst (c : ConnInfo) : ConnInfo := {|
  id := id c; protocol := protocol c; role := role c; write_bytes := write_bytes c;
  read_bytes := read_bytes c; prev_reported_bytes := prev_reported_bytes c;
  src_addr_in4 := src_addr_in4 c; src_addr_in6 := src_addr_in6 c; dst_addr_in4 := dst_addr_in4 c;
  dst_addr_in6 := dst_addr_in6 c; sa_family := sa_family c; src_port := src;
  dst_port := dst; protocol_total_count := protocol_total_count c |}.
Definition with_protocol p n (c : ConnInfo) : ConnInfo := {|
  id := id c; protocol := p; role := role c; write_bytes := write_bytes c;
  read_bytes := read_bytes c; prev_reported_bytes := prev_reported_bytes c;
  src_addr_in4 := src_addr_in4 c; src_addr_in6 := src_addr_in6 c; dst_addr_in4 := dst_addr_in4 c;
  dst_addr_in6 := dst_addr_in6 c; sa_family := sa_family c; src_port := src_port c;
  dst_port := dst_port c; protocol_total_count := n |}.
Definition with_bytes w r prev (c : ConnInfo) : ConnInfo := {|
  id := id c; protocol := protocol c; role := role c; write_bytes := w;
  read_bytes := r; prev_reported_bytes := prev;
  src_addr_in4 := src_addr_in4 c; src_addr_in6 := src_addr_in6 c; dst_addr_in4 := dst_addr_in4 c;
  dst_addr_in6 := dst_addr_in6 c; sa_family := sa_family c; src_port := src_port c;
  dst_port := dst_port c; protocol_total_count := protocol_total_count c |}.

(** ** [helpers.rs] *)

Definition NSEC_PER_SEC : Z := 1000000000.
Definition USER_HZ : Z := 100.

Definition pl_nsec_to_clock_t (x : Z) : Z := x / (NSEC_PER_SEC / USER_HZ).

(** ** Filters, [filters.rs] *)

Definition should_trace_sockaddr_family (f : Z) : bool :=
  (f =? AF_UNKNOWN) || (f =? AF_INET) || (f =? AF_INET6).

Definition should_trace_conn (c : ConnInfo) : bool := should_trace_sockaddr_family (sa_family c).

Definition should_trace_protocol_data (s : Maps) (c : ConnInfo) : bool :=
  match protocol c with
  | ProtoUnknown => true
  | p => negb (Z.land (default 0 (CONTROL_MAP s !! TrafficProtocol_u32 p))
                      (EndpointRole_u64 (role c)) =? 0)
  end.

Definition is_self_tgid (s : Maps) (tg : Z) : bool :=
  match CONTROL_VALUES s !! ControlValueIndex_u32 SelfTGIDIndex with
  | Some agent_tgid => as_u32 agent_tgid =? tg
  | None => false
  end.

Definition match_trace_tgid (s : Maps) (tg : Z) : TargetTgidMatchResult :=
  match CONTROL_VALUES s !! ControlValueIndex_u32 TargetTGIDIndex with
  | Some target_tgid =>
      if target_tgid <=? 0 then MatchAll
      else if as_u32 target_tgid =? tg then Matched
      else Unmatched
  | None => Unspecified
  end.

Definition should_send_data (s : Maps) (tg conn_disabled_tsid : Z) (force_trace_tgid : bool)
    (c : ConnInfo) : bool :=
  if is_self_tgid s tg then false
  else if tsid (id c) <=? conn_disabled_tsid then false
  else force_trace_tgid || should_trace_protocol_data s c.

(** ** Protocol inference, [protocols.rs] *)

(** The bytes of an ASCII string. *)
Fixpoint ascii_bytes (s : string) : list Z :=
  match s with
  | EmptyString => []
  | String a s' => Z.of_N (Ascii.N_of_ascii a) :: ascii_bytes s'
  end.

(** [&buf[0..n] == b"..."] *)
Definition starts_with (b : list Z) (s : string) : bool :=
  bool_decide (take (String.length s) b = ascii_bytes s).

Definition infer_http_message (b : list Z) (count : Z) : MessageType :=
  if count <? 16 then MsgUnknown
  else if starts_with b "HTTP" then Response
  else if starts_with b "GET" || starts_with b "HEAD" || starts_with b "POST" then Request
  else if starts_with b "PUT" || starts_with b "DELETE" then Request
  else MsgUnknown.

Section tracer.
Context {B : SocketMaps} (k : Kernel).

Definition infer_protocol (b count : Z) : ProtocolMessage :=
  let unknown := {| pm_protocol := ProtoUnknown; msg_type := MsgUnknown |} in
  if (b =? 0) || (count =? 0) then unknown
  else match read_user_buf k b (Z.min count 16) with
       | Err _ => unknown
       | Ok kernel_buf =>
           match infer_http_message kernel_buf count with
           | MsgUnknown => unknown
           | t => {| pm_protocol := HTTP; msg_type := t |}
           end
       end.

(** ** Clock and identifiers *)

(** [bpf_ktime_get_ns]: each call is a new reading. *)
Definition now : M Maps Z Z := λ s,
  (Ok (ktime_get_ns k (clock_reads s)), set_clock_reads (S (clock_reads s)) s).

Definition get_tgid_start_time : result Z Z :=
  if current_task k =? 0 then Err 1
  else
    group_leader ← map_err (λ _, 1) (read_group_leader k (current_task k));
    start_boottime ← map_err (λ _, 1) (read_start_boottime k group_leader);
    Ok (pl_nsec_to_clock_t start_boottime).

Definition gen_tgid_fd (tg fd : Z) : Z := Z.lor (as_u64 (Z.shiftl tg 32)) (as_u64 fd).

Definition gen_tsid : M Maps Z Z := now.

Definition init_conn_id (tg fd : Z) : M Maps Z ConnId :=
  ts ← gen_tsid;
  mret {| uid := {| tgid := tg; start_time_ticks := default 0 (ok get_tgid_start_time) |};
          id_fd := fd; tsid := ts |}.

Definition init_conn_info (tg fd : Z) (c : ConnInfo) : M Maps Z ConnInfo :=
  i ← init_conn_id tg fd;
  mret (with_family AF_UNKNOWN (with_role RoleUnknown (with_id i c))).

Definition conn_info_insert := map_insert_op CONN_INFO_MAP set_CONN_INFO_MAP.
Definition conn_info_remove := map_remove_op CONN_INFO_MAP set_CONN_INFO_MAP.

(** The result is a copy: [Some(&info) => Ok(info)]. *)
Definition get_or_create_conn_info (tg fd : Z) : M Maps Z ConnInfo :=
  let tgid_fd := gen_tgid_fd tg fd in
  conn_info ← init_conn_info tg fd ConnInfo_default;
  found ← gets (λ s, CONN_INFO_MAP s !! tgid_fd);
  match found with
  | Some info => mret info
  | None => conn_info_insert tgid_fd conn_info;; mret conn_info
  end.

(** ** Parsing of addresses *)

(** [&mut conn_info]: what is written before an error stays written, so the
    argument is returned in both cases. *)
Definition parse_sock_data (sk : Z) (c : ConnInfo) : result Z Z * ConnInfo :=
  match read_sock_common k sk with
  | Err e => (Err e, c)
  | Ok sc =>
      let ports := with_ports (from_be16 (skc_num sc)) (from_be16 (skc_dport sc)) in
      if decide (skc_family sc = AF_INET) then
        (Ok 0, ports (with_addr4 (from_be32 (skc_rcv_saddr sc)) (from_be32 (skc_daddr sc))
                        (with_family AF_INET c)))
      else if decide (skc_family sc = AF_INET6) then
        (Ok 0, ports (with_addr6 (skc_v6_rcv_saddr sc) (skc_v6_daddr sc) (with_family AF_INET6 c)))
      else (Err 1, c)
  end.

Definition parse_sockaddr_data (sa : Z) (c : ConnInfo) : result Z Z * ConnInfo :=
  match read_sa_family k sa with
  | Err e => (Err e, c)
  | Ok fam =>
      let c := with_family fam c in
      if decide (fam = AF_INET) then
        match read_sockaddr_in k sa with
        | Err e => (Err e, c)
        | Ok sa_in => (Ok 0, with_ports (src_port c) (from_be16 (sin_port sa_in))
                               (with_addr4 (src_addr_in4 c) (from_be32 (s_addr sa_in)) c))
        end
      else if decide (fam = AF_INET6) then
        match read_sockaddr_in6 k sa with
        | Err e => (Err e, c)
        | Ok sa_in6 => (Ok 0, with_ports (src_port c) (from_be16 (sin6_port sa_in6))
                                (with_addr6 (src_addr_in6 c) (u6_addr8 sa_in6) c))
        end
      else (Err 1, c)
  end.

(** ** Control events *)

Record OpenEventArgs := {
  oe_tgid : Z; oe_fd : Z; oe_sockaddr : Z; oe_sk : Z; oe_role : EndpointRole;
  oe_source_fn : SourceFunction }.

Definition control_output (e : SocketControlEvent) : M Maps Z unit :=
  modify (λ s, set_SOCKET_CONTROL_EVENTS (SOCKET_CONTROL_EVENTS s ++ [e]) s).

Definition control_event (c : ConnInfo) (ty : ControlEventType) (src_fn : SourceFunction)
    (ts w r : Z) : SocketControlEvent := {|
  ce_id := id c; event_type := ty; ce_sa_family := sa_family c; ce_timestamp_ns := ts;
  ce_source_function := src_fn; ce_role := role c;
  ce_src_addr_in4 := src_addr_in4 c; ce_src_addr_in6 := src_addr_in6 c; ce_src_port := src_port c;
  ce_dst_addr_in4 := dst_addr_in4 c; ce_dst_addr_in6 := dst_addr_in6 c; ce_dst_port := dst_port c;
  ce_write_bytes := w; ce_read_bytes := r |}.

Definition submit_open_event (args : OpenEventArgs) : M Maps Z Z :=
  c0 ← init_conn_info (oe_tgid args) (oe_fd args) ConnInfo_default;
  let c1 := with_role (oe_role args) c0 in
  let '(r, conn_info) :=
    if negb (oe_sk args =? 0) then parse_sock_data (oe_sk args) c1
    else if negb (oe_sockaddr args =? 0) then parse_sockaddr_data (oe_sockaddr args) c1
    else (Ok 0, c1) in
  lift r;;
  conn_info_insert (gen_tgid_fd (oe_tgid args) (oe_fd args)) conn_info;;
  if negb (should_trace_sockaddr_family (sa_family conn_info)) then mret 0
  else
    ts ← now;
    control_output (control_event conn_info Open (oe_source_fn args) ts 0 0);;
    mret 0.

Definition submit_close_event (c : ConnInfo) (src_fn : SourceFunction) : M Maps Z Z :=
  ts ← now;
  control_output (control_event c Close src_fn ts (write_bytes c) (read_bytes c));;
  mret 0.

(** ** Data events

    The event lives in the per-CPU buffer and is changed in place. *)

Definition update_inner (f : SocketDataEventInner → SocketDataEventInner) : M Maps Z unit :=
  modify (λ s, set_SOCKET_DATA_EVENT_BUFFER
                 ((λ e, {| inner := f (inner e); msg := msg e |}) <$> SOCKET_DATA_EVENT_BUFFER s) s).

Definition with_sizes size bufsize (i : SocketDataEventInner) : SocketDataEventInner := {|
  de_timestamp_ns := de_timestamp_ns i; de_id := de_id i; de_protocol := de_protocol i;
  de_role := de_role i; direction := direction i; ssl := ssl i;
  de_source_function := de_source_function i; position := position i;
  msg_size := size; msg_buf_size := bufsize |}.
Definition with_position p (i : SocketDataEventInner) : SocketDataEventInner := {|
  de_timestamp_ns := de_timestamp_ns i; de_id := de_id i; de_protocol := de_protocol i;
  de_role := de_role i; direction := direction i; ssl := ssl i;
  de_source_function := de_source_function i; position := p;
  msg_size := msg_size i; msg_buf_size := msg_buf_size i |}.

(** [SOCKET_DATA_EVENTS.output_with_size]: the event and the bytes sent of it. *)
Definition data_output (size : Z) : M Maps Z unit :=
  modify (λ s, match SOCKET_DATA_EVENT_BUFFER s with
               | Some e => set_SOCKET_DATA_EVENTS (SOCKET_DATA_EVENTS s ++ [(e, size)]) s
               | None => s
               end).

(** [bpf_probe_read_user_buf(buf, msg[..n])] *)
Definition read_msg (b n : Z) : M Maps Z unit := λ s,
  match read_user_buf k b n with
  | Err e => (Err e, s)
  | Ok bytes =>
      (Ok (), set_SOCKET_DATA_EVENT_BUFFER
                ((λ e, {| inner := inner e; msg := bytes ++ drop (Z.to_nat n) (msg e) |})
                   <$> SOCKET_DATA_EVENT_BUFFER s) s)
  end.

Definition perf_submit_buf (b buf_size : Z) : M Maps Z Z :=
  update_inner (λ i, with_sizes (as_u32 buf_size) (msg_buf_size i) i);;
  if buf_size =? 0 then mret 0
  else
    let buf_size_minus_1 := buf_size - 1 in
    amount_copied ←
      (if buf_size_minus_1 <? MAX_MSG_SIZE then read_msg b buf_size;; mret buf_size
       else if buf_size_minus_1 <? 2147483647 then read_msg b MAX_MSG_SIZE;; mret MAX_MSG_SIZE
       else mret 0);
    if 0 <? amount_copied then
      update_inner (λ i, with_sizes (msg_size i) (as_u32 amount_copied) i);;
      data_output (SIZE_OF_INNER + amount_copied);;
      mret 0
    else mret 0.

(** The loop over the chunks: [n] iterations are left. *)
Fixpoint submit_chunks (n : nat) (b buf_size bytes_submitted : Z) : M Maps Z Z :=
  match n with
  | O => mret 0
  | S n' =>
      let bytes_remaining := buf_size - bytes_submitted in
      let current_size := if (MAX_MSG_SIZE <? bytes_remaining) && negb (n =? 1)%nat
                          then MAX_MSG_SIZE else bytes_remaining in
      perf_submit_buf (b + bytes_submitted) current_size;;
      submit_chunks n' b buf_size (bytes_submitted + current_size)
  end.

Definition submit_data_event (b buf_size : Z) : M Maps Z Z := submit_chunks CHUNK_LIMIT b buf_size 0.

(** The loop over the vector: [n] iterations are left, [i] is the index. *)
Fixpoint submit_iovecs (n : nat) (i : Z) (iov_ iovlen_ total_size bytes_sent : Z) : M Maps Z Z :=
  match n with
  | O => mret 0
  | S n' =>
      if iovlen_ <=? i then mret 0
      else if total_size <=? bytes_sent then mret 0
      else
        iov_cpy ← lift (read_iovec k (iov_ + i * SIZE_OF_IOVEC));
        let iov_size := Z.min (total_size - bytes_sent) (iov_len iov_cpy) in
        perf_submit_buf (iov_base iov_cpy) iov_size;;
        update_inner (λ e, with_position (as_u64 (position e + iov_size)) e);;
        submit_iovecs n' (i + 1) iov_ iovlen_ total_size (bytes_sent + iov_size)
  end.

Definition submit_data_event_iovecs (iov_ iovlen_ total_size : Z) : M Maps Z Z :=
  submit_iovecs LOOP_LIMIT 0 iov_ iovlen_ total_size 0.

Definition populate_socket_data_event (src_fn : SourceFunction) (dir : TrafficDirection)
    (c : ConnInfo) : M Maps Z unit :=
  buffer ← gets SOCKET_DATA_EVENT_BUFFER;
  match buffer with
  | None => throw 1
  | Some _ =>
      ts ← now;
      update_inner (λ i, {|
        de_timestamp_ns := ts; de_id := id c; de_protocol := protocol c; de_role := role c;
        direction := dir; ssl := ssl i; de_source_function := src_fn;
        position := as_u64 (match dir with Egress => write_bytes c | Ingress => read_bytes c end);
        msg_size := msg_size i; msg_buf_size := msg_buf_size i |})
  end.

(** ** Statistics *)

(** A copy of the buffer is filled; [sa_family] keeps the buffer's value. *)
Definition populate_conn_stats_event (c : ConnInfo) : M Maps Z ConnStatsEvent :=
  buffer ← gets CONN_STATS_EVENT_BUFFER;
  e ← lift (ok_or 1 buffer);
  ts ← now;
  mret {| cs_timestamp_ns := ts; cs_id := id c; cs_sa_family := cs_sa_family e;
          cs_src_addr_in4 := src_addr_in4 c; cs_src_addr_in6 := src_addr_in6 c;
          cs_src_port := src_port c; cs_dst_addr_in4 := dst_addr_in4 c;
          cs_dst_addr_in6 := dst_addr_in6 c; cs_dst_port := dst_port c; cs_role := role c;
          cs_write_bytes := write_bytes c; cs_read_bytes := read_bytes c; event_flags := 0 |}.

Definition stats_output (e : ConnStatsEvent) : M Maps Z unit :=
  modify (λ s, set_CONN_STATS_EVENTS (CONN_STATS_EVENTS s ++ [e]) s).

(** The counters of the caller's [conn_info] are updated; the result is its new
    value. *)
Definition update_conn_stats (c : ConnInfo) (dir : TrafficDirection) (bytes_count : Z) :
    M Maps Z ConnInfo :=
  let c := match dir with
           | Egress => with_bytes (as_i64 (write_bytes c + bytes_count)) (read_bytes c)
                         (prev_reported_bytes c) c
           | Ingress => with_bytes (write_bytes c) (as_i64 (read_bytes c + bytes_count))
                          (prev_reported_bytes c) c
           end in
  let total_bytes := as_i64 (write_bytes c + read_bytes c) in
  if as_i64 (prev_reported_bytes c + CONN_STATS_DATA_THRESHOLD) <=? total_bytes then
    event ← populate_conn_stats_event c;
    stats_output event;;
    mret (with_bytes (write_bytes c) (read_bytes c) total_bytes c)
  else mret c.

(** ** Traffic class *)

Definition update_traffic_class (c : ConnInfo) (dir : TrafficDirection) (b count : Z) : ConnInfo :=
  let n := as_u32 (protocol_total_count c + 1) in
  let m := infer_protocol b count in
  match pm_protocol m with
  | ProtoUnknown => with_protocol (protocol c) n c
  | p =>
      let c' := with_protocol p n c in
      if decide (role c = RoleUnknown ∧ msg_type m ≠ MsgUnknown) then
        with_role (if xorb (bool_decide (dir = Egress)) (bool_decide (msg_type m = Response))
                   then Client else Server) c'
      else c'
  end.

(** The first non-empty vector decides; [n] iterations are left. *)
Fixpoint classify_vecs (n : nat) (i : Z) (c : ConnInfo) (dir : TrafficDirection)
    (iov_ iovlen_ bytes_count : Z) : result Z ConnInfo :=
  match n with
  | O => Ok c
  | S n' =>
      if iovlen_ <=? i then Ok c
      else
        v ← read_iovec k (iov_ + i * SIZE_OF_IOVEC);
        let buf_size := Z.min bytes_count (as_i64 (iov_len v)) in
        if negb (buf_size =? 0) then
          Ok (update_traffic_class c dir (iov_base v) (as_u64 buf_size))
        else classify_vecs n' (i + 1) c dir iov_ iovlen_ bytes_count
  end.

(** ** Processing of a system call's data *)

Record ProcessDataArgs := {
  vecs : bool; pid_tgid : Z; pd_direction : TrafficDirection; bytes_count : Z }.

Definition process_data (args : DataArgs) (extra : ProcessDataArgs) : M Maps Z Z :=
  let tg := Z.shiftr (pid_tgid extra) 32 in
  if negb (vecs extra) && (buf args =? 0) then mret 0
  else if vecs extra && ((iov args =? 0) || (iovlen args <=? 0)) then mret 0
  else if da_fd args <? 0 then mret 0
  else if bytes_count extra <=? 0 then mret 0
  else
    match_result ← gets (λ s, match_trace_tgid s tg);
    if decide (match_result = Unmatched) then mret 0
    else
      let force_trace_tgid := bool_decide (match_result = Matched) in
      conn_info ← get_or_create_conn_info tg (da_fd args);
      if negb (should_trace_conn conn_info) then mret 0
      else
        conn_disabled ← gets (λ s, CONN_DISABLED_MAP s !! gen_tgid_fd tg (da_fd args));
        let conn_disabled_tsid := default 0 conn_disabled in
        conn_info ← (if vecs extra then
                       lift (classify_vecs PROTOCOL_VEC_LIMIT 0 conn_info (pd_direction extra)
                               (iov args) (iovlen args) (bytes_count extra))
                     else mret (update_traffic_class conn_info (pd_direction extra) (buf args)
                                  (bytes_count extra)));
        send ← gets (λ s, should_send_data s tg conn_disabled_tsid force_trace_tgid conn_info);
        (if send : bool then
           populate_socket_data_event (source_function args) (pd_direction extra) conn_info;;
           if vecs extra then
             submit_data_event_iovecs (iov args) (iovlen args) (bytes_count extra)
           else submit_data_event (buf args) (bytes_count extra)
         else mret 0);;
        update_conn_stats conn_info (pd_direction extra) (bytes_count extra);;
        mret 0.

Definition process_syscall_data (pid_tgid_ : Z) (dir : TrafficDirection) (args : DataArgs)
    (count : Z) : M Maps Z Z :=
  process_data args {| vecs := false; pid_tgid := pid_tgid_; pd_direction := dir; bytes_count := count |}.

Definition process_syscall_data_vecs (pid_tgid_ : Z) (dir : TrafficDirection) (args : DataArgs)
    (count : Z) : M Maps Z Z :=
  process_data args {| vecs := true; pid_tgid := pid_tgid_; pd_direction := dir; bytes_count := count |}.
End tracer.

(** ** Keys of connections *)

Lemma gen_tgid_fd_arith tg fd :
  in_u 32 tg → 0 ≤ fd < 2 ^ 31 → gen_tgid_fd tg fd = tg * 2 ^ 32 + fd.
Proof.
  intros Htg Hfd. unfold in_u in Htg. unfold gen_tgid_fd.
  rewrite (wrapu_id 64 fd) by (unfold in_u; lia).
  rewrite wrapu_id.
  - apply lor_shiftl_add; lia.
  - rewrite Z.shiftl_mul_pow2 by lia. unfold in_u. lia.
Qed.

(** Two threads' descriptors share a connection key only if the process and
    the descriptor are the same, for every valid descriptor; a negative
    descriptor is sign-extended over the process id, so all processes collide. *)
Lemma gen_tgid_fd_injective :
  (∀ tg fd tg' fd', in_u 32 tg → in_u 32 tg' → 0 ≤ fd < 2 ^ 31 → 0 ≤ fd' < 2 ^ 31 →
     gen_tgid_fd tg fd = gen_tgid_fd tg' fd' → tg = tg' ∧ fd = fd') ∧
  (∀ tg, in_u 32 tg → gen_tgid_fd tg (-1) = 2 ^ 64 - 1).
Proof.
  split.
  - intros tg fd tg' fd' Htg Htg' Hfd Hfd'. rewrite !gen_tgid_fd_arith by done. lia.
  - intros tg Htg. unfold gen_tgid_fd. change (as_u64 (-1)) with (2 ^ 64 - 1).
    apply Z.bits_inj'. intros n Hn. rewrite Z.lor_spec.
    assert (∀ m, 0 ≤ m → Z.testbit (2 ^ 64 - 1) m = (m <? 64)) as Hones.
    { intros m Hm. change (2 ^ 64 - 1) with (Z.pred (2 ^ 64)). rewrite <- Z.ones_equiv.
      destruct (Z.ltb_spec m 64); [by apply Z.ones_spec_low|apply Z.ones_spec_high; lia]. }
    rewrite Hones by done. destruct (Z.ltb_spec n 64) as [Hlt|Hge]; [by rewrite orb_true_r|].
    rewrite orb_false_r. unfold wrapu. rewrite Z.mod_pow2_bits_high by lia. done.
Qed.

(** ** Roles *)

Lemma infer_protocol_http k b n :
  pm_protocol (infer_protocol k b n) = HTTP ∧ msg_type (infer_protocol k b n) ≠ MsgUnknown ∨
  pm_protocol (infer_protocol k b n) = ProtoUnknown ∧ msg_type (infer_protocol k b n) = MsgUnknown.
Proof. unfold infer_protocol. repeat case_match; simpl; auto. Qed.

(** The role of an endpoint is decided once: a known role never changes, and an
    unknown one becomes Client for a request it sends or a response it receives,
    Server for a response it sends or a request it receives; a message that is
    not recognised decides nothing. *)
Lemma role_decided_once k c d b n :
  role (update_traffic_class k c d b n) =
  match role c with
  | RoleUnknown =>
      match msg_type (infer_protocol k b n), d with
      | MsgUnknown, _ => RoleUnknown
      | Request, Egress => Client
      | Response, Egress => Server
      | Request, Ingress => Server
      | Response, Ingress => Client
      end
  | r => r
  end.
Proof.
  unfold update_traffic_class.
  destruct (infer_protocol_http k b n) as [[Hp Hm]|[Hp Hm]]; rewrite Hp.
  - case_decide as Hd.
    + destruct Hd as [Hr _]. rewrite Hr. by destruct (msg_type _), d.
    + simpl. destruct (role c); try done. destruct (msg_type _); try done; tauto.
  - simpl. rewrite Hm. by destruct (role c).
Qed.

(** ** Traffic of the agent itself and of other targets *)

Section filters.
Context {B : SocketMaps} (k : Kernel) (s0 : Maps).

(** Nothing was sent and the controls are the same. *)
Definition silent (s : Maps) : Prop :=
  SOCKET_DATA_EVENTS s = SOCKET_DATA_EVENTS s0 ∧ CONTROL_VALUES s = CONTROL_VALUES s0.

Lemma now_silent : holds silent (now k) (λ _, True).
Proof. intros s Hs. by split. Qed.

Lemma get_or_create_silent tg fd : holds silent (get_or_create_conn_info k tg fd) (λ _, True).
Proof.
  unfold get_or_create_conn_info, init_conn_info, init_conn_id, gen_tsid.
  eapply (holds_bind _ _ _ (λ _, True)).
  { eapply (holds_bind _ _ _ (λ _, True)); [|intros; by apply holds_ret].
    eapply holds_bind; [apply now_silent|intros; by apply holds_ret]. }
  intros c _. eapply (holds_bind _ _ _ (λ _, True)); [by apply holds_gets|]. intros [info|] _.
  - by apply holds_ret.
  - eapply (holds_bind _ _ _ (λ _, True)); [|intros; by apply holds_ret].
    intros s Hs. unfold state_of, conn_info_insert, map_insert_op.
    by destruct (bpf_update _ _ _).
Qed.

Lemma update_conn_stats_silent c d n : holds silent (update_conn_stats k c d n) (λ _, True).
Proof.
  unfold update_conn_stats. case_match; [|by apply holds_ret].
  eapply (holds_bind _ _ _ (λ _, True)).
  { unfold populate_conn_stats_event. eapply (holds_bind _ _ _ (λ _, True)); [by apply holds_gets|].
    intros o _. eapply (holds_bind _ _ _ (λ _, True)); [by apply holds_lift|]. intros e _.
    eapply holds_bind; [apply now_silent|]. intros. by apply holds_ret. }
  intros e _. eapply (holds_bind _ _ _ (λ _, True)); [|intros; by apply holds_ret].
  apply holds_modify; [|done]. intros s Hs. exact Hs.
Qed.

Lemma process_data_silent args extra :
  is_self_tgid s0 (Z.shiftr (pid_tgid extra) 32) = true → holds silent (process_data k args extra) (λ _, True).
Proof.
  intros Hself. unfold process_data. do 4 (case_match; [by apply holds_ret|]).
  eapply (holds_bind _ _ _ (λ _, True)); [by apply holds_gets|]. intros m _.
  case_decide; [by apply holds_ret|].
  eapply holds_bind; [apply get_or_create_silent|]. intros c _.
  case_match; [by apply holds_ret|].
  eapply (holds_bind _ _ _ (λ _, True)); [by apply holds_gets|]. intros dis _.
  eapply (holds_bind _ _ _ (λ _, True)); [case_match; [by apply holds_lift|by apply holds_ret]|].
  intros c' _. eapply (holds_bind _ _ _ (λ b, b = false)).
  { apply holds_gets. intros s [_ Hcv]. unfold should_send_data.
    assert (is_self_tgid s (Z.shiftr (pid_tgid extra) 32) = true) as ->; [|done].
    rewrite <- Hself. unfold is_self_tgid. by rewrite Hcv. }
  intros b ->. eapply (holds_bind _ _ _ (λ _, True)); [by apply holds_ret|]. intros _ _.
  eapply holds_bind; [apply update_conn_stats_silent|]. intros. by apply holds_ret.
Qed.
End filters.
