(* ===== verification/SocketProbes.v ===== *)
(** * socket-tracer: the probes

    [socket-tracer-ebpf/src/kprobes/*.rs]: a kprobe on the entry of a system
    call keeps its arguments in an [ACTIVE_*] map under the thread's
    [pid_tgid], a kretprobe on its return processes and removes them.  The
    probe entry points return the exit code of their [try_] function. *)
From S2P Require Import Prelude RustStd Bpf SocketData SocketTracer.
From stdpp Require Import base gmap strings list relations.
From Stdlib Require Import ZArith Lia.

Local Open Scope Z_scope.

(** ** Registers *)

(** [ctx.arg(n).ok_or(1)?] and [ctx.ret().ok_or(1)?] at the type they are read. *)
Definition arg_i32 (ctx : ProbeContext) (n : nat) : result Z Z := ok_or 1 (as_i32 <$> arg ctx n).
Definition arg_u32 (ctx : ProbeContext) (n : nat) : result Z Z := ok_or 1 (as_u32 <$> arg ctx n).
Definition arg_u64 (ctx : ProbeContext) (n : nat) : result Z Z := ok_or 1 (as_u64 <$> arg ctx n).
Definition ret_i32 (ctx : ProbeContext) : result Z Z := ok_or 1 (as_i32 <$> ret ctx).
Definition ret_u32 (ctx : ProbeContext) : result Z Z := ok_or 1 (as_u32 <$> ret ctx).
Definition ret_i64 (ctx : ProbeContext) : result Z Z := ok_or 1 (as_i64 <$> ret ctx).
Definition ret_u64 (ctx : ProbeContext) : result Z Z := ok_or 1 (as_u64 <$> ret ctx).

(** The [DataArgs] of a call with a buffer and of a call with a vector. *)
Definition buf_args (src : SourceFunction) (fd b : Z) : DataArgs := {|
  source_function := src; iovlen := 0; buf := b; iov := 0; sock_event := AFalse; msg_len := 0;
  da_fd := fd |}.
Definition vec_args (src : SourceFunction) (ev : AlignedBool) (fd iov_ iovlen_ len : Z) : DataArgs := {|
  source_function := src; iovlen := iovlen_; buf := 0; iov := iov_; sock_event := ev; msg_len := len;
  da_fd := fd |}.

Section probes.
Context {B : SocketMaps} (k : Kernel).

(** ** Map operations *)

Definition accept_insert := map_insert_op ACTIVE_ACCEPT_MAP set_ACTIVE_ACCEPT_MAP.
Definition accept_remove := map_remove_op ACTIVE_ACCEPT_MAP set_ACTIVE_ACCEPT_MAP.
Definition accept_get (key : Z) : M Maps Z _ :=
  found ← gets (λ s, ACTIVE_ACCEPT_MAP s !! key); lift (ok_or 1 found).
Definition connect_insert := map_insert_op ACTIVE_CONNECT_MAP set_ACTIVE_CONNECT_MAP.
Definition connect_remove := map_remove_op ACTIVE_CONNECT_MAP set_ACTIVE_CONNECT_MAP.
Definition connect_get (key : Z) : M Maps Z _ :=
  found ← gets (λ s, ACTIVE_CONNECT_MAP s !! key); lift (ok_or 1 found).
Definition write_insert := map_insert_op ACTIVE_WRITE_MAP set_ACTIVE_WRITE_MAP.
Definition write_remove := map_remove_op ACTIVE_WRITE_MAP set_ACTIVE_WRITE_MAP.
Definition write_get (key : Z) : M Maps Z _ :=
  found ← gets (λ s, ACTIVE_WRITE_MAP s !! key); lift (ok_or 1 found).
Definition read_insert := map_insert_op ACTIVE_READ_MAP set_ACTIVE_READ_MAP.
Definition read_remove := map_remove_op ACTIVE_READ_MAP set_ACTIVE_READ_MAP.
Definition read_get (key : Z) : M Maps Z _ :=
  found ← gets (λ s, ACTIVE_READ_MAP s !! key); lift (ok_or 1 found).
Definition sendfile_insert := map_insert_op ACTIVE_SENDFILE_MAP set_ACTIVE_SENDFILE_MAP.
Definition sendfile_remove := map_remove_op ACTIVE_SENDFILE_MAP set_ACTIVE_SENDFILE_MAP.
Definition sendfile_get (key : Z) : M Maps Z _ :=
  found ← gets (λ s, ACTIVE_SENDFILE_MAP s !! key); lift (ok_or 1 found).
Definition close_insert := map_insert_op ACTIVE_CLOSE_MAP set_ACTIVE_CLOSE_MAP.
Definition close_remove := map_remove_op ACTIVE_CLOSE_MAP set_ACTIVE_CLOSE_MAP.
Definition close_get (key : Z) : M Maps Z _ :=
  found ← gets (λ s, ACTIVE_CLOSE_MAP s !! key); lift (ok_or 1 found).

(** ** [accept.rs] *)

Definition try_entry_accept (ctx : ProbeContext) : M Maps Z Z :=
  sockaddr ← lift (arg_u64 ctx 1);
  accept_insert (current_pid_tgid k) {| aa_sockaddr := sockaddr; aa_sock := 0 |};;
  mret 0.

Definition process_syscall_accept (ctx : ProbeContext) (pid_tgid_ : Z) (args : AcceptArgs) :
    M Maps Z Z :=
  let tg := Z.shiftr pid_tgid_ 32 in
  ret_fd ← lift (ret_i32 ctx);
  m ← gets (λ s, match_trace_tgid s tg);
  if decide (m = Unmatched) then mret 0
  else if ret_fd <? 0 then mret 0
  else
    submit_open_event k {| oe_tgid := tg; oe_fd := ret_fd; oe_sockaddr := aa_sockaddr args;
                           oe_sk := aa_sock args; oe_role := Server;
                           oe_source_fn := SyscallAccept |};;
    mret 0.

Definition try_ret_accept (ctx : ProbeContext) : M Maps Z Z :=
  args ← accept_get (current_pid_tgid k);
  res ← attempt (process_syscall_accept ctx (current_pid_tgid k) args);
  accept_remove (current_pid_tgid k);;
  lift res.

(** ** [accept4.rs] *)

Definition try_entry_accept4 (ctx : ProbeContext) : M Maps Z Z :=
  sockaddr ← lift (arg_u64 ctx 1);
  accept_insert (current_pid_tgid k) {| aa_sockaddr := sockaddr; aa_sock := 0 |};;
  mret 0.

Definition process_syscall_accept4 (ctx : ProbeContext) (pid_tgid_ : Z) (args : AcceptArgs) :
    M Maps Z Z :=
  let tg := Z.shiftr pid_tgid_ 32 in
  ret_fd ← lift (ret_i32 ctx);
  m ← gets (λ s, match_trace_tgid s tg);
  if decide (m = Unmatched) then mret 0
  else if ret_fd <? 0 then mret 0
  else
    submit_open_event k {| oe_tgid := tg; oe_fd := ret_fd; oe_sockaddr := aa_sockaddr args;
                           oe_sk := aa_sock args; oe_role := Server;
                           oe_source_fn := SyscallAccept |};;
    mret 0.

Definition try_ret_accept4 (ctx : ProbeContext) : M Maps Z Z :=
  args ← accept_get (current_pid_tgid k);
  res ← attempt (process_syscall_accept4 ctx (current_pid_tgid k) args);
  accept_remove (current_pid_tgid k);;
  lift res.

(** ** [sockalloc.rs] *)

(** [get_ptr_mut]: the entry is changed in place. *)
Definition try_ret_sock_alloc (ctx : ProbeContext) : M Maps Z Z :=
  sk ← lift (ret_u64 ctx);
  args ← accept_get (current_pid_tgid k);
  (if aa_sock args =? 0 then
     modify (λ s, set_ACTIVE_ACCEPT_MAP
                    (<[current_pid_tgid k := {| aa_sockaddr := aa_sockaddr args; aa_sock := sk |}]>
                       (ACTIVE_ACCEPT_MAP s)) s)
   else mret ());;
  mret 0.

(** ** [connect.rs] *)

Definition try_entry_connect (ctx : ProbeContext) : M Maps Z Z :=
  fd ← lift (arg_i32 ctx 0);
  sockaddr ← lift (arg_u64 ctx 1);
  connect_insert (current_pid_tgid k) {| ca_fd := fd; ca_sockaddr := sockaddr |};;
  mret 0.

Definition process_syscall_connect (ctx : ProbeContext) (pid_tgid_ : Z) (args : ConnectArgs) :
    M Maps Z Z :=
  let tg := Z.shiftr pid_tgid_ 32 in
  retval ← lift (ret_i32 ctx);
  m ← gets (λ s, match_trace_tgid s tg);
  if decide (m = Unmatched) then mret 0
  else if ca_fd args <? 0 then mret 0
  else if retval <? 0 then mret 0
  else
    submit_open_event k {| oe_tgid := tg; oe_fd := ca_fd args; oe_sockaddr := ca_sockaddr args;
                           oe_sk := 0; oe_role := Client; oe_source_fn := SyscallConnect |};;
    mret 0.

Definition try_ret_connect (ctx : ProbeContext) : M Maps Z Z :=
  args ← connect_get (current_pid_tgid k);
  res ← attempt (process_syscall_connect ctx (current_pid_tgid k) args);
  connect_remove (current_pid_tgid k);;
  lift res.

(** ** [close.rs] *)

Definition try_entry_close (ctx : ProbeContext) : M Maps Z Z :=
  fd ← lift (arg_i32 ctx 0);
  close_insert (current_pid_tgid k) {| cl_fd := fd |};;
  mret 0.

Definition with_flags f (e : ConnStatsEvent) : ConnStatsEvent := {|
  cs_timestamp_ns := cs_timestamp_ns e; cs_id := cs_id e; cs_sa_family := cs_sa_family e;
  cs_src_addr_in4 := cs_src_addr_in4 e; cs_src_addr_in6 := cs_src_addr_in6 e;
  cs_src_port := cs_src_port e; cs_dst_addr_in4 := cs_dst_addr_in4 e;
  cs_dst_addr_in6 := cs_dst_addr_in6 e; cs_dst_port := cs_dst_port e; cs_role := cs_role e;
  cs_write_bytes := cs_write_bytes e; cs_read_bytes := cs_read_bytes e; event_flags := f |}.

Definition process_syscall_close (ctx : ProbeContext) (pid_tgid_ : Z) (args : CloseArgs) :
    M Maps Z Z :=
  let tg := Z.shiftr pid_tgid_ 32 in
  retval ← lift (ret_i32 ctx);
  if cl_fd args <? 0 then mret 0
  else if retval <? 0 then mret 0
  else
    m ← gets (λ s, match_trace_tgid s tg);
    if decide (m = Unmatched) then mret 0
    else
      let tgid_fd := gen_tgid_fd tg (cl_fd args) in
      found ← gets (λ s, CONN_INFO_MAP s !! tgid_fd);
      conn_info ← lift (ok_or 1 found);
      (if should_trace_sockaddr_family (sa_family conn_info)
          || (0 <? write_bytes conn_info) || (0 <? read_bytes conn_info) then
         submit_close_event k conn_info SyscallClose;;
         event ← populate_conn_stats_event k conn_info;
         stats_output (with_flags (Z.lor (event_flags event) (Z.shiftl 1 1)) event)
       else mret ());;
      conn_info_remove tgid_fd;;
      mret 0.

Definition try_ret_close (ctx : ProbeContext) : M Maps Z Z :=
  args ← close_get (current_pid_tgid k);
  res ← attempt (process_syscall_close ctx (current_pid_tgid k) args);
  close_remove (current_pid_tgid k);;
  lift res.

(** ** [read.rs] *)

Definition try_entry_read (ctx : ProbeContext) : M Maps Z Z :=
  fd ← lift (arg_i32 ctx 0);
  buf_ ← lift (arg_u64 ctx 1);
  read_insert (current_pid_tgid k) (buf_args SyscallRead fd buf_);;
  mret 0.

Definition try_ret_read (ctx : ProbeContext) : M Maps Z Z :=
  count ← lift (ret_i64 ctx);
  args ← read_get (current_pid_tgid k);
  res ← (if AlignedBool_into_bool (sock_event args) then
           attempt (process_syscall_data k (current_pid_tgid k) Ingress args count)
         else mret (Ok 0));
  read_remove (current_pid_tgid k);;
  lift res.

(** ** [write.rs] *)

Definition try_entry_write (ctx : ProbeContext) : M Maps Z Z :=
  fd ← lift (arg_i32 ctx 0);
  buf_ ← lift (arg_u64 ctx 1);
  write_insert (current_pid_tgid k) (buf_args SyscallWrite fd buf_);;
  mret 0.

Definition try_ret_write (ctx : ProbeContext) : M Maps Z Z :=
  count ← lift (ret_i64 ctx);
  args ← write_get (current_pid_tgid k);
  process_syscall_data k (current_pid_tgid k) Egress args count;;
  write_remove (current_pid_tgid k);;
  mret 0.

(** ** [recv.rs] *)

Definition try_entry_recv (ctx : ProbeContext) : M Maps Z Z :=
  fd ← lift (arg_i32 ctx 0);
  buf_ ← lift (arg_u64 ctx 1);
  read_insert (current_pid_tgid k) (buf_args SyscallRecv fd buf_);;
  mret 0.

Definition try_ret_recv (ctx : ProbeContext) : M Maps Z Z :=
  count ← lift (ret_i64 ctx);
  args ← read_get (current_pid_tgid k);
  res ← attempt (process_syscall_data k (current_pid_tgid k) Ingress args count);
  read_remove (current_pid_tgid k);;
  lift res.

(** ** [send.rs] *)

Definition try_entry_send (ctx : ProbeContext) : M Maps Z Z :=
  fd ← lift (arg_i32 ctx 0);
  buf_ ← lift (arg_u64 ctx 1);
  write_insert (current_pid_tgid k) (buf_args SyscallSend fd buf_);;
  mret 0.

Definition try_ret_send (ctx : ProbeContext) : M Maps Z Z :=
  count ← lift (ret_i64 ctx);
  args ← write_get (current_pid_tgid k);
  res ← attempt (process_syscall_data k (current_pid_tgid k) Egress args count);
  write_remove (current_pid_tgid k);;
  lift res.

(** ** [recvfrom.rs] *)

Definition try_entry_recvfrom (ctx : ProbeContext) : M Maps Z Z :=
  fd ← lift (arg_i32 ctx 0);
  buf_ ← lift (arg_u64 ctx 1);
  read_insert (current_pid_tgid k) (buf_args SyscallRecvFrom fd buf_);;
  mret 0.

Definition try_ret_recvfrom (ctx : ProbeContext) : M Maps Z Z :=
  count ← lift (ret_i64 ctx);
  args ← read_get (current_pid_tgid k);
  process_syscall_data k (current_pid_tgid k) Ingress args count;;
  read_remove (current_pid_tgid k);;
  mret 0.

(** ** [sendto.rs] *)

Definition try_entry_sendto (ctx : ProbeContext) : M Maps Z Z :=
  fd ← lift (arg_i32 ctx 0);
  buf_ ← lift (arg_u64 ctx 1);
  dest_addr ← lift (arg_u64 ctx 4);
  (if negb (dest_addr =? 0) then
     connect_insert (current_pid_tgid k) {| ca_fd := fd; ca_sockaddr := dest_addr |}
   else mret ());;
  write_insert (current_pid_tgid k) (buf_args SyscallSendTo fd buf_);;
  mret 0.

Definition try_ret_sendto (ctx : ProbeContext) : M Maps Z Z :=
  count ← lift (ret_i64 ctx);
  connect_remove (current_pid_tgid k);;
  args ← write_get (current_pid_tgid k);
  res ← attempt (process_syscall_data k (current_pid_tgid k) Egress args count);
  write_remove (current_pid_tgid k);;
  lift res.

(** ** [readv.rs] *)

Definition try_entry_readv (ctx : ProbeContext) : M Maps Z Z :=
  fd ← lift (arg_i32 ctx 0);
  iov_ ← lift (arg_u64 ctx 1);
  iovlen_ ← lift (arg_u64 ctx 2);
  read_insert (current_pid_tgid k) (vec_args SyscallReadV AFalse fd iov_ iovlen_ 0);;
  mret 0.

Definition try_ret_readv (ctx : ProbeContext) : M Maps Z Z :=
  count ← lift (ret_i64 ctx);
  args ← read_get (current_pid_tgid k);
  res ← (if AlignedBool_into_bool (sock_event args) then
           attempt (process_syscall_data_vecs k (current_pid_tgid k) Ingress args count)
         else mret (Ok 0));
  read_remove (current_pid_tgid k);;
  lift res.

(** ** [writev.rs] *)

Definition try_entry_writev (ctx : ProbeContext) : M Maps Z Z :=
  fd ← lift (arg_i32 ctx 0);
  iov_ ← lift (arg_u64 ctx 1);
  iovlen_ ← lift (arg_u64 ctx 2);
  write_insert (current_pid_tgid k) (vec_args SyscallWriteV AFalse fd iov_ iovlen_ 0);;
  mret 0.

Definition try_ret_writev (ctx : ProbeContext) : M Maps Z Z :=
  count ← lift (ret_i64 ctx);
  args ← write_get (current_pid_tgid k);
  (if AlignedBool_into_bool (sock_event args) then
     process_syscall_data_vecs k (current_pid_tgid k) Egress args count;; mret ()
   else mret ());;
  write_remove (current_pid_tgid k);;
  mret 0.

(** ** [recvmsg.rs] *)

Definition try_entry_recvmsg (ctx : ProbeContext) : M Maps Z Z :=
  fd ← lift (arg_i32 ctx 0);
  msghdr ← lift (arg_u64 ctx 1);
  if msghdr =? 0 then mret 0
  else
    hdr ← lift (map_err (λ _, 1) (read_user_msghdr k msghdr));
    (if negb (msg_name hdr =? 0) then
       attempt (connect_insert (current_pid_tgid k) {| ca_fd := fd; ca_sockaddr := msg_name hdr |})
     else mret (Ok ()));;
    read_insert (current_pid_tgid k) (vec_args SyscallRecvMsg AFalse fd (msg_iov hdr) (msg_iovlen hdr) 0);;
    mret 0.

Definition try_ret_recvmsg (ctx : ProbeContext) : M Maps Z Z :=
  count ← lift (ret_i64 ctx);
  connect_args ← gets (λ s, ACTIVE_CONNECT_MAP s !! current_pid_tgid k);
  (if decide (is_Some connect_args) then attempt (connect_remove (current_pid_tgid k))
   else mret (Ok ()));;
  args ← read_get (current_pid_tgid k);
  res ← attempt (process_syscall_data_vecs k (current_pid_tgid k) Ingress args count);
  read_remove (current_pid_tgid k);;
  lift res.

(** ** [sendmsg.rs] *)

Definition try_entry_sendmsg (ctx : ProbeContext) : M Maps Z Z :=
  fd ← lift (arg_i32 ctx 0);
  msghdr ← lift (arg_u64 ctx 1);
  if msghdr =? 0 then mret 0
  else
    hdr ← lift (map_err (λ _, 1) (read_user_msghdr k msghdr));
    (if negb (msg_name hdr =? 0) then
       attempt (connect_insert (current_pid_tgid k) {| ca_fd := fd; ca_sockaddr := msg_name hdr |})
     else mret (Ok ()));;
    write_insert (current_pid_tgid k) (vec_args SyscallSendMsg ATrue fd (msg_iov hdr) (msg_iovlen hdr) 0);;
    mret 0.

Definition try_ret_sendmsg (ctx : ProbeContext) : M Maps Z Z :=
  count ← lift (ret_i64 ctx);
  connect_args ← gets (λ s, ACTIVE_CONNECT_MAP s !! current_pid_tgid k);
  (if decide (is_Some connect_args) then attempt (connect_remove (current_pid_tgid k))
   else mret (Ok ()));;
  args ← write_get (current_pid_tgid k);
  res ← attempt (process_syscall_data_vecs k (current_pid_tgid k) Egress args count);
  write_remove (current_pid_tgid k);;
  lift res.

(** ** [recvmmsg.rs] *)

Definition try_entry_recvmmsg (ctx : ProbeContext) : M Maps Z Z :=
  fd ← lift (arg_i32 ctx 0);
  msgvec ← lift (arg_u64 ctx 1);
  vlen ← lift (arg_u32 ctx 2);
  if negb (msgvec =? 0) && (1 <=? vlen) then
    mm ← lift (map_err (λ _, 1) (read_mmsghdr k msgvec));
    let hdr := msg_hdr mm in
    (if negb (msg_name hdr =? 0) then
       attempt (connect_insert (current_pid_tgid k) {| ca_fd := fd; ca_sockaddr := msg_name hdr |})
     else mret (Ok ()));;
    read_insert (current_pid_tgid k)
      (vec_args SyscallRecvMMsg AFalse fd (msg_iov hdr) (msg_iovlen hdr) (mm_msg_len mm));;
    mret 0
  else mret 0.

(** The byte count is the [msg_len] that was read on entry. *)
Definition try_ret_recvmmsg (ctx : ProbeContext) : M Maps Z Z :=
  num_msgs ← lift (ret_u32 ctx);
  connect_args ← gets (λ s, ACTIVE_CONNECT_MAP s !! current_pid_tgid k);
  (if decide (is_Some connect_args) then attempt (connect_remove (current_pid_tgid k))
   else mret (Ok ()));;
  args ← read_get (current_pid_tgid k);
  res ← (if 0 <? num_msgs then
           attempt (process_syscall_data_vecs k (current_pid_tgid k) Ingress args (msg_len args))
         else mret (Ok 0));
  read_remove (current_pid_tgid k);;
  lift res.

(** ** [sendmmsg.rs] *)

Definition try_entry_sendmmsg (ctx : ProbeContext) : M Maps Z Z :=
  fd ← lift (arg_i32 ctx 0);
  msgvec ← lift (arg_u64 ctx 1);
  vlen ← lift (arg_u32 ctx 2);
  if negb (msgvec =? 0) && (1 <=? vlen) then
    mm ← lift (map_err (λ _, 1) (read_mmsghdr k msgvec));
    let hdr := msg_hdr mm in
    (if negb (msg_name hdr =? 0) then
       attempt (connect_insert (current_pid_tgid k) {| ca_fd := fd; ca_sockaddr := msg_name hdr |})
     else mret (Ok ()));;
    write_insert (current_pid_tgid k)
      (vec_args SyscallSendMMsg AFalse fd (msg_iov hdr) (msg_iovlen hdr) (mm_msg_len mm));;
    mret 0
  else mret 0.

(** The byte count is the [msg_len] that was read on entry. *)
Definition try_ret_sendmmsg (ctx : ProbeContext) : M Maps Z Z :=
  num_msgs ← lift (ret_u32 ctx);
  connect_args ← gets (λ s, ACTIVE_CONNECT_MAP s !! current_pid_tgid k);
  (if decide (is_Some connect_args) then attempt (connect_remove (current_pid_tgid k))
   else mret (Ok ()));;
  args ← write_get (current_pid_tgid k);
  res ← (if 0 <? num_msgs then
           attempt (process_syscall_data_vecs k (current_pid_tgid k) Egress args (msg_len args))
         else mret (Ok 0));
  write_remove (current_pid_tgid k);;
  lift res.

(** ** [sendfile.rs] *)

Definition try_entry_sendfile (ctx : ProbeContext) : M Maps Z Z :=
  out_fd_ ← lift (arg_i32 ctx 0);
  in_fd_ ← lift (arg_i32 ctx 1);
  count ← lift (arg_u64 ctx 3);
  sendfile_insert (current_pid_tgid k) {| out_fd := out_fd_; in_fd := in_fd_; sf_count := count |};;
  mret 0.

Definition process_syscall_sendfile (id_ : Z) (args : SendfileArgs) (count : Z) : M Maps Z Z :=
  let tg := Z.shiftr id_ 32 in
  if out_fd args <? 0 then mret 0
  else if count <=? 0 then mret 0
  else
    m ← gets (λ s, match_trace_tgid s tg);
    if decide (m = Unmatched) then mret 0
    else
      let force_trace_tgid := bool_decide (m = Matched) in
      conn_info ← get_or_create_conn_info k tg (out_fd args);
      if negb (should_trace_conn conn_info) then mret 0
      else
        conn_disabled ← gets (λ s, CONN_DISABLED_MAP s !! gen_tgid_fd tg (out_fd args));
        send ← gets (λ s, should_send_data s tg (default 0 conn_disabled) force_trace_tgid conn_info);
        (if send : bool then
           populate_socket_data_event k SyscallSendFile Egress conn_info;;
           update_inner (λ i, with_sizes (as_u32 count) 0
                                (with_position (as_u64 (write_bytes conn_info)) i));;
           data_output SIZE_OF_INNER
         else mret ());;
        update_conn_stats k conn_info Egress count;;
        mret 0.

Definition try_ret_sendfile (ctx : ProbeContext) : M Maps Z Z :=
  count ← lift (ret_i64 ctx);
  args ← sendfile_get (current_pid_tgid k);
  process_syscall_sendfile (current_pid_tgid k) args count;;
  sendfile_remove (current_pid_tgid k);;
  mret 0.

(** ** [ssendmsg.rs] *)

Definition with_sock_event (a : DataArgs) : DataArgs := {|
  source_function := source_function a; iovlen := iovlen a; buf := buf a; iov := iov a;
  sock_event := ATrue; msg_len := msg_len a; da_fd := da_fd a |}.

Definition try_entry_security_socket_sendmsg : M Maps Z Z :=
  args ← write_get (current_pid_tgid k);
  modify (λ s, set_ACTIVE_WRITE_MAP
                 (<[current_pid_tgid k := with_sock_event args]> (ACTIVE_WRITE_MAP s)) s);;
  mret 0.

Definition try_entry_security_socket_recvmsg : M Maps Z Z :=
  args ← read_get (current_pid_tgid k);
  modify (λ s, set_ACTIVE_READ_MAP
                 (<[current_pid_tgid k := with_sock_event args]> (ACTIVE_READ_MAP s)) s);;
  mret 0.

(** ** All probes *)

Inductive Probe :=
  | entry_accept | ret_accept | entry_accept4 | ret_accept4 | entry_connect | ret_connect
  | entry_close | ret_close | entry_read | ret_read | entry_write | ret_write | entry_recv
  | ret_recv | entry_send | ret_send | entry_recvfrom | ret_recvfrom | entry_sendto | ret_sendto
  | entry_readv | ret_readv | entry_writev | ret_writev | entry_recvmsg | ret_recvmsg
  | entry_sendmsg | ret_sendmsg | entry_recvmmsg | ret_recvmmsg | entry_sendmmsg | ret_sendmmsg
  | entry_sendfile | ret_sendfile | ret_sock_alloc | entry_security_socket_sendmsg
  | entry_security_socket_recvmsg.

Definition try_probe (p : Probe) (ctx : ProbeContext) : M Maps Z Z :=
  match p with
  | entry_accept => try_entry_accept ctx
  | ret_accept => try_ret_accept ctx
  | entry_accept4 => try_entry_accept4 ctx
  | ret_accept4 => try_ret_accept4 ctx
  | entry_connect => try_entry_connect ctx
  | ret_connect => try_ret_connect ctx
  | entry_close => try_entry_close ctx
  | ret_close => try_ret_close ctx
  | entry_read => try_entry_read ctx
  | ret_read => try_ret_read ctx
  | entry_write => try_entry_write ctx
  | ret_write => try_ret_write ctx
  | entry_recv => try_entry_recv ctx
  | ret_recv => try_ret_recv ctx
  | entry_send => try_entry_send ctx
  | ret_send => try_ret_send ctx
  | entry_recvfrom => try_entry_recvfrom ctx
  | ret_recvfrom => try_ret_recvfrom ctx
  | entry_sendto => try_entry_sendto ctx
  | ret_sendto => try_ret_sendto ctx
  | entry_readv => try_entry_readv ctx
  | ret_readv => try_ret_readv ctx
  | entry_writev => try_entry_writev ctx
  | ret_writev => try_ret_writev ctx
  | entry_recvmsg => try_entry_recvmsg ctx
  | ret_recvmsg => try_ret_recvmsg ctx
  | entry_sendmsg => try_entry_sendmsg ctx
  | ret_sendmsg => try_ret_sendmsg ctx
  | entry_recvmmsg => try_entry_recvmmsg ctx
  | ret_recvmmsg => try_ret_recvmmsg ctx
  | entry_sendmmsg => try_entry_sendmmsg ctx
  | ret_sendmmsg => try_ret_sendmmsg ctx
  | entry_sendfile => try_entry_sendfile ctx
  | ret_sendfile => try_ret_sendfile ctx
  | ret_sock_alloc => try_ret_sock_alloc ctx
  | entry_security_socket_sendmsg => try_entry_security_socket_sendmsg
  | entry_security_socket_recvmsg => try_entry_security_socket_recvmsg
  end.

(** The entry points: [try_(ctx).unwrap_or_else(..)]. *)
Definition run_probe (p : Probe) (ctx : ProbeContext) (s : Maps) : Z * Maps :=
  let '(r, s') := try_probe p ctx s in (exit_code r, s').
End probes.

Lemma run_probe_state {B : SocketMaps} k p ctx s :
  (run_probe k p ctx s).2 = state_of (try_probe k p ctx) s.
Proof. unfold run_probe, state_of. by destruct (try_probe k p ctx s). Qed.

(** ** [sendto] on a connected socket *)

(** C36: a [sendto] without a destination address, as on a connected socket, is
    never traced: the return probe first removes connection arguments that its
    entry did not store, fails on that and stops, so no data is processed and the
    arguments of the call stay behind. *)
Theorem sendto_connected_untraced {B : SocketMaps} {BL : SocketMapsLaws B} k k' ctx ctx' s s1 :
  arg ctx 4 = Some 0 → ACTIVE_CONNECT_MAP s !! current_pid_tgid k = None →
  current_pid_tgid k' = current_pid_tgid k →
  try_entry_sendto k ctx s = (Ok 0, s1) →
  (∃ e, try_ret_sendto k' ctx' s1 = (Err e, s1)) ∧
  is_Some (ACTIVE_WRITE_MAP s1 !! current_pid_tgid k).
Proof.
  intros Harg Hnone Hpid Hentry. unfold try_entry_sendto in Hentry.
  unfold arg_u64 in Hentry. rewrite Harg in Hentry. run_inv. simplify_eq/=. run_inv.
  unfold write_insert, map_insert_op in H3.
  destruct (bpf_update (ACTIVE_WRITE_MAP s) _ _) as [m|] eqn:Hu; [|done]. simplify_eq.
  apply hash_update_ok in Hu as ->. split.
  - unfold try_ret_sendto, mbind, M_bind, lift. destruct (ret_i64 ctx') as [count|e]; [|by eexists].
    unfold connect_remove, map_remove_op. simpl. rewrite Hpid.
    pose proof (hash_delete_absent _ _ Hnone) as Hd.
    destruct (bpf_delete (ACTIVE_CONNECT_MAP s) _) as [m|e]; [done|]. by eexists.
  - simpl. rewrite lookup_insert_eq. eauto.
Qed.

(** ** Opening and closing connections *)

#[local] Arguments Z.shiftr : simpl never.
#[local] Arguments wraps : simpl never.
#[local] Arguments gen_tgid_fd : simpl never.
#[local] Arguments from_be16 : simpl never.
#[local] Arguments from_be32 : simpl never.

Section lifecycle.
Context {B : SocketMaps} {BL : SocketMapsLaws B} (k : Kernel).

Lemma conn_info_insert_ok key c s u s' :
  conn_info_insert key c s = (Ok u, s') → s' = set_CONN_INFO_MAP (<[key := c]> (CONN_INFO_MAP s)) s.
Proof.
  unfold conn_info_insert, map_insert_op. destruct (bpf_update _ key c) as [m|] eqn:Hu; [|done].
  apply hash_update_ok in Hu as ->. by intros [= _ <-].
Qed.

Lemma conn_info_remove_ok key s u s' :
  conn_info_remove key s = (Ok u, s') → s' = set_CONN_INFO_MAP (delete key (CONN_INFO_MAP s)) s.
Proof.
  unfold conn_info_remove, map_remove_op. destruct (bpf_delete _ key) as [m|] eqn:Hu; [|done].
  apply hash_delete_ok in Hu as ->. by intros [= _ <-].
Qed.

(** A fresh [ConnInfo] differs from the default by its id, role and family. *)
Lemma init_conn_info_run tg fd s :
  ∃ i, init_conn_info k tg fd ConnInfo_default s =
    (Ok (with_family AF_UNKNOWN (with_role RoleUnknown (with_id i ConnInfo_default))),
     set_clock_reads (S (clock_reads s)) s) ∧
    tgid (uid i) = tg ∧ id_fd i = fd.
Proof. eexists. split; [reflexivity|]. done. Qed.

(** An opening that sent an event: what is recorded and what is sent. *)
Lemma submit_open_event_sent args s r s' :
  submit_open_event k args s = (Ok r, s') → SOCKET_CONTROL_EVENTS s' ≠ SOCKET_CONTROL_EVENTS s →
  ∃ c ts, CONN_INFO_MAP s' = <[gen_tgid_fd (oe_tgid args) (oe_fd args) := c]> (CONN_INFO_MAP s) ∧
    SOCKET_CONTROL_EVENTS s' = SOCKET_CONTROL_EVENTS s ++ [control_event c Open (oe_source_fn args) ts 0 0] ∧
    role c = oe_role args ∧ should_trace_sockaddr_family (sa_family c) = true ∧
    tgid (uid (id c)) = oe_tgid args ∧ id_fd (id c) = oe_fd args ∧
    (oe_sk args = 0 → oe_sockaddr args ≠ 0 →
       ∃ c0, parse_sockaddr_data k (oe_sockaddr args) c0 = (Ok 0, c)).
Proof.
  intros Hrun Hsent. unfold submit_open_event in Hrun.
  destruct (init_conn_info_run (oe_tgid args) (oe_fd args) s) as (i & Hinit & Htg & Hfd).
  unfold mbind at 1, M_bind at 1 in Hrun. rewrite Hinit in Hrun. set (c1 := with_role _ _) in Hrun.
  set (parsed := if negb (oe_sk args =? 0) then _ else _) in Hrun.
  assert (id parsed.2 = i ∧ role parsed.2 = oe_role args ∧ (∀ n, parsed.1 = Ok n → n = 0) ∧
    (oe_sk args = 0 → oe_sockaddr args ≠ 0 → parsed = parse_sockaddr_data k (oe_sockaddr args) c1))
    as (Hid & Hrole & Hz & Hsa).
  { unfold parsed. split_and!.
    - unfold parse_sock_data, parse_sockaddr_data. by repeat case_match.
    - unfold parse_sock_data, parse_sockaddr_data. by repeat case_match.
    - unfold parse_sock_data, parse_sockaddr_data. intros n. repeat case_match; by intros [= <-].
    - intros -> Hne. by rewrite (proj2 (Z.eqb_neq _ _) Hne). }
  destruct parsed as [[n|e] c]; [|by run_inv]. specialize (Hz n eq_refl) as ->. simpl in Hid, Hrole.
  run_inv. apply conn_info_insert_ok in H0 as ->.
  destruct (should_trace_sockaddr_family (sa_family c)) eqn:Hfam; simpl in Hrun; run_inv; [|done].
  unfold control_output in H1. run_inv. unfold now in H0. simplify_eq/=.
  eexists c, _. split_and!; [reflexivity|reflexivity|done..|]. intros H0 H1. exists c1. by rewrite <- Hsa.
Qed.

(** The probes that open connections, with the role and the call they report. *)
Definition opening (p : Probe) : option (EndpointRole * SourceFunction) :=
  match p with
  | ret_accept | ret_accept4 => Some (Server, SyscallAccept)
  | ret_connect => Some (Client, SyscallConnect)
  | _ => None
  end.

(** The descriptor such a probe opens. *)
Definition opened (p : Probe) (ctx : ProbeContext) (s : Maps) : option Z :=
  match p with
  | ret_accept | ret_accept4 => as_i32 <$> ret ctx
  | ret_connect => ca_fd <$> ACTIVE_CONNECT_MAP s !! current_pid_tgid k
  | _ => None
  end.

(** A probe that sent an Open event has recorded the connection with the content of
    the event, under the process and the descriptor of the call; after a connect
    the remote endpoint is what the address of the call was read as. *)
Lemma probe_opens p r src ctx s s' :
  let tg := Z.shiftr (current_pid_tgid k) 32 in
  opening p = Some (r, src) → try_probe k p ctx s = (Ok 0, s') →
  SOCKET_CONTROL_EVENTS s' ≠ SOCKET_CONTROL_EVENTS s →
  ∃ c ts, opened p ctx s = Some (id_fd (id c)) ∧ 0 ≤ id_fd (id c) ∧
    CONN_INFO_MAP s' = <[gen_tgid_fd tg (id_fd (id c)) := c]> (CONN_INFO_MAP s) ∧
    SOCKET_CONTROL_EVENTS s' = SOCKET_CONTROL_EVENTS s ++ [control_event c Open src ts 0 0] ∧
    role c = r ∧ tgid (uid (id c)) = tg ∧ should_trace_sockaddr_family (sa_family c) = true ∧
    (p = ret_connect → ∀ a, ACTIVE_CONNECT_MAP s !! current_pid_tgid k = Some a → ca_sockaddr a ≠ 0 →
       ∃ c0, parse_sockaddr_data k (ca_sockaddr a) c0 = (Ok 0, c)).
Proof.
  intros tg Hop Hrun Hsent.
  assert (p = ret_connect ∨ (opening p = Some (Server, SyscallAccept) ∧ opened p ctx s = as_i32 <$> ret ctx ∧
    p ≠ ret_connect ∧ try_probe k p ctx s = try_ret_accept k ctx s)) as [->|(Hop' & -> & Hp & Heq)]
    by (destruct p; simpl in Hop; try done; auto).
  - cbn [opening try_probe opened] in *. injection Hop as <- <-.
    unfold try_ret_connect, connect_get, process_syscall_connect in Hrun. fold tg in Hrun. clearbody tg.
    set (key := current_pid_tgid k) in *. clearbody key. run_inv. run_inv.
    destruct (ACTIVE_CONNECT_MAP s !! key) as [args|] eqn:Hargs; [|done]. simplify_eq/=.
    unfold connect_remove, map_remove_op in H1. destruct (bpf_delete _ _); [|done]. simplify_eq/=.
    run_inv. case_decide; [by run_inv|]. destruct (Z.ltb_spec (ca_fd a) 0) as [|Hfd]; [by run_inv|].
    case_match; [by run_inv|]. run_inv.
    match goal with H : submit_open_event _ _ _ = _ |- _ =>
      destruct (submit_open_event_sent _ _ _ _ H Hsent) as (c & ts & Hi & Hc & Hr & Hf & Ht & Hd & Hsa) end.
    simpl in *. exists c, ts. rewrite Hd. split_and!; try done. intros _ a' [= <-]. auto.
  - rewrite Hop' in Hop. injection Hop as <- <-. rewrite Heq in Hrun.
    unfold try_ret_accept, accept_get, process_syscall_accept, ret_i32 in Hrun. fold tg in Hrun. clearbody tg.
    set (key := current_pid_tgid k) in *. clearbody key. run_inv. run_inv.
    unfold accept_remove, map_remove_op in H1. destruct (bpf_delete _ _); [|done]. simplify_eq/=.
    run_inv. destruct (ret ctx) as [rv|]; [|done]. simplify_eq/=.
    case_decide; [by run_inv|]. destruct (Z.ltb_spec (as_i32 rv) 0); [by run_inv|]. run_inv.
    match goal with H : submit_open_event _ _ _ = _ |- _ =>
      destruct (submit_open_event_sent _ _ _ _ H Hsent) as (c & ts & Hi & Hc & Hr & Hf & Ht & Hd & _) end.
    simpl in *. exists c, ts. rewrite Hd. split_and!; try done.
Qed.

(** When a close succeeds on a recorded connection of a traced family, one Close
    event and one statistics event with the close flag are sent, both with the
    recorded identity, and the connection and the arguments of the call are
    forgotten. *)
Lemma close_reports_and_forgets ctx s s' args c e0 rv :
  let key := current_pid_tgid k in
  let tgid_fd := gen_tgid_fd (Z.shiftr key 32) (cl_fd args) in
  ACTIVE_CLOSE_MAP s !! key = Some args → 0 ≤ cl_fd args →
  CONN_INFO_MAP s !! tgid_fd = Some c → should_trace_sockaddr_family (sa_family c) = true →
  CONN_STATS_EVENT_BUFFER s = Some e0 →
  ret ctx = Some rv → 0 ≤ as_i32 rv → match_trace_tgid s (Z.shiftr key 32) ≠ Unmatched →
  try_ret_close k ctx s = (Ok 0, s') →
  ∃ ts e, SOCKET_CONTROL_EVENTS s' = SOCKET_CONTROL_EVENTS s ++
      [control_event c Close SyscallClose ts (write_bytes c) (read_bytes c)] ∧
    CONN_STATS_EVENTS s' = CONN_STATS_EVENTS s ++ [e] ∧
    cs_id e = id c ∧ cs_role e = role c ∧ event_flags e = 2 ∧ cs_sa_family e = cs_sa_family e0 ∧
    CONN_INFO_MAP s' = delete tgid_fd (CONN_INFO_MAP s) ∧
    ACTIVE_CLOSE_MAP s' = delete key (ACTIVE_CLOSE_MAP s).
Proof.
  intros key tgid_fd Hargs Hfd Hc Hfam Hbuf Hret Hrv Hm Hrun.
  unfold try_ret_close, process_syscall_close, ret_i32 in Hrun. rewrite Hret in Hrun.
  fold key in Hrun. unfold tgid_fd in *. clear tgid_fd. set (tg := Z.shiftr key 32) in *.
  clearbody tg. clearbody key.
  run_inv. unfold close_get in H. run_inv. rewrite Hargs in H. simplify_eq/=.
  unfold close_remove, map_remove_op in H1.
  destruct (bpf_delete (ACTIVE_CLOSE_MAP s1) _) as [m|] eqn:Hd; [|done]. simplify_eq.
  apply hash_delete_ok in Hd as ->.
  run_inv. simplify_eq/=.
  destruct (Z.ltb_spec (cl_fd a) 0); [lia|]. destruct (Z.ltb_spec (as_i32 rv) 0); [lia|].
  run_inv. rewrite decide_False in H0 by done. run_inv.
  rewrite Hc in H3. simplify_eq/=. rewrite Hfam in H4. simpl in H4. run_inv.
  apply conn_info_remove_ok in H5 as ->.
  unfold submit_close_event, control_output in H0. run_inv.
  unfold populate_conn_stats_event in H2. run_inv. unfold stats_output in H4. run_inv.
  unfold now in *. simplify_eq/=. rewrite Hbuf in *. simplify_eq/=.
  eexists _, _. split_and!; reflexivity.
Qed.
End lifecycle.
