(* ===== verification/SocketProps.v ===== *)
(** * socket-tracer: properties of runs of the probes

    The invariant [tracer_ok] of every sequence of probe invocations and changes
    of the control values, what it says of the events that are sent, and how the
    chunks of one message fit together; the examples the witnesses of the
    tracer's properties run on. *)
From S2P Require Import Prelude RustStd Bpf SocketData SocketTracer SocketProbes.
From stdpp Require Import base gmap strings list relations.
From Stdlib Require Import ZArith Lia.

Local Open Scope Z_scope.

(** ** The invariant of a run *)

(** The counters of a connection's information are those of its creation. *)
Definition bytes_fresh (c : ConnInfo) : Prop :=
  write_bytes c = 0 ∧ read_bytes c = 0 ∧ prev_reported_bytes c = 0.
Definition conn_fresh (_ : Z) (c : ConnInfo) : Prop :=
  protocol c = ProtoUnknown ∧ protocol_total_count c = 0 ∧ bytes_fresh c.

Definition control_event_ok (e : SocketControlEvent) : Prop :=
  ce_write_bytes e = 0 ∧ ce_read_bytes e = 0.

(** What is sent of an event is its header and the bytes that were copied. *)
Definition data_event_ok (p : SocketDataEvent * Z) : Prop :=
  0 ≤ msg_buf_size (inner p.1) ≤ MAX_MSG_SIZE ∧
  msg_buf_size (inner p.1) ≤ msg_size (inner p.1) ∧
  p.2 = SIZE_OF_INNER + msg_buf_size (inner p.1).

(** A report at a close has no bytes; any other one is about a single call that
    reached the threshold by itself. *)
Definition stats_event_ok (e : ConnStatsEvent) : Prop :=
  cs_sa_family e = 0 ∧
  ((event_flags e = 2 ∧ cs_write_bytes e = 0 ∧ cs_read_bytes e = 0) ∨
   (event_flags e = 0 ∧ (cs_write_bytes e = 0 ∨ cs_read_bytes e = 0) ∧
    CONN_STATS_DATA_THRESHOLD ≤ cs_write_bytes e + cs_read_bytes e)).

Record tracer_ok (s : Maps) : Prop := {
  ok_conn : values_ok conn_fresh (CONN_INFO_MAP s);
  ok_control : Forall control_event_ok (SOCKET_CONTROL_EVENTS s);
  ok_data : Forall data_event_ok (SOCKET_DATA_EVENTS s);
  ok_stats_buffer e : CONN_STATS_EVENT_BUFFER s = Some e → cs_sa_family e = 0;
  ok_stats : Forall stats_event_ok (CONN_STATS_EVENTS s) }.

(** Typed reads. *)
Definition kernel_ok (k : Kernel) : Prop :=
  (∀ a v, read_iovec k a = Ok v → in_u 64 (iov_len v)).

(** ** Runs of [perf_submit_buf] *)

(** How many bytes of a message of [n] bytes are copied. *)
Definition copied (n : Z) : Z :=
  if n <=? MAX_MSG_SIZE then n else if n <=? 2147483647 then MAX_MSG_SIZE else 0.

(** The event that is sent for them. *)
Definition sent_event (n : Z) (bytes : list Z) (e : SocketDataEvent) : SocketDataEvent := {|
  inner := with_sizes (as_u32 n) (as_u32 (copied n)) (inner e);
  msg := bytes ++ drop (Z.to_nat (copied n)) (msg e) |}.

Definition sized_event (n : Z) (e : SocketDataEvent) : SocketDataEvent :=
  {| inner := with_sizes (as_u32 n) (msg_buf_size (inner e)) (inner e); msg := msg e |}.

Lemma perf_submit_buf_run k b n s :
  0 ≤ n →
  perf_submit_buf k b n s =
  let s1 := set_SOCKET_DATA_EVENT_BUFFER (sized_event n <$> SOCKET_DATA_EVENT_BUFFER s) s in
  if decide (copied n = 0) then (Ok 0, s1)
  else match read_user_buf k b (copied n) with
       | Err e => (Err e, s1)
       | Ok bytes =>
           (Ok 0, match SOCKET_DATA_EVENT_BUFFER s with
                  | None => s1
                  | Some e =>
                      set_SOCKET_DATA_EVENTS
                        (SOCKET_DATA_EVENTS s ++ [(sent_event n bytes e, SIZE_OF_INNER + copied n)])
                        (set_SOCKET_DATA_EVENT_BUFFER (Some (sent_event n bytes e)) s)
                  end)
       end.
Proof.
  intros Hn. unfold perf_submit_buf, sent_event, copied, MAX_MSG_SIZE.
  unfold mbind, M_bind, update_inner, modify, mret, M_ret.
  destruct (Z.eqb_spec n 0) as [->|Hn0].
  { rewrite decide_True by done. reflexivity. }
  destruct (Z.leb_spec n 30720) as [H1|H1].
  - destruct (Z.ltb_spec (n - 1) 30720) as [_|]; [|lia]. rewrite decide_False by done.
    unfold read_msg. destruct (read_user_buf k b n) as [bytes|e]; [|reflexivity].
    destruct (Z.ltb_spec 0 n) as [_|]; [|lia].
    unfold data_output, modify. cbn -[Z.add Z.to_nat wrapu].
    destruct (SOCKET_DATA_EVENT_BUFFER s) as [e|]; reflexivity.
  - destruct (Z.ltb_spec (n - 1) 30720) as [|_]; [lia|].
    destruct (Z.leb_spec n 2147483647) as [H2|H2].
    + destruct (Z.ltb_spec (n - 1) 2147483647) as [_|]; [|lia]. rewrite decide_False by done.
      unfold read_msg. destruct (read_user_buf k b 30720) as [bytes|e]; [|reflexivity].
      unfold data_output, modify. cbn -[Z.add Z.to_nat wrapu].
      destruct (SOCKET_DATA_EVENT_BUFFER s) as [e|]; reflexivity.
    + destruct (Z.ltb_spec (n - 1) 2147483647) as [|_]; [lia|].
      rewrite decide_True by done. reflexivity.
Qed.

Lemma copied_bound n : 0 ≤ n → 0 ≤ copied n ≤ MAX_MSG_SIZE ∧ copied n ≤ n.
Proof. unfold copied, MAX_MSG_SIZE. intros. repeat case_match; lia. Qed.

(** A message of which something is copied fits in the [u32] size field. *)
Lemma copied_msg_size n : 0 ≤ n → copied n ≠ 0 → as_u32 n = n ∧ as_u32 (copied n) = copied n.
Proof.
  intros Hn Hc. pose proof (copied_bound n Hn) as [Hb _]. unfold MAX_MSG_SIZE in Hb.
  split; apply wrapu_id; unfold in_u; [|lia].
  unfold copied, MAX_MSG_SIZE in Hc. destruct (Z.leb_spec n 30720); [lia|].
  destruct (Z.leb_spec n 2147483647); [lia|done].
Qed.

Lemma sent_event_ok n bytes e :
  0 ≤ n → copied n ≠ 0 → data_event_ok (sent_event n bytes e, SIZE_OF_INNER + copied n).
Proof.
  intros Hn Hc. pose proof (copied_bound n Hn). destruct (copied_msg_size n Hn Hc) as [H1 H2].
  unfold data_event_ok, sent_event. cbn [inner with_sizes msg_size msg_buf_size fst snd].
  rewrite H1, H2. lia.
Qed.

Section preservation.
Context {B : SocketMaps} {BL : SocketMapsLaws B} (k : Kernel).
Implicit Types c : ConnInfo.

(** Writing anything but the fields the invariant is about. *)
Lemma tracer_ok_frame s s' :
  CONN_INFO_MAP s' = CONN_INFO_MAP s → SOCKET_CONTROL_EVENTS s' = SOCKET_CONTROL_EVENTS s →
  SOCKET_DATA_EVENTS s' = SOCKET_DATA_EVENTS s → CONN_STATS_EVENT_BUFFER s' = CONN_STATS_EVENT_BUFFER s →
  CONN_STATS_EVENTS s' = CONN_STATS_EVENTS s → tracer_ok s → tracer_ok s'.
Proof. intros H1 H2 H3 H4 H5 []. split; rewrite ?H1, ?H2, ?H3, ?H4, ?H5; done. Qed.

Lemma now_holds : holds tracer_ok (now k) (λ _, True).
Proof. intros s Hs. split; [by apply (tracer_ok_frame s)|done]. Qed.

Lemma update_inner_holds f : holds tracer_ok (update_inner f) (λ _, True).
Proof. apply holds_modify; [|done]. intros s Hs. by apply (tracer_ok_frame s). Qed.

Lemma read_msg_holds b n : holds tracer_ok (read_msg k b n) (λ _, True).
Proof.
  intros s Hs. unfold state_of, read_msg. destruct (read_user_buf k b n); simpl; [|done].
  split; [by apply (tracer_ok_frame s)|done].
Qed.

Lemma control_output_holds e : control_event_ok e → holds tracer_ok (control_output e) (λ _, True).
Proof.
  intros He. apply holds_modify; [|done]. intros s []. split; simpl; try done.
  apply Forall_app. split; [done|]. by apply Forall_singleton.
Qed.

Lemma stats_output_holds e : stats_event_ok e → holds tracer_ok (stats_output e) (λ _, True).
Proof.
  intros He. apply holds_modify; [|done]. intros s []. split; simpl; try done.
  apply Forall_app. split; [done|]. by apply Forall_singleton.
Qed.

Lemma conn_info_insert_holds key c :
  conn_fresh key c → holds tracer_ok (conn_info_insert key c) (λ _, True).
Proof.
  intros Hc s Hs. unfold state_of, conn_info_insert, map_insert_op.
  destruct (bpf_update _ key c) as [m|e] eqn:Hu; simpl; [|done]. split; [|done].
  destruct Hs. split; simpl; try done.
  by eapply (values_ok_hash_update conn_fresh bm_conn).
Qed.

Lemma conn_info_remove_holds key : holds tracer_ok (conn_info_remove key) (λ _, True).
Proof.
  intros s Hs. unfold state_of, conn_info_remove, map_remove_op.
  destruct (bpf_delete _ key) as [m|e] eqn:Hu; simpl; [|done]. split; [|done].
  destruct Hs. split; simpl; try done.
  by eapply (values_ok_hash_delete conn_fresh bm_conn).
Qed.

Lemma gets_conn_holds key :
  holds tracer_ok (gets (λ s, CONN_INFO_MAP s !! key) : M Maps Z _)
    (λ o, ∀ c, o = Some c → conn_fresh key c).
Proof. apply holds_gets. intros s [Hc]. intros c Hk. by apply Hc. Qed.

Hint Resolve now_holds update_inner_holds read_msg_holds control_output_holds stats_output_holds
  conn_info_insert_holds conn_info_remove_holds gets_conn_holds : rust_holds.

Lemma init_conn_info_holds tg fd :
  holds tracer_ok (init_conn_info k tg fd ConnInfo_default) (λ c, ∀ key, conn_fresh key c).
Proof.
  unfold init_conn_info, init_conn_id, gen_tsid. eapply (holds_bind _ _ _ (λ _, True)).
  - holds_auto.
  - intros i _. apply holds_ret. done.
Qed.

Hint Resolve init_conn_info_holds : rust_holds.

Lemma get_or_create_holds tg fd :
  holds tracer_ok (get_or_create_conn_info k tg fd) (λ c, ∃ key, conn_fresh key c).
Proof.
  unfold get_or_create_conn_info. eapply holds_bind; [apply init_conn_info_holds|]. intros c Hc.
  eapply holds_bind; [apply gets_conn_holds|]. intros [info|] Hinfo; simpl in *.
  - apply holds_ret. eauto.
  - eapply holds_bind; [apply conn_info_insert_holds; auto|]. intros _ _. apply holds_ret. by exists 0.
Qed.

Lemma parse_sock_data_fresh sk c key :
  conn_fresh key c → conn_fresh key (parse_sock_data k sk c).2.
Proof. intros Hc. unfold parse_sock_data. repeat case_match; done. Qed.

Lemma parse_sockaddr_data_fresh sa c key :
  conn_fresh key c → conn_fresh key (parse_sockaddr_data k sa c).2.
Proof. intros Hc. unfold parse_sockaddr_data. repeat case_match; done. Qed.

Lemma submit_open_event_holds args : holds tracer_ok (submit_open_event k args) (λ _, True).
Proof.
  unfold submit_open_event. eapply holds_bind; [apply init_conn_info_holds|]. intros c Hc.
  assert (∀ key, conn_fresh key (with_role (oe_role args) c)) as Hc1 by (intros; apply (Hc key)).
  set (parsed := if negb (oe_sk args =? 0) then _ else _).
  assert (∀ key, conn_fresh key parsed.2) as Hp.
  { intros key. unfold parsed. repeat case_match; [by apply parse_sock_data_fresh|
      by apply parse_sockaddr_data_fresh|apply Hc1]. }
  destruct parsed as [r c']. simpl in Hp.
  eapply (holds_bind _ _ _ (λ _, True)); [holds_auto|intros _ _].
  eapply holds_bind; [apply conn_info_insert_holds; auto|intros _ _].
  case_match; [by apply holds_ret|].
  eapply holds_bind; [apply now_holds|intros ts _].
  eapply holds_bind; [apply control_output_holds; done|intros _ _]. by apply holds_ret.
Qed.

Lemma submit_close_event_holds c f :
  bytes_fresh c → holds tracer_ok (submit_close_event k c f) (λ _, True).
Proof.
  intros (Hw & Hr & _). unfold submit_close_event.
  eapply holds_bind; [apply now_holds|intros ts _].
  eapply holds_bind; [apply control_output_holds; done|intros _ _]. by apply holds_ret.
Qed.

Lemma populate_conn_stats_holds c :
  holds tracer_ok (populate_conn_stats_event k c)
    (λ e, cs_sa_family e = 0 ∧ event_flags e = 0 ∧ cs_write_bytes e = write_bytes c ∧
          cs_read_bytes e = read_bytes c).
Proof.
  unfold populate_conn_stats_event.
  eapply (holds_bind _ _ _ (λ o, ∀ e, o = Some e → cs_sa_family e = 0)).
  { apply holds_gets. intros s Hs. by apply ok_stats_buffer. }
  intros o Ho. eapply (holds_bind _ _ _ (λ e, cs_sa_family e = 0)).
  { apply holds_lift. intros e He. destruct o; simplify_eq/=. auto. }
  intros e He. eapply holds_bind; [apply now_holds|intros ts _]. by apply holds_ret.
Qed.

Lemma populate_data_holds f d c : holds tracer_ok (populate_socket_data_event k f d c) (λ _, True).
Proof. unfold populate_socket_data_event. holds_auto. Qed.

(** The output of the event in the buffer, when its sizes are right. *)
Lemma data_output_spec size (s : Maps) :
  tracer_ok s →
  (∀ e, SOCKET_DATA_EVENT_BUFFER s = Some e → data_event_ok (e, size)) →
  tracer_ok (state_of (data_output size) s).
Proof.
  intros Hs He. unfold state_of, data_output, modify. simpl.
  destruct (SOCKET_DATA_EVENT_BUFFER s) as [e|] eqn:Hb; [|done].
  destruct Hs. split; simpl; try done. apply Forall_app. split; [done|].
  apply Forall_singleton. auto.
Qed.

Lemma perf_submit_buf_holds b n :
  0 ≤ n → holds tracer_ok (perf_submit_buf k b n) (λ _, True).
Proof.
  intros Hn s Hs. unfold state_of. rewrite perf_submit_buf_run by done. cbv zeta.
  split; [|done]. case_decide as Hc; [by apply (tracer_ok_frame s)|].
  destruct (read_user_buf k b (copied n)) as [bytes|e]; simpl; [|by apply (tracer_ok_frame s)].
  destruct (SOCKET_DATA_EVENT_BUFFER s) as [e|]; [|by apply (tracer_ok_frame s)].
  destruct Hs. split; simpl; try done. apply Forall_app. split; [done|].
  apply Forall_singleton. by apply sent_event_ok.
Qed.

Lemma submit_chunks_holds n b total submitted :
  0 ≤ submitted ≤ total → holds tracer_ok (submit_chunks k n b total submitted) (λ _, True).
Proof.
  revert submitted. induction n as [|n IH]; intros submitted Hs; [by apply holds_ret|].
  cbn [submit_chunks]. set (cur := if _ && _ then _ else _).
  assert (0 ≤ cur ≤ total - submitted) as Hcur.
  { unfold cur, MAX_MSG_SIZE. destruct (Z.ltb_spec 30720 (total - submitted)); [|simpl; lia].
    destruct (negb _); simpl; lia. }
  eapply holds_bind; [apply perf_submit_buf_holds; lia|]. intros _ _. apply IH. lia.
Qed.

Lemma submit_iovecs_holds n i iov_ iovlen_ total sent :
  kernel_ok k → 0 ≤ sent ≤ total →
  holds tracer_ok (submit_iovecs k n i iov_ iovlen_ total sent) (λ _, True).
Proof.
  intros Hk. revert i sent. induction n as [|n IH]; intros i sent Hs; [by apply holds_ret|].
  cbn [submit_iovecs]. case_match; [by apply holds_ret|]. case_match; [by apply holds_ret|].
  eapply (holds_bind _ _ _ (λ v, in_u 64 (iov_len v))); [apply holds_lift; intros v; apply Hk|].
  intros v Hv. unfold in_u in Hv.
  eapply holds_bind; [apply perf_submit_buf_holds; lia|]. intros _ _.
  eapply holds_bind; [apply update_inner_holds|]. intros _ _. apply IH. lia.
Qed.

Lemma update_conn_stats_holds c d count :
  bytes_fresh c → holds tracer_ok (update_conn_stats k c d count) (λ _, True).
Proof.
  intros (Hw & Hr & Hp). unfold update_conn_stats.
  set (c' := match d with Egress => _ | Ingress => _ end).
  assert ((write_bytes c' = 0 ∨ read_bytes c' = 0) ∧ prev_reported_bytes c' = 0 ∧
          in_s 64 (write_bytes c') ∧ in_s 64 (read_bytes c')) as (H0 & Hp' & Hw' & Hr').
  { unfold c'. destruct d; cbn [with_bytes write_bytes read_bytes prev_reported_bytes];
      rewrite ?Hw, ?Hr, ?Hp; (split_and!; [auto..| |]); try (by apply wraps_range);
      unfold in_s; lia. }
  assert (as_i64 (write_bytes c' + read_bytes c') = write_bytes c' + read_bytes c') as ->.
  { apply wraps_id; [lia|]. unfold in_s in *. lia. }
  rewrite Hp'. destruct (Z.leb_spec (as_i64 (0 + CONN_STATS_DATA_THRESHOLD)) (write_bytes c' + read_bytes c'))
    as [Ht|]; [|by apply holds_ret].
  eapply holds_bind; [apply populate_conn_stats_holds|]. intros e (He1 & He2 & He3 & He4).
  eapply holds_bind; [apply stats_output_holds|intros _ _; by apply holds_ret].
  split; [done|]. right. rewrite He3, He4. split_and!; [done|done|].
  rewrite wraps_id in Ht; [done|lia|]. vm_compute. split; congruence.
Qed.

Lemma update_traffic_class_bytes c d b n :
  bytes_fresh c → bytes_fresh (update_traffic_class k c d b n).
Proof. intros Hc. unfold update_traffic_class. repeat case_match; done. Qed.

Lemma classify_vecs_bytes n i c d iov_ iovlen_ count c' :
  bytes_fresh c → classify_vecs k n i c d iov_ iovlen_ count = Ok c' → bytes_fresh c'.
Proof.
  intros Hc. revert i. induction n as [|n IH]; intros i; cbn [classify_vecs].
  { by intros [= <-]. }
  case_match; [by intros [= <-]|]. destruct (read_iovec k _) as [v|]; cbn [mbind result_bind]; [|done].
  case_match; [|apply IH]. intros [= <-]. by apply update_traffic_class_bytes.
Qed.

Lemma process_data_holds args extra :
  kernel_ok k → holds tracer_ok (process_data k args extra) (λ _, True).
Proof.
  intros Hk. unfold process_data. do 3 (case_match; [by apply holds_ret|]).
  destruct (Z.leb_spec (bytes_count extra) 0) as [|Hpos]; [by apply holds_ret|].
  eapply (holds_bind _ _ _ (λ _, True)); [by apply holds_gets|]. intros m _.
  case_decide; [by apply holds_ret|].
  eapply holds_bind; [apply get_or_create_holds|]. intros c (key & _ & _ & Hc).
  case_match; [by apply holds_ret|].
  eapply (holds_bind _ _ _ (λ _, True)); [by apply holds_gets|]. intros dis _.
  eapply (holds_bind _ _ _ bytes_fresh).
  { case_match; [|apply holds_ret; by apply update_traffic_class_bytes].
    apply holds_lift. intros c'. by apply classify_vecs_bytes. }
  intros c' Hc'. eapply (holds_bind _ _ _ (λ _, True)); [by apply holds_gets|]. intros send _.
  eapply (holds_bind _ _ _ (λ _, True)).
  { case_match; [|by apply holds_ret].
    eapply holds_bind; [apply populate_data_holds|]. intros _ _.
    case_match; [apply submit_iovecs_holds|apply submit_chunks_holds]; done || lia. }
  intros _ _. eapply holds_bind; [by apply update_conn_stats_holds|]. intros _ _. by apply holds_ret.
Qed.

(** *** The probes *)

Lemma active_insert_holds {V} `{BM : !BpfMap Z V} (get : Maps → gmap Z V) set key v :
  (∀ m s, tracer_ok s → tracer_ok (set m s)) →
  holds tracer_ok (map_insert_op get set key v) (λ _, True).
Proof.
  intros Hset s Hs. unfold state_of, map_insert_op. destruct (bpf_update _ key v); simpl; auto.
Qed.

Lemma active_remove_holds {V} `{BM : !BpfMap Z V} (get : Maps → gmap Z V) set key :
  (∀ m s, tracer_ok s → tracer_ok (set m s)) →
  holds tracer_ok (map_remove_op get set key) (λ _, True).
Proof.
  intros Hset s Hs. unfold state_of, map_remove_op. destruct (bpf_delete _ key); simpl; auto.
Qed.

Lemma accept_insert_holds key v : holds tracer_ok (accept_insert key v) (λ _, True).
Proof. apply active_insert_holds. intros m s Hs. by apply (tracer_ok_frame s). Qed.
Lemma accept_remove_holds key : holds tracer_ok (accept_remove key) (λ _, True).
Proof. apply active_remove_holds. intros m s Hs. by apply (tracer_ok_frame s). Qed.
Lemma accept_get_holds key : holds tracer_ok (accept_get key) (λ _, True).
Proof. unfold accept_get. holds_auto. Qed.
Lemma connect_insert_holds key v : holds tracer_ok (connect_insert key v) (λ _, True).
Proof. apply active_insert_holds. intros m s Hs. by apply (tracer_ok_frame s). Qed.
Lemma connect_remove_holds key : holds tracer_ok (connect_remove key) (λ _, True).
Proof. apply active_remove_holds. intros m s Hs. by apply (tracer_ok_frame s). Qed.
Lemma connect_get_holds key : holds tracer_ok (connect_get key) (λ _, True).
Proof. unfold connect_get. holds_auto. Qed.
Lemma write_insert_holds key v : holds tracer_ok (write_insert key v) (λ _, True).
Proof. apply active_insert_holds. intros m s Hs. by apply (tracer_ok_frame s). Qed.
Lemma write_remove_holds key : holds tracer_ok (write_remove key) (λ _, True).
Proof. apply active_remove_holds. intros m s Hs. by apply (tracer_ok_frame s). Qed.
Lemma write_get_holds key : holds tracer_ok (write_get key) (λ _, True).
Proof. unfold write_get. holds_auto. Qed.
Lemma read_insert_holds key v : holds tracer_ok (read_insert key v) (λ _, True).
Proof. apply active_insert_holds. intros m s Hs. by apply (tracer_ok_frame s). Qed.
Lemma read_remove_holds key : holds tracer_ok (read_remove key) (λ _, True).
Proof. apply active_remove_holds. intros m s Hs. by apply (tracer_ok_frame s). Qed.
Lemma read_get_holds key : holds tracer_ok (read_get key) (λ _, True).
Proof. unfold read_get. holds_auto. Qed.
Lemma sendfile_insert_holds key v : holds tracer_ok (sendfile_insert key v) (λ _, True).
Proof. apply active_insert_holds. intros m s Hs. by apply (tracer_ok_frame s). Qed.
Lemma sendfile_remove_holds key : holds tracer_ok (sendfile_remove key) (λ _, True).
Proof. apply active_remove_holds. intros m s Hs. by apply (tracer_ok_frame s). Qed.
Lemma sendfile_get_holds key : holds tracer_ok (sendfile_get key) (λ _, True).
Proof. unfold sendfile_get. holds_auto. Qed.
Lemma close_insert_holds key v : holds tracer_ok (close_insert key v) (λ _, True).
Proof. apply active_insert_holds. intros m s Hs. by apply (tracer_ok_frame s). Qed.
Lemma close_remove_holds key : holds tracer_ok (close_remove key) (λ _, True).
Proof. apply active_remove_holds. intros m s Hs. by apply (tracer_ok_frame s). Qed.
Lemma close_get_holds key : holds tracer_ok (close_get key) (λ _, True).
Proof. unfold close_get. holds_auto. Qed.

Hint Resolve accept_insert_holds accept_remove_holds accept_get_holds
  connect_insert_holds connect_remove_holds connect_get_holds
  write_insert_holds write_remove_holds write_get_holds
  read_insert_holds read_remove_holds read_get_holds
  sendfile_insert_holds sendfile_remove_holds sendfile_get_holds
  close_insert_holds close_remove_holds close_get_holds
  submit_open_event_holds process_data_holds populate_data_holds : rust_holds.

Lemma process_syscall_close_holds ctx key args :
  holds tracer_ok (process_syscall_close k ctx key args) (λ _, True).
Proof.
  unfold process_syscall_close. eapply (holds_bind _ _ _ (λ _, True)); [holds_auto|intros retval _].
  do 2 (case_match; [by apply holds_ret|]).
  eapply (holds_bind _ _ _ (λ _, True)); [by apply holds_gets|intros m _].
  case_decide; [by apply holds_ret|].
  eapply holds_bind; [apply gets_conn_holds|]. intros found Hfound. simpl in Hfound.
  eapply (holds_bind _ _ _ bytes_fresh).
  { apply holds_lift. intros c Hc. destruct found; simplify_eq/=. by apply Hfound. }
  intros c Hc. eapply (holds_bind _ _ _ (λ _, True)); [|intros _ _; holds_auto].
  case_match; [|by apply holds_ret].
  eapply holds_bind; [by apply submit_close_event_holds|intros _ _].
  eapply holds_bind; [apply populate_conn_stats_holds|]. intros e (He1 & He2 & He3 & He4).
  apply stats_output_holds. destruct Hc as (Hw & Hr & _). split; [done|]. left. simpl.
  rewrite He2, He3, He4, Hw, Hr. done.
Qed.

Lemma process_syscall_sendfile_holds key args count :
  holds tracer_ok (process_syscall_sendfile k key args count) (λ _, True).
Proof.
  unfold process_syscall_sendfile. do 2 (case_match; [by apply holds_ret|]).
  eapply (holds_bind _ _ _ (λ _, True)); [by apply holds_gets|intros m _].
  case_decide; [by apply holds_ret|].
  eapply holds_bind; [apply get_or_create_holds|]. intros c (key' & _ & _ & Hc).
  case_match; [by apply holds_ret|].
  do 2 (eapply (holds_bind _ _ _ (λ _, True)); [by apply holds_gets|intros ? _]).
  eapply (holds_bind _ _ _ (λ _, True)).
  2: { intros _ _. eapply holds_bind; [by apply update_conn_stats_holds|]. intros _ _.
       by apply holds_ret. }
  case_match; [|by apply holds_ret].
  eapply holds_bind; [apply populate_data_holds|]. intros _ _.
  intros s Hs. split; [|done]. unfold state_of, mbind, M_bind, update_inner, modify.
  apply data_output_spec; [by apply (tracer_ok_frame s)|]. simpl.
  intros e He. destruct (SOCKET_DATA_EVENT_BUFFER s) as [e0|]; simplify_eq/=.
  pose proof (wrapu_range 32 count ltac:(lia)) as Hr. unfold in_u in Hr.
  unfold data_event_ok, MAX_MSG_SIZE. simpl. lia.
Qed.

Hint Resolve process_syscall_close_holds process_syscall_sendfile_holds : rust_holds.

Lemma sock_alloc_holds ctx : holds tracer_ok (try_ret_sock_alloc k ctx) (λ _, True).
Proof.
  unfold try_ret_sock_alloc. eapply (holds_bind _ _ _ (λ _, True)); [holds_auto|intros sk _].
  eapply holds_bind; [apply accept_get_holds|intros args _].
  eapply (holds_bind _ _ _ (λ _, True)); [|intros; by apply holds_ret].
  case_match; [|by apply holds_ret]. apply holds_modify; [|done]. intros s Hs.
  by apply (tracer_ok_frame s).
Qed.

Lemma security_sendmsg_holds : holds tracer_ok (try_entry_security_socket_sendmsg k) (λ _, True).
Proof.
  eapply holds_bind; [apply write_get_holds|intros args _].
  eapply (holds_bind _ _ _ (λ _, True)); [|intros; by apply holds_ret].
  apply holds_modify; [|done]. intros s Hs. by apply (tracer_ok_frame s).
Qed.

Lemma security_recvmsg_holds : holds tracer_ok (try_entry_security_socket_recvmsg k) (λ _, True).
Proof.
  eapply holds_bind; [apply read_get_holds|intros args _].
  eapply (holds_bind _ _ _ (λ _, True)); [|intros; by apply holds_ret].
  apply holds_modify; [|done]. intros s Hs. by apply (tracer_ok_frame s).
Qed.

Hint Resolve sock_alloc_holds security_sendmsg_holds security_recvmsg_holds : rust_holds.

Lemma try_probe_holds p ctx : kernel_ok k → holds tracer_ok (try_probe k p ctx) (λ _, True).
Proof.
  intros Hk. destruct p; cbn [try_probe]; try solve [eauto with rust_holds];
    unfold try_entry_accept, try_ret_accept, try_entry_accept4, try_ret_accept4, try_entry_connect,
    try_ret_connect, try_entry_close, try_ret_close, try_entry_read, try_ret_read,
    try_entry_write, try_ret_write, try_entry_recv, try_ret_recv, try_entry_send,
    try_ret_send, try_entry_recvfrom, try_ret_recvfrom, try_entry_sendto, try_ret_sendto,
    try_entry_readv, try_ret_readv, try_entry_writev, try_ret_writev, try_entry_recvmsg,
    try_ret_recvmsg, try_entry_sendmsg, try_ret_sendmsg, try_entry_recvmmsg,
    try_ret_recvmmsg, try_entry_sendmmsg, try_ret_sendmmsg, try_entry_sendfile,
    try_ret_sendfile,
    process_syscall_accept, process_syscall_accept4, process_syscall_connect,
    process_syscall_data, process_syscall_data_vecs; holds_auto.
Qed.
End preservation.

(** ** Runs of the tracer *)

(** User space sets the targets, the protocols to trace and the disabled
    connections. *)
Definition set_controls cm cv cd (s : Maps) : Maps := {|
  CONTROL_MAP := cm; CONTROL_VALUES := cv; SOCKET_DATA_EVENT_BUFFER := SOCKET_DATA_EVENT_BUFFER s;
  CONN_STATS_EVENT_BUFFER := CONN_STATS_EVENT_BUFFER s; CONN_INFO_MAP := CONN_INFO_MAP s;
  CONN_DISABLED_MAP := cd; ACTIVE_ACCEPT_MAP := ACTIVE_ACCEPT_MAP s;
  ACTIVE_CONNECT_MAP := ACTIVE_CONNECT_MAP s; ACTIVE_WRITE_MAP := ACTIVE_WRITE_MAP s;
  ACTIVE_READ_MAP := ACTIVE_READ_MAP s; ACTIVE_SENDFILE_MAP := ACTIVE_SENDFILE_MAP s;
  ACTIVE_CLOSE_MAP := ACTIVE_CLOSE_MAP s; SOCKET_CONTROL_EVENTS := SOCKET_CONTROL_EVENTS s;
  SOCKET_DATA_EVENTS := SOCKET_DATA_EVENTS s; CONN_STATS_EVENTS := CONN_STATS_EVENTS s;
  clock_reads := clock_reads s |}.

Inductive sk_step {B : SocketMaps} : Maps → Maps → Prop :=
  | sk_probe k p ctx s : kernel_ok k → sk_step s (run_probe k p ctx s).2
  | sk_control cm cv cd s : sk_step s (set_controls cm cv cd s).

(** Nothing recorded yet; the per-CPU buffers are zeroed by the kernel. *)
Definition started (s : Maps) : Prop :=
  CONN_INFO_MAP s = ∅ ∧ SOCKET_CONTROL_EVENTS s = [] ∧ SOCKET_DATA_EVENTS s = [] ∧
  CONN_STATS_EVENTS s = [] ∧ ∀ e, CONN_STATS_EVENT_BUFFER s = Some e → cs_sa_family e = 0.

Lemma started_ok s : started s → tracer_ok s.
Proof.
  intros (H1 & H2 & H3 & H4 & H5).
  split; rewrite ?H1, ?H2, ?H3, ?H4; [apply values_ok_empty|constructor|constructor|done|constructor].
Qed.

Lemma sk_step_ok {B : SocketMaps} {BL : SocketMapsLaws B} s s' :
  sk_step s s' → tracer_ok s → tracer_ok s'.
Proof.
  intros Hstep Hs. destruct Hstep as [k p ctx s Hk|]; [|by apply (tracer_ok_frame s)].
  destruct (try_probe_holds k p ctx Hk s Hs) as [Hs' _]. revert Hs'.
  unfold state_of, run_probe. by destruct (try_probe k p ctx s).
Qed.

Lemma sk_run_ok {B : SocketMaps} {BL : SocketMapsLaws B} s s' :
  started s → rtc sk_step s s' → tracer_ok s'.
Proof.
  intros Hs Hr. apply started_ok in Hs. induction Hr; eauto using sk_step_ok.
Qed.

(** C3: the tracer works on copies of a connection's information and never writes
    them back: in every state a run can reach, each recorded connection still has
    an unknown protocol and zero byte counters, every control event (closes
    included) reports zero bytes, and statistics are sent only for a close, with
    zero bytes, or for one call that moves 65536 bytes or more by itself. *)
Theorem counters_never_persist {B : SocketMaps} {BL : SocketMapsLaws B} s s' :
  started s → rtc sk_step s s' →
  (∀ key c, CONN_INFO_MAP s' !! key = Some c →
     protocol c = ProtoUnknown ∧ protocol_total_count c = 0 ∧
     write_bytes c = 0 ∧ read_bytes c = 0 ∧ prev_reported_bytes c = 0) ∧
  Forall (λ e, ce_write_bytes e = 0 ∧ ce_read_bytes e = 0) (SOCKET_CONTROL_EVENTS s') ∧
  Forall stats_event_ok (CONN_STATS_EVENTS s').
Proof.
  intros Hs Hr. destruct (sk_run_ok _ _ Hs Hr) as [Hc Hctl _ _ Hst]. split_and!; [|done|done].
  intros key c Hk. apply Hc in Hk as (? & ? & ? & ? & ?). done.
Qed.

(** C8: whatever sizes the traced calls and vectors have, an event sent to user
    space carries at most the 30720 bytes its buffer holds, never more than the
    message has, and exactly its header and those bytes are read from the
    buffer. *)
Theorem data_events_bounded {B : SocketMaps} {BL : SocketMapsLaws B} s s' :
  started s → rtc sk_step s s' →
  Forall (λ p, 0 ≤ msg_buf_size (inner p.1) ≤ MAX_MSG_SIZE ∧
               msg_buf_size (inner p.1) ≤ msg_size (inner p.1) ∧
               p.2 = SIZE_OF_INNER + msg_buf_size (inner p.1)) (SOCKET_DATA_EVENTS s').
Proof. intros Hs Hr. apply (ok_data s'). by eapply sk_run_ok. Qed.

(** ** Splitting a message into events *)

Definition mem_range (mem : Z → Z) (a n : Z) : list Z :=
  (λ i, mem (a + Z.of_nat i)) <$> seq 0 (Z.to_nat n).

Lemma mem_range_length mem a n : 0 ≤ n → Z.of_nat (length (mem_range mem a n)) = n.
Proof. intros. unfold mem_range. rewrite length_fmap, length_seq. lia. Qed.

Lemma mem_range_app mem a n m :
  0 ≤ n → 0 ≤ m → mem_range mem a (n + m) = mem_range mem a n ++ mem_range mem (a + n) m.
Proof.
  intros Hn Hm. unfold mem_range. rewrite Z2Nat.inj_add, seq_app, fmap_app by done. f_equal.
  rewrite Nat.add_0_l. rewrite <- (Nat.add_0_r (Z.to_nat n)) at 1.
  rewrite <- fmap_add_seq, <- list_fmap_compose. apply list_fmap_ext. intros i x _. simpl.
  f_equal. lia.
Qed.

(** Reads of user memory give its bytes. *)
Definition reads_memory (k : Kernel) (mem : Z → Z) : Prop :=
  ∀ a n, 0 ≤ n → read_user_buf k a n = Ok (mem_range mem a n).

(** The bytes of an event that are sent. *)
Definition payload (p : SocketDataEvent * Z) : list Z :=
  take (Z.to_nat (msg_buf_size (inner p.1))) (msg p.1).

(** [n] chunks after [submitted] bytes. *)
Lemma submit_chunks_run k mem n b total submitted s e :
  reads_memory k mem → 0 ≤ submitted ≤ total → total ≤ 2147483647 →
  SOCKET_DATA_EVENT_BUFFER s = Some e →
  ∃ s' evs e', submit_chunks k n b total submitted s = (Ok 0, s') ∧
    SOCKET_DATA_EVENT_BUFFER s' = Some e' ∧
    SOCKET_DATA_EVENTS s' = SOCKET_DATA_EVENTS s ++ evs ∧
    concat (payload <$> evs) =
      mem_range mem (b + submitted) (Z.min (total - submitted) (Z.of_nat n * MAX_MSG_SIZE)) ∧
    Forall (λ p, position (inner p.1) = position (inner e)) evs.
Proof.
  intros Hmem. revert submitted s e. induction n as [|n IH]; intros sub s e Hsub Htot He.
  { exists s, [], e. rewrite app_nil_r. split_and!; try done.
    rewrite Z.min_r by lia. done. }
  cbn [submit_chunks]. set (cur := if _ && _ then _ else _).
  assert (0 ≤ cur ≤ total - sub ∧ copied cur = Z.min (total - sub) MAX_MSG_SIZE ∧
          (cur = Z.min (total - sub) MAX_MSG_SIZE ∨ n = 0%nat)) as (Hcur & Hcop & Hlast).
  { unfold cur, copied, MAX_MSG_SIZE in *. destruct (Z.ltb_spec 30720 (total - sub)).
    - destruct n as [|n]; cbn [Nat.eqb negb andb].
      + destruct (Z.leb_spec (total - sub) 30720); [lia|].
        destruct (Z.leb_spec (total - sub) 2147483647); lia.
      + change (30720 <=? 30720) with true. cbn [andb]. lia.
    - cbn [andb]. destruct (Z.leb_spec (total - sub) 30720); lia. }
  unfold mbind, M_bind. rewrite perf_submit_buf_run by lia. cbv zeta. rewrite He.
  case_decide as Hc0.
  - (* nothing left *)
    assert (total = sub) as -> by (unfold MAX_MSG_SIZE in *; lia).
    set (s1 := set_SOCKET_DATA_EVENT_BUFFER _ s).
    destruct (IH (sub + cur) s1 (sized_event cur e)) as (s' & evs & e' & Hr & He' & Hd & Hp & Hpos);
      [lia|done|done|].
    exists s', evs, e'. split_and!; try done. rewrite Hp.
    rewrite !Z.min_l by (unfold MAX_MSG_SIZE; lia).
    replace (sub - (sub + cur)) with 0 by lia. replace (sub - sub) with 0 by lia. done.
  - rewrite (Hmem _ (copied cur)) by (unfold MAX_MSG_SIZE in *; lia).
    set (ev := sent_event cur _ e). set (s1 := set_SOCKET_DATA_EVENTS _ _).
    destruct (IH (sub + cur) s1 ev) as (s' & evs & e' & Hr & He' & Hd & Hp & Hpos);
      [lia|done|done|].
    exists s', ((ev, SIZE_OF_INNER + copied cur) :: evs), e'. split_and!; [done|done| | |].
    + rewrite Hd. simpl. by rewrite <- app_assoc.
    + rewrite fmap_cons. cbn [concat]. rewrite Hp.
      assert (payload (ev, SIZE_OF_INNER + copied cur) = mem_range mem (b + sub) (copied cur)) as ->.
      { unfold payload, ev, sent_event. cbn [fst inner msg with_sizes msg_buf_size].
        destruct (copied_msg_size cur) as [_ ->]; [lia|done|].
        rewrite take_app_length'; [done|]. unfold mem_range. by rewrite length_fmap, length_seq. }
      destruct Hlast as [Hcur'| ->].
      * rewrite Hcop, <- Hcur', Z.add_assoc, <- mem_range_app by (unfold MAX_MSG_SIZE; lia).
        f_equal. unfold MAX_MSG_SIZE in *. lia.
      * rewrite (Z.min_r (total - (sub + cur))) by lia. simpl. rewrite app_nil_r, Hcop. f_equal.
    + constructor; [done|]. done.
Qed.

(** C29: a message is sent in order and without gaps or overlaps: the payloads of
    the events of one call put together are the message, up to 84 events of
    30720 bytes; what exceeds that is cut off.  All events of one call carry the
    same position, although they start at different bytes of the connection. *)
Theorem submit_data_event_chunks k mem b total s e :
  reads_memory k mem → 0 ≤ total → total ≤ 2147483647 → SOCKET_DATA_EVENT_BUFFER s = Some e →
  ∃ s' evs, submit_data_event k b total s = (Ok 0, s') ∧
    SOCKET_DATA_EVENTS s' = SOCKET_DATA_EVENTS s ++ evs ∧
    concat (payload <$> evs) = mem_range mem b (Z.min total (84 * 30720)) ∧
    Forall (λ p, position (inner p.1) = position (inner e)) evs.
Proof.
  intros Hmem H0 Htot He. unfold submit_data_event.
  destruct (submit_chunks_run k mem CHUNK_LIMIT b total 0 s e) as (s' & evs & e' & Hr & _ & Hd & Hp & Hpos);
    [done|lia|done|done|].
  exists s', evs. split_and!; [done|done| |done]. rewrite Hp, Z.add_0_r, Z.sub_0_r. done.
Qed.

(** ** Witnesses *)

Definition ex_smaps : SocketMaps := bounded_maps 1024.
Definition ex_mem (a : Z) : Z := a mod 256.

(** The kernel of a run: process 5, with an IPv4 endpoint at every address. *)
Definition ex_sk_kernel : Kernel := {|
  ktime_get_ns := λ n, 1000 + Z.of_nat n; current_pid_tgid := 5 * 2 ^ 32 + 9; current_task := 64;
  read_group_leader := λ _, Ok 128; read_start_boottime := λ _, Ok 70000000;
  read_sock_common := λ _, Ok {| skc_family := AF_INET; skc_rcv_saddr := 16777226;
    skc_daddr := 33554442; skc_num := 36895; skc_dport := 20480;
    skc_v6_rcv_saddr := in6_zero; skc_v6_daddr := in6_zero |};
  read_sa_family := λ _, Ok AF_INET; read_sockaddr_in := λ _, Ok {| sin_port := 20480; s_addr := 33554442 |};
  read_sockaddr_in6 := λ _, Err (-14); read_user_buf := λ a n, Ok (mem_range ex_mem a n);
  read_iovec := λ _, Ok {| iov_base := 8192; iov_len := 10 |};
  read_user_msghdr := λ _, Err (-14); read_mmsghdr := λ _, Err (-14) |}.

Definition ex_inner : SocketDataEventInner := {|
  de_timestamp_ns := 0; de_id := ConnId_default; de_protocol := ProtoUnknown; de_role := RoleUnknown;
  direction := Egress; ssl := false; de_source_function := SourceFunctionUnknown; position := 0;
  msg_size := 0; msg_buf_size := 0 |}.
Definition ex_event : SocketDataEvent := {| inner := ex_inner; msg := [] |}.
Definition ex_stats : ConnStatsEvent := {|
  cs_timestamp_ns := 0; cs_id := ConnId_default; cs_sa_family := 0; cs_src_addr_in4 := 0;
  cs_src_addr_in6 := in6_zero; cs_src_port := 0; cs_dst_addr_in4 := 0; cs_dst_addr_in6 := in6_zero;
  cs_dst_port := 0; cs_role := RoleUnknown; cs_write_bytes := 0; cs_read_bytes := 0;
  event_flags := 0 |}.

Definition ex_started : Maps := {|
  CONTROL_MAP := ∅; CONTROL_VALUES := ∅; SOCKET_DATA_EVENT_BUFFER := Some ex_event;
  CONN_STATS_EVENT_BUFFER := Some ex_stats; CONN_INFO_MAP := ∅; CONN_DISABLED_MAP := ∅;
  ACTIVE_ACCEPT_MAP := ∅; ACTIVE_CONNECT_MAP := ∅; ACTIVE_WRITE_MAP := ∅; ACTIVE_READ_MAP := ∅;
  ACTIVE_SENDFILE_MAP := ∅; ACTIVE_CLOSE_MAP := ∅; SOCKET_CONTROL_EVENTS := [];
  SOCKET_DATA_EVENTS := []; CONN_STATS_EVENTS := []; clock_reads := 0 |}.

Lemma ex_started_ok : started ex_started.
Proof. split_and!; try reflexivity. intros e He. by simplify_eq/=. Qed.

Lemma ex_sk_kernel_ok : kernel_ok ex_sk_kernel.
Proof. intros a v Hv. simplify_eq/=. vm_compute. split; congruence. Qed.

(** A write of 100 bytes on descriptor 7. *)
Definition ex_ctx (r : Z) : ProbeContext :=
  {| arg := λ n, match n with 0%nat => Some 7 | 1%nat => Some 8192 | _ => Some 0 end; ret := Some r |}.
Definition ex_write1 : Maps := (run_probe (B := ex_smaps) ex_sk_kernel entry_write (ex_ctx 0) ex_started).2.
Definition ex_write2 : Maps := (run_probe (B := ex_smaps) ex_sk_kernel ret_write (ex_ctx 100) ex_write1).2.

Lemma ex_write_run : rtc (sk_step (B := ex_smaps)) ex_started ex_write2.
Proof.
  eapply rtc_l; [apply (sk_probe ex_sk_kernel entry_write (ex_ctx 0)), ex_sk_kernel_ok|].
  apply rtc_once. apply (sk_probe ex_sk_kernel ret_write (ex_ctx 100)), ex_sk_kernel_ok.
Qed.

Lemma counters_never_persist_witness :
  ∃ c, CONN_INFO_MAP ex_write2 !! gen_tgid_fd 5 7 = Some c ∧ write_bytes c = 0.
Proof.
  destruct (counters_never_persist (B := ex_smaps) (BL := bounded_maps_laws 1024) ex_started ex_write2
              ex_started_ok ex_write_run) as [Hc _].
  destruct (CONN_INFO_MAP ex_write2 !! gen_tgid_fd 5 7) as [c|] eqn:E; [|vm_compute in E; discriminate E].
  exists c. split; [reflexivity|]. destruct (Hc _ _ E) as (_ & _ & H & _). exact H.
Defined.

Lemma data_events_bounded_witness :
  length (SOCKET_DATA_EVENTS ex_write2) = 1%nat ∧
  Forall (λ p, msg_buf_size (inner p.1) ≤ MAX_MSG_SIZE) (SOCKET_DATA_EVENTS ex_write2).
Proof.
  split; [vm_compute; reflexivity|].
  eapply Forall_impl; [exact (data_events_bounded (B := ex_smaps) (BL := bounded_maps_laws 1024)
    ex_started ex_write2 ex_started_ok ex_write_run)|]. intros p ([_ H] & _). exact H.
Defined.

Lemma submit_data_event_chunks_witness :
  ∃ s' evs, submit_data_event ex_sk_kernel 8192 40000 ex_started = (Ok 0, s') ∧
    concat (payload <$> evs) = mem_range ex_mem 8192 (Z.min 40000 (84 * 30720)).
Proof.
  destruct (submit_data_event_chunks ex_sk_kernel ex_mem 8192 40000 ex_started ex_event)
    as (s' & evs & H1 & _ & H2 & _).
  - intros a n _. reflexivity.
  - lia.
  - lia.
  - reflexivity.
  - exists s', evs. split; [exact H1|exact H2].
Defined.

Definition ex_sendto1 : Maps :=
  state_of (try_entry_sendto (B := ex_smaps) ex_sk_kernel (ex_ctx 0)) ex_started.

Lemma sendto_connected_untraced_witness :
  is_Some (ACTIVE_WRITE_MAP ex_sendto1 !! current_pid_tgid ex_sk_kernel).
Proof.
  apply (sendto_connected_untraced (B := ex_smaps) (BL := bounded_maps_laws 1024) ex_sk_kernel
           ex_sk_kernel (ex_ctx 0) (ex_ctx 100) ex_started ex_sendto1); reflexivity.
Defined.

(** An accept that returned descriptor 8. *)
Definition ex_accepting : Maps :=
  set_ACTIVE_ACCEPT_MAP {[ current_pid_tgid ex_sk_kernel := {| aa_sockaddr := 0; aa_sock := 4096 |} ]}
    ex_started.
Definition ex_accepted : Maps :=
  state_of (try_ret_accept (B := ex_smaps) ex_sk_kernel (ex_ctx 8)) ex_accepting.
