(* ===== verification/SocketLayout.v ===== *)
(** * socket-tracer: the events as bytes

    The memory layout of the structures of
    [ebpf/socket-tracer/socket-tracer-common/src/lib.rs] that are sent through the
    perf buffers: [repr(C)] structures of little-endian integers and
    [repr(u64)] enums.  The probes send the bytes of a value and user space
    reads a value back from bytes, so each structure has a writer and a reader;
    the padding bytes the layout leaves between and after fields are arguments
    of the writer, since their content is not specified. *)
From S2P Require Import Prelude RustStd Bpf SocketData.
From stdpp Require Import base gmap strings list.
From Stdlib Require Import ZArith Lia.

Local Open Scope Z_scope.

(** ** Little-endian integers *)

Fixpoint to_le (n : nat) (z : Z) : list Z :=
  match n with
  | O => []
  | S n' => z mod 256 :: to_le n' (z / 256)
  end.

Fixpoint from_le (l : list Z) : Z :=
  match l with
  | [] => 0
  | b :: l' => b + 256 * from_le l'
  end.

Lemma to_le_length n z : length (to_le n z) = n.
Proof. revert z. induction n as [|n IH]; intros z; [done|]. simpl. by rewrite IH. Qed.

Lemma from_to_le n z : from_le (to_le n z) = z mod 2 ^ (8 * Z.of_nat n).
Proof.
  revert z. induction n as [|n IH]; intros z.
  { simpl. by rewrite Z.mod_1_r. }
  cbn [to_le from_le]. rewrite IH.
  replace (8 * Z.of_nat (S n)) with (8 + 8 * Z.of_nat n) by lia.
  rewrite Z.pow_add_r by lia. change (2 ^ 8) with 256.
  pose proof (Z.pow_pos_nonneg 2 (8 * Z.of_nat n)).
  rewrite Z.rem_mul_r by lia. lia.
Qed.

(** ** Readers

    A reader takes what it needs from the front of the bytes and leaves the
    rest; it fails when they run out or are not the representation of a value. *)

Definition reader (A : Type) : Type := list Z → option (A * list Z).

Global Instance reader_ret : MRet reader := λ A x l, Some (x, l).
Global Instance reader_bind : MBind reader := λ A B f m l,
  match m l with Some (a, l') => f a l' | None => None end.

Definition get_bytes (n : nat) : reader (list Z) := λ l,
  if decide (n ≤ length l)%nat then Some (take n l, drop n l) else None.
Definition get_u (n : nat) : reader Z := l ← get_bytes n; mret (from_le l).
Definition get_s (n : nat) : reader Z := z ← get_u n; mret (wraps (8 * Z.of_nat n) z).

(** [reads r l x]: the reader [r] takes exactly the bytes [l] and gives [x]. *)
Definition reads {A} (r : reader A) (l : list Z) (x : A) : Prop :=
  ∀ rest, r (l ++ rest) = Some (x, rest).

Lemma reads_bind {A B} (r : reader A) (f : A → reader B) l1 l2 x y :
  reads r l1 x → reads (f x) l2 y → reads (r ≫= f) (l1 ++ l2) y.
Proof.
  intros H1 H2 rest. unfold mbind, reader_bind. rewrite <- app_assoc, H1. apply H2.
Qed.

Lemma reads_ret {A} (x : A) : reads (mret x) [] x.
Proof. intros rest. done. Qed.

(** The last field: nothing is read after it. *)
Lemma reads_bind_ret {A B} (r : reader A) (f : A → reader B) l x y :
  reads r l x → reads (f x) [] y → reads (r ≫= f) l y.
Proof. intros H1 H2. rewrite <- (app_nil_r l). by eapply reads_bind. Qed.

Lemma reads_bytes n l : length l = n → reads (get_bytes n) l l.
Proof.
  intros <- rest. unfold get_bytes. rewrite length_app, decide_True by lia.
  by rewrite take_app_length, drop_app_length.
Qed.

Lemma reads_u n z : in_u (8 * Z.of_nat n) z → reads (get_u n) (to_le n z) z.
Proof.
  intros Hz. eapply reads_bind_ret; [apply reads_bytes, to_le_length|].
  rewrite from_to_le. fold (wrapu (8 * Z.of_nat n) z). rewrite wrapu_id by done. apply reads_ret.
Qed.

Lemma wraps_mod w z : 1 ≤ w → in_s w z → wraps w (z mod 2 ^ w) = z.
Proof.
  intros Hw Hz. rewrite <- (wraps_id w z Hw Hz) at 2. unfold wraps. f_equal.
  pose proof (Z.pow_pos_nonneg 2 w). rewrite Zplus_mod_idemp_l by lia. done.
Qed.

Lemma reads_s n z : (0 < n)%nat → in_s (8 * Z.of_nat n) z → reads (get_s n) (to_le n z) z.
Proof.
  intros Hn Hz rest. unfold get_s, get_u, mbind, reader_bind.
  rewrite (reads_bytes n _ (to_le_length n z)). unfold mret, reader_ret.
  rewrite from_to_le, wraps_mod by (lia || done). done.
Qed.

(** ** Enums

    A field-less enum is stored as its discriminant; a value that is no
    discriminant is not a value of the enum. *)

Class Discriminant (A : Type) := {
  discriminant : A → Z;
  variants : list A;
  variants_all a : a ∈ variants;
  discriminant_inj a b : discriminant a = discriminant b → a = b;
  discriminant_range a : in_u 64 (discriminant a) }.

Definition from_discriminant {A} `{!Discriminant A} (z : Z) : option A :=
  List.find (λ a, discriminant a =? z) variants.

Lemma from_discriminant_correct {A} `{!Discriminant A} (a : A) :
  from_discriminant (discriminant a) = Some a.
Proof.
  unfold from_discriminant. destruct (List.find _ _) as [b|] eqn:Hf.
  - apply List.find_some in Hf as [_ Hb]. apply Z.eqb_eq in Hb. f_equal. by apply discriminant_inj.
  - pose proof (List.find_none _ _ Hf a) as Hn. simpl in Hn. rewrite Z.eqb_refl in Hn.
    discriminate Hn. apply list_elem_of_In, variants_all.
Qed.

Ltac solve_discriminant :=
  [> intros []; set_solver | intros [] []; done | intros []; vm_compute; split; congruence ].

Global Instance ControlEventType_discriminant : Discriminant ControlEventType.
Proof.
  refine {| discriminant := λ a, match a with Open => 0 | Close => 1 end; variants := [Open; Close] |}.
  all: solve_discriminant.
Defined.

Global Instance TrafficDirection_discriminant : Discriminant TrafficDirection.
Proof.
  refine {| discriminant := λ a, match a with Egress => 0 | Ingress => 1 end;
            variants := [Egress; Ingress] |}.
  all: solve_discriminant.
Defined.

Global Instance EndpointRole_discriminant : Discriminant EndpointRole.
Proof.
  refine {| discriminant := EndpointRole_u64; variants := [RoleUnknown; Client; Server] |}.
  all: solve_discriminant.
Defined.

Global Instance TrafficProtocol_discriminant : Discriminant TrafficProtocol.
Proof.
  refine {| discriminant := TrafficProtocol_u32;
            variants := [ProtoUnknown; HTTP; HTTP2; DNS; MySQL; PGSQL; Redis; NATS; Kafka; AMQP;
                         NumProtocols] |}.
  all: solve_discriminant.
Defined.

Definition SourceFunction_u64 (f : SourceFunction) : Z :=
  match f with
  | SourceFunctionUnknown => 0 | SyscallAccept => 1 | SyscallConnect => 2 | SyscallClose => 3
  | SyscallWrite => 4 | SyscallRead => 5 | SyscallSend => 6 | SyscallRecv => 7 | SyscallSendTo => 8
  | SyscallRecvFrom => 9 | SyscallSendMsg => 10 | SyscallRecvMsg => 11 | SyscallSendMMsg => 12
  | SyscallRecvMMsg => 13 | SyscallWriteV => 14 | SyscallReadV => 15 | SyscallSendFile => 16
  end.

Global Instance SourceFunction_discriminant : Discriminant SourceFunction.
Proof.
  refine {| discriminant := SourceFunction_u64;
            variants := [SourceFunctionUnknown; SyscallAccept; SyscallConnect; SyscallClose;
              SyscallWrite; SyscallRead; SyscallSend; SyscallRecv; SyscallSendTo; SyscallRecvFrom;
              SyscallSendMsg; SyscallRecvMsg; SyscallSendMMsg; SyscallRecvMMsg; SyscallWriteV;
              SyscallReadV; SyscallSendFile] |}.
  all: solve_discriminant.
Defined.

(** A [bool] is one byte, 0 or 1. *)
Global Instance bool_discriminant : Discriminant bool.
Proof.
  refine {| discriminant := λ b : bool, if b then 1 else 0; variants := [false; true] |}.
  all: solve_discriminant.
Defined.

Definition put_enum {A} `{!Discriminant A} (n : nat) (a : A) : list Z := to_le n (discriminant a).
Definition get_enum {A} `{!Discriminant A} (n : nat) : reader A := λ l,
  match get_u n l with
  | Some (z, l') => (λ a, (a, l')) <$> from_discriminant z
  | None => None
  end.

Lemma reads_enum {A} `{!Discriminant A} (n : nat) (a : A) :
  in_u (8 * Z.of_nat n) (discriminant a) → reads (get_enum n) (put_enum n a) a.
Proof.
  intros Ha rest. unfold get_enum, put_enum. rewrite (reads_u n _ Ha), from_discriminant_correct. done.
Qed.

Lemma reads_enum8 {A} `{!Discriminant A} (a : A) : reads (get_enum 8) (put_enum 8 a) a.
Proof. apply reads_enum, discriminant_range. Qed.

Lemma reads_bool (b : bool) : reads (get_enum 1) (put_enum 1 b) b.
Proof. apply reads_enum. destruct b; vm_compute; split; congruence. Qed.

(** ** Structures *)

Definition put_id (i : ConnId) : list Z :=
  to_le 8 (tgid (uid i)) ++ to_le 8 (start_time_ticks (uid i)) ++ to_le 8 (id_fd i) ++ to_le 8 (tsid i).
Definition get_id : reader ConnId :=
  tg ← get_u 8; st ← get_u 8; fd ← get_s 8; ts ← get_u 8;
  mret {| uid := {| tgid := tg; start_time_ticks := st |}; id_fd := fd; tsid := ts |}.

(** [pad] are the 7 bytes after [ssl]. *)
Definition put_inner (pad : list Z) (e : SocketDataEventInner) : list Z :=
  to_le 8 (de_timestamp_ns e) ++ put_id (de_id e) ++ put_enum 8 (de_protocol e) ++
  put_enum 8 (de_role e) ++ put_enum 8 (direction e) ++ put_enum 1 (ssl e) ++ pad ++
  put_enum 8 (de_source_function e) ++ to_le 8 (position e) ++ to_le 4 (msg_size e) ++
  to_le 4 (msg_buf_size e).
Definition get_inner : reader SocketDataEventInner :=
  ts ← get_u 8; i ← get_id; p ← get_enum 8; r ← get_enum 8; d ← get_enum 8; s ← get_enum 1;
  _ ← get_bytes 7; f ← get_enum 8; pos ← get_u 8; ms ← get_u 4; mb ← get_u 4;
  mret {| de_timestamp_ns := ts; de_id := i; de_protocol := p; de_role := r; direction := d;
          ssl := s; de_source_function := f; position := pos; msg_size := ms; msg_buf_size := mb |}.

Definition put_data (pad : list Z) (e : SocketDataEvent) : list Z := put_inner pad (inner e) ++ msg e.
Definition get_data : reader SocketDataEvent :=
  i ← get_inner; m ← get_bytes (Z.to_nat MAX_MSG_SIZE); mret {| inner := i; msg := m |}.

(** [pad] are the 4 bytes after [event_flags]. *)
Definition put_stats (pad : list Z) (e : ConnStatsEvent) : list Z :=
  to_le 8 (cs_timestamp_ns e) ++ put_id (cs_id e) ++ to_le 8 (cs_sa_family e) ++
  to_le 4 (cs_src_addr_in4 e) ++ cs_src_addr_in6 e ++ to_le 4 (cs_src_port e) ++
  to_le 4 (cs_dst_addr_in4 e) ++ cs_dst_addr_in6 e ++ to_le 4 (cs_dst_port e) ++
  put_enum 8 (cs_role e) ++ to_le 8 (cs_write_bytes e) ++ to_le 8 (cs_read_bytes e) ++
  to_le 4 (event_flags e) ++ pad.
Definition get_stats : reader ConnStatsEvent :=
  ts ← get_u 8; i ← get_id; fam ← get_u 8; s4 ← get_u 4; s6 ← get_bytes 16; sp ← get_u 4;
  d4 ← get_u 4; d6 ← get_bytes 16; dp ← get_u 4; r ← get_enum 8; w ← get_s 8; rd ← get_s 8;
  fl ← get_u 4; _ ← get_bytes 4;
  mret {| cs_timestamp_ns := ts; cs_id := i; cs_sa_family := fam; cs_src_addr_in4 := s4;
          cs_src_addr_in6 := s6; cs_src_port := sp; cs_dst_addr_in4 := d4; cs_dst_addr_in6 := d6;
          cs_dst_port := dp; cs_role := r; cs_write_bytes := w; cs_read_bytes := rd;
          event_flags := fl |}.

Definition put_control (e : SocketControlEvent) : list Z :=
  put_id (ce_id e) ++ put_enum 8 (event_type e) ++ to_le 8 (ce_sa_family e) ++
  to_le 8 (ce_timestamp_ns e) ++ put_enum 8 (ce_source_function e) ++ put_enum 8 (ce_role e) ++
  to_le 4 (ce_src_addr_in4 e) ++ ce_src_addr_in6 e ++ to_le 4 (ce_src_port e) ++
  to_le 4 (ce_dst_addr_in4 e) ++ ce_dst_addr_in6 e ++ to_le 4 (ce_dst_port e) ++
  to_le 8 (ce_write_bytes e) ++ to_le 8 (ce_read_bytes e).
Definition get_control : reader SocketControlEvent :=
  i ← get_id; t ← get_enum 8; fam ← get_u 8; ts ← get_u 8; f ← get_enum 8; r ← get_enum 8;
  s4 ← get_u 4; s6 ← get_bytes 16; sp ← get_u 4; d4 ← get_u 4; d6 ← get_bytes 16; dp ← get_u 4;
  w ← get_s 8; rd ← get_s 8;
  mret {| ce_id := i; event_type := t; ce_sa_family := fam; ce_timestamp_ns := ts;
          ce_source_function := f; ce_role := r; ce_src_addr_in4 := s4; ce_src_addr_in6 := s6;
          ce_src_port := sp; ce_dst_addr_in4 := d4; ce_dst_addr_in6 := d6; ce_dst_port := dp;
          ce_write_bytes := w; ce_read_bytes := rd |}.

(** [size_of] of the three events. *)
Definition SIZE_OF_DATA : Z := SIZE_OF_INNER + MAX_MSG_SIZE.
Definition SIZE_OF_STATS : Z := 128.
Definition SIZE_OF_CONTROL : Z := 136.

(** ** Values of the fields' types *)

Definition id_typed (i : ConnId) : Prop :=
  in_u 64 (tgid (uid i)) ∧ in_u 64 (start_time_ticks (uid i)) ∧ in_s 64 (id_fd i) ∧ in_u 64 (tsid i).
Definition inner_typed (e : SocketDataEventInner) : Prop :=
  in_u 64 (de_timestamp_ns e) ∧ id_typed (de_id e) ∧ in_u 64 (position e) ∧ in_u 32 (msg_size e) ∧
  in_u 32 (msg_buf_size e).
Definition data_typed (e : SocketDataEvent) : Prop :=
  inner_typed (inner e) ∧ length (msg e) = Z.to_nat MAX_MSG_SIZE.
Definition stats_typed (e : ConnStatsEvent) : Prop :=
  in_u 64 (cs_timestamp_ns e) ∧ id_typed (cs_id e) ∧ in_u 64 (cs_sa_family e) ∧
  in_u 32 (cs_src_addr_in4 e) ∧ length (cs_src_addr_in6 e) = 16%nat ∧ in_u 32 (cs_src_port e) ∧
  in_u 32 (cs_dst_addr_in4 e) ∧ length (cs_dst_addr_in6 e) = 16%nat ∧ in_u 32 (cs_dst_port e) ∧
  in_s 64 (cs_write_bytes e) ∧ in_s 64 (cs_read_bytes e) ∧ in_u 32 (event_flags e).
Definition control_typed (e : SocketControlEvent) : Prop :=
  id_typed (ce_id e) ∧ in_u 64 (ce_sa_family e) ∧ in_u 64 (ce_timestamp_ns e) ∧
  in_u 32 (ce_src_addr_in4 e) ∧ length (ce_src_addr_in6 e) = 16%nat ∧ in_u 32 (ce_src_port e) ∧
  in_u 32 (ce_dst_addr_in4 e) ∧ length (ce_dst_addr_in6 e) = 16%nat ∧ in_u 32 (ce_dst_port e) ∧
  in_s 64 (ce_write_bytes e) ∧ in_s 64 (ce_read_bytes e).

(** ** Reading back what was written *)

Create HintDb layout.
#[export] Hint Resolve reads_bytes reads_u reads_enum8 reads_bool : layout.
#[export] Hint Extern 1 (reads (get_s 8) _ _) => (apply reads_s; [lia|assumption]) : layout.

(** Field by field. *)
Ltac solve_reads :=
  repeat match goal with H : _ ∧ _ |- _ => destruct H end;
  repeat (eapply reads_bind; [by eauto with layout|]);
  eapply reads_bind_ret; [by eauto with layout|].

Lemma reads_id i : id_typed i → reads get_id (put_id i) i.
Proof. destruct i as [[tg st] fd ts]. intros H. unfold id_typed in H. simpl in H. solve_reads. apply reads_ret. Qed.
#[export] Hint Resolve reads_id : layout.

Lemma reads_inner pad e : length pad = 7%nat → inner_typed e → reads get_inner (put_inner pad e) e.
Proof. intros Hp H. unfold inner_typed in H. solve_reads. destruct e. apply reads_ret. Qed.
#[export] Hint Resolve reads_inner : layout.

Lemma reads_data pad e : length pad = 7%nat → data_typed e → reads get_data (put_data pad e) e.
Proof. intros Hp H. unfold data_typed in H. solve_reads. destruct e. apply reads_ret. Qed.

Lemma reads_stats pad e : length pad = 4%nat → stats_typed e → reads get_stats (put_stats pad e) e.
Proof. intros Hp H. unfold stats_typed in H. solve_reads. destruct e. apply reads_ret. Qed.

Lemma reads_control e : control_typed e → reads get_control (put_control e) e.
Proof. intros H. unfold control_typed in H. solve_reads. destruct e. apply reads_ret. Qed.

Lemma put_inner_length pad e : length pad = 7%nat → length (put_inner pad e) = Z.to_nat SIZE_OF_INNER.
Proof. intros Hp. unfold put_inner, put_id, put_enum. rewrite !length_app, !to_le_length, Hp. done. Qed.

Lemma put_data_length pad e :
  length pad = 7%nat → data_typed e → length (put_data pad e) = Z.to_nat SIZE_OF_DATA.
Proof.
  intros Hp [_ Hm]. unfold put_data. rewrite length_app, put_inner_length, Hm by done.
  unfold SIZE_OF_DATA, SIZE_OF_INNER, MAX_MSG_SIZE. lia.
Qed.

Lemma put_stats_length pad e :
  length pad = 4%nat → stats_typed e → length (put_stats pad e) = Z.to_nat SIZE_OF_STATS.
Proof.
  intros Hp (_ & _ & _ & _ & H1 & _ & _ & H2 & _). unfold put_stats, put_id, put_enum.
  rewrite !length_app, !to_le_length, H1, H2, Hp. done.
Qed.

Lemma put_control_length e : control_typed e → length (put_control e) = Z.to_nat SIZE_OF_CONTROL.
Proof.
  intros (_ & _ & _ & _ & H1 & _ & _ & H2 & _). unfold put_control, put_id, put_enum.
  rewrite !length_app, !to_le_length, H1, H2. done.
Qed.

(** The three events survive the perf buffer: whatever the padding bytes
    are, a structure read back at the offsets of its layout from the bytes that
    were written is the one that was written, and the sizes agree with
    [size_of]. *)
Lemma events_roundtrip :
  (∀ pad e, length pad = 7%nat → data_typed e →
     length (put_data pad e) = Z.to_nat SIZE_OF_DATA ∧ reads get_data (put_data pad e) e) ∧
  (∀ pad e, length pad = 4%nat → stats_typed e →
     length (put_stats pad e) = Z.to_nat SIZE_OF_STATS ∧ reads get_stats (put_stats pad e) e) ∧
  (∀ e, control_typed e →
     length (put_control e) = Z.to_nat SIZE_OF_CONTROL ∧ reads get_control (put_control e) e).
Proof.
  split_and!; intros; split; eauto using put_data_length, put_stats_length, put_control_length,
    reads_data, reads_stats, reads_control.
Qed.
