(* ===== verification/SocketTyped.v ===== *)
(** * socket-tracer: what the probes send are values of the events' types

    The fields of the events of [socket-tracer-common/src/lib.rs] are machine
    integers and arrays of a fixed length.  Over every run of the probes of
    [SocketProbes] the recorded connections, the arguments kept between the entry
    and the return of a call, the buffers and every event that is sent have fields
    of those types, and a probe only adds events after those sent before. *)
From S2P Require Import Prelude RustStd Bpf SocketData SocketTracer SocketProbes SocketProps SocketLayout.
From stdpp Require Import base gmap strings list relations.
From Stdlib Require Import ZArith Lia.

Local Open Scope Z_scope.

(** ** Types of the kernel's answers *)

Record kernel_typed (k : Kernel) : Prop := {
  kt_ok : kernel_ok k;
  kt_clock n : in_u 64 (ktime_get_ns k n);
  kt_pid : in_u 64 (current_pid_tgid k);
  kt_boottime a t : read_start_boottime k a = Ok t → in_u 64 t;
  kt_sock a sc : read_sock_common k a = Ok sc →
    length (skc_v6_rcv_saddr sc) = 16%nat ∧ length (skc_v6_daddr sc) = 16%nat;
  kt_family a f : read_sa_family k a = Ok f → in_u 16 f;
  kt_in6 a sa : read_sockaddr_in6 k a = Ok sa → length (u6_addr8 sa) = 16%nat;
  kt_user a n bytes : read_user_buf k a n = Ok bytes → length bytes = Z.to_nat n }.

(** ** The invariant *)

Definition conn_typed (c : ConnInfo) : Prop :=
  id_typed (id c) ∧ in_u 64 (sa_family c) ∧
  in_u 32 (src_addr_in4 c) ∧ length (src_addr_in6 c) = 16%nat ∧ in_u 32 (src_port c) ∧
  in_u 32 (dst_addr_in4 c) ∧ length (dst_addr_in6 c) = 16%nat ∧ in_u 32 (dst_port c) ∧
  in_s 64 (write_bytes c) ∧ in_s 64 (read_bytes c).

(** The events sent so far continue those of [s0]. *)
Record sent_after (s0 s : Maps) : Prop := {
  sa_control : SOCKET_CONTROL_EVENTS s0 `prefix_of` SOCKET_CONTROL_EVENTS s;
  sa_data : SOCKET_DATA_EVENTS s0 `prefix_of` SOCKET_DATA_EVENTS s;
  sa_stats : CONN_STATS_EVENTS s0 `prefix_of` CONN_STATS_EVENTS s }.

Record typed_ok (s0 s : Maps) : Prop := {
  ty_conn : values_ok (λ _, conn_typed) (CONN_INFO_MAP s);
  ty_connect : values_ok (λ _ a, in_s 64 (ca_fd a)) (ACTIVE_CONNECT_MAP s);
  ty_write : values_ok (λ _ a, in_s 64 (da_fd a)) (ACTIVE_WRITE_MAP s);
  ty_read : values_ok (λ _ a, in_s 64 (da_fd a)) (ACTIVE_READ_MAP s);
  ty_sendfile : values_ok (λ _ a, in_s 64 (out_fd a)) (ACTIVE_SENDFILE_MAP s);
  ty_close : values_ok (λ _ a, in_s 64 (cl_fd a)) (ACTIVE_CLOSE_MAP s);
  ty_data_buffer e : SOCKET_DATA_EVENT_BUFFER s = Some e → data_typed e;
  ty_stats_buffer e : CONN_STATS_EVENT_BUFFER s = Some e → in_u 64 (cs_sa_family e);
  ty_control : Forall control_typed (SOCKET_CONTROL_EVENTS s);
  ty_data : Forall (λ p, data_typed p.1) (SOCKET_DATA_EVENTS s);
  ty_stats : Forall stats_typed (CONN_STATS_EVENTS s);
  ty_after : sent_after s0 s }.

Global Instance sent_after_preorder : PreOrder sent_after.
Proof.
  split; [intros s; split; done|]. intros s1 s2 s3 [] []. split; by etrans.
Qed.

Lemma in_u_mono w w' z : 0 ≤ w ≤ w' → in_u w z → in_u w' z.
Proof. unfold in_u. intros Hw Hz. pose proof (Z.pow_le_mono_r 2 w w'). lia. Qed.

Lemma in_s_mono w w' z : 1 ≤ w ≤ w' → in_s w z → in_s w' z.
Proof. unfold in_s. intros Hw Hz. pose proof (Z.pow_le_mono_r 2 (w - 1) (w' - 1)). lia. Qed.

Lemma as_i32_typed z : in_s 64 (as_i32 z).
Proof. apply (in_s_mono 32); [lia|]. by apply wraps_range. Qed.

Lemma be16_typed z : in_u 32 (from_be16 z).
Proof. apply (in_u_mono 16); [lia|]. apply from_be16_range. Qed.

Lemma tgid_typed z : in_u 64 z → in_u 64 (Z.shiftr z 32).
Proof.
  unfold in_u. intros Hz. rewrite Z.shiftr_div_pow2 by lia.
  pose proof (Z.div_lt_upper_bound z (2 ^ 32) (2 ^ 64)). pose proof (Z.div_pos z (2 ^ 32)). lia.
Qed.

Lemma small_typed : in_u 64 AF_UNKNOWN ∧ in_u 64 AF_INET ∧ in_u 64 AF_INET6 ∧ in_u 64 0 ∧ in_u 32 0 ∧ in_s 64 0.
Proof. unfold in_u, in_s, AF_UNKNOWN, AF_INET, AF_INET6. lia. Qed.

Section typed.
Context {B : SocketMaps} {BL : SocketMapsLaws B} (k : Kernel) (Hk : kernel_typed k) (s0 : Maps).
Notation I := (typed_ok s0).

(** The fields that a change of the state leaves alone. *)
Ltac typed_split :=
  match goal with |- typed_ok _ _ => split end; try done;
  try match goal with H : sent_after _ _ |- sent_after _ _ => destruct H; by split end.

(** *** Clock, buffers and events *)

Lemma now_typed : holds I (now k) (in_u 64).
Proof.
  intros s []. split; [typed_split|]. intros a [= <-]. apply (kt_clock k Hk).
Qed.

Lemma arg_i32_typed ctx n : holds I (lift (arg_i32 ctx n)) (in_s 64).
Proof.
  apply holds_lift. intros a. unfold arg_i32. destruct (arg ctx n); simpl; [|done].
  intros [= <-]. apply as_i32_typed.
Qed.
Lemma ret_i32_typed ctx : holds I (lift (ret_i32 ctx)) (in_s 64).
Proof.
  apply holds_lift. intros a. unfold ret_i32. destruct (ret ctx); simpl; [|done].
  intros [= <-]. apply as_i32_typed.
Qed.

Lemma update_inner_typed f :
  (∀ i, inner_typed i → inner_typed (f i)) → holds I (update_inner f) (λ _, True).
Proof.
  intros Hf. apply holds_modify; [|done]. intros s []. typed_split. simpl. intros e He.
  destruct (SOCKET_DATA_EVENT_BUFFER s) as [e0|]; simplify_eq/=.
  destruct (ty_data_buffer0 e0 eq_refl). split; simpl; auto.
Qed.

Lemma control_output_typed e : control_typed e → holds I (control_output e) (λ _, True).
Proof.
  intros He. apply holds_modify; [|done]. intros s []. typed_split; simpl.
  - apply Forall_app. split; [done|]. by apply Forall_singleton.
  - destruct ty_after0. split; [|done..]. simpl. by apply prefix_app_r.
Qed.

Lemma stats_output_typed e : stats_typed e → holds I (stats_output e) (λ _, True).
Proof.
  intros He. apply holds_modify; [|done]. intros s []. typed_split; simpl.
  - apply Forall_app. split; [done|]. by apply Forall_singleton.
  - destruct ty_after0. split; [done..|]. simpl. by apply prefix_app_r.
Qed.

Lemma data_output_typed n : holds I (data_output n) (λ _, True).
Proof.
  apply holds_modify; [|done]. intros s Hs.
  destruct (SOCKET_DATA_EVENT_BUFFER s) as [e|] eqn:He; [|done].
  destruct Hs. typed_split; simpl.
  - apply Forall_app. split; [done|]. apply Forall_singleton. simpl. auto.
  - destruct ty_after0. split; [done| |done]. simpl. by apply prefix_app_r.
Qed.

(** *** Maps *)

Lemma insert_typed {V} `{BM : !BpfMap Z V, !HashLaws BM} (P : V → Prop) (get : Maps → gmap Z V) set key v :
  (∀ s, I s → values_ok (λ _, P) (get s)) →
  (∀ m s, I s → values_ok (λ _, P) m → I (set m s)) →
  P v → holds I (map_insert_op get set key v) (λ _, True).
Proof.
  intros Hget Hset Hv s Hs. unfold state_of, map_insert_op. destruct (bpf_update _ key v) eqn:Hu; simpl; [|done].
  split; [|done]. apply Hset; [done|]. eapply (values_ok_hash_update (λ _, P) BM); eauto.
Qed.

Lemma remove_typed {V} `{BM : !BpfMap Z V, !HashLaws BM} (P : V → Prop) (get : Maps → gmap Z V) set key :
  (∀ s, I s → values_ok (λ _, P) (get s)) →
  (∀ m s, I s → values_ok (λ _, P) m → I (set m s)) →
  holds I (map_remove_op get set key) (λ _, True).
Proof.
  intros Hget Hset s Hs. unfold state_of, map_remove_op. destruct (bpf_delete _ key) eqn:Hu; simpl; [|done].
  split; [|done]. apply Hset; [done|]. eapply (values_ok_hash_delete (λ _, P) BM); eauto.
Qed.

Lemma found_typed {V} (P : V → Prop) (get : Maps → gmap Z V) key :
  (∀ s, I s → values_ok (λ _, P) (get s)) →
  holds I (found ← gets (λ s, get s !! key); lift (ok_or 1 found) : M Maps Z V) P.
Proof.
  intros Hget. eapply (holds_bind _ _ _ (λ o, ∀ v, o = Some v → P v)).
  - apply holds_gets. intros s Hs v Hv. by apply (Hget s Hs key v).
  - intros o Ho. apply holds_lift. intros v Hv. destruct o; simplify_eq/=. auto.
Qed.

Ltac typed_field := intros ? ? [] ?; typed_split.
Ltac typed_get := intros ? []; done.

Lemma conn_insert_typed key c : conn_typed c → holds I (conn_info_insert key c) (λ _, True).
Proof. apply (insert_typed conn_typed); [typed_get|typed_field]. Qed.
Lemma conn_remove_typed key : holds I (conn_info_remove key) (λ _, True).
Proof. apply (remove_typed conn_typed); [typed_get|typed_field]. Qed.
Lemma connect_insert_typed key v : in_s 64 (ca_fd v) → holds I (connect_insert key v) (λ _, True).
Proof. apply (insert_typed (λ a, in_s 64 (ca_fd a))); [typed_get|typed_field]. Qed.
Lemma connect_remove_typed key : holds I (connect_remove key) (λ _, True).
Proof. apply (remove_typed (λ a, in_s 64 (ca_fd a))); [typed_get|typed_field]. Qed.
Lemma connect_get_typed key : holds I (connect_get key) (λ a, in_s 64 (ca_fd a)).
Proof. apply (found_typed (λ a, in_s 64 (ca_fd a))). typed_get. Qed.
Lemma write_insert_typed key v : in_s 64 (da_fd v) → holds I (write_insert key v) (λ _, True).
Proof. apply (insert_typed (λ a, in_s 64 (da_fd a))); [typed_get|typed_field]. Qed.
Lemma write_remove_typed key : holds I (write_remove key) (λ _, True).
Proof. apply (remove_typed (λ a, in_s 64 (da_fd a))); [typed_get|typed_field]. Qed.
Lemma write_get_typed key : holds I (write_get key) (λ a, in_s 64 (da_fd a)).
Proof. apply (found_typed (λ a, in_s 64 (da_fd a))). typed_get. Qed.
Lemma read_insert_typed key v : in_s 64 (da_fd v) → holds I (read_insert key v) (λ _, True).
Proof. apply (insert_typed (λ a, in_s 64 (da_fd a))); [typed_get|typed_field]. Qed.
Lemma read_remove_typed key : holds I (read_remove key) (λ _, True).
Proof. apply (remove_typed (λ a, in_s 64 (da_fd a))); [typed_get|typed_field]. Qed.
Lemma read_get_typed key : holds I (read_get key) (λ a, in_s 64 (da_fd a)).
Proof. apply (found_typed (λ a, in_s 64 (da_fd a))). typed_get. Qed.
Lemma sendfile_insert_typed key v : in_s 64 (out_fd v) → holds I (sendfile_insert key v) (λ _, True).
Proof. apply (insert_typed (λ a, in_s 64 (out_fd a))); [typed_get|typed_field]. Qed.
Lemma sendfile_remove_typed key : holds I (sendfile_remove key) (λ _, True).
Proof. apply (remove_typed (λ a, in_s 64 (out_fd a))); [typed_get|typed_field]. Qed.
Lemma sendfile_get_typed key : holds I (sendfile_get key) (λ a, in_s 64 (out_fd a)).
Proof. apply (found_typed (λ a, in_s 64 (out_fd a))). typed_get. Qed.
Lemma close_insert_typed key v : in_s 64 (cl_fd v) → holds I (close_insert key v) (λ _, True).
Proof. apply (insert_typed (λ a, in_s 64 (cl_fd a))); [typed_get|typed_field]. Qed.
Lemma close_remove_typed key : holds I (close_remove key) (λ _, True).
Proof. apply (remove_typed (λ a, in_s 64 (cl_fd a))); [typed_get|typed_field]. Qed.
Lemma close_get_typed key : holds I (close_get key) (λ a, in_s 64 (cl_fd a)).
Proof. apply (found_typed (λ a, in_s 64 (cl_fd a))). typed_get. Qed.
Lemma accept_insert_typed key v : holds I (accept_insert key v) (λ _, True).
Proof.
  intros s Hs. unfold state_of, accept_insert, map_insert_op.
  destruct (bpf_update _ key v); simpl; [|done]. split; [|done]. destruct Hs. typed_split.
Qed.
Lemma accept_remove_typed key : holds I (accept_remove key) (λ _, True).
Proof.
  intros s Hs. unfold state_of, accept_remove, map_remove_op.
  destruct (bpf_delete _ key); simpl; [|done]. split; [|done]. destruct Hs. typed_split.
Qed.
Lemma accept_get_typed key : holds I (accept_get key) (λ _, True).
Proof. unfold accept_get. holds_auto. Qed.

Hint Resolve now_typed arg_i32_typed ret_i32_typed update_inner_typed control_output_typed stats_output_typed
  data_output_typed conn_insert_typed conn_remove_typed connect_insert_typed connect_remove_typed
  connect_get_typed write_insert_typed write_remove_typed write_get_typed read_insert_typed
  read_remove_typed read_get_typed sendfile_insert_typed sendfile_remove_typed sendfile_get_typed
  close_insert_typed close_remove_typed close_get_typed accept_insert_typed accept_remove_typed
  accept_get_typed : rust_holds.

(** *** Connections *)

Lemma init_conn_info_typed tg fd : in_u 64 tg → in_s 64 fd →
  holds I (init_conn_info k tg fd ConnInfo_default) conn_typed.
Proof.
  intros Htg Hfd. unfold init_conn_info, init_conn_id, gen_tsid.
  eapply (holds_bind _ _ _ id_typed).
  - eapply holds_bind; [apply now_typed|]. intros ts Hts. apply holds_ret. split_and!; try done.
    simpl. unfold get_tgid_start_time. case_match; simpl; [unfold in_u; lia|].
    destruct (read_group_leader k _) as [gl|]; simpl; [|unfold in_u; lia].
    destruct (read_start_boottime k gl) as [t|] eqn:Ht; simpl; [|unfold in_u; lia].
    apply (kt_boottime k Hk) in Ht. unfold pl_nsec_to_clock_t, NSEC_PER_SEC, USER_HZ, in_u in *.
    change (1000000000 / 100) with 10000000.
    pose proof (Z.div_pos t 10000000). pose proof (Z.div_le_upper_bound t 10000000 t). lia.
  - intros i Hi. apply holds_ret. pose proof small_typed. unfold conn_typed. simpl. tauto.
Qed.

Lemma gets_conn_typed key :
  holds I (gets (λ s, CONN_INFO_MAP s !! key) : M Maps Z _) (λ o, ∀ c, o = Some c → conn_typed c).
Proof. apply holds_gets. intros s [Hc]. intros c Hk'. by eapply Hc. Qed.

Lemma get_or_create_typed tg fd : in_u 64 tg → in_s 64 fd →
  holds I (get_or_create_conn_info k tg fd) conn_typed.
Proof.
  intros Htg Hfd. unfold get_or_create_conn_info.
  eapply holds_bind; [by apply init_conn_info_typed|]. intros c Hc.
  eapply holds_bind; [apply gets_conn_typed|]. intros [info|] Hinfo; simpl in *.
  - apply holds_ret. auto.
  - eapply holds_bind; [by apply conn_insert_typed|]. intros _ _. by apply holds_ret.
Qed.

Lemma with_ports_typed c sp dp : in_u 32 sp → in_u 32 dp → conn_typed c → conn_typed (with_ports sp dp c).
Proof. unfold conn_typed. simpl. tauto. Qed.
Lemma with_addr4_typed c sa da : in_u 32 sa → in_u 32 da → conn_typed c → conn_typed (with_addr4 sa da c).
Proof. unfold conn_typed. simpl. tauto. Qed.
Lemma with_addr6_typed c sa da : length sa = 16%nat → length da = 16%nat → conn_typed c →
  conn_typed (with_addr6 sa da c).
Proof. unfold conn_typed. simpl. tauto. Qed.
Lemma with_family_typed c f : in_u 64 f → conn_typed c → conn_typed (with_family f c).
Proof. unfold conn_typed. simpl. tauto. Qed.

Lemma parse_sock_data_typed sk c : conn_typed c → conn_typed (parse_sock_data k sk c).2.
Proof.
  intros Hc. unfold parse_sock_data. destruct (read_sock_common k sk) as [sc|] eqn:Hsc; [|done].
  destruct (kt_sock k Hk _ _ Hsc). pose proof small_typed as (_ & H4 & H6 & _).
  repeat case_decide; cbn [snd]; [| |done]; (apply with_ports_typed; [apply be16_typed..|]).
  - apply with_addr4_typed; [apply from_be32_range..|by apply with_family_typed].
  - apply with_addr6_typed; [done..|by apply with_family_typed].
Qed.

Lemma parse_sockaddr_data_typed sa c : conn_typed c → conn_typed (parse_sockaddr_data k sa c).2.
Proof.
  intros Hc. unfold parse_sockaddr_data. destruct (read_sa_family k sa) as [f|] eqn:Hf; [|done].
  apply (kt_family k Hk), (in_u_mono 16 64) in Hf; [|lia].
  assert (conn_typed (with_family f c)) as Hc' by by apply with_family_typed.
  pose proof Hc' as (_ & _ & Hs4 & Hs6 & Hsp & _). cbv zeta.
  repeat case_decide; [| |done].
  - destruct (read_sockaddr_in k sa) as [a4|]; [|done]. cbn [snd].
    apply with_ports_typed; [done|apply be16_typed|]. apply with_addr4_typed; [done|apply from_be32_range|done].
  - destruct (read_sockaddr_in6 k sa) as [a6|] eqn:H6; [|done]. cbn [snd].
    apply with_ports_typed; [done|apply be16_typed|].
    apply with_addr6_typed; [done|by eapply kt_in6|done].
Qed.

Lemma control_event_typed c ty f ts w r : conn_typed c → in_u 64 ts → in_s 64 w → in_s 64 r →
  control_typed (control_event c ty f ts w r).
Proof. unfold conn_typed, control_typed. simpl. tauto. Qed.

Lemma submit_open_event_typed args : in_u 64 (oe_tgid args) → in_s 64 (oe_fd args) →
  holds I (submit_open_event k args) (λ _, True).
Proof.
  intros Htg Hfd. unfold submit_open_event.
  eapply holds_bind; [by apply init_conn_info_typed|]. intros c Hc.
  assert (conn_typed (with_role (oe_role args) c)) as Hc1 by done.
  set (parsed := if negb (oe_sk args =? 0) then _ else _).
  assert (conn_typed parsed.2) as Hp.
  { unfold parsed. repeat case_match; [by apply parse_sock_data_typed|
      by apply parse_sockaddr_data_typed|apply Hc1]. }
  destruct parsed as [r c']. simpl in Hp.
  eapply (holds_bind _ _ _ (λ _, True)); [holds_auto|intros _ _].
  eapply holds_bind; [by apply conn_insert_typed|intros _ _].
  case_match; [by apply holds_ret|].
  eapply holds_bind; [apply now_typed|intros ts Hts].
  eapply holds_bind; [apply control_output_typed|intros _ _; by apply holds_ret].
  apply control_event_typed; (done || apply small_typed).
Qed.

Lemma submit_close_event_typed c f : conn_typed c → holds I (submit_close_event k c f) (λ _, True).
Proof.
  intros Hc. unfold submit_close_event. eapply holds_bind; [apply now_typed|intros ts Hts].
  eapply holds_bind; [apply control_output_typed|intros _ _; by apply holds_ret].
  apply control_event_typed; try done; apply Hc.
Qed.

Lemma populate_conn_stats_typed c : conn_typed c →
  holds I (populate_conn_stats_event k c) (λ e, stats_typed e ∧ event_flags e = 0).
Proof.
  intros Hc. unfold populate_conn_stats_event.
  eapply (holds_bind _ _ _ (λ o, ∀ e, o = Some e → in_u 64 (cs_sa_family e))).
  { apply holds_gets. intros s Hs. apply (ty_stats_buffer _ _ Hs). }
  intros o Ho. eapply (holds_bind _ _ _ (λ e, in_u 64 (cs_sa_family e))).
  { apply holds_lift. intros e He. destruct o; simplify_eq/=. auto. }
  intros e He. eapply holds_bind; [apply now_typed|intros ts Hts]. apply holds_ret.
  pose proof small_typed. unfold conn_typed, stats_typed in *. simpl. tauto.
Qed.

Lemma update_conn_stats_typed c d n : conn_typed c → holds I (update_conn_stats k c d n) (λ _, True).
Proof.
  intros Hc. unfold update_conn_stats. set (c' := match d with Egress => _ | Ingress => _ end).
  assert (conn_typed c') as Hc'.
  { unfold c', conn_typed in *. destruct d; simpl; split_and!; try tauto; by apply wraps_range. }
  case_match; [|by apply holds_ret].
  eapply holds_bind; [by apply populate_conn_stats_typed|]. intros e [He _].
  eapply holds_bind; [by apply stats_output_typed|]. intros _ _. by apply holds_ret.
Qed.

Lemma update_traffic_class_typed c d b n : conn_typed c → conn_typed (update_traffic_class k c d b n).
Proof. intros Hc. unfold update_traffic_class. repeat case_match; done. Qed.

Lemma classify_vecs_typed n i c d iov_ iovlen_ count c' :
  conn_typed c → classify_vecs k n i c d iov_ iovlen_ count = Ok c' → conn_typed c'.
Proof.
  intros Hc. revert i. induction n as [|n IH]; intros i; cbn [classify_vecs].
  { by intros [= <-]. }
  case_match; [by intros [= <-]|]. destruct (read_iovec k _) as [v|]; cbn [mbind result_bind]; [|done].
  case_match; [|apply IH]. intros [= <-]. by apply update_traffic_class_typed.
Qed.

(** *** Data *)

Lemma populate_data_typed f d c : conn_typed c →
  holds I (populate_socket_data_event k f d c) (λ _, True).
Proof.
  intros Hc. unfold populate_socket_data_event.
  eapply (holds_bind _ _ _ (λ _, True)); [by apply holds_gets|intros buffer _].
  case_match; [|apply holds_throw].
  eapply holds_bind; [apply now_typed|intros ts Hts]. apply update_inner_typed.
  intros i (_ & _ & _ & Hm & Hb). split_and!; try done; [apply Hc|]. by apply wrapu_range.
Qed.

Lemma perf_submit_buf_typed b n : 0 ≤ n → holds I (perf_submit_buf k b n) (λ _, True).
Proof.
  intros Hn s Hs. unfold state_of. rewrite perf_submit_buf_run by done. cbv zeta. split; [|done].
  pose proof (copied_bound n Hn) as [Hcb _].
  assert (∀ z i, inner_typed i → in_u 32 z → inner_typed (with_sizes (as_u32 n) z i)) as Hsz.
  { intros z i (H1 & H2 & H3 & _ & _) Hz. split_and!; try done. by apply wrapu_range. }
  assert (I (set_SOCKET_DATA_EVENT_BUFFER (sized_event n <$> SOCKET_DATA_EVENT_BUFFER s) s)) as Hs1.
  { destruct Hs. typed_split. simpl. intros e He.
    destruct (SOCKET_DATA_EVENT_BUFFER s) as [e0|]; simplify_eq/=.
    destruct (ty_data_buffer0 e0 eq_refl) as [Hi Hm]. split; [|done]. apply Hsz; [done|apply Hi]. }
  case_decide as Hc; [done|].
  destruct (read_user_buf k b (copied n)) as [bytes|e] eqn:Hu; simpl; [|done].
  apply (kt_user k Hk) in Hu.
  destruct (SOCKET_DATA_EVENT_BUFFER s) as [e|] eqn:He; [|done].
  assert (data_typed (sent_event n bytes e)) as Hd.
  { destruct (ty_data_buffer _ _ Hs e He) as [Hi Hm]. split.
    - apply Hsz; [done|by apply wrapu_range].
    - cbn [sent_event msg]. rewrite length_app, length_drop, Hm, Hu. lia. }
  destruct Hs. typed_split; simpl.
  - by intros e' [= <-].
  - apply Forall_app. split; [done|]. by apply Forall_singleton.
  - destruct ty_after0. split; [done| |done]. simpl. by apply prefix_app_r.
Qed.

Lemma submit_chunks_typed n b total submitted :
  0 ≤ submitted ≤ total → holds I (submit_chunks k n b total submitted) (λ _, True).
Proof.
  revert submitted. induction n as [|n IH]; intros submitted Hs; [by apply holds_ret|].
  cbn [submit_chunks]. set (cur := if _ && _ then _ else _).
  assert (0 ≤ cur ≤ total - submitted) as Hcur.
  { unfold cur, MAX_MSG_SIZE. destruct (Z.ltb_spec 30720 (total - submitted)); [|simpl; lia].
    destruct (negb _); simpl; lia. }
  eapply holds_bind; [apply perf_submit_buf_typed; lia|]. intros _ _. apply IH. lia.
Qed.

Lemma submit_iovecs_typed n i iov_ iovlen_ total sent :
  0 ≤ sent ≤ total → holds I (submit_iovecs k n i iov_ iovlen_ total sent) (λ _, True).
Proof.
  revert i sent. induction n as [|n IH]; intros i sent Hs; [by apply holds_ret|].
  cbn [submit_iovecs]. case_match; [by apply holds_ret|]. case_match; [by apply holds_ret|].
  eapply (holds_bind _ _ _ (λ v, in_u 64 (iov_len v))).
  { apply holds_lift. intros v. apply (kt_ok k Hk). }
  intros v Hv. unfold in_u in Hv.
  eapply holds_bind; [apply perf_submit_buf_typed; lia|]. intros _ _.
  eapply holds_bind; [apply update_inner_typed|intros _ _; apply IH; lia].
  intros e (H1 & H2 & _ & H4 & H5). split_and!; try done. by apply wrapu_range.
Qed.

Lemma process_data_typed args extra : in_s 64 (da_fd args) → in_u 64 (pid_tgid extra) →
  holds I (process_data k args extra) (λ _, True).
Proof.
  intros Hfd Hpid%tgid_typed. unfold process_data. do 3 (case_match; [by apply holds_ret|]).
  destruct (Z.leb_spec (bytes_count extra) 0) as [|Hpos]; [by apply holds_ret|].
  eapply (holds_bind _ _ _ (λ _, True)); [by apply holds_gets|]. intros m _.
  case_decide; [by apply holds_ret|].
  eapply holds_bind; [by apply get_or_create_typed|]. intros c Hc.
  case_match; [by apply holds_ret|].
  eapply (holds_bind _ _ _ (λ _, True)); [by apply holds_gets|]. intros dis _.
  eapply (holds_bind _ _ _ conn_typed).
  { case_match; [|apply holds_ret; by apply update_traffic_class_typed].
    apply holds_lift. intros c'. by apply classify_vecs_typed. }
  intros c' Hc'. eapply (holds_bind _ _ _ (λ _, True)); [by apply holds_gets|]. intros send _.
  eapply (holds_bind _ _ _ (λ _, True)).
  { case_match; [|by apply holds_ret].
    eapply holds_bind; [by apply populate_data_typed|]. intros _ _.
    case_match; [apply submit_iovecs_typed|apply submit_chunks_typed]; lia. }
  intros _ _. eapply holds_bind; [by apply update_conn_stats_typed|]. intros _ _. by apply holds_ret.
Qed.

(** *** The probes *)

Lemma pid_typed : in_u 64 (current_pid_tgid k).
Proof. apply Hk. Qed.

Lemma process_syscall_close_typed ctx key args :
  holds I (process_syscall_close k ctx key args) (λ _, True).
Proof.
  unfold process_syscall_close. eapply (holds_bind _ _ _ (λ _, True)); [holds_auto|intros retval _].
  do 2 (case_match; [by apply holds_ret|]).
  eapply (holds_bind _ _ _ (λ _, True)); [by apply holds_gets|intros m _].
  case_decide; [by apply holds_ret|].
  eapply holds_bind; [apply gets_conn_typed|]. intros found Hfound. simpl in Hfound.
  eapply (holds_bind _ _ _ conn_typed).
  { apply holds_lift. intros c Hc. destruct found; simplify_eq/=. by apply Hfound. }
  intros c Hc. eapply (holds_bind _ _ _ (λ _, True)); [|intros _ _; holds_auto].
  case_match; [|by apply holds_ret].
  eapply holds_bind; [by apply submit_close_event_typed|intros _ _].
  eapply holds_bind; [by apply populate_conn_stats_typed|]. intros e [He Hf].
  apply stats_output_typed. unfold stats_typed in *. simpl. rewrite Hf. split_and!; try tauto.
  vm_compute. split; congruence.
Qed.

Lemma process_syscall_sendfile_typed key args count : in_u 64 key → in_s 64 (out_fd args) →
  holds I (process_syscall_sendfile k key args count) (λ _, True).
Proof.
  intros Hkey%tgid_typed Hfd. unfold process_syscall_sendfile. do 2 (case_match; [by apply holds_ret|]).
  eapply (holds_bind _ _ _ (λ _, True)); [by apply holds_gets|intros m _].
  case_decide; [by apply holds_ret|].
  eapply holds_bind; [by apply get_or_create_typed|]. intros c Hc.
  case_match; [by apply holds_ret|].
  do 2 (eapply (holds_bind _ _ _ (λ _, True)); [by apply holds_gets|intros ? _]).
  eapply (holds_bind _ _ _ (λ _, True)).
  2: { intros _ _. eapply holds_bind; [by apply update_conn_stats_typed|]. intros _ _.
       by apply holds_ret. }
  case_match; [|by apply holds_ret].
  eapply holds_bind; [by apply populate_data_typed|]. intros _ _.
  eapply holds_bind; [apply update_inner_typed|intros _ _; apply data_output_typed].
  intros i (Hts & Hid & _). pose proof small_typed as (_ & _ & _ & _ & Hz & _).
  refine (conj Hts (conj Hid (conj _ (conj _ Hz)))); by apply wrapu_range.
Qed.

Hint Resolve pid_typed tgid_typed submit_open_event_typed process_data_typed process_syscall_close_typed
  process_syscall_sendfile_typed : rust_holds.
Hint Extern 1 (in_s 64 _) => (simpl; assumption) : rust_holds.
Hint Extern 2 (in_u 64 _) => (simpl; first [exact pid_typed|exact (tgid_typed _ pid_typed)]) : rust_holds.

Lemma sock_alloc_typed ctx : holds I (try_ret_sock_alloc k ctx) (λ _, True).
Proof.
  unfold try_ret_sock_alloc. eapply (holds_bind _ _ _ (λ _, True)); [holds_auto|intros sk _].
  eapply holds_bind; [apply accept_get_typed|intros args _].
  eapply (holds_bind _ _ _ (λ _, True)); [|intros; by apply holds_ret].
  case_match; [|by apply holds_ret]. apply holds_modify; [|done]. intros s []. typed_split.
Qed.

Lemma values_ok_insert {V} (P : V → Prop) (m : gmap Z V) key v :
  P v → values_ok (λ _, P) m → values_ok (λ _, P) (<[key := v]> m).
Proof. intros Hv Hm k' v'. rewrite lookup_insert. case_decide; [by intros [= <-]|apply Hm]. Qed.

Lemma security_sendmsg_typed : holds I (try_entry_security_socket_sendmsg k) (λ _, True).
Proof.
  eapply holds_bind; [apply write_get_typed|intros args Ha].
  eapply (holds_bind _ _ _ (λ _, True)); [|intros; by apply holds_ret].
  apply holds_modify; [|done]. intros s []. typed_split. simpl.
  by apply (values_ok_insert (λ a, in_s 64 (da_fd a))).
Qed.

Lemma security_recvmsg_typed : holds I (try_entry_security_socket_recvmsg k) (λ _, True).
Proof.
  eapply holds_bind; [apply read_get_typed|intros args Ha].
  eapply (holds_bind _ _ _ (λ _, True)); [|intros; by apply holds_ret].
  apply holds_modify; [|done]. intros s []. typed_split. simpl.
  by apply (values_ok_insert (λ a, in_s 64 (da_fd a))).
Qed.

Hint Resolve sock_alloc_typed security_sendmsg_typed security_recvmsg_typed : rust_holds.

Lemma try_probe_typed p ctx : holds I (try_probe k p ctx) (λ _, True).
Proof.
  destruct p; cbn [try_probe]; try solve [eauto with rust_holds];
    unfold try_entry_accept, try_ret_accept, try_entry_accept4, try_ret_accept4, try_entry_connect,
    try_ret_connect, try_entry_close, try_ret_close, try_entry_read, try_ret_read,
    try_entry_write, try_ret_write, try_entry_recv, try_ret_recv, try_entry_send,
    try_ret_send, try_entry_recvfrom, try_ret_recvfrom, try_entry_sendto, try_ret_sendto,
    try_entry_readv, try_ret_readv, try_entry_writev, try_ret_writev, try_entry_recvmsg,
    try_ret_recvmsg, try_entry_sendmsg, try_ret_sendmsg, try_entry_recvmmsg,
    try_ret_recvmmsg, try_entry_sendmmsg, try_ret_sendmmsg, try_entry_sendfile,
    try_ret_sendfile,
    process_syscall_accept, process_syscall_accept4, process_syscall_connect,
    process_syscall_data, process_syscall_data_vecs; holds_auto.
Qed.
End typed.

(** ** Runs *)

Lemma run_probe_typed {B : SocketMaps} {BL : SocketMapsLaws B} k p ctx s0 s :
  kernel_typed k → typed_ok s0 s → typed_ok s0 (run_probe k p ctx s).2.
Proof.
  intros Hk Hs. destruct (try_probe_typed k Hk s0 p ctx s Hs) as [Hs' _]. revert Hs'.
  unfold state_of, run_probe. by destruct (try_probe k p ctx s).
Qed.

Lemma set_controls_typed cm cv cd s0 s : typed_ok s0 s → typed_ok s0 (set_controls cm cv cd s).
Proof. intros []. split; try done. destruct ty_after0. by split. Qed.

(** The reference point may move on. *)
Lemma typed_ok_self s0 s : typed_ok s0 s → typed_ok s s.
Proof. intros []. by split. Qed.

(** Nothing sent or pending yet, and buffers of the right size. *)
Definition unused_maps (s : Maps) : Prop :=
  started s ∧ ACTIVE_CONNECT_MAP s = ∅ ∧ ACTIVE_WRITE_MAP s = ∅ ∧ ACTIVE_READ_MAP s = ∅ ∧
  ACTIVE_SENDFILE_MAP s = ∅ ∧ ACTIVE_CLOSE_MAP s = ∅ ∧
  ∀ e, SOCKET_DATA_EVENT_BUFFER s = Some e → data_typed e.

Lemma unused_typed s : unused_maps s → typed_ok s s.
Proof.
  intros ((H1 & H2 & H3 & H4 & H5) & Hc & Hw & Hr & Hsf & Hcl & Hb).
  split; rewrite ?H1, ?H2, ?H3, ?H4, ?Hc, ?Hw, ?Hr, ?Hsf, ?Hcl;
    [apply values_ok_empty|apply values_ok_empty|apply values_ok_empty|apply values_ok_empty|
     apply values_ok_empty|apply values_ok_empty|done| |constructor|constructor|constructor|done].
  intros e He. rewrite (H5 e He). vm_compute. split; congruence.
Qed.
