(* ===== verification/SocketThreads.v ===== *)
(** * socket-tracer: the probes of several threads

    The entry probe of a system call keeps its arguments in an [ACTIVE_*] map
    under the thread's [pid_tgid] until the return probe of the same thread takes
    them out ([socket-tracer-ebpf/src/kprobes/*.rs]).  Between the two any number
    of probes of other threads run.  What a thread has pending is changed by its
    own probes only, so a return probe finds what its entry probe stored; and for
    every return probe it is fixed when it leaves the arguments behind. *)
From S2P Require Import Prelude RustStd Bpf SocketData SocketTracer SocketProbes SocketProps.
From stdpp Require Import base gmap strings list relations.
From Stdlib Require Import ZArith Lia.

Local Open Scope Z_scope.

(** ** What threads have pending *)

(** The maps of pending arguments. *)
Definition actives (s : Maps) :=
  (ACTIVE_ACCEPT_MAP s, ACTIVE_CONNECT_MAP s, ACTIVE_WRITE_MAP s, ACTIVE_READ_MAP s,
   ACTIVE_SENDFILE_MAP s, ACTIVE_CLOSE_MAP s).

(** The arguments pending for one thread. *)
Record Pending := {
  p_accept : option AcceptArgs;
  p_connect : option ConnectArgs;
  p_write : option DataArgs;
  p_read : option DataArgs;
  p_sendfile : option SendfileArgs;
  p_close : option CloseArgs }.

Definition pending (key : Z) (s : Maps) : Pending := {|
  p_accept := ACTIVE_ACCEPT_MAP s !! key;
  p_connect := ACTIVE_CONNECT_MAP s !! key;
  p_write := ACTIVE_WRITE_MAP s !! key;
  p_read := ACTIVE_READ_MAP s !! key;
  p_sendfile := ACTIVE_SENDFILE_MAP s !! key;
  p_close := ACTIVE_CLOSE_MAP s !! key |}.

(** A probe of another thread, or a change of the controls by user space. *)
Inductive other_step {B : SocketMaps} (key : Z) : Maps → Maps → Prop :=
  | other_probe k p ctx s : current_pid_tgid k ≠ key → other_step key s (run_probe k p ctx s).2
  | other_control cm cv cd s : other_step key s (set_controls cm cv cd s).

(** The walk through a probe, by the shape of what comes next. *)
Ltac walk :=
  repeat match goal with
  | |- stable _ (_ ≫= _) => apply stable_bind; [apply _| |intros ?]
  | |- stable _ (attempt _) => apply stable_attempt
  | |- stable _ (mret _) => apply stable_ret; apply _
  | |- stable _ (throw _) => apply stable_throw; apply _
  | |- stable _ (lift _) => apply stable_lift; apply _
  | |- stable _ (gets _) => apply stable_gets; apply _
  | |- stable _ (if ?b then _ else _) => destruct b
  | |- stable _ (match ?x with _ => _ end) => destruct x
  | |- stable _ (let '_ := ?x in _) => destruct x
  | |- _ => solve [eauto with rust_pres]
  end.

(** The probes down to map operations and the library. *)
Ltac unfold_probes :=
  unfold try_entry_accept, try_ret_accept, try_entry_accept4, try_ret_accept4, try_entry_connect,
    try_ret_connect, try_entry_close, try_ret_close, try_entry_read, try_ret_read,
    try_entry_write, try_ret_write, try_entry_recv, try_ret_recv, try_entry_send,
    try_ret_send, try_entry_recvfrom, try_ret_recvfrom, try_entry_sendto, try_ret_sendto,
    try_entry_readv, try_ret_readv, try_entry_writev, try_ret_writev, try_entry_recvmsg,
    try_ret_recvmsg, try_entry_sendmsg, try_ret_sendmsg, try_entry_recvmmsg,
    try_ret_recvmmsg, try_entry_sendmmsg, try_ret_sendmmsg, try_entry_sendfile,
    try_ret_sendfile, try_ret_sock_alloc, try_entry_security_socket_sendmsg,
    try_entry_security_socket_recvmsg, process_syscall_data, process_syscall_data_vecs,
    accept_get, connect_get, write_get, read_get, sendfile_get, close_get.

(** ** The library does not touch pending arguments *)

Section library.
Context {B : SocketMaps} (k : Kernel).
Notation kept := (same actives).

Lemma now_kept : stable kept (now k).
Proof. by intros s. Qed.
Lemma update_inner_kept f : stable kept (update_inner f).
Proof. by intros s. Qed.
Lemma control_output_kept e : stable kept (control_output e).
Proof. by intros s. Qed.
Lemma stats_output_kept e : stable kept (stats_output e).
Proof. by intros s. Qed.
Lemma data_output_kept n : stable kept (data_output n).
Proof. intros s. unfold state_of, data_output, modify. simpl. by destruct (SOCKET_DATA_EVENT_BUFFER s). Qed.
Lemma read_msg_kept b n : stable kept (read_msg k b n).
Proof. intros s. unfold state_of, read_msg. by destruct (read_user_buf k b n). Qed.
Lemma conn_info_insert_kept key c : stable kept (conn_info_insert key c).
Proof. intros s. unfold state_of, conn_info_insert, map_insert_op. by destruct (bpf_update _ key c). Qed.
Lemma conn_info_remove_kept key : stable kept (conn_info_remove key).
Proof. intros s. unfold state_of, conn_info_remove, map_remove_op. by destruct (bpf_delete _ key). Qed.

Hint Resolve now_kept update_inner_kept control_output_kept stats_output_kept data_output_kept
  read_msg_kept conn_info_insert_kept conn_info_remove_kept : rust_pres.

Lemma init_conn_info_kept tg fd c : stable kept (init_conn_info k tg fd c).
Proof. unfold init_conn_info, init_conn_id, gen_tsid. walk. Qed.
Hint Resolve init_conn_info_kept : rust_pres.

Lemma get_or_create_kept tg fd : stable kept (get_or_create_conn_info k tg fd).
Proof. unfold get_or_create_conn_info. walk. Qed.
Lemma submit_open_event_kept args : stable kept (submit_open_event k args).
Proof. unfold submit_open_event. walk. Qed.
Lemma submit_close_event_kept c f : stable kept (submit_close_event k c f).
Proof. unfold submit_close_event. walk. Qed.
Lemma populate_conn_stats_kept c : stable kept (populate_conn_stats_event k c).
Proof. unfold populate_conn_stats_event. walk. Qed.
Lemma populate_data_kept f d c : stable kept (populate_socket_data_event k f d c).
Proof. unfold populate_socket_data_event. walk. Qed.
Lemma perf_submit_buf_kept b n : stable kept (perf_submit_buf k b n).
Proof. unfold perf_submit_buf. walk. Qed.
Hint Resolve get_or_create_kept submit_open_event_kept submit_close_event_kept
  populate_conn_stats_kept populate_data_kept perf_submit_buf_kept : rust_pres.

Lemma submit_chunks_kept n b total sent : stable kept (submit_chunks k n b total sent).
Proof. revert sent. induction n as [|n IH]; intros sent; cbn [submit_chunks]; walk. Qed.
Lemma submit_iovecs_kept n i iov_ iovlen_ total sent :
  stable kept (submit_iovecs k n i iov_ iovlen_ total sent).
Proof.
  revert i sent. induction n as [|n IH]; intros i sent; cbn [submit_iovecs]; walk.
Qed.
Lemma update_conn_stats_kept c d n : stable kept (update_conn_stats k c d n).
Proof. unfold update_conn_stats. walk. Qed.
Hint Resolve submit_chunks_kept submit_iovecs_kept update_conn_stats_kept : rust_pres.

Lemma process_data_kept args extra : stable kept (process_data k args extra).
Proof. unfold process_data, submit_data_event, submit_data_event_iovecs. walk. Qed.
Hint Resolve process_data_kept : rust_pres.

Lemma process_syscall_accept_kept ctx key args : stable kept (process_syscall_accept k ctx key args).
Proof. unfold process_syscall_accept. walk. Qed.
Lemma process_syscall_accept4_kept ctx key args : stable kept (process_syscall_accept4 k ctx key args).
Proof. unfold process_syscall_accept4. walk. Qed.
Lemma process_syscall_connect_kept ctx key args : stable kept (process_syscall_connect k ctx key args).
Proof. unfold process_syscall_connect. walk. Qed.
Lemma process_syscall_close_kept ctx key args : stable kept (process_syscall_close k ctx key args).
Proof. unfold process_syscall_close. walk. Qed.
Lemma process_syscall_sendfile_kept key args count : stable kept (process_syscall_sendfile k key args count).
Proof. unfold process_syscall_sendfile. walk. Qed.
End library.

#[export] Hint Resolve process_data_kept process_syscall_accept_kept process_syscall_accept4_kept
  process_syscall_connect_kept process_syscall_close_kept process_syscall_sendfile_kept : rust_pres.

Lemma actives_pending key s s' : same actives s s' → same (pending key) s s'.
Proof. unfold same, actives, pending. by intros [= -> -> -> -> -> ->]. Qed.

Lemma kept_pending {A} key (m : M Maps Z A) : stable (same actives) m → stable (same (pending key)) m.
Proof. intros Hm s. apply actives_pending, Hm. Qed.

(** ** The probes of other threads *)

Section others.
Context {B : SocketMaps} {BL : SocketMapsLaws B} (k : Kernel) (key : Z).
Context (Hother : current_pid_tgid k ≠ key).
Notation R := (same (pending key)).

Lemma insert_other {V} `{BM : !BpfMap Z V, !HashLaws BM} (get : Maps → gmap Z V) set v :
  (∀ s, R s (set (<[current_pid_tgid k := v]> (get s)) s)) →
  stable R (map_insert_op get set (current_pid_tgid k) v).
Proof.
  intros Hset s. unfold state_of, map_insert_op. destruct (bpf_update _ _ v) as [m|e] eqn:Hu; [|done].
  apply hash_update_ok in Hu as ->. apply Hset.
Qed.

Lemma remove_other {V} `{BM : !BpfMap Z V, !HashLaws BM} (get : Maps → gmap Z V) set :
  (∀ s, R s (set (delete (current_pid_tgid k) (get s)) s)) →
  stable R (map_remove_op get set (current_pid_tgid k)).
Proof.
  intros Hset s. unfold state_of, map_remove_op. destruct (bpf_delete _ _) as [m|e] eqn:Hu; [|done].
  apply hash_delete_ok in Hu as ->. apply Hset.
Qed.

(** An update of one of the six maps under another key. *)
Ltac other_map := intros; unfold same, pending; simpl; f_equal; by simplify_map_eq.

Lemma accept_insert_other v : stable R (accept_insert (current_pid_tgid k) v).
Proof. apply insert_other; other_map. Qed.
Lemma accept_remove_other : stable R (accept_remove (current_pid_tgid k)).
Proof. apply remove_other; other_map. Qed.
Lemma connect_insert_other v : stable R (connect_insert (current_pid_tgid k) v).
Proof. apply insert_other; other_map. Qed.
Lemma connect_remove_other : stable R (connect_remove (current_pid_tgid k)).
Proof. apply remove_other; other_map. Qed.
Lemma write_insert_other v : stable R (write_insert (current_pid_tgid k) v).
Proof. apply insert_other; other_map. Qed.
Lemma write_remove_other : stable R (write_remove (current_pid_tgid k)).
Proof. apply remove_other; other_map. Qed.
Lemma read_insert_other v : stable R (read_insert (current_pid_tgid k) v).
Proof. apply insert_other; other_map. Qed.
Lemma read_remove_other : stable R (read_remove (current_pid_tgid k)).
Proof. apply remove_other; other_map. Qed.
Lemma sendfile_insert_other v : stable R (sendfile_insert (current_pid_tgid k) v).
Proof. apply insert_other; other_map. Qed.
Lemma sendfile_remove_other : stable R (sendfile_remove (current_pid_tgid k)).
Proof. apply remove_other; other_map. Qed.
Lemma close_insert_other v : stable R (close_insert (current_pid_tgid k) v).
Proof. apply insert_other; other_map. Qed.
Lemma close_remove_other : stable R (close_remove (current_pid_tgid k)).
Proof. apply remove_other; other_map. Qed.

Lemma sock_event_write_other v : stable R (modify (λ s,
  set_ACTIVE_WRITE_MAP (<[current_pid_tgid k := v]> (ACTIVE_WRITE_MAP s)) s) : M Maps Z unit).
Proof. apply stable_modify; other_map. Qed.
Lemma sock_event_read_other v : stable R (modify (λ s,
  set_ACTIVE_READ_MAP (<[current_pid_tgid k := v]> (ACTIVE_READ_MAP s)) s) : M Maps Z unit).
Proof. apply stable_modify; other_map. Qed.
Lemma sock_alloc_other v : stable R (modify (λ s,
  set_ACTIVE_ACCEPT_MAP (<[current_pid_tgid k := v]> (ACTIVE_ACCEPT_MAP s)) s) : M Maps Z unit).
Proof. apply stable_modify; other_map. Qed.

Hint Resolve accept_insert_other accept_remove_other connect_insert_other connect_remove_other
  write_insert_other write_remove_other read_insert_other read_remove_other
  sendfile_insert_other sendfile_remove_other close_insert_other close_remove_other
  sock_event_write_other sock_event_read_other sock_alloc_other kept_pending : rust_pres.

Lemma try_probe_other p ctx : stable R (try_probe k p ctx).
Proof. destruct p; cbn [try_probe]; unfold_probes; walk. Qed.
End others.

(** Whatever other threads do, what a thread has pending stays. *)
Lemma other_run_pending {B : SocketMaps} {BL : SocketMapsLaws B} key s s' :
  rtc (other_step key) s s' → pending key s' = pending key s.
Proof.
  induction 1 as [s|s1 s2 s3 Hstep _ IH]; [done|]. rewrite IH.
  destruct Hstep as [k p ctx s Hk|]; [|done]. rewrite run_probe_state.
  by apply (try_probe_other k key Hk p ctx s).
Qed.

(** ** What an entry probe stores *)

Definition with_p_accept a (q : Pending) : Pending := {|
  p_accept := a; p_connect := p_connect q; p_write := p_write q; p_read := p_read q;
  p_sendfile := p_sendfile q; p_close := p_close q |}.
Definition with_p_connect a (q : Pending) : Pending := {|
  p_accept := p_accept q; p_connect := a; p_write := p_write q; p_read := p_read q;
  p_sendfile := p_sendfile q; p_close := p_close q |}.
Definition with_p_write a (q : Pending) : Pending := {|
  p_accept := p_accept q; p_connect := p_connect q; p_write := a; p_read := p_read q;
  p_sendfile := p_sendfile q; p_close := p_close q |}.
Definition with_p_read a (q : Pending) : Pending := {|
  p_accept := p_accept q; p_connect := p_connect q; p_write := p_write q; p_read := a;
  p_sendfile := p_sendfile q; p_close := p_close q |}.
Definition with_p_sendfile a (q : Pending) : Pending := {|
  p_accept := p_accept q; p_connect := p_connect q; p_write := p_write q; p_read := p_read q;
  p_sendfile := a; p_close := p_close q |}.
Definition with_p_close a (q : Pending) : Pending := {|
  p_accept := p_accept q; p_connect := p_connect q; p_write := p_write q; p_read := p_read q;
  p_sendfile := p_sendfile q; p_close := a |}.

(** The address of a message, if it has one and the map has room for it. *)
Definition message_address (room : bool) (fd name : Z) (q : Pending) : Pending :=
  if negb (name =? 0) && room then with_p_connect (Some {| ca_fd := fd; ca_sockaddr := name |}) q else q.

Section stored.
Context (k : Kernel) (ctx : ProbeContext).

Definition reg_i32 n : option Z := as_i32 <$> arg ctx n.
Definition reg_u32 n : option Z := as_u32 <$> arg ctx n.
Definition reg_u64 n : option Z := as_u64 <$> arg ctx n.

(** A call with a buffer, and one with a vector, in the map that [put] writes. *)
Definition buffer_call (put : option DataArgs → Pending → Pending) src (q : Pending) : option Pending :=
  fd ← reg_i32 0; b ← reg_u64 1; Some (put (Some (buf_args src fd b)) q).
Definition vector_call (put : option DataArgs → Pending → Pending) src (q : Pending) : option Pending :=
  fd ← reg_i32 0; v ← reg_u64 1; n ← reg_u64 2; Some (put (Some (vec_args src AFalse fd v n 0)) q).
(** A call with a message header, and one with a vector of messages. *)
Definition message_call (room : bool) (put : option DataArgs → Pending → Pending) src ev (q : Pending) :
    option Pending :=
  fd ← reg_i32 0; msghdr ← reg_u64 1;
  if msghdr =? 0 then Some q
  else hdr ← ok (read_user_msghdr k msghdr);
       Some (put (Some (vec_args src ev fd (msg_iov hdr) (msg_iovlen hdr) 0))
               (message_address room fd (msg_name hdr) q)).
Definition messages_call (room : bool) (put : option DataArgs → Pending → Pending) src (q : Pending) :
    option Pending :=
  fd ← reg_i32 0; msgvec ← reg_u64 1; vlen ← reg_u32 2;
  if negb (msgvec =? 0) && (1 <=? vlen) then
    mm ← ok (read_mmsghdr k msgvec);
    Some (put (Some (vec_args src AFalse fd (msg_iov (msg_hdr mm)) (msg_iovlen (msg_hdr mm)) (mm_msg_len mm)))
            (message_address room fd (msg_name (msg_hdr mm)) q))
  else Some q.

(** What a thread has pending after the entry probe of a call; [None] for the
    other probes and when a register or the header is missing.  As in the probes,
    register [n] of the context is taken for argument [n] of the call. *)
Definition stores (room : bool) (p : Probe) (q : Pending) : option Pending :=
  match p with
  | entry_accept | entry_accept4 =>
      sa ← reg_u64 1; Some (with_p_accept (Some {| aa_sockaddr := sa; aa_sock := 0 |}) q)
  | entry_connect =>
      fd ← reg_i32 0; sa ← reg_u64 1;
      Some (with_p_connect (Some {| ca_fd := fd; ca_sockaddr := sa |}) q)
  | entry_close => fd ← reg_i32 0; Some (with_p_close (Some {| cl_fd := fd |}) q)
  | entry_read => buffer_call with_p_read SyscallRead q
  | entry_write => buffer_call with_p_write SyscallWrite q
  | entry_recv => buffer_call with_p_read SyscallRecv q
  | entry_send => buffer_call with_p_write SyscallSend q
  | entry_recvfrom => buffer_call with_p_read SyscallRecvFrom q
  | entry_sendto =>
      fd ← reg_i32 0; dest ← reg_u64 4;
      buffer_call with_p_write SyscallSendTo (message_address true fd dest q)
  | entry_readv => vector_call with_p_read SyscallReadV q
  | entry_writev => vector_call with_p_write SyscallWriteV q
  | entry_recvmsg => message_call room with_p_read SyscallRecvMsg AFalse q
  | entry_sendmsg => message_call room with_p_write SyscallSendMsg ATrue q
  | entry_recvmmsg => messages_call room with_p_read SyscallRecvMMsg q
  | entry_sendmmsg => messages_call room with_p_write SyscallSendMMsg q
  | entry_sendfile =>
      o ← reg_i32 0; i ← reg_i32 1; n ← reg_u64 3;
      Some (with_p_sendfile (Some {| out_fd := o; in_fd := i; sf_count := n |}) q)
  | _ => None
  end.
End stored.

Definition is_entry (p : Probe) : bool :=
  match p with
  | entry_accept | entry_accept4 | entry_connect | entry_close | entry_read | entry_write | entry_recv
  | entry_send | entry_recvfrom | entry_sendto | entry_readv | entry_writev | entry_recvmsg
  | entry_sendmsg | entry_recvmmsg | entry_sendmmsg | entry_sendfile => true
  | _ => false
  end.

Section entries.
Context {B : SocketMaps} {BL : SocketMapsLaws B} (k : Kernel) (ctx : ProbeContext).
Notation key := (current_pid_tgid k).

Lemma insert_op_ok {V} `{BM : !BpfMap Z V, !HashLaws BM} (get : Maps → gmap Z V) set n v s u s' :
  map_insert_op get set n v s = (Ok u, s') → s' = set (<[n := v]> (get s)) s.
Proof.
  unfold map_insert_op. destruct (bpf_update (get s) n v) as [m|] eqn:Hu; [|done].
  apply hash_update_ok in Hu as ->. by intros [= _ <-].
Qed.

(** The optional address of a message. *)
Lemma address_run fd name s r s' :
  (if negb (name =? 0) then attempt (connect_insert key {| ca_fd := fd; ca_sockaddr := name |})
   else mret (Ok ())) s = (Ok r, s') →
  ∃ room, pending key s' = message_address room fd name (pending key s).
Proof.
  unfold message_address. destruct (negb (name =? 0)); simpl.
  - intros Hr%attempt_ok. destruct r as [u|e].
    + apply insert_op_ok in Hr as ->. exists true. unfold pending. simpl. by rewrite lookup_insert_eq.
    + unfold connect_insert, map_insert_op in Hr. destruct (bpf_update _ _ _); simplify_eq. by exists false.
  - intros [_ ->]%ret_ok. by exists true.
Qed.
Lemma arg_i32_reg n a : arg_i32 ctx n = Ok a → reg_i32 ctx n = Some a.
Proof. unfold arg_i32, reg_i32. destruct (as_i32 <$> arg ctx n); by intros [= ->]. Qed.
Lemma arg_u32_reg n a : arg_u32 ctx n = Ok a → reg_u32 ctx n = Some a.
Proof. unfold arg_u32, reg_u32. destruct (as_u32 <$> arg ctx n); by intros [= ->]. Qed.
Lemma arg_u64_reg n a : arg_u64 ctx n = Ok a → reg_u64 ctx n = Some a.
Proof. unfold arg_u64, reg_u64. destruct (as_u64 <$> arg ctx n); by intros [= ->]. Qed.
Lemma map_err_reg {A} (r : result Z A) a : map_err (λ _, 1) r = Ok a → ok r = Some a.
Proof. destruct r; by intros [= ->]. Qed.

(** Registers and map updates of a run that succeeded. *)
Ltac entry_inv :=
  repeat match goal with
  | H : arg_i32 _ _ = Ok _ |- _ => apply arg_i32_reg in H
  | H : arg_u32 _ _ = Ok _ |- _ => apply arg_u32_reg in H
  | H : arg_u64 _ _ = Ok _ |- _ => apply arg_u64_reg in H
  | H : map_err _ _ = Ok _ |- _ => apply map_err_reg in H
  | H : map_insert_op _ _ _ _ _ = (Ok _, _) |- _ => apply insert_op_ok in H as ->
  | H : connect_insert _ _ _ = (Ok _, _) |- _ => apply insert_op_ok in H as ->
  end.

Ltac entry_done :=
  repeat (match goal with
          | H : ?x = Some _ |- context [?x] => rewrite H
          | H : ?x = ?b |- context [if ?x then _ else _] => rewrite H
          | H : ?x = ?b |- context [?x && true] => rewrite H
          end; simpl);
  unfold pending, with_p_accept, with_p_connect, with_p_write, with_p_read, with_p_sendfile,
    with_p_close; simpl; by rewrite ?lookup_insert_eq.

Ltac message_done :=
  match goal with H : (if negb _ then attempt _ else _) _ = _ |- _ => apply address_run in H as [? ?] end;
  match goal with H : pending _ _ = message_address ?room _ _ _ |- _ =>
    exists room;
    repeat (match goal with
            | Hx : ?x = Some _ |- context [?x] => rewrite Hx
            | Hx : ?x = ?b |- context [if ?x then _ else _] => rewrite Hx
            end; simpl);
    rewrite <- H
  end;
  unfold pending, with_p_write, with_p_read; simpl; by rewrite lookup_insert_eq.

Lemma entry_stores p s r s1 :
  is_entry p = true → try_probe k p ctx s = (Ok r, s1) →
  ∃ room, stores k ctx room p (pending key s) = Some (pending key s1).
Proof.
  intros He Hrun. destruct p; try done; cbn [try_probe] in Hrun;
    unfold try_entry_accept, try_entry_accept4, try_entry_connect, try_entry_close, try_entry_read,
      try_entry_write, try_entry_recv, try_entry_send, try_entry_recvfrom, try_entry_sendto,
      try_entry_readv, try_entry_writev, try_entry_recvmsg, try_entry_sendmsg, try_entry_recvmmsg,
      try_entry_sendmmsg, try_entry_sendfile, accept_insert, close_insert, write_insert, read_insert,
      sendfile_insert in Hrun.
  all: run_inv; entry_inv; unfold stores, buffer_call, vector_call, message_call, messages_call in *.
  all: try (exists true; entry_done).
  - exists true. unfold message_address. destruct (negb _) eqn:Hd; run_inv; entry_inv; entry_done.
  - destruct (_ =? 0) eqn:Hd; run_inv; entry_inv; [exists true; entry_done|message_done].
  - destruct (_ =? 0) eqn:Hd; run_inv; entry_inv; [exists true; entry_done|message_done].
  - destruct (negb _ && _) eqn:Hd; run_inv; entry_inv; [message_done|exists true; entry_done].
  - destruct (negb _ && _) eqn:Hd; run_inv; entry_inv; [message_done|exists true; entry_done].
Qed.
End entries.

(** ** What a return probe leaves behind *)

Inductive Slot := SAccept | SConnect | SWrite | SRead | SSendfile | SClose.

Definition has (sl : Slot) (q : Pending) : bool :=
  match sl with
  | SAccept => bool_decide (is_Some (p_accept q))
  | SConnect => bool_decide (is_Some (p_connect q))
  | SWrite => bool_decide (is_Some (p_write q))
  | SRead => bool_decide (is_Some (p_read q))
  | SSendfile => bool_decide (is_Some (p_sendfile q))
  | SClose => bool_decide (is_Some (p_close q))
  end.

(** The map in which a return probe looks for the arguments of its call. *)
Definition slot (p : Probe) : option Slot :=
  match p with
  | ret_accept | ret_accept4 => Some SAccept
  | ret_connect => Some SConnect
  | ret_write | ret_send | ret_sendto | ret_writev | ret_sendmsg | ret_sendmmsg => Some SWrite
  | ret_read | ret_recv | ret_recvfrom | ret_readv | ret_recvmsg | ret_recvmmsg => Some SRead
  | ret_sendfile => Some SSendfile
  | ret_close => Some SClose
  | _ => None
  end.

(** Four probes return before the removal when the processing fails; that of
    [sendto] returns before it when there is no destination address. *)
Definition left_behind (p : Probe) (r : result Z Z) (q : Pending) : bool :=
  match p with
  | ret_write | ret_writev => has SWrite q && negb (is_ok r)
  | ret_recvfrom => has SRead q && negb (is_ok r)
  | ret_sendfile => has SSendfile q && negb (is_ok r)
  | ret_sendto => has SWrite q && negb (has SConnect q)
  | _ => false
  end.

Section returns.
Context {B : SocketMaps} {BL : SocketMapsLaws B} (k : Kernel) (ctx : ProbeContext).
Notation key := (current_pid_tgid k).

(** Look up, process whatever happens, remove. *)
Lemma removed_anyway {V} `{BM : !BpfMap Z V, !HashLaws BM} (get : Maps → gmap Z V) set
    (m : V → M Maps Z (result Z Z)) n s :
  (∀ a s, get (state_of (m a) s) = get s) → (∀ a s, is_ok (value_of (m a) s) = true) →
  (∀ v s, get (set v s) = v) →
  get (state_of (args ← (found ← gets (λ s, get s !! n); lift (ok_or 1 found));
                 res ← m args; map_remove_op get set n;; lift res) s) !! n = None.
Proof.
  intros Hm Hok Hset. unfold state_of, mbind, M_bind, gets, lift, map_remove_op.
  destruct (get s !! n) as [a|] eqn:Ha; simpl; [|done].
  specialize (Hm a s). specialize (Hok a s). unfold state_of, value_of in *.
  destruct (m a s) as [[res|e] s1]; simpl in *; [|done].
  pose proof (hash_delete_present (get s1) n) as Hd. rewrite Hm, Ha in Hd. rewrite <- Hm in Hd.
  destruct (bpf_delete (get s1) n) as [d|e] eqn:Hdel; [|by specialize (Hd ltac:(eauto))].
  apply hash_delete_ok in Hdel as ->. simpl. rewrite Hset. apply lookup_delete_eq.
Qed.

(** Look up, process, and remove only if that succeeded. *)
Lemma removed_if_ok {V} `{BM : !BpfMap Z V, !HashLaws BM} (get : Maps → gmap Z V) set
    {A} (m : V → M Maps Z A) n s :
  (∀ a s, get (state_of (m a) s) = get s) → (∀ v s, get (set v s) = v) →
  let '(r, s') := (args ← (found ← gets (λ s, get s !! n); lift (ok_or 1 found));
                   m args;; map_remove_op get set n;; mret (M := M Maps Z) 0) s in
  bool_decide (is_Some (get s' !! n)) = bool_decide (is_Some (get s !! n)) && negb (is_ok r).
Proof.
  intros Hm Hset. unfold mbind, M_bind, gets, lift, map_remove_op.
  destruct (get s !! n) as [a|] eqn:Ha; simpl; [|by rewrite Ha].
  specialize (Hm a s). unfold state_of in Hm.
  destruct (m a s) as [[res|e] s1]; simpl in *; [|by rewrite Hm, Ha].
  pose proof (hash_delete_present (get s1) n) as Hd. rewrite Hm, Ha in Hd. rewrite <- Hm in Hd.
  destruct (bpf_delete (get s1) n) as [d|e] eqn:Hdel; [|by specialize (Hd ltac:(eauto))].
  apply hash_delete_ok in Hdel as ->. simpl. by rewrite Hset, lookup_delete_eq.
Qed.
Lemma run_bind {A C} (m : M Maps Z A) (f : A → M Maps Z C) s a s1 :
  m s = (Ok a, s1) → (m ≫= f) s = f a s1.
Proof. intros Hm. unfold mbind, M_bind. by rewrite Hm. Qed.

(** What keeps all maps of arguments keeps each of them. *)
Lemma actives_each {A} (m : M Maps Z A) : stable (same actives) m → ∀ s,
  ACTIVE_ACCEPT_MAP (state_of m s) = ACTIVE_ACCEPT_MAP s ∧
  ACTIVE_CONNECT_MAP (state_of m s) = ACTIVE_CONNECT_MAP s ∧
  ACTIVE_WRITE_MAP (state_of m s) = ACTIVE_WRITE_MAP s ∧
  ACTIVE_READ_MAP (state_of m s) = ACTIVE_READ_MAP s ∧
  ACTIVE_SENDFILE_MAP (state_of m s) = ACTIVE_SENDFILE_MAP s ∧
  ACTIVE_CLOSE_MAP (state_of m s) = ACTIVE_CLOSE_MAP s.
Proof. intros Hm s. specialize (Hm s). unfold same, actives in Hm. by simplify_eq. Qed.

Lemma attempt_is_ok {A} (m : M Maps Z A) s : is_ok (value_of (attempt m) s) = true.
Proof. unfold value_of, attempt. by destruct (m s). Qed.

(** The optional removal of an address. *)
Lemma drop_address {A} (f : M Maps Z A) s :
  ∃ s1, (connect_args ← gets (λ s, ACTIVE_CONNECT_MAP s !! key);
         (if decide (is_Some connect_args) then attempt (connect_remove key) else mret (Ok ()));; f) s = f s1 ∧
    p_connect (pending key s1) = None.
Proof.
  unfold mbind, M_bind, gets. case_decide as Hc.
  - unfold attempt, connect_remove, map_remove_op.
    pose proof (hash_delete_present (ACTIVE_CONNECT_MAP s) key Hc) as Hd.
    destruct (bpf_delete _ key) as [m|] eqn:Hdel; [|done]. apply hash_delete_ok in Hdel as ->.
    eexists. split; [reflexivity|]. apply lookup_delete_eq.
  - eexists. split; [reflexivity|]. by apply eq_None_not_Some.
Qed.

(** The processing part of a return probe keeps the maps of arguments. *)
Ltac keeps_args :=
  intros; repeat case_match; try done;
  match goal with |- context [state_of ?m ?s] => apply (actives_each m) end;
  unfold process_syscall_data, process_syscall_data_vecs; walk.
Ltac always_ok := intros; repeat case_match; first [apply attempt_is_ok | done].

Lemma connect_remove_present s :
  is_Some (p_connect (pending key s)) →
  connect_remove key s = (Ok (), set_ACTIVE_CONNECT_MAP (delete key (ACTIVE_CONNECT_MAP s)) s).
Proof.
  intros Hc. unfold connect_remove, map_remove_op.
  pose proof (hash_delete_present (ACTIVE_CONNECT_MAP s) key Hc) as Hd.
  destruct (bpf_delete _ key) as [m|] eqn:Hdel; [|done]. by apply hash_delete_ok in Hdel as ->.
Qed.

Lemma connect_remove_absent s :
  p_connect (pending key s) = None → ∃ e, connect_remove key s = (Err e, s).
Proof.
  intros Hc. unfold connect_remove, map_remove_op.
  pose proof (hash_delete_absent (ACTIVE_CONNECT_MAP s) key Hc) as Hd.
  destruct (bpf_delete _ key) as [m|e]; [done|]. by exists e.
Qed.

(** The probe reads its return value; then it removes an address; then it looks
    up, processes and removes. *)
Ltac take_ret Hv :=
  unfold ret_i64, ret_u32; rewrite Hv; erewrite run_bind by reflexivity.
Ltac gone :=
  match goal with |- let '(_, _) := ?m ?s in _ =>
    assert (∀ r s', m s = (r, s') → s' = state_of m s) as Hstate
      by (intros ? ? Hrun; unfold state_of; by rewrite Hrun);
    destruct (m s) as [r s']; rewrite (Hstate _ _ eq_refl)
  end; apply bool_decide_eq_false; rewrite <- eq_None_not_Some;
  apply removed_anyway; [keeps_args|always_ok|done].

Lemma return_leaves p sl s :
  slot p = Some sl → is_Some (ret ctx) →
  let '(r, s') := try_probe k p ctx s in
  has sl (pending key s') = left_behind p r (pending key s).
Proof.
  intros Hsl [v Hv]. destruct p; simplify_eq/=.
  - unfold try_ret_accept. gone.
  - unfold try_ret_accept4. gone.
  - unfold try_ret_connect. gone.
  - unfold try_ret_close. gone.
  - unfold try_ret_read. take_ret Hv. gone.
  - unfold try_ret_write. take_ret Hv. apply (removed_if_ok ACTIVE_WRITE_MAP); [keeps_args|done].
  - unfold try_ret_recv. take_ret Hv. gone.
  - unfold try_ret_send. take_ret Hv. gone.
  - unfold try_ret_recvfrom. take_ret Hv. apply (removed_if_ok ACTIVE_READ_MAP); [keeps_args|done].
  - unfold try_ret_sendto. take_ret Hv. destruct (p_connect (pending key s)) as [a|] eqn:Hc.
    + erewrite run_bind by (apply connect_remove_present; by rewrite Hc). simpl in Hc.
      rewrite (bool_decide_eq_true_2 (is_Some (ACTIVE_CONNECT_MAP s !! key))) by (rewrite Hc; eauto).
      simpl. rewrite andb_false_r. gone.
    + destruct (connect_remove_absent s Hc) as [e He]. unfold mbind, M_bind. rewrite He. simpl in Hc.
      rewrite (bool_decide_eq_false_2 (is_Some (ACTIVE_CONNECT_MAP s !! key)))
        by (by apply eq_None_not_Some). simpl. by rewrite andb_true_r.
  - unfold try_ret_readv. take_ret Hv. gone.
  - unfold try_ret_writev. take_ret Hv. apply (removed_if_ok ACTIVE_WRITE_MAP); [keeps_args|done].
  - unfold try_ret_recvmsg. take_ret Hv. edestruct @drop_address as (s1 & -> & _). gone.
  - unfold try_ret_sendmsg. take_ret Hv. edestruct @drop_address as (s1 & -> & _). gone.
  - unfold try_ret_recvmmsg. take_ret Hv. edestruct @drop_address as (s1 & -> & _). gone.
  - unfold try_ret_sendmmsg. take_ret Hv. edestruct @drop_address as (s1 & -> & _). gone.
  - unfold try_ret_sendfile. take_ret Hv. apply (removed_if_ok ACTIVE_SENDFILE_MAP); [keeps_args|done].
Qed.
End returns.

(** ** Properties *)

(** C37: whatever probes of other threads run between the entry and the return of a
    system call, and whatever user space does to the controls, the thread has
    exactly those arguments pending that its entry probe stored: the values of the
    call's registers (and of the message header), in the map of that kind of call,
    and nothing else of what it had pending has changed.  Only the address of a
    message may be missing, when its map has no room. *)
Theorem arguments_matched {B : SocketMaps} {BL : SocketMapsLaws B} k p ctx s r s1 s2 :
  is_entry p = true → try_probe k p ctx s = (Ok r, s1) →
  rtc (other_step (current_pid_tgid k)) s1 s2 →
  ∃ room, stores k ctx room p (pending (current_pid_tgid k) s) = Some (pending (current_pid_tgid k) s2).
Proof.
  intros He Hrun Hr. rewrite (other_run_pending _ _ _ Hr). by eapply entry_stores.
Qed.

(** C38: when the return probe of a system call has run, its arguments are gone from
    their map whatever went wrong, except in five cases: the probes of write,
    writev, recvfrom and sendfile leave them when processing the call fails, and
    that of sendto leaves them whenever the call had no destination address.  What
    is left stays, whatever other threads do. *)
Theorem arguments_left_behind {B : SocketMaps} {BL : SocketMapsLaws B} k p ctx sl s r s1 s2 :
  slot p = Some sl → is_Some (ret ctx) → try_probe k p ctx s = (r, s1) →
  rtc (other_step (current_pid_tgid k)) s1 s2 →
  has sl (pending (current_pid_tgid k) s2) = left_behind p r (pending (current_pid_tgid k) s).
Proof.
  intros Hsl Hret Hrun Hr. rewrite (other_run_pending _ _ _ Hr).
  pose proof (return_leaves k ctx p sl s Hsl Hret) as Hl. by rewrite Hrun in Hl.
Qed.

(** ** Witnesses *)

(** Another thread, of process 6. *)
Definition ex_other_kernel : Kernel := {|
  ktime_get_ns := λ n, 1000 + Z.of_nat n; current_pid_tgid := 6 * 2 ^ 32 + 1; current_task := 96;
  read_group_leader := λ _, Ok 128; read_start_boottime := λ _, Ok 70000000;
  read_sock_common := read_sock_common ex_sk_kernel; read_sa_family := λ _, Ok AF_INET;
  read_sockaddr_in := read_sockaddr_in ex_sk_kernel; read_sockaddr_in6 := λ _, Err (-14);
  read_user_buf := λ a n, Ok (mem_range ex_mem a n); read_iovec := read_iovec ex_sk_kernel;
  read_user_msghdr := λ _, Err (-14); read_mmsghdr := λ _, Err (-14) |}.

(** Its write overlaps with that of the first thread. *)
Definition ex_overlap : Maps := (run_probe (B := ex_smaps) ex_other_kernel entry_write (ex_ctx 0) ex_write1).2.

Lemma ex_overlap_step (s : Maps) :
  other_step (B := ex_smaps) (current_pid_tgid ex_sk_kernel) s
    (run_probe (B := ex_smaps) ex_other_kernel entry_write (ex_ctx 0) s).2.
Proof. apply other_probe. vm_compute. discriminate. Qed.

Lemma arguments_matched_witness :
  ∃ room, stores ex_sk_kernel (ex_ctx 0) room entry_write
            (pending (current_pid_tgid ex_sk_kernel) ex_started) =
          Some (pending (current_pid_tgid ex_sk_kernel) ex_overlap).
Proof.
  apply (arguments_matched (B := ex_smaps) (BL := bounded_maps_laws 1024) ex_sk_kernel entry_write
           (ex_ctx 0) ex_started 0 ex_write1).
  - reflexivity.
  - vm_compute. reflexivity.
  - apply rtc_once, ex_overlap_step.
Defined.

(** A [sendto] on a connected socket, and a write of the other thread after it. *)
Definition ex_sendto2 : Maps := state_of (try_ret_sendto (B := ex_smaps) ex_sk_kernel (ex_ctx 100)) ex_sendto1.

Lemma arguments_left_behind_witness :
  has SWrite (pending (current_pid_tgid ex_sk_kernel)
    (run_probe (B := ex_smaps) ex_other_kernel entry_write (ex_ctx 0) ex_sendto2).2) = true.
Proof.
  rewrite (arguments_left_behind (B := ex_smaps) (BL := bounded_maps_laws 1024) ex_sk_kernel ret_sendto
             (ex_ctx 100) SWrite ex_sendto1 (Err (-2)) ex_sendto2).
  - vm_compute. reflexivity.
  - reflexivity.
  - eexists. reflexivity.
  - vm_compute. reflexivity.
  - apply rtc_once, ex_overlap_step.
Defined.
