(* ===== verification/SocketFilters.v ===== *)
(** * socket-tracer: processes that are not traced

    The filters of [socket-tracer-ebpf/src/filters.rs] as every probe applies
    them: what the tracer does in a process that is not the configured target, and
    in the agent itself. *)
From S2P Require Import Prelude RustStd Bpf SocketData SocketTracer SocketProbes SocketProps SocketThreads.
From stdpp Require Import base gmap strings list.
From Stdlib Require Import ZArith Lia.

Local Open Scope Z_scope.

(** Everything but the maps of pending arguments. *)
Definition traced (s : Maps) :=
  (CONN_INFO_MAP s, SOCKET_CONTROL_EVENTS s, SOCKET_DATA_EVENTS s, CONN_STATS_EVENTS s,
   SOCKET_DATA_EVENT_BUFFER s, CONN_STATS_EVENT_BUFFER s,
   (CONTROL_MAP s, CONTROL_VALUES s, CONN_DISABLED_MAP s, clock_reads s)).

Lemma holds_stable {S E A} (I : S → Prop) (m : M S E A) (Q : A → Prop) : holds I m Q → stable (keeps I) m.
Proof. intros Hm s Hs. by apply Hm. Qed.

(** The writes of pending arguments. *)
Section arguments.
Context {B : SocketMaps}.
Notation R := (same traced).

Lemma insert_traced {V} `{BM : !BpfMap Z V} (get : Maps → gmap Z V) set key v :
  (∀ m s, traced (set m s) = traced s) → stable R (map_insert_op get set key v).
Proof. intros Hset s. unfold state_of, map_insert_op. destruct (bpf_update _ _ _); [apply Hset|done]. Qed.
Lemma remove_traced {V} `{BM : !BpfMap Z V} (get : Maps → gmap Z V) set key :
  (∀ m s, traced (set m s) = traced s) → stable R (map_remove_op get set key).
Proof. intros Hset s. unfold state_of, map_remove_op. destruct (bpf_delete _ _); [apply Hset|done]. Qed.
Lemma modify_traced f : (∀ s, traced (f s) = traced s) → stable R (modify f : M Maps Z unit).
Proof. intros Hf s. apply Hf. Qed.
End arguments.

(** A property of what is traced is kept by writes of pending arguments. *)
Lemma traced_keeps {A} (I : Maps → Prop) (m : M Maps Z A) :
  (∀ s s', traced s' = traced s → I s → I s') → stable (same traced) m → stable (keeps I) m.
Proof. intros HI Hm s Hs. by apply (HI s); [apply Hm|]. Qed.

(** [walk] through a probe under a property of what is traced. *)
Ltac walk_traced HI :=
  repeat (match goal with
  | |- stable (keeps _) (?op (current_pid_tgid _) _) =>
      apply (traced_keeps _ _ HI); by apply insert_traced
  | |- stable (keeps _) (?op (current_pid_tgid _)) =>
      apply (traced_keeps _ _ HI); by apply remove_traced
  | |- stable (keeps _) (modify _) => by apply (traced_keeps _ _ HI), modify_traced
  end || walk).

(** ** A process that is not the target *)

Section unmatched.
Context {B : SocketMaps} (k : Kernel) (s0 : Maps).
Notation tg := (Z.shiftr (current_pid_tgid k) 32).
Context (Hm : match_trace_tgid s0 tg = Unmatched).
Definition untouched (s : Maps) : Prop := traced s = traced s0.

Lemma untouched_traced s s' : traced s' = traced s → untouched s → untouched s'.
Proof. unfold untouched. congruence. Qed.

Lemma still_unmatched s : untouched s → match_trace_tgid s tg = Unmatched.
Proof.
  intros Hs. assert (CONTROL_VALUES s = CONTROL_VALUES s0) as Hcv by (unfold untouched, traced in Hs; congruence).
  rewrite <- Hm. unfold match_trace_tgid. by rewrite Hcv.
Qed.

(** Whatever follows the look at the target is not reached. *)
Lemma unmatched_stable {A} (f : TargetTgidMatchResult → M Maps Z A) :
  stable (keeps untouched) (f Unmatched) →
  stable (keeps untouched) (gets (λ s, match_trace_tgid s tg) ≫= f).
Proof. intros Hf. apply keeps_gets_bind. intros s Hs. by rewrite (still_unmatched s Hs). Qed.

Ltac unmatched :=
  repeat match goal with
  | |- stable _ (gets (λ s, match_trace_tgid s _) ≫= _) => 
      apply unmatched_stable; rewrite decide_True by done; by walk
  | |- stable _ (if _ then _ else _) => case_match; [by walk|]
  | |- stable _ (lift _ ≫= _) => apply stable_bind; [apply _|by walk|intros ?]
  end.

Lemma process_data_untouched args dir count v :
  stable (keeps untouched) (process_data k args
    {| vecs := v; pid_tgid := current_pid_tgid k; pd_direction := dir; bytes_count := count |}).
Proof. unfold process_data. cbn [vecs pid_tgid pd_direction bytes_count]. cbv zeta. unmatched. Qed.
Lemma process_accept_untouched ctx args :
  stable (keeps untouched) (process_syscall_accept k ctx (current_pid_tgid k) args).
Proof. unfold process_syscall_accept. cbv zeta. unmatched. Qed.
Lemma process_accept4_untouched ctx args :
  stable (keeps untouched) (process_syscall_accept4 k ctx (current_pid_tgid k) args).
Proof. unfold process_syscall_accept4. cbv zeta. unmatched. Qed.
Lemma process_connect_untouched ctx args :
  stable (keeps untouched) (process_syscall_connect k ctx (current_pid_tgid k) args).
Proof. unfold process_syscall_connect. cbv zeta. unmatched. Qed.
Lemma process_close_untouched ctx args :
  stable (keeps untouched) (process_syscall_close k ctx (current_pid_tgid k) args).
Proof. unfold process_syscall_close. cbv zeta. unmatched. Qed.
Lemma process_sendfile_untouched args count :
  stable (keeps untouched) (process_syscall_sendfile k (current_pid_tgid k) args count).
Proof. unfold process_syscall_sendfile. cbv zeta. unmatched. Qed.
Hint Resolve process_data_untouched process_accept_untouched process_accept4_untouched
  process_connect_untouched process_close_untouched process_sendfile_untouched : rust_pres.

Lemma probe_untouched p ctx : stable (keeps untouched) (try_probe k p ctx).
Proof. destruct p; cbn [try_probe]; unfold_probes; walk_traced untouched_traced. Qed.
End unmatched.

(** ** The agent itself *)

Section self.
Context {B : SocketMaps} (k : Kernel) (s0 : Maps).
Notation tg := (Z.shiftr (current_pid_tgid k) 32).
Context (Hself : is_self_tgid s0 tg = true).
Notation R := (keeps (silent s0)).

Lemma silent_traced s s' : traced s' = traced s → silent s0 s → silent s0 s'.
Proof. intros Heq [H1 H2]. unfold traced in Heq. split; congruence. Qed.

Lemma data_silent args dir count v : stable R (process_data k args
  {| vecs := v; pid_tgid := current_pid_tgid k; pd_direction := dir; bytes_count := count |}).
Proof. eapply holds_stable, process_data_silent. exact Hself. Qed.
Lemma get_or_create_self fd : stable R (get_or_create_conn_info k tg fd).
Proof. eapply holds_stable, get_or_create_silent. Qed.
Lemma update_conn_stats_self c d n : stable R (update_conn_stats k c d n).
Proof. eapply holds_stable, update_conn_stats_silent. Qed.
Lemma now_self : stable R (now k).
Proof. eapply holds_stable, now_silent. Qed.
Lemma control_output_self e : stable R (control_output e).
Proof. intros s Hs. exact Hs. Qed.
Lemma stats_output_self e : stable R (stats_output e).
Proof. intros s Hs. exact Hs. Qed.
Lemma conn_info_insert_self key c : stable R (conn_info_insert key c).
Proof. intros s Hs. unfold state_of, conn_info_insert, map_insert_op. by destruct (bpf_update _ key c). Qed.
Lemma conn_info_remove_self key : stable R (conn_info_remove key).
Proof. intros s Hs. unfold state_of, conn_info_remove, map_remove_op. by destruct (bpf_delete _ key). Qed.
Hint Resolve data_silent get_or_create_self update_conn_stats_self now_self control_output_self
  stats_output_self conn_info_insert_self conn_info_remove_self : rust_pres.

Lemma submit_open_event_self args : stable R (submit_open_event k args).
Proof. unfold submit_open_event, init_conn_info, init_conn_id, gen_tsid. walk. Qed.
Hint Resolve submit_open_event_self : rust_pres.
Lemma process_accept_self ctx key args : stable R (process_syscall_accept k ctx key args).
Proof. unfold process_syscall_accept. walk. Qed.
Lemma process_accept4_self ctx key args : stable R (process_syscall_accept4 k ctx key args).
Proof. unfold process_syscall_accept4. walk. Qed.
Lemma process_connect_self ctx key args : stable R (process_syscall_connect k ctx key args).
Proof. unfold process_syscall_connect. walk. Qed.
Lemma process_close_self ctx key args : stable R (process_syscall_close k ctx key args).
Proof. unfold process_syscall_close, submit_close_event, populate_conn_stats_event. walk. Qed.

(** Whether data is sent is decided by the controls, which have not changed. *)
Lemma no_send_self {A} dis force c (f : bool → M Maps Z A) :
  stable R (f false) → stable R (gets (λ s, should_send_data s tg dis force c) ≫= f).
Proof.
  intros Hf. apply keeps_gets_bind. intros s [_ Hcv].
  assert (is_self_tgid s tg = true) as Hs by (rewrite <- Hself; unfold is_self_tgid; by rewrite Hcv).
  unfold should_send_data. by rewrite Hs.
Qed.

Lemma process_sendfile_self args count : stable R (process_syscall_sendfile k (current_pid_tgid k) args count).
Proof.
  unfold process_syscall_sendfile. cbv zeta. do 2 (case_match; [by walk|]).
  apply stable_bind; [apply _|by walk|]. intros m. case_decide; [by walk|].
  apply stable_bind; [apply _|by walk|]. intros c. case_match; [by walk|].
  apply stable_bind; [apply _|by walk|]. intros dis. apply no_send_self. walk.
Qed.
Hint Resolve process_accept_self process_accept4_self process_connect_self process_close_self
  process_sendfile_self : rust_pres.

Lemma probe_silent p ctx : stable R (try_probe k p ctx).
Proof. destruct p; cbn [try_probe]; unfold_probes; walk_traced silent_traced. Qed.
End self.

(** ** Properties *)

(** C39: the filters on processes, for all 37 probes, however they end.  In a process
    that is not the configured target a probe only stores and removes the pending
    arguments of the call: no connection is recorded or forgotten, no event is
    sent, and neither the event buffers nor the clock are touched.  In the agent
    itself no probe sends data to user space. *)
Theorem filtered_processes_not_traced {B : SocketMaps} k p ctx s :
  let tg := Z.shiftr (current_pid_tgid k) 32 in
  let s' := (run_probe k p ctx s).2 in
  (match_trace_tgid s tg = Unmatched → traced s' = traced s) ∧
  (is_self_tgid s tg = true → SOCKET_DATA_EVENTS s' = SOCKET_DATA_EVENTS s).
Proof.
  intros tg s'. unfold s'. rewrite run_probe_state. split; intros H.
  - by apply (probe_untouched k s H p ctx s).
  - by apply (probe_silent k s H p ctx s).
Qed.

(** ** Witness *)

(** Process 6 is the target and process 5 writes; process 5 is the agent and writes. *)
Definition ex_target : Maps :=
  set_controls (CONTROL_MAP ex_write1) {[ ControlValueIndex_u32 TargetTGIDIndex := 6 ]} (CONN_DISABLED_MAP ex_write1)
    ex_write1.
Definition ex_own : Maps :=
  set_controls (CONTROL_MAP ex_write1) {[ ControlValueIndex_u32 SelfTGIDIndex := 5 ]} (CONN_DISABLED_MAP ex_write1)
    ex_write1.
Definition ex_filtered (s : Maps) : Maps := (run_probe (B := ex_smaps) ex_sk_kernel ret_write (ex_ctx 100) s).2.

Lemma filtered_processes_witness :
  traced (ex_filtered ex_target) = traced ex_target ∧
  SOCKET_DATA_EVENTS (ex_filtered ex_own) = SOCKET_DATA_EVENTS ex_own ∧
  length (SOCKET_DATA_EVENTS (ex_filtered ex_write1)) = 1%nat.
Proof.
  split; [|split; [|vm_compute; reflexivity]].
  - apply (filtered_processes_not_traced (B := ex_smaps) ex_sk_kernel ret_write (ex_ctx 100) ex_target).
    vm_compute. reflexivity.
  - apply (filtered_processes_not_traced (B := ex_smaps) ex_sk_kernel ret_write (ex_ctx 100) ex_own).
    vm_compute. reflexivity.
Defined.
