(* ===== verification/SocketSession.v ===== *)
(** * socket-tracer: one connection from its opening to its close

    Between the return of the connect or accept that opened a connection and the
    return of the close on its descriptor, probes of the same and of other threads
    run in any order.  What the tracer has recorded of the connection does not change in
    between, every data and statistics event of its process and descriptor carries
    its identity, and the events that open and close it agree
    ([socket-tracer-ebpf/src/lib.rs], [kprobes/*.rs]). *)
From S2P Require Import Prelude RustStd Bpf SocketData SocketTracer SocketProbes SocketProps SocketLayout SocketTyped SocketThreads.
From stdpp Require Import base gmap strings list relations.
From Stdlib Require Import ZArith Lia.

Local Open Scope Z_scope.

(** The key under which a connection of this identity is recorded. *)
Definition key_of (i : ConnId) : Z := gen_tgid_fd (tgid (uid i)) (id_fd i).

(** Connections under the key of their identity, descriptors as 32-bit integers. *)
Record recorded_ok (s : Maps) : Prop := {
  ro_keyed : values_ok (λ key c, key_of (id c) = key) (CONN_INFO_MAP s);
  ro_connect : values_ok (λ _ a, in_s 32 (ca_fd a)) (ACTIVE_CONNECT_MAP s);
  ro_close : values_ok (λ _ a, in_s 32 (cl_fd a)) (ACTIVE_CLOSE_MAP s) }.

(** ** What is recorded stays well formed *)

Section recorded.
Context {B : SocketMaps} {BL : SocketMapsLaws B} (k : Kernel).
Definition recorded (s : Maps) := (CONN_INFO_MAP s, ACTIVE_CONNECT_MAP s, ACTIVE_CLOSE_MAP s).
Notation same_rec := (same recorded).
Notation R := (keeps recorded_ok).

Lemma same_rec_keeps {A} (m : M Maps Z A) : stable same_rec m → stable R m.
Proof.
  intros Hm s [H1 H2 H3]. specialize (Hm s). unfold same, recorded in Hm. injection Hm as E1 E2 E3.
  split; by rewrite ?E1, ?E2, ?E3.
Qed.

Lemma now_rec : stable same_rec (now k).
Proof. by intros s. Qed.
Lemma update_inner_rec f : stable same_rec (update_inner f).
Proof. by intros s. Qed.
Lemma control_output_rec e : stable same_rec (control_output e).
Proof. by intros s. Qed.
Lemma stats_output_rec e : stable same_rec (stats_output e).
Proof. by intros s. Qed.
Lemma data_output_rec n : stable same_rec (data_output n).
Proof. intros s. unfold state_of, data_output, modify. simpl. by destruct (SOCKET_DATA_EVENT_BUFFER s). Qed.
Lemma read_msg_rec a n : stable same_rec (read_msg k a n).
Proof. intros s. unfold state_of, read_msg. by destruct (read_user_buf k a n). Qed.
Hint Resolve now_rec update_inner_rec control_output_rec stats_output_rec data_output_rec
  read_msg_rec : rust_pres.

Lemma perf_submit_buf_rec a n : stable same_rec (perf_submit_buf k a n).
Proof. unfold perf_submit_buf. walk. Qed.
Hint Resolve perf_submit_buf_rec : rust_pres.
Lemma submit_chunks_rec n a total sent : stable same_rec (submit_chunks k n a total sent).
Proof. revert sent. induction n as [|n IH]; intros sent; cbn [submit_chunks]; walk. Qed.
Lemma submit_iovecs_rec n i iov_ iovlen_ total sent :
  stable same_rec (submit_iovecs k n i iov_ iovlen_ total sent).
Proof. revert i sent. induction n as [|n IH]; intros i sent; cbn [submit_iovecs]; walk. Qed.
Lemma populate_data_rec f d c : stable same_rec (populate_socket_data_event k f d c).
Proof. unfold populate_socket_data_event. walk. Qed.
Lemma populate_conn_stats_rec c : stable same_rec (populate_conn_stats_event k c).
Proof. unfold populate_conn_stats_event. walk. Qed.
Hint Resolve submit_chunks_rec submit_iovecs_rec populate_data_rec populate_conn_stats_rec : rust_pres.
Lemma update_conn_stats_rec c d n : stable same_rec (update_conn_stats k c d n).
Proof. unfold update_conn_stats. walk. Qed.
Lemma submit_close_event_rec c f : stable same_rec (submit_close_event k c f).
Proof. unfold submit_close_event. walk. Qed.

(** The writes of the three maps. *)
Lemma conn_info_insert_rec key c : key_of (id c) = key → stable R (conn_info_insert key c).
Proof.
  intros Hc s [H1 H2 H3]. unfold state_of, conn_info_insert, map_insert_op.
  destruct (bpf_update _ key c) as [m|e] eqn:Hu; [|by split]. split; try done. simpl.
  by eapply (values_ok_hash_update _ bm_conn).
Qed.
Lemma conn_info_remove_rec key : stable R (conn_info_remove key).
Proof.
  intros s [H1 H2 H3]. unfold state_of, conn_info_remove, map_remove_op.
  destruct (bpf_delete _ key) as [m|e] eqn:Hu; [|by split]. split; try done. simpl.
  by eapply (values_ok_hash_delete _ bm_conn).
Qed.
Lemma connect_insert_rec n v : in_s 32 (ca_fd v) → stable R (connect_insert n v).
Proof.
  intros Hv s [H1 H2 H3]. unfold state_of, connect_insert, map_insert_op.
  destruct (bpf_update _ n v) as [m|e] eqn:Hu; [|by split]. split; try done. simpl.
  by eapply (values_ok_hash_update (λ _ a, in_s 32 (ca_fd a)) bm_connect).
Qed.
Lemma connect_remove_rec n : stable R (connect_remove n).
Proof.
  intros s [H1 H2 H3]. unfold state_of, connect_remove, map_remove_op.
  destruct (bpf_delete _ n) as [m|e] eqn:Hu; [|by split]. split; try done. simpl.
  by eapply (values_ok_hash_delete _ bm_connect).
Qed.
Lemma close_insert_rec n v : in_s 32 (cl_fd v) → stable R (close_insert n v).
Proof.
  intros Hv s [H1 H2 H3]. unfold state_of, close_insert, map_insert_op.
  destruct (bpf_update _ n v) as [m|e] eqn:Hu; [|by split]. split; try done. simpl.
  by eapply (values_ok_hash_update (λ _ a, in_s 32 (cl_fd a)) bm_close).
Qed.
Lemma close_remove_rec n : stable R (close_remove n).
Proof.
  intros s [H1 H2 H3]. unfold state_of, close_remove, map_remove_op.
  destruct (bpf_delete _ n) as [m|e] eqn:Hu; [|by split]. split; try done. simpl.
  by eapply (values_ok_hash_delete _ bm_close).
Qed.
(** The other maps of arguments. *)
Lemma other_insert_rec {V} `{BM : !BpfMap Z V} (get : Maps → gmap Z V) set n v :
  (∀ m s, recorded (set m s) = recorded s) → stable same_rec (map_insert_op get set n v).
Proof. intros Hset s. unfold state_of, map_insert_op. destruct (bpf_update _ n v); [apply Hset|done]. Qed.
Lemma other_remove_rec {V} `{BM : !BpfMap Z V} (get : Maps → gmap Z V) set n :
  (∀ m s, recorded (set m s) = recorded s) → stable same_rec (map_remove_op get set n).
Proof. intros Hset s. unfold state_of, map_remove_op. destruct (bpf_delete _ n); [apply Hset|done]. Qed.

Lemma init_conn_info_rec tg fd s : ∃ c s1,
  init_conn_info k tg fd ConnInfo_default s = (Ok c, s1) ∧ key_of (id c) = gen_tgid_fd tg fd ∧
  recorded s1 = recorded s.
Proof. eexists _, _. split; [reflexivity|done]. Qed.

(** A fresh connection and what follows. *)
Lemma init_then_rec {A} tg fd (f : ConnInfo → M Maps Z A) :
  (∀ c, key_of (id c) = gen_tgid_fd tg fd → stable R (f c)) →
  stable R (init_conn_info k tg fd ConnInfo_default ≫= f).
Proof.
  intros Hf s Hs. destruct (init_conn_info_rec tg fd s) as (c & s1 & Hrun & Hc & Hrec).
  unfold state_of, mbind, M_bind. rewrite Hrun. apply (Hf c Hc s1).
  destruct Hs as [H1 H2 H3]. injection Hrec as E1 E2 E3. split; by rewrite ?E1, ?E2, ?E3.
Qed.

Hint Resolve conn_info_remove_rec connect_remove_rec close_remove_rec update_conn_stats_rec
  submit_close_event_rec same_rec_keeps : rust_pres.

Lemma get_or_create_rec tg fd : stable R (get_or_create_conn_info k tg fd).
Proof.
  unfold get_or_create_conn_info. apply init_then_rec. intros c Hc. walk.
  by apply conn_info_insert_rec.
Qed.

Lemma submit_open_event_rec args : stable R (submit_open_event k args).
Proof.
  unfold submit_open_event. apply init_then_rec. intros c Hc.
  set (parsed := if negb (oe_sk args =? 0) then _ else _).
  assert (id parsed.2 = id c) as Hp.
  { unfold parsed, parse_sock_data, parse_sockaddr_data. by repeat case_match. }
  destruct parsed as [r c']. simpl in Hp. walk. apply conn_info_insert_rec. by rewrite Hp.
Qed.
Hint Resolve get_or_create_rec submit_open_event_rec : rust_pres.

Lemma process_data_rec args extra : stable R (process_data k args extra).
Proof. unfold process_data, submit_data_event, submit_data_event_iovecs. walk. Qed.
Lemma process_syscall_sendfile_rec key args count : stable R (process_syscall_sendfile k key args count).
Proof. unfold process_syscall_sendfile. walk. Qed.
Hint Resolve process_data_rec process_syscall_sendfile_rec : rust_pres.

Lemma arg_i32_rec {A} ctx n (f : Z → M Maps Z A) :
  (∀ a, in_s 32 a → stable R (f a)) → stable R (lift (arg_i32 ctx n) ≫= f).
Proof.
  intros Hf. apply stable_lift_bind; [apply _|]. intros a. unfold arg_i32.
  destruct (arg ctx n); simpl; [|done]. intros [= <-]. apply Hf. by apply wraps_range.
Qed.

Lemma accept_insert_rec n v : stable same_rec (accept_insert n v).
Proof. by apply other_insert_rec. Qed.
Lemma accept_remove_rec n : stable same_rec (accept_remove n).
Proof. by apply other_remove_rec. Qed.
Lemma write_insert_rec n v : stable same_rec (write_insert n v).
Proof. by apply other_insert_rec. Qed.
Lemma write_remove_rec n : stable same_rec (write_remove n).
Proof. by apply other_remove_rec. Qed.
Lemma read_insert_rec n v : stable same_rec (read_insert n v).
Proof. by apply other_insert_rec. Qed.
Lemma read_remove_rec n : stable same_rec (read_remove n).
Proof. by apply other_remove_rec. Qed.
Lemma sendfile_insert_rec n v : stable same_rec (sendfile_insert n v).
Proof. by apply other_insert_rec. Qed.
Lemma sendfile_remove_rec n : stable same_rec (sendfile_remove n).
Proof. by apply other_remove_rec. Qed.
Lemma modify_rec f : (∀ s, recorded (f s) = recorded s) → stable same_rec (modify f : M Maps Z unit).
Proof. intros Hf s. apply Hf. Qed.
Hint Resolve accept_insert_rec accept_remove_rec write_insert_rec write_remove_rec read_insert_rec
  read_remove_rec sendfile_insert_rec sendfile_remove_rec : rust_pres.

(** [walk] with descriptors that are 32-bit integers. *)
Ltac walk_rec :=
  repeat (match goal with
  | |- stable _ (lift (arg_i32 _ _) ≫= _) => apply arg_i32_rec; intros ? ?
  | |- stable _ (connect_insert _ _) => by apply connect_insert_rec
  | |- stable _ (close_insert _ _) => by apply close_insert_rec
  | |- stable _ (modify _) => by apply same_rec_keeps, modify_rec
  | |- stable _ (_ ≫= _) => apply stable_bind; [apply _| |intros ?]
  | |- stable _ (attempt _) => apply stable_attempt
  | |- stable _ (if ?b then _ else _) => destruct b
  end || walk).

Lemma try_probe_rec p ctx : stable R (try_probe k p ctx).
Proof.
  destruct p; cbn [try_probe];
    unfold_probes;
    unfold process_syscall_accept, process_syscall_accept4, process_syscall_connect, process_syscall_close; walk_rec.
Qed.
End recorded.

(** In every state that the tracer can reach. *)
Lemma recorded_ok_run {B : SocketMaps} {BL : SocketMapsLaws B} s s' :
  recorded_ok s → rtc sk_step s s' → recorded_ok s'.
Proof.
  intros Hs. induction 1 as [s|s1 s2 s3 Hstep _ IH]; [done|]. apply IH.
  destruct Hstep as [k p ctx s Hk|]; [rewrite run_probe_state; by apply try_probe_rec|].
  destruct Hs. by split.
Qed.

(** A probe that opens or closes descriptor [fd] of process [tg]. *)
Definition reuses (tg fd : Z) (k : Kernel) (p : Probe) (ctx : ProbeContext) (s : Maps) : Prop :=
  Z.shiftr (current_pid_tgid k) 32 = tg ∧
  match p with
  | ret_accept | ret_accept4 => as_i32 <$> ret ctx = Some fd
  | ret_connect => ca_fd <$> ACTIVE_CONNECT_MAP s !! current_pid_tgid k = Some fd
  | ret_close => cl_fd <$> ACTIVE_CLOSE_MAP s !! current_pid_tgid k = Some fd
  | _ => False
  end.

(** Any other probe of any thread, or a change of the controls. *)
Inductive session_step {B : SocketMaps} (tg fd : Z) : Maps → Maps → Prop :=
  | session_probe k p ctx s :
      in_u 64 (current_pid_tgid k) → ¬ reuses tg fd k p ctx s →
      session_step tg fd s (run_probe k p ctx s).2
  | session_control cm cv cd s : session_step tg fd s (set_controls cm cv cd s).

Section session.
Context {B : SocketMaps} {BL : SocketMapsLaws B} (k : Kernel).
Context (tg0 fd0 : Z) (Htg0 : in_u 32 tg0) (Hfd0 : 0 ≤ fd0 < 2 ^ 31) (c0 : ConnInfo) (s0 : Maps).
Notation key0 := (gen_tgid_fd tg0 fd0).

(** An identity under the key of the connection is that of the connection. *)
Definition agrees (i : ConnId) : Prop := key_of i = key0 → i = id c0.

(** The events sent after those of [s0]. *)
Definition sent_since {A} (f : Maps → list A) (P : A → Prop) (s : Maps) : Prop :=
  ∃ evs, f s = f s0 ++ evs ∧ Forall P evs.

(** The connection is recorded as it was; what was sent since [s0] agrees with
    it; [b]: so does the event in the buffer. *)
Record session (b : bool) (s : Maps) : Prop := {
  se_conn : CONN_INFO_MAP s !! key0 = Some c0;
  se_recorded : recorded_ok s;
  se_control : sent_since SOCKET_CONTROL_EVENTS (λ e, key_of (ce_id e) ≠ key0) s;
  se_data : sent_since SOCKET_DATA_EVENTS (λ e, agrees (de_id (inner e.1))) s;
  se_stats : sent_since CONN_STATS_EVENTS (λ e, agrees (cs_id e)) s;
  se_buffer : b = true → ∀ e, SOCKET_DATA_EVENT_BUFFER s = Some e → agrees (de_id (inner e)) }.

Lemma sent_since_snoc {A} (f : Maps → list A) (P : A → Prop) s s' x :
  f s' = f s ++ [x] → P x → sent_since f P s → sent_since f P s'.
Proof.
  intros Hf Hx (evs & Hs & Hall). exists (evs ++ [x]). rewrite Hf, Hs, app_assoc. split; [done|].
  apply Forall_app. split; [done|]. by apply Forall_singleton.
Qed.

Lemma session_frame b s s' :
  CONN_INFO_MAP s' = CONN_INFO_MAP s → ACTIVE_CONNECT_MAP s' = ACTIVE_CONNECT_MAP s →
  ACTIVE_CLOSE_MAP s' = ACTIVE_CLOSE_MAP s → SOCKET_CONTROL_EVENTS s' = SOCKET_CONTROL_EVENTS s →
  SOCKET_DATA_EVENTS s' = SOCKET_DATA_EVENTS s → CONN_STATS_EVENTS s' = CONN_STATS_EVENTS s →
  SOCKET_DATA_EVENT_BUFFER s' = SOCKET_DATA_EVENT_BUFFER s → session b s → session b s'.
Proof.
  intros H1 H2 H3 H4 H5 H6 H7 [? [] ? ? ? ?].
  split; unfold sent_since; rewrite ?H1, ?H4, ?H5, ?H6, ?H7; try done. by split; rewrite ?H1, ?H2, ?H3.
Qed.

(** The fields that a change of the state leaves alone. *)
Ltac se_split :=
  match goal with |- session _ _ => split end; try done;
  try match goal with H : recorded_ok _ |- recorded_ok _ => destruct H; by split end.

Lemma session_weaken b s : session b s → session false s.
Proof. intros []. by split. Qed.

Section steps.
Context (b : bool).
Notation I := (session b).

Lemma now_se : holds I (now k) (λ _, True).
Proof. intros s Hs. split; [by apply (session_frame b s)|done]. Qed.

Lemma update_inner_se f :
  (∀ i, de_id (f i) = de_id i) → holds I (update_inner f) (λ _, True).
Proof.
  intros Hf. apply holds_modify; [|done]. intros s []. se_split. simpl. intros Hb e He.
  destruct (SOCKET_DATA_EVENT_BUFFER s) as [e1|]; simplify_eq/=. rewrite Hf. auto.
Qed.

Lemma read_msg_se a n : holds I (read_msg k a n) (λ _, True).
Proof.
  intros s Hs. unfold state_of, read_msg. destruct (read_user_buf k a n); simpl; [|done].
  split; [|done]. destruct Hs. se_split. simpl. intros Hb e He.
  destruct (SOCKET_DATA_EVENT_BUFFER s) as [e1|]; simplify_eq/=. auto.
Qed.

Lemma control_output_se e : key_of (ce_id e) ≠ key0 → holds I (control_output e) (λ _, True).
Proof.
  intros He. apply holds_modify; [|done]. intros s []. se_split.
  by eapply sent_since_snoc.
Qed.

Lemma stats_output_se e : agrees (cs_id e) → holds I (stats_output e) (λ _, True).
Proof.
  intros He. apply holds_modify; [|done]. intros s []. se_split.
  by eapply sent_since_snoc.
Qed.

Lemma conn_info_insert_se key c :
  key ≠ key0 → key_of (id c) = key → holds I (conn_info_insert key c) (λ _, True).
Proof.
  intros Hne Hc s Hs. unfold state_of, conn_info_insert, map_insert_op.
  destruct (bpf_update _ key c) as [m|e] eqn:Hu; simpl; [|done]. split; [|done].
  destruct Hs as [? [] ? ? ? ?]. split; try done; simpl.
  - apply hash_update_ok in Hu as ->. by rewrite lookup_insert_ne.
  - split; try done. simpl. by eapply (values_ok_hash_update _ bm_conn).
Qed.

Lemma conn_info_remove_se key : key ≠ key0 → holds I (conn_info_remove key) (λ _, True).
Proof.
  intros Hne s Hs. unfold state_of, conn_info_remove, map_remove_op.
  destruct (bpf_delete _ key) as [m|e] eqn:Hu; simpl; [|done]. split; [|done].
  destruct Hs as [? [] ? ? ? ?]. split; try done; simpl.
  - apply hash_delete_ok in Hu as ->. by rewrite lookup_delete_ne.
  - split; try done. simpl. by eapply (values_ok_hash_delete _ bm_conn).
Qed.

Lemma gets_conn_se key :
  holds I (gets (λ s, CONN_INFO_MAP s !! key) : M Maps Z _)
    (λ o, (∀ c, o = Some c → key_of (id c) = key ∧ agrees (id c)) ∧ (o = None → key ≠ key0)).
Proof.
  apply holds_gets. intros s [Hc [Hk _ _] _ _ _ _]. split.
  - intros c Hcs. split; [by apply (Hk key)|]. intros Heq. rewrite (Hk _ _ Hcs) in Heq. subst key.
    rewrite Hc in Hcs. by simplify_eq.
  - intros Hn ->. congruence.
Qed.

Hint Resolve now_se read_msg_se control_output_se stats_output_se conn_info_insert_se
  conn_info_remove_se : rust_holds.

Lemma init_conn_info_se tg fd :
  holds I (init_conn_info k tg fd ConnInfo_default) (λ c, key_of (id c) = gen_tgid_fd tg fd).
Proof.
  unfold init_conn_info, init_conn_id, gen_tsid. eapply (holds_bind _ _ _ (λ i, key_of i = gen_tgid_fd tg fd)).
  - eapply holds_bind; [apply now_se|]. intros ts _. by apply holds_ret.
  - intros i Hi. by apply holds_ret.
Qed.

Lemma get_or_create_se tg fd :
  holds I (get_or_create_conn_info k tg fd) (λ c, agrees (id c)).
Proof.
  unfold get_or_create_conn_info. eapply holds_bind; [apply init_conn_info_se|]. intros c Hc.
  eapply holds_bind; [apply gets_conn_se|]. intros [info|] [Hinfo Hnone].
  - apply holds_ret. by apply Hinfo.
  - specialize (Hnone eq_refl). eapply holds_bind; [by apply conn_info_insert_se|]. intros _ _.
    apply holds_ret. intros Heq. congruence.
Qed.

Lemma parse_sock_data_id sk c : id (parse_sock_data k sk c).2 = id c.
Proof. unfold parse_sock_data. by repeat case_match. Qed.
Lemma parse_sockaddr_data_id sa c : id (parse_sockaddr_data k sa c).2 = id c.
Proof. unfold parse_sockaddr_data. by repeat case_match. Qed.

Lemma submit_open_event_se args :
  gen_tgid_fd (oe_tgid args) (oe_fd args) ≠ key0 → holds I (submit_open_event k args) (λ _, True).
Proof.
  intros Hne. unfold submit_open_event. eapply holds_bind; [apply init_conn_info_se|]. intros c Hc.
  set (parsed := if negb (oe_sk args =? 0) then _ else _).
  assert (id parsed.2 = id c) as Hp.
  { unfold parsed. repeat case_match; [by rewrite parse_sock_data_id|
      by rewrite parse_sockaddr_data_id|done]. }
  destruct parsed as [r c']. simpl in Hp.
  eapply (holds_bind _ _ _ (λ _, True)); [holds_auto|intros _ _].
  eapply holds_bind; [apply conn_info_insert_se; congruence|intros _ _].
  case_match; [by apply holds_ret|].
  eapply holds_bind; [apply now_se|intros ts _].
  eapply holds_bind; [apply control_output_se; simpl; congruence|intros _ _]. by apply holds_ret.
Qed.

Lemma populate_conn_stats_se c :
  holds I (populate_conn_stats_event k c) (λ e, cs_id e = id c).
Proof.
  unfold populate_conn_stats_event. eapply (holds_bind _ _ _ (λ _, True)); [by apply holds_gets|intros o _].
  eapply (holds_bind _ _ _ (λ _, True)); [by apply holds_lift|intros e _].
  eapply holds_bind; [apply now_se|intros ts _]. by apply holds_ret.
Qed.

Lemma update_conn_stats_se c d n : agrees (id c) → holds I (update_conn_stats k c d n) (λ _, True).
Proof.
  intros Hc. unfold update_conn_stats. set (c' := match d with Egress => _ | Ingress => _ end).
  assert (id c' = id c) as Hid by (unfold c'; by destruct d).
  case_match; [|by apply holds_ret].
  eapply holds_bind; [apply populate_conn_stats_se|]. intros e He.
  eapply holds_bind; [apply stats_output_se; by rewrite He, Hid|intros _ _]. by apply holds_ret.
Qed.
End steps.

Lemma update_traffic_class_id c d a n : id (update_traffic_class k c d a n) = id c.
Proof. unfold update_traffic_class. by repeat case_match. Qed.

Lemma classify_vecs_id n i c d iov_ iovlen_ count c' :
  classify_vecs k n i c d iov_ iovlen_ count = Ok c' → id c' = id c.
Proof.
  revert i. induction n as [|n IH]; intros i; cbn [classify_vecs]; [by intros [= <-]|].
  case_match; [by intros [= <-]|]. destruct (read_iovec k _) as [v|]; cbn [mbind result_bind]; [|done].
  case_match; [|apply IH]. intros [= <-]. apply update_traffic_class_id.
Qed.

(** *** Sending the event in the buffer *)

Notation J := (session true).

Lemma data_output_se n : holds J (data_output n) (λ _, True).
Proof.
  apply holds_modify; [|done]. intros s Hs.
  destruct (SOCKET_DATA_EVENT_BUFFER s) as [e|] eqn:He; [|done].
  destruct Hs. se_split. eapply sent_since_snoc; [reflexivity| |done]. simpl. auto.
Qed.

Lemma perf_submit_buf_se a n : holds J (perf_submit_buf k a n) (λ _, True).
Proof.
  unfold perf_submit_buf. eapply holds_bind; [by apply update_inner_se|intros _ _].
  case_match; [by apply holds_ret|].
  eapply (holds_bind _ _ _ (λ _, True)).
  { repeat case_match; try by apply holds_ret.
    - eapply holds_bind; [apply read_msg_se|intros _ _]. by apply holds_ret.
    - eapply holds_bind; [apply read_msg_se|intros _ _]. by apply holds_ret. }
  intros m _. case_match; [|by apply holds_ret].
  eapply holds_bind; [by apply update_inner_se|intros _ _].
  eapply holds_bind; [apply data_output_se|intros _ _]. by apply holds_ret.
Qed.

Lemma submit_chunks_se n a total sent : holds J (submit_chunks k n a total sent) (λ _, True).
Proof.
  revert sent. induction n as [|n IH]; intros sent; [by apply holds_ret|]. cbn [submit_chunks].
  eapply holds_bind; [apply perf_submit_buf_se|]. intros _ _. apply IH.
Qed.

Lemma submit_iovecs_se n i iov_ iovlen_ total sent :
  holds J (submit_iovecs k n i iov_ iovlen_ total sent) (λ _, True).
Proof.
  revert i sent. induction n as [|n IH]; intros i sent; [by apply holds_ret|]. cbn [submit_iovecs].
  do 2 (case_match; [by apply holds_ret|]).
  eapply (holds_bind _ _ _ (λ _, True)); [by apply holds_lift|intros v _].
  eapply holds_bind; [apply perf_submit_buf_se|intros _ _].
  eapply holds_bind; [by apply update_inner_se|intros _ _]. apply IH.
Qed.

(** Filling the buffer for a connection makes what is in it agree. *)
Lemma populate_then {A} f d c (m : M Maps Z A) Q :
  agrees (id c) → holds J m Q → holds (session false) (populate_socket_data_event k f d c;; m) Q.
Proof.
  intros Hc Hm s Hs. unfold state_of, value_of, populate_socket_data_event, mbind, M_bind, gets.
  destruct (SOCKET_DATA_EVENT_BUFFER s) as [e|] eqn:He; [|by split].
  unfold now, update_inner, modify. set (s1 := set_SOCKET_DATA_EVENT_BUFFER _ _).
  assert (J s1) as Hs1.
  { destruct Hs. unfold s1. se_split. simpl. rewrite He. by intros _ e1 [= <-]. }
  destruct (Hm s1 Hs1) as [Hsm HQ]. split; [by apply session_weaken with (b := true)|done].
Qed.

(** *** Processing *)

Notation K := (session false).

Lemma process_data_se args extra : holds K (process_data k args extra) (λ _, True).
Proof.
  unfold process_data. do 4 (case_match; [by apply holds_ret|]).
  eapply (holds_bind _ _ _ (λ _, True)); [by apply holds_gets|]. intros m _.
  case_decide; [by apply holds_ret|].
  eapply holds_bind; [apply get_or_create_se|]. intros c Hc.
  case_match; [by apply holds_ret|].
  eapply (holds_bind _ _ _ (λ _, True)); [by apply holds_gets|]. intros dis _.
  eapply (holds_bind _ _ _ (λ c', agrees (id c'))).
  { case_match; [|apply holds_ret; by rewrite update_traffic_class_id].
    apply holds_lift. intros c' Hc'. by rewrite (classify_vecs_id _ _ _ _ _ _ _ _ Hc'). }
  intros c' Hc'. eapply (holds_bind _ _ _ (λ _, True)); [by apply holds_gets|]. intros send _.
  eapply (holds_bind _ _ _ (λ _, True)).
  { case_match; [|by apply holds_ret]. apply populate_then; [done|].
    case_match; [apply submit_iovecs_se|apply submit_chunks_se]. }
  intros _ _. eapply holds_bind; [by apply update_conn_stats_se|]. intros _ _. by apply holds_ret.
Qed.

Lemma process_syscall_sendfile_se key args count :
  holds K (process_syscall_sendfile k key args count) (λ _, True).
Proof.
  unfold process_syscall_sendfile. do 2 (case_match; [by apply holds_ret|]).
  eapply (holds_bind _ _ _ (λ _, True)); [by apply holds_gets|intros m _].
  case_decide; [by apply holds_ret|].
  eapply holds_bind; [apply get_or_create_se|]. intros c Hc.
  case_match; [by apply holds_ret|].
  do 2 (eapply (holds_bind _ _ _ (λ _, True)); [by apply holds_gets|intros ? _]).
  eapply (holds_bind _ _ _ (λ _, True)).
  { case_match; [|by apply holds_ret]. apply populate_then; [done|].
    eapply holds_bind; [by apply update_inner_se|intros _ _]. apply data_output_se. }
  intros _ _. eapply holds_bind; [by apply update_conn_stats_se|]. intros _ _. by apply holds_ret.
Qed.

(** Two descriptors of processes have the same key only if they are the same. *)
Lemma other_key tg fd :
  in_u 32 tg → in_s 32 fd → 0 ≤ fd → ¬ (tg = tg0 ∧ fd = fd0) → gen_tgid_fd tg fd ≠ key0.
Proof.
  intros Htg Hfd Hpos Hne Heq. apply Hne. unfold in_s in Hfd.
  apply (proj1 gen_tgid_fd_injective) in Heq; [done..|lia|done].
Qed.

Lemma process_syscall_close_se ctx key args :
  in_u 32 (Z.shiftr key 32) → in_s 32 (cl_fd args) →
  ¬ (Z.shiftr key 32 = tg0 ∧ cl_fd args = fd0) →
  holds K (process_syscall_close k ctx key args) (λ _, True).
Proof.
  intros Htg Hfd Hne. unfold process_syscall_close.
  eapply (holds_bind _ _ _ (λ _, True)); [by apply holds_lift|intros retval _].
  destruct (Z.ltb_spec (cl_fd args) 0); [by apply holds_ret|]. case_match; [by apply holds_ret|].
  eapply (holds_bind _ _ _ (λ _, True)); [by apply holds_gets|intros m _].
  case_decide; [by apply holds_ret|].
  pose proof (other_key _ _ Htg Hfd ltac:(lia) Hne) as Hkey.
  eapply holds_bind; [apply gets_conn_se|]. intros found [Hfound _].
  eapply (holds_bind _ _ _ (λ c, key_of (id c) ≠ key0 ∧ agrees (id c))).
  { apply holds_lift. intros c Hc. destruct found; simplify_eq/=.
    destruct (Hfound c eq_refl) as [-> ?]. done. }
  intros c [Hck Hca]. eapply (holds_bind _ _ _ (λ _, True)).
  2: { intros _ _. eapply holds_bind; [by apply conn_info_remove_se|intros _ _]. by apply holds_ret. }
  case_match; [|by apply holds_ret].
  eapply (holds_bind _ _ _ (λ _, True)).
  { unfold submit_close_event. eapply holds_bind; [apply now_se|intros ts _].
    eapply holds_bind; [by apply control_output_se|intros _ _]. by apply holds_ret. }
  intros _ _. eapply holds_bind; [apply populate_conn_stats_se|]. intros e He.
  apply stats_output_se. simpl. by rewrite He.
Qed.

(** *** Pending arguments *)

Lemma active_insert_se {V} `{BM : !BpfMap Z V, !HashLaws BM} (get : Maps → gmap Z V) set n v :
  (∀ s, K s → K (set (<[n := v]> (get s)) s)) → holds K (map_insert_op get set n v) (λ _, True).
Proof.
  intros Hset s Hs. unfold state_of, map_insert_op.
  destruct (bpf_update (get s) n v) as [m|] eqn:Hu; simpl; [|done].
  apply hash_update_ok in Hu as ->. auto.
Qed.

Lemma active_remove_se {V} `{BM : !BpfMap Z V, !HashLaws BM} (get : Maps → gmap Z V) set n :
  (∀ s, K s → K (set (delete n (get s)) s)) → holds K (map_remove_op get set n) (λ _, True).
Proof.
  intros Hset s Hs. unfold state_of, map_remove_op.
  destruct (bpf_delete (get s) n) as [m|] eqn:Hu; simpl; [|done].
  apply hash_delete_ok in Hu as ->. auto.
Qed.

Ltac frame_op := intros s Hs; by apply (session_frame false s).

Lemma accept_insert_se n v : holds K (accept_insert n v) (λ _, True).
Proof. apply active_insert_se. frame_op. Qed.
Lemma accept_remove_se n : holds K (accept_remove n) (λ _, True).
Proof. apply active_remove_se. frame_op. Qed.
Lemma write_insert_se n v : holds K (write_insert n v) (λ _, True).
Proof. apply active_insert_se. frame_op. Qed.
Lemma write_remove_se n : holds K (write_remove n) (λ _, True).
Proof. apply active_remove_se. frame_op. Qed.
Lemma read_insert_se n v : holds K (read_insert n v) (λ _, True).
Proof. apply active_insert_se. frame_op. Qed.
Lemma read_remove_se n : holds K (read_remove n) (λ _, True).
Proof. apply active_remove_se. frame_op. Qed.
Lemma sendfile_insert_se n v : holds K (sendfile_insert n v) (λ _, True).
Proof. apply active_insert_se. frame_op. Qed.
Lemma sendfile_remove_se n : holds K (sendfile_remove n) (λ _, True).
Proof. apply active_remove_se. frame_op. Qed.
Lemma connect_insert_se n v : in_s 32 (ca_fd v) → holds K (connect_insert n v) (λ _, True).
Proof.
  intros Hv. apply active_insert_se. intros s [? [] ? ? ? ?]. se_split. split; try done.
  by apply (values_ok_insert (λ a, in_s 32 (ca_fd a))).
Qed.
Lemma connect_remove_se n : holds K (connect_remove n) (λ _, True).
Proof.
  apply active_remove_se. intros s [? [] ? ? ? ?]. se_split. split; try done.
  by apply map_Forall_delete.
Qed.
Lemma close_insert_se n v : in_s 32 (cl_fd v) → holds K (close_insert n v) (λ _, True).
Proof.
  intros Hv. apply active_insert_se. intros s [? [] ? ? ? ?]. se_split. split; try done.
  by apply (values_ok_insert (λ a, in_s 32 (cl_fd a))).
Qed.
Lemma close_remove_se n : holds K (close_remove n) (λ _, True).
Proof.
  apply active_remove_se. intros s [? [] ? ? ? ?]. se_split. split; try done.
  by apply map_Forall_delete.
Qed.

Lemma arg_i32_se ctx n : holds K (lift (arg_i32 ctx n)) (in_s 32).
Proof.
  apply holds_lift. intros a. unfold arg_i32. destruct (arg ctx n); simpl; [|done].
  intros [= <-]. by apply wraps_range.
Qed.

Lemma sock_event_write_se n v : holds K (modify (λ s,
  set_ACTIVE_WRITE_MAP (<[n := v]> (ACTIVE_WRITE_MAP s)) s) : M Maps Z unit) (λ _, True).
Proof. apply holds_modify; [|done]. frame_op. Qed.
Lemma sock_event_read_se n v : holds K (modify (λ s,
  set_ACTIVE_READ_MAP (<[n := v]> (ACTIVE_READ_MAP s)) s) : M Maps Z unit) (λ _, True).
Proof. apply holds_modify; [|done]. frame_op. Qed.
Lemma sock_alloc_se n v : holds K (modify (λ s,
  set_ACTIVE_ACCEPT_MAP (<[n := v]> (ACTIVE_ACCEPT_MAP s)) s) : M Maps Z unit) (λ _, True).
Proof. apply holds_modify; [|done]. frame_op. Qed.

Hint Resolve accept_insert_se accept_remove_se write_insert_se write_remove_se read_insert_se
  read_remove_se sendfile_insert_se sendfile_remove_se connect_insert_se connect_remove_se
  close_insert_se close_remove_se arg_i32_se sock_event_write_se sock_event_read_se sock_alloc_se
  process_data_se process_syscall_sendfile_se : rust_holds.

(** A probe that opens and closes nothing. *)
Definition opens_or_closes (p : Probe) : bool :=
  match p with ret_accept | ret_accept4 | ret_connect | ret_close => true | _ => false end.

Lemma quiet_probe_se p ctx :
  opens_or_closes p = false → holds K (try_probe k p ctx) (λ _, True).
Proof.
  intros Hp. destruct p; try done; cbn [try_probe];
    unfold try_entry_accept, try_entry_accept4, try_entry_connect, try_entry_close, try_entry_read,
    try_ret_read, try_entry_write, try_ret_write, try_entry_recv, try_ret_recv, try_entry_send,
    try_ret_send, try_entry_recvfrom, try_ret_recvfrom, try_entry_sendto, try_ret_sendto,
    try_entry_readv, try_ret_readv, try_entry_writev, try_ret_writev, try_entry_recvmsg,
    try_ret_recvmsg, try_entry_sendmsg, try_ret_sendmsg, try_entry_recvmmsg,
    try_ret_recvmmsg, try_entry_sendmmsg, try_ret_sendmmsg, try_entry_sendfile,
    try_ret_sendfile, try_ret_sock_alloc, try_entry_security_socket_sendmsg,
    try_entry_security_socket_recvmsg, process_syscall_data, process_syscall_data_vecs,
    accept_get, connect_get, write_get, read_get, sendfile_get, close_get; holds_auto.
Qed.

(** *** Opening and closing other descriptors *)

Lemma tgid_of_pid z : in_u 64 z → in_u 32 (Z.shiftr z 32).
Proof.
  unfold in_u. intros Hz. rewrite Z.shiftr_div_pow2 by lia.
  split; [apply Z.div_pos; lia|apply Z.div_lt_upper_bound; lia].
Qed.

Lemma process_syscall_accept_se ctx key args :
  in_u 32 (Z.shiftr key 32) → ¬ (Z.shiftr key 32 = tg0 ∧ as_i32 <$> ret ctx = Some fd0) →
  holds K (process_syscall_accept k ctx key args) (λ _, True).
Proof.
  intros Htg Hne. unfold process_syscall_accept.
  eapply (holds_bind _ _ _ (λ fd, in_s 32 fd ∧ ¬ (Z.shiftr key 32 = tg0 ∧ fd = fd0))).
  { apply holds_lift. intros fd. unfold ret_i32. destruct (ret ctx) as [v|]; simpl; [|done].
    intros [= <-]. split; [by apply wraps_range|]. intros [? ?]. apply Hne. split; [done|].
    simpl. by f_equal. }
  intros fd [Hfd Hkey]. eapply (holds_bind _ _ _ (λ _, True)); [by apply holds_gets|intros m _].
  case_decide; [by apply holds_ret|]. destruct (Z.ltb_spec fd 0); [by apply holds_ret|].
  eapply holds_bind; [apply submit_open_event_se; by apply other_key|intros _ _]. by apply holds_ret.
Qed.

Lemma process_syscall_connect_se ctx key args :
  in_u 32 (Z.shiftr key 32) → in_s 32 (ca_fd args) →
  ¬ (Z.shiftr key 32 = tg0 ∧ ca_fd args = fd0) →
  holds K (process_syscall_connect k ctx key args) (λ _, True).
Proof.
  intros Htg Hfd Hne. unfold process_syscall_connect.
  eapply (holds_bind _ _ _ (λ _, True)); [by apply holds_lift|intros rv _].
  eapply (holds_bind _ _ _ (λ _, True)); [by apply holds_gets|intros m _].
  case_decide; [by apply holds_ret|]. destruct (Z.ltb_spec (ca_fd args) 0); [by apply holds_ret|].
  case_match; [by apply holds_ret|].
  eapply holds_bind; [apply submit_open_event_se; by apply other_key|intros _ _]. by apply holds_ret.
Qed.

(** The rest of a return probe after the arguments of this state were found. *)
Lemma found_then {V A} (get : Maps → gmap Z V) n (m : V → M Maps Z A) s :
  K s → (∀ a, get s !! n = Some a → holds K (m a) (λ _, True)) →
  K (state_of (args ← (found ← gets (λ s, get s !! n); lift (ok_or 1 found)); m args) s).
Proof.
  intros Hs Hm. unfold state_of, mbind, M_bind, gets, lift.
  destruct (get s !! n) as [a|] eqn:Ha; simpl; [|done]. by apply (Hm a eq_refl s).
Qed.

Lemma probe_se p ctx s :
  in_u 64 (current_pid_tgid k) → ¬ reuses tg0 fd0 k p ctx s → K s →
  K (state_of (try_probe k p ctx) s).
Proof.
  intros Hpid%tgid_of_pid Hne Hs. destruct (opens_or_closes p) eqn:Hp; [|by apply quiet_probe_se].
  unfold reuses in Hne. destruct p; try done; cbn [try_probe];
    (apply found_then; [done|]; intros args Hargs;
     eapply (holds_bind _ _ _ (λ _, True)); [|intros res _; holds_auto]; apply (holds_attempt _ _ (λ _, True))).
  - by apply process_syscall_accept_se.
  - by apply process_syscall_accept_se.
  - rewrite Hargs in Hne. apply process_syscall_connect_se; [done| |intros [? Hfd]; apply Hne; split; [done|by rewrite <- Hfd]].
    by eapply ro_connect; [apply Hs|].
  - rewrite Hargs in Hne. apply process_syscall_close_se; [done| |intros [? Hfd]; apply Hne; split; [done|by rewrite <- Hfd]].
    by eapply ro_close; [apply Hs|].
Qed.
End session.

(** ** Runs *)

Section run.
Context {B : SocketMaps} {BL : SocketMapsLaws B}.

Lemma session_rtc tg fd c s1 s s' :
  in_u 32 tg → 0 ≤ fd < 2 ^ 31 → rtc (session_step tg fd) s s' →
  session tg fd c s1 false s → session tg fd c s1 false s'.
Proof.
  intros Htg Hfd. induction 1 as [s|s s' s'' Hstep _ IH]; [done|]. intros Hs. apply IH.
  destruct Hstep as [k p ctx s Hk Hne|]; [|by apply (session_frame tg fd c s1 false s)].
  rewrite run_probe_state. by apply probe_se.
Qed.

Lemma session_start tg fd c s :
  CONN_INFO_MAP s !! gen_tgid_fd tg fd = Some c → recorded_ok s → session tg fd c s false s.
Proof.
  intros Hc Hro. split; [done|done|..|done]; exists []; (split; [by rewrite app_nil_r|constructor]).
Qed.

(** ** Properties *)

(** C11: the life of a connection.  Let the return probe of a connect, accept or
    accept4 succeed and send an event.  It has recorded a connection [c] with the
    process and the descriptor of the call, and the event is the Open event of [c],
    in the role of client for a connect and of server for an accept; the remote
    endpoint of a connect is what its address was read as.  Then let any probes of
    any threads run that neither open nor close that descriptor of that process,
    and let a close of the descriptor succeed in whichever thread of the process,
    with the process still traced, the statistics buffer in place and its return
    probe succeeding.  The Close event has the identity, role and addresses of the
    Open event; no other control event of this process and descriptor is sent
    between them; every data and statistics event that is sent in between for this
    process and descriptor carries that identity, and so does the final statistics
    event; and the connection is recorded no longer.  [recorded_ok] holds in every
    state that the tracer reaches ([recorded_ok_run]). *)
Theorem session_events_agree k p r src ctx s s1 :
  let tg := Z.shiftr (current_pid_tgid k) 32 in
  opening p = Some (r, src) → in_u 64 (current_pid_tgid k) → recorded_ok s →
  try_probe k p ctx s = (Ok 0, s1) → SOCKET_CONTROL_EVENTS s1 ≠ SOCKET_CONTROL_EVENTS s →
  ∃ c ts, let fd := id_fd (id c) in
    opened k p ctx s = Some fd ∧ role c = r ∧ tgid (uid (id c)) = tg ∧
    (p = ret_connect → ∀ a, ACTIVE_CONNECT_MAP s !! current_pid_tgid k = Some a → ca_sockaddr a ≠ 0 →
       ∃ c0, parse_sockaddr_data k (ca_sockaddr a) c0 = (Ok 0, c)) ∧
    SOCKET_CONTROL_EVENTS s1 = SOCKET_CONTROL_EVENTS s ++ [control_event c Open src ts 0 0] ∧
    ∀ s2 k' ctx' args' e0 rv' s3,
      rtc (session_step tg fd) s1 s2 →
      Z.shiftr (current_pid_tgid k') 32 = tg →
      ACTIVE_CLOSE_MAP s2 !! current_pid_tgid k' = Some args' → cl_fd args' = fd →
      CONN_STATS_EVENT_BUFFER s2 = Some e0 → ret ctx' = Some rv' → 0 ≤ as_i32 rv' →
      match_trace_tgid s2 tg ≠ Unmatched → try_ret_close k' ctx' s2 = (Ok 0, s3) →
      ∃ ts' mid dat sts e,
        SOCKET_CONTROL_EVENTS s3 = SOCKET_CONTROL_EVENTS s1 ++ mid ++
          [control_event c Close SyscallClose ts' (write_bytes c) (read_bytes c)] ∧
        Forall (λ x, key_of (ce_id x) ≠ gen_tgid_fd tg fd) mid ∧
        SOCKET_DATA_EVENTS s2 = SOCKET_DATA_EVENTS s1 ++ dat ∧
        Forall (λ x, agrees tg fd c (de_id (inner x.1))) dat ∧
        CONN_STATS_EVENTS s3 = CONN_STATS_EVENTS s1 ++ sts ++ [e] ∧
        Forall (λ x, agrees tg fd c (cs_id x)) sts ∧ cs_id e = id c ∧
        CONN_INFO_MAP s3 !! gen_tgid_fd tg fd = None.
Proof.
  intros tg Hop Hpid Hro Hopen Hsent.
  destruct (probe_opens k p r src ctx s s1 Hop Hopen Hsent)
    as (c & ts & Hfd & Hpos & Hinfo & Hctl & Hrole & Htg & Hfam & Hsa).
  exists c, ts. fold tg in Hinfo, Htg. cbv zeta. split_and!; try done.
  intros s2 k' ctx' args' e0 rv' s3 Hrun Hpid' Hargs' Hfd' Hbuf Hret' Hrv' Hm' Hclose.
  assert (recorded_ok s1) as Hro1.
  { pose proof (try_probe_rec k p ctx s Hro) as H. unfold state_of in H. by rewrite Hopen in H. }
  assert (id_fd (id c) < 2 ^ 31) as Hmax.
  { assert (in_s 32 (id_fd (id c))) as H; [|unfold in_s in H; lia].
    destruct p; simpl in Hop; try done; cbn [opened] in Hfd; apply fmap_Some in Hfd as (x & Hx & ->);
      [by apply wraps_range..|]. by apply (ro_connect s Hro) in Hx. }
  assert (session tg (id_fd (id c)) c s1 false s2) as [Hc _ (mid & Hmid & Hmids) (dat & Hdat & Hdats) (sts & Hsts & Hstss) _].
  { apply (session_rtc tg (id_fd (id c)) c s1 s1); [by apply tgid_of_pid|done|done|].
    apply session_start; [by rewrite Hinfo, lookup_insert_eq|done]. }
  destruct (close_reports_and_forgets k' ctx' s2 s3 args' c e0 rv') as
    (ts' & e & Hctl3 & Hst3 & Hid & _ & _ & _ & Hgone & _); try done; [by rewrite Hfd'|by rewrite Hpid', Hfd'|by rewrite Hpid'|].
  rewrite Hpid', Hfd' in Hgone. exists ts', mid, dat, sts, e. split_and!; try done.
  - by rewrite Hctl3, Hmid, <- !app_assoc.
  - by rewrite Hst3, Hsts, <- app_assoc.
  - by rewrite Hgone, lookup_delete_eq.
Qed.
End run.

(** ** Witness *)

(** Descriptor 8 is connected, written to, and closed; another process writes in
    between. *)
Definition ex_fd8 (r : Z) : ProbeContext :=
  {| arg := λ n, match n with 0%nat => Some 8 | 1%nat => Some 8192 | _ => Some 0 end; ret := Some r |}.
Definition ex_connecting : Maps := (run_probe (B := ex_smaps) ex_sk_kernel entry_connect (ex_fd8 0) ex_started).2.
Definition ex_connected : Maps := state_of (try_ret_connect (B := ex_smaps) ex_sk_kernel (ex_fd8 0)) ex_connecting.
Definition ex_session1 : Maps := (run_probe (B := ex_smaps) ex_other_kernel entry_write (ex_ctx 0) ex_connected).2.
Definition ex_session2 : Maps := (run_probe (B := ex_smaps) ex_sk_kernel entry_write (ex_fd8 0) ex_session1).2.
Definition ex_session3 : Maps := (run_probe (B := ex_smaps) ex_sk_kernel ret_write (ex_fd8 100) ex_session2).2.
Definition ex_session4 : Maps := (run_probe (B := ex_smaps) ex_sk_kernel entry_close (ex_fd8 0) ex_session3).2.
Definition ex_session5 : Maps := state_of (try_ret_close (B := ex_smaps) ex_sk_kernel (ex_fd8 0)) ex_session4.

Lemma ex_session_run : rtc (session_step (B := ex_smaps) 5 8) ex_connected ex_session4.
Proof.
  eapply rtc_l; [apply (session_probe 5 8 ex_other_kernel entry_write (ex_ctx 0)); [vm_compute; split; congruence|by intros []]|].
  eapply rtc_l; [apply (session_probe 5 8 ex_sk_kernel entry_write (ex_fd8 0)); [vm_compute; split; congruence|by intros []]|].
  eapply rtc_l; [apply (session_probe 5 8 ex_sk_kernel ret_write (ex_fd8 100)); [vm_compute; split; congruence|by intros []]|].
  apply rtc_once, (session_probe 5 8 ex_sk_kernel entry_close (ex_fd8 0)); [vm_compute; split; congruence|by intros []].
Qed.

Lemma ex_connecting_ok : recorded_ok ex_connecting.
Proof.
  apply (recorded_ok_run (BL := bounded_maps_laws 1024) ex_started); [split; apply map_Forall_empty|].
  apply rtc_once, (sk_probe ex_sk_kernel entry_connect (ex_fd8 0)), ex_sk_kernel_ok.
Qed.

Lemma session_events_witness :
  ∃ c ts ts' mid, SOCKET_CONTROL_EVENTS ex_session5 =
    [control_event c Open SyscallConnect ts 0 0] ++ mid ++
    [control_event c Close SyscallClose ts' (write_bytes c) (read_bytes c)].
Proof.
  destruct (session_events_agree (B := ex_smaps) (BL := bounded_maps_laws 1024) ex_sk_kernel ret_connect
    Client SyscallConnect (ex_fd8 0) ex_connecting ex_connected)
    as (c & ts & Hfd & _ & _ & _ & Hopen & H).
  - reflexivity.
  - vm_compute. split; congruence.
  - exact ex_connecting_ok.
  - refine (eq_trans (surjective_pairing _) (f_equal (λ r, (r, _)) _)). vm_compute. reflexivity.
  - vm_compute. discriminate.
  - assert (opened ex_sk_kernel ret_connect (ex_fd8 0) ex_connecting = Some 8) as H8 by (vm_compute; reflexivity).
    rewrite H8 in Hfd. injection Hfd as Hfd. cbv zeta in H. rewrite <- Hfd in H.
    destruct (H ex_session4 ex_sk_kernel (ex_fd8 0) {| cl_fd := 8 |} ex_stats 0 ex_session5)
      as (ts' & mid & _ & _ & _ & Hev & _).
    + exact ex_session_run.
    + reflexivity.
    + vm_compute. reflexivity.
    + reflexivity.
    + vm_compute. reflexivity.
    + reflexivity.
    + vm_compute. discriminate.
    + vm_compute. discriminate.
    + refine (eq_trans (surjective_pairing _) (f_equal (λ r, (r, _)) _)). vm_compute. reflexivity.
    + exists c, ts, ts', mid. rewrite Hev, Hopen. reflexivity.
Defined.
