(* ===== verification/SocketUser.v ===== *)
(** * socket-tracer: the user-space program

    [ebpf/socket-tracer/socket-tracer/src]: a loader per system call
    ([accept.rs], ..., [writev.rs]), which loads the object of its probes and
    attaches them, and [main.rs], which spawns the loaders and prints the events
    it reads from the perf buffers.

    The aya crate is a parameter: what it answers when an object is loaded and
    when a program of it is loaded and attached ([Aya]), and the bytes it hands
    over for a sample.  Attached probes are run when the kernel enters or leaves
    the function they are attached to ([fire]). *)
From S2P Require Import Prelude RustStd AgentApi Bpf Program SocketData SocketTracer SocketProbes SocketLayout SocketProps.
From stdpp Require Import base gmap strings list relations.
From Stdlib Require Import ZArith Lia Ascii.

Local Open Scope Z_scope.

(** ** The loaders *)

Record Loader := { object : string; programs : list (string * string) }.

(** The calls of aya a loader makes: [Bpf::load] gives the names of the programs
    of the object; [program_load] is the conversion to a [KProbe] and its
    [load]. *)
Record Aya := {
  load_object : string → result Error (list string);
  program_load : string → string → result Error unit;
  program_attach : string → string → string → result Error unit }.

(** The tables of the loaders. *)
Definition connect_run : Loader := {|
  object := "socket-tracer-connect";
  programs := [("entry_connect", "__sys_connect");
               ("ret_connect", "__sys_connect")] |}.
Definition accept_run : Loader := {|
  object := "socket-tracer-accept";
  programs := [("entry_accept", "__x64_sys_accept");
               ("ret_accept", "__x64_sys_accept")] |}.
Definition accept4_run : Loader := {|
  object := "socket-tracer-accept4";
  programs := [("entry_accept4", "__x64_sys_accept4");
               ("ret_accept4", "__x64_sys_accept4")] |}.
Definition close_run : Loader := {|
  object := "socket-tracer-close";
  programs := [("entry_close", "__x64_sys_close");
               ("ret_close", "__x64_sys_close")] |}.
Definition send_run : Loader := {|
  object := "socket-tracer-send";
  programs := [("entry_send", "__x64_sys_send");
               ("ret_send", "__x64_sys_send")] |}.
Definition sendto_run : Loader := {|
  object := "socket-tracer-sendto";
  programs := [("entry_sendto", "__x64_sys_sendto");
               ("ret_sendto", "__x64_sys_sendto")] |}.
Definition sendmsg_run : Loader := {|
  object := "socket-tracer-sendmsg";
  programs := [("entry_sendmsg", "__x64_sys_sendmsg");
               ("ret_sendmsg", "__x64_sys_sendmsg")] |}.
Definition sendmmsg_run : Loader := {|
  object := "socket-tracer-sendmmsg";
  programs := [("entry_sendmmsg", "__x64_sys_sendmmsg");
               ("ret_sendmmsg", "__x64_sys_sendmmsg")] |}.
Definition sendfile_run : Loader := {|
  object := "socket-tracer-sendfile";
  programs := [("entry_sendfile", "__x64_sys_sendfile");
               ("ret_sendfile", "__x64_sys_sendfile")] |}.
Definition ssendmsg_run : Loader := {|
  object := "socket-tracer-ssendmsg";
  programs := [("entry_security_socket_sendmsg", "security_socket_sendmsg");
               ("entry_security_socket_recvmsg", "security_socket_sendmsg")] |}.
Definition recv_run : Loader := {|
  object := "socket-tracer-recv";
  programs := [("entry_recv", "__x64_sys_recv");
               ("ret_recv", "__x64_sys_recv")] |}.
Definition recvfrom_run : Loader := {|
  object := "socket-tracer-recvfrom";
  programs := [("entry_recvfrom", "__x64_sys_recvfrom");
               ("ret_recvfrom", "__x64_sys_recvfrom")] |}.
Definition recvmsg_run : Loader := {|
  object := "socket-tracer-recvmsg";
  programs := [("entry_recvmsg", "__x64_sys_recvmsg");
               ("ret_recvmsg", "__x64_sys_recvmsg")] |}.
Definition recvmmsg_run : Loader := {|
  object := "socket-tracer-recvmmsg";
  programs := [("entry_recvmmsg", "__x64_sys_recvmmsg");
               ("ret_recvmmsg", "__x64_sys_recvmmsg")] |}.
Definition read_run : Loader := {|
  object := "socket-tracer-read";
  programs := [("entry_read", "__x64_sys_read");
               ("ret_read", "__x64_sys_read")] |}.
Definition readv_run : Loader := {|
  object := "socket-tracer-readv";
  programs := [("entry_readv", "__x64_sys_readv");
               ("ret_readv", "__x64_sys_readv")] |}.
Definition write_run : Loader := {|
  object := "socket-tracer-write";
  programs := [("entry_write", "__x64_sys_write");
               ("ret_write", "__x64_sys_write")] |}.
Definition writev_run : Loader := {|
  object := "socket-tracer-writev";
  programs := [("entry_writev", "__x64_sys_writev");
               ("ret_writev", "__x64_sys_writev")] |}.
Definition sockalloc_run : Loader := {|
  object := "socket-tracer-sockalloc";
  programs := [("ret_sock_alloc", "sock_alloc")] |}.

(** In the order [main] spawns them. *)
Definition loaders : list Loader :=
  [connect_run; accept_run; accept4_run; close_run; send_run; sendto_run; sendmsg_run; sendmmsg_run;
   sendfile_run; ssendmsg_run; recv_run; recvfrom_run; recvmsg_run; recvmmsg_run; read_run;
   readv_run; write_run; writev_run; sockalloc_run].

Section loaders.
Context (aya : Aya).

(** The loop of [run]; the state is what is attached so far. *)
Fixpoint attach_programs (obj : string) (names : list string) (ps : list (string * string)) :
    M (list (string * string)) Failure unit :=
  match ps with
  | [] => mret ()
  | (prog_name, func_name) :: rest =>
      if bool_decide (prog_name ∈ names) then
        lift (map_err Fail (program_load aya obj prog_name));;
        lift (map_err Fail (program_attach aya obj prog_name func_name));;
        modify (λ attached, attached ++ [(prog_name, func_name)]);;
        attach_programs obj names rest
      else throw (Panic "called `Option::unwrap()` on a `None` value")
  end.

(** [run] up to [notify.notified().await]; a failure of the logger is only
    printed. *)
Definition run (l : Loader) : M (list (string * string)) Failure unit :=
  names ← lift (map_err Fail (load_object aya (object l)));
  attach_programs (object l) names (programs l).

(** What stays attached: the object is dropped, and its probes detached, when
    [run] returns early; the [unwrap] of the task then ends that task only. *)
Definition links (l : Loader) : list (string * string) :=
  match run l [] with
  | (Ok _, attached) => attached
  | (Err _, _) => []
  end.

Definition main_links : list (string * string) := ls ← loaders; links ls.

(** A loader that is not refused anything. *)
Definition accepted (l : Loader) : Prop :=
  ∃ names, load_object aya (object l) = Ok names ∧
    Forall (λ p, p.1 ∈ names ∧ program_load aya (object l) p.1 = Ok () ∧
                 program_attach aya (object l) p.1 p.2 = Ok ()) (programs l).

Lemma attach_programs_ok obj names ps attached s' :
  attach_programs obj names ps attached = (Ok (), s') ↔
  s' = attached ++ ps ∧
  Forall (λ p, p.1 ∈ names ∧ program_load aya obj p.1 = Ok () ∧
               program_attach aya obj p.1 p.2 = Ok ()) ps.
Proof.
  revert attached. induction ps as [|[p f] ps IH]; intros attached.
  { simpl. unfold mret, M_ret. rewrite app_nil_r. naive_solver. }
  cbn [attach_programs]. rewrite Forall_cons. cbn [fst snd].
  destruct (decide (p ∈ names)) as [Hp|Hp].
  2: { rewrite bool_decide_false by done. split; [done|naive_solver]. }
  rewrite bool_decide_true by done. unfold mbind, M_bind, lift, modify.
  destruct (program_load aya obj p) as [[]|e]; simpl; [|naive_solver].
  destruct (program_attach aya obj p f) as [[]|e]; simpl; [|naive_solver].
  rewrite IH, <- app_assoc. naive_solver.
Qed.

Lemma links_accepted l : accepted l → links l = programs l.
Proof.
  intros (names & Hl & Hall). unfold links, run, mbind, M_bind, lift. rewrite Hl. simpl.
  destruct (attach_programs (object l) names (programs l) []) as [r s'] eqn:E.
  pose proof (proj2 (attach_programs_ok (object l) names (programs l) [] (programs l))
                (conj eq_refl Hall)) as H.
  rewrite E in H. by simplify_eq.
Qed.

Lemma run_accepted l s' : run l [] = (Ok (), s') → accepted l.
Proof.
  unfold run. intros E. apply bind_ok in E as (names & s1 & E1 & E). apply lift_ok in E1 as [E1 ->].
  destruct (load_object aya (object l)) as [ns|e] eqn:Hl; [|done]. simplify_eq/=.
  apply attach_programs_ok in E as [_ H]. by exists names.
Qed.
End loaders.

(** ** The probes of the table *)

Definition probe_name (p : Probe) : string :=
  match p with
  | entry_accept => "entry_accept" | ret_accept => "ret_accept"
  | entry_accept4 => "entry_accept4" | ret_accept4 => "ret_accept4"
  | entry_connect => "entry_connect" | ret_connect => "ret_connect"
  | entry_close => "entry_close" | ret_close => "ret_close"
  | entry_read => "entry_read" | ret_read => "ret_read"
  | entry_write => "entry_write" | ret_write => "ret_write"
  | entry_recv => "entry_recv" | ret_recv => "ret_recv"
  | entry_send => "entry_send" | ret_send => "ret_send"
  | entry_recvfrom => "entry_recvfrom" | ret_recvfrom => "ret_recvfrom"
  | entry_sendto => "entry_sendto" | ret_sendto => "ret_sendto"
  | entry_readv => "entry_readv" | ret_readv => "ret_readv"
  | entry_writev => "entry_writev" | ret_writev => "ret_writev"
  | entry_recvmsg => "entry_recvmsg" | ret_recvmsg => "ret_recvmsg"
  | entry_sendmsg => "entry_sendmsg" | ret_sendmsg => "ret_sendmsg"
  | entry_recvmmsg => "entry_recvmmsg" | ret_recvmmsg => "ret_recvmmsg"
  | entry_sendmmsg => "entry_sendmmsg" | ret_sendmmsg => "ret_sendmmsg"
  | entry_sendfile => "entry_sendfile" | ret_sendfile => "ret_sendfile"
  | ret_sock_alloc => "ret_sock_alloc"
  | entry_security_socket_sendmsg => "entry_security_socket_sendmsg"
  | entry_security_socket_recvmsg => "entry_security_socket_recvmsg"
  end.

Definition all_probes : list Probe :=
  [entry_accept; ret_accept; entry_accept4; ret_accept4; entry_connect; ret_connect; entry_close;
   ret_close; entry_read; ret_read; entry_write; ret_write; entry_recv; ret_recv; entry_send;
   ret_send; entry_recvfrom; ret_recvfrom; entry_sendto; ret_sendto; entry_readv; ret_readv;
   entry_writev; ret_writev; entry_recvmsg; ret_recvmsg; entry_sendmsg; ret_sendmsg;
   entry_recvmmsg; ret_recvmmsg; entry_sendmmsg; ret_sendmmsg; entry_sendfile; ret_sendfile;
   ret_sock_alloc; entry_security_socket_sendmsg; entry_security_socket_recvmsg].

(** [#[kprobe]] runs on the entry of a function, [#[kretprobe]] on its return. *)
Inductive Phase := Entry | Return.

Global Instance Phase_eq_dec : EqDecision Phase.
Proof. solve_decision. Defined.
Global Instance Probe_eq_dec : EqDecision Probe.
Proof. solve_decision. Defined.

Definition phase (p : Probe) : Phase :=
  match p with
  | ret_accept | ret_accept4 | ret_connect | ret_close | ret_read | ret_write | ret_recv | ret_send
  | ret_recvfrom | ret_sendto | ret_readv | ret_writev | ret_recvmsg | ret_sendmsg | ret_recvmmsg
  | ret_sendmmsg | ret_sendfile | ret_sock_alloc => Return
  | _ => Entry
  end.

(** The function a probe is named after. *)
Definition traced (p : Probe) : string :=
  match p with
  | entry_accept | ret_accept => "__x64_sys_accept"
  | entry_accept4 | ret_accept4 => "__x64_sys_accept4"
  | entry_connect | ret_connect => "__sys_connect"
  | entry_close | ret_close => "__x64_sys_close"
  | entry_read | ret_read => "__x64_sys_read"
  | entry_write | ret_write => "__x64_sys_write"
  | entry_recv | ret_recv => "__x64_sys_recv"
  | entry_send | ret_send => "__x64_sys_send"
  | entry_recvfrom | ret_recvfrom => "__x64_sys_recvfrom"
  | entry_sendto | ret_sendto => "__x64_sys_sendto"
  | entry_readv | ret_readv => "__x64_sys_readv"
  | entry_writev | ret_writev => "__x64_sys_writev"
  | entry_recvmsg | ret_recvmsg => "__x64_sys_recvmsg"
  | entry_sendmsg | ret_sendmsg => "__x64_sys_sendmsg"
  | entry_recvmmsg | ret_recvmmsg => "__x64_sys_recvmmsg"
  | entry_sendmmsg | ret_sendmmsg => "__x64_sys_sendmmsg"
  | entry_sendfile | ret_sendfile => "__x64_sys_sendfile"
  | ret_sock_alloc => "sock_alloc"
  | entry_security_socket_sendmsg => "security_socket_sendmsg"
  | entry_security_socket_recvmsg => "security_socket_recvmsg"
  end.

(** The probes that run at a point of the kernel, in the order of the links. *)
Definition probes_at (lk : list (string * string)) (f : string) (ph : Phase) : list Probe :=
  omap (λ '(name, f'),
    if decide (f' = f) then
      List.find (λ p, bool_decide (probe_name p = name ∧ phase p = ph)) all_probes
    else None) lk.

(** The kernel reaches that point. *)
Definition fire {B : SocketMaps} (k : Kernel) (lk : list (string * string)) (f : string) (ph : Phase)
    (ctx : ProbeContext) (s : Maps) : Maps :=
  foldl (λ s p, (run_probe k p ctx s).2) s (probes_at lk f ph).

(** Where the loaders attach a probe. *)
Definition hooked (p : Probe) : string :=
  if decide (p = entry_security_socket_recvmsg) then "security_socket_sendmsg" else traced p.

(** The probes in the order of the tables. *)
Definition loaded_probes : list Probe :=
  [entry_connect; ret_connect; entry_accept; ret_accept; entry_accept4; ret_accept4; entry_close;
   ret_close; entry_send; ret_send; entry_sendto; ret_sendto; entry_sendmsg; ret_sendmsg;
   entry_sendmmsg; ret_sendmmsg; entry_sendfile; ret_sendfile; entry_security_socket_sendmsg;
   entry_security_socket_recvmsg; entry_recv; ret_recv; entry_recvfrom; ret_recvfrom;
   entry_recvmsg; ret_recvmsg; entry_recvmmsg; ret_recvmmsg; entry_read; ret_read; entry_readv;
   ret_readv; entry_write; ret_write; entry_writev; ret_writev; ret_sock_alloc].

Lemma tables_probes : (ls ← loaders; programs ls) = (λ p, (probe_name p, hooked p)) <$> loaded_probes.
Proof. vm_compute. reflexivity. Qed.

Lemma loaded_probes_all p : p ∈ loaded_probes.
Proof. destruct p; vm_compute; by repeat constructor. Qed.

Lemma loaded_probes_NoDup : NoDup loaded_probes.
Proof. apply (bool_decide_unpack _). vm_compute. exact I. Qed.

Global Instance probe_name_inj : Inj (=) (=) probe_name.
Proof. intros [] []; (reflexivity || (intros H; discriminate H)). Qed.

Section attachment.
Context (aya : Aya).

Lemma main_links_all : Forall (accepted aya) loaders → main_links aya = ls ← loaders; programs ls.
Proof.
  intros Ha. unfold main_links. induction Ha as [|l ls Hl _ IH]; [done|].
  rewrite !bind_cons, IH, links_accepted by done. reflexivity.
Qed.

Lemma elem_of_main_links x :
  x ∈ main_links aya ↔ ∃ l, l ∈ loaders ∧ accepted aya l ∧ x ∈ programs l.
Proof.
  unfold main_links. rewrite list_elem_of_bind. split.
  - intros (l & Hx & Hl). exists l. unfold links in Hx.
    destruct (run aya l []) as [[[]|e] s'] eqn:E; [|by apply not_elem_of_nil in Hx].
    pose proof (run_accepted _ _ _ E) as Ha.
    split_and!; [done|done|]. rewrite <- (links_accepted aya l Ha). unfold links. by rewrite E.
  - intros (l & Hl & Ha & Hx). exists l. by rewrite links_accepted.
Qed.

(** A loader that is refused something leaves none of its probes attached and
    the other loaders alone; when nothing is refused, every probe is attached
    exactly once and to the function it is named after, except that the probe
    for [security_socket_recvmsg] is attached to [security_socket_sendmsg]. *)
Lemma probes_attached :
  (∀ x, x ∈ main_links aya ↔ ∃ l, l ∈ loaders ∧ accepted aya l ∧ x ∈ programs l) ∧
  (Forall (accepted aya) loaders →
     NoDup (main_links aya).*1 ∧
     ∀ p f, (probe_name p, f) ∈ main_links aya ↔
       f = if decide (p = entry_security_socket_recvmsg) then "security_socket_sendmsg"
           else traced p).
Proof.
  split; [apply elem_of_main_links|]. intros Ha. rewrite main_links_all, tables_probes by done. split.
  - rewrite <- list_fmap_compose. apply NoDup_fmap_2; [apply _|apply loaded_probes_NoDup].
  - intros p f. rewrite list_elem_of_fmap. split.
    + intros (q & [= Hq ->] & _). apply probe_name_inj in Hq as ->. done.
    + intros ->. exists p. split; [done|apply loaded_probes_all].
Qed.

Lemma probes_at_single lk f ph p :
  Forall (accepted aya) loaders → lk ≡ₚ main_links aya →
  probes_at (ls ← loaders; programs ls) f ph = [p] → probes_at lk f ph = [p].
Proof.
  intros Ha Hp Hat. rewrite main_links_all in Hp by done.
  assert (probes_at lk f ph ≡ₚ [p]) as Hs.
  { rewrite <- Hat. unfold probes_at. by rewrite Hp. }
  by apply Permutation_singleton_r in Hs.
Qed.

Lemma probes_at_none lk f ph :
  Forall (accepted aya) loaders → lk ≡ₚ main_links aya →
  probes_at (ls ← loaders; programs ls) f ph = [] → probes_at lk f ph = [].
Proof.
  intros Ha Hp Hat. rewrite main_links_all in Hp by done.
  assert (probes_at lk f ph ≡ₚ []) as Hs.
  { rewrite <- Hat. unfold probes_at. by rewrite Hp. }
  by apply Permutation_nil_r in Hs.
Qed.
End attachment.

(** ** A read on a socket *)

Section reads_on_sockets.
Context {B : SocketMaps} {BL : SocketMapsLaws B}.

Definition only_read_map (s s' : Maps) : Prop := ∃ m, s' = set_ACTIVE_READ_MAP m s.

Lemma only_read_map_refl s : only_read_map s s.
Proof. exists (ACTIVE_READ_MAP s). by destruct s. Qed.

(** The thread has no arguments in the map, or arguments of a call that is not
    known to be on a socket. *)
Definition not_on_socket (k : Kernel) (s : Maps) : Prop :=
  ∀ args, ACTIVE_READ_MAP s !! current_pid_tgid k = Some args → sock_event args = AFalse.

Lemma read_insert_quiet k args s :
  sock_event args = AFalse → not_on_socket k s →
  let s' := state_of (read_insert (current_pid_tgid k) args) s in
  only_read_map s s' ∧ not_on_socket k s'.
Proof.
  intros Ha Hn. unfold state_of, read_insert, map_insert_op.
  destruct (bpf_update (ACTIVE_READ_MAP s) _ _) as [m|e] eqn:Hu; simpl.
  - split; [by exists m|]. apply hash_update_ok in Hu as ->. intros args'. simpl.
    rewrite lookup_insert_eq. by intros [= <-].
  - split; [apply only_read_map_refl|done].
Qed.

Lemma read_remove_quiet key s : only_read_map s (state_of (read_remove key) s).
Proof.
  unfold state_of, read_remove, map_remove_op. destruct (bpf_delete _ _) as [m|e]; simpl;
    [by exists m|apply only_read_map_refl].
Qed.

Lemma entry_read_quiet k ctx s :
  not_on_socket k s →
  let s' := state_of (try_entry_read k ctx) s in only_read_map s s' ∧ not_on_socket k s'.
Proof.
  intros Hn. unfold try_entry_read, state_of, mbind, M_bind, lift.
  destruct (arg_i32 ctx 0) as [fd|e]; simpl; [|split; [apply only_read_map_refl|done]].
  destruct (arg_u64 ctx 1) as [b|e]; simpl; [|split; [apply only_read_map_refl|done]].
  pose proof (read_insert_quiet k (buf_args SyscallRead fd b) s eq_refl Hn) as H. unfold state_of in H.
  destruct (read_insert _ _ _) as [[[]|e] s']; done.
Qed.

Lemma ret_read_quiet k ctx s : not_on_socket k s → only_read_map s (state_of (try_ret_read k ctx) s).
Proof.
  intros Hn. unfold try_ret_read, read_get, state_of, mbind, M_bind, lift, gets.
  destruct (ret_i64 ctx) as [n|e]; simpl; [|apply only_read_map_refl].
  destruct (ACTIVE_READ_MAP s !! current_pid_tgid k) as [args|] eqn:Ha; simpl; [|apply only_read_map_refl].
  rewrite (Hn _ Ha). simpl. unfold mret, M_ret.
  pose proof (read_remove_quiet (current_pid_tgid k) s) as H. unfold state_of in H.
  destruct (read_remove _ s) as [[[]|e] s']; done.
Qed.

Lemma entry_readv_quiet k ctx s :
  not_on_socket k s →
  let s' := state_of (try_entry_readv k ctx) s in only_read_map s s' ∧ not_on_socket k s'.
Proof.
  intros Hn. unfold try_entry_readv, state_of, mbind, M_bind, lift.
  destruct (arg_i32 ctx 0) as [fd|e]; simpl; [|split; [apply only_read_map_refl|done]].
  destruct (arg_u64 ctx 1) as [v|e]; simpl; [|split; [apply only_read_map_refl|done]].
  destruct (arg_u64 ctx 2) as [n|e]; simpl; [|split; [apply only_read_map_refl|done]].
  pose proof (read_insert_quiet k (vec_args SyscallReadV AFalse fd v n 0) s eq_refl Hn) as H.
  unfold state_of in H. destruct (read_insert _ _ _) as [[[]|e] s']; done.
Qed.

Lemma ret_readv_quiet k ctx s : not_on_socket k s → only_read_map s (state_of (try_ret_readv k ctx) s).
Proof.
  intros Hn. unfold try_ret_readv, read_get, state_of, mbind, M_bind, lift, gets.
  destruct (ret_i64 ctx) as [n|e]; simpl; [|apply only_read_map_refl].
  destruct (ACTIVE_READ_MAP s !! current_pid_tgid k) as [args|] eqn:Ha; simpl; [|apply only_read_map_refl].
  rewrite (Hn _ Ha). simpl. unfold mret, M_ret.
  pose proof (read_remove_quiet (current_pid_tgid k) s) as H. unfold state_of in H.
  destruct (read_remove _ s) as [[[]|e] s']; done.
Qed.

Lemma fire_single k lk f ph p ctx s :
  probes_at lk f ph = [p] → fire k lk f ph ctx s = state_of (try_probe k p ctx) s.
Proof. intros Hp. unfold fire. rewrite Hp. cbn [foldl]. apply run_probe_state. Qed.

(** C33: with the probes attached as the loaders attach them, a [read] or [readv]
    on a socket is never traced: the kernel passes [security_socket_recvmsg]
    without a probe that marks the call as one on a socket, so the return probe
    drops the arguments of the call and records and sends nothing. *)
Theorem socket_read_untraced aya lk k1 k2 k3 c1 c2 c3 s f :
  Forall (accepted aya) loaders → lk ≡ₚ main_links aya →
  f = "__x64_sys_read" ∨ f = "__x64_sys_readv" →
  current_pid_tgid k3 = current_pid_tgid k1 →
  ACTIVE_READ_MAP s !! current_pid_tgid k1 = None →
  let s1 := fire k1 lk f Entry c1 s in
  let s2 := fire k2 lk "security_socket_recvmsg" Entry c2 s1 in
  let s3 := fire k3 lk f Return c3 s2 in
  ∃ m, s3 = set_ACTIVE_READ_MAP m s.
Proof.
  intros Ha Hlk Hf Hpid Hnone s1 s2 s3.
  assert (s2 = s1) as Hs2.
  { unfold s2, fire. rewrite (probes_at_none aya) by (done || vm_compute; reflexivity). done. }
  assert (not_on_socket k1 s) as Hn by (intros args; by rewrite Hnone).
  assert (only_read_map s s1 ∧ not_on_socket k3 s1) as [[m1 Hs1] Hn1].
  { unfold not_on_socket. rewrite Hpid. unfold s1. destruct Hf as [-> | ->].
    - rewrite (fire_single _ _ _ _ entry_read) by (apply (probes_at_single aya); [done..|vm_compute; reflexivity]).
      by apply entry_read_quiet.
    - rewrite (fire_single _ _ _ _ entry_readv) by (apply (probes_at_single aya); [done..|vm_compute; reflexivity]).
      by apply entry_readv_quiet. }
  assert (only_read_map s1 s3) as [m3 Hs3].
  { unfold s3. rewrite Hs2. destruct Hf as [-> | ->].
    - rewrite (fire_single _ _ _ _ ret_read) by (apply (probes_at_single aya); [done..|vm_compute; reflexivity]).
      by apply ret_read_quiet.
    - rewrite (fire_single _ _ _ _ ret_readv) by (apply (probes_at_single aya); [done..|vm_compute; reflexivity]).
      by apply ret_readv_quiet. }
  exists m3. rewrite Hs3, Hs1. done.
Qed.
End reads_on_sockets.

(** ** Reading the perf buffers *)

(** What [process_perf_events] does with a buffer: read a [T] from its pointer on and
    hand it to the handler.  There is no look at the length of the sample in the
    buffer: what is read is the memory at the pointer, the sample and whatever lies
    behind it.  [memory] is that memory as far as it can be read; if it ends before
    the [T] does, the program faults. *)
Inductive Access (T : Type) := Value (x : T) | Fault | Invalid.
Arguments Value {T} x.
Arguments Fault {T}.
Arguments Invalid {T}.

Definition read_unaligned {T} (size : Z) (get : reader T) (memory : list Z) : Access T :=
  if decide (Z.of_nat (length memory) < size) then Fault
  else match get memory with Some (x, _) => Value x | None => Invalid end.

(** What is logged. *)
Inductive Log :=
  | LogControl (id : ConnId)
  | LogStats (id : ConnId)
  | LogData (id : ConnId) (source : SourceFunction) (text : list Z).

Definition handle_control (e : SocketControlEvent) : Log := LogControl (ce_id e).
Definition handle_stats (e : ConnStatsEvent) : Log := LogStats (cs_id e).
Definition handle_data (e : SocketDataEvent) : Log :=
  LogData (de_id (inner e)) (de_source_function (inner e)) (take 48 (msg e)).

(** One turn of the loop of a CPU's task: [read_events] has filled the first [read]
    buffers; [buffers] is the memory at the pointers of all of them.  The result is
    what is logged and how the turn ends: [Err (Some w)] is a panic, [Err None] a
    fault or a value that is no [T]. *)
Fixpoint handle_samples {T} (size : Z) (get : reader T) (handler : T → Log)
    (buffers : list (list Z)) (todo i : nat) : list Log * result (option string) unit :=
  match todo with
  | O => ([], Ok ())
  | S todo' =>
      match buffers !! i with
      | None => ([], Err (Some "index out of bounds"))
      | Some b =>
          match read_unaligned size get b with
          | Value e =>
              let '(logs, end_) := handle_samples size get handler buffers todo' (S i) in
              (handler e :: logs, end_)
          | _ => ([], Err None)
          end
      end
  end.

(** The task of a CPU over the answers of [read_events] so far: what it has
    logged, and why it does not go on. *)
Fixpoint perf_task {T} (size : Z) (get : reader T) (handler : T → Log)
    (turns : list (result Error (list (list Z) * nat))) : list Log * result (option string) unit :=
  match turns with
  | [] => ([], Ok ())
  | Err _ :: _ => ([], Err (Some "called `Result::unwrap()` on an `Err` value"))
  | Ok (buffers, read) :: rest =>
      match handle_samples size get handler buffers read 0 with
      | (logs, Ok _) =>
          let '(logs', end_) := perf_task size get handler rest in (logs ++ logs', end_)
      | (logs, Err w) => (logs, Err w)
      end
  end.

(** The kernel hands over the bytes of an event and fewer than 8 bytes more; whatever
    memory lies behind a sample can be part of [extra]. *)
Definition sample (bytes extra : list Z) : list Z := bytes ++ extra.

Lemma read_unaligned_reads {T} size (get : reader T) bytes extra x :
  length bytes = Z.to_nat size → reads get bytes x →
  read_unaligned size get (sample bytes extra) = Value x.
Proof.
  intros Hl Hr. unfold read_unaligned, sample. rewrite length_app, decide_False by lia. by rewrite Hr.
Qed.

Lemma handle_samples_all {T} size (get : reader T) handler (evs : list T) samples rest n :
  Forall2 (λ e b, read_unaligned size get b = Value e) evs samples →
  ∀ before, length before = n →
  handle_samples size get handler (before ++ samples ++ rest) (length evs) n = (handler <$> evs, Ok ()).
Proof.
  intros Hall. revert n. induction Hall as [|e b evs samples Hb _ IH]; intros n before Hn; [done|].
  cbn [handle_samples length]. rewrite lookup_app_r, Hn, Nat.sub_diag by lia. cbn [app lookup list_lookup].
  rewrite Hb. specialize (IH (S n) (before ++ [b])). rewrite <- app_assoc in IH. simpl in IH.
  rewrite IH by (rewrite length_app; simpl; lia). done.
Qed.

(** ** Start-up of [main] *)

(** What the system answers: the CPUs, what is pinned under [BPF_MAP_PATH] when
    [main] looks, and the opening of a CPU's buffer. *)
Record PerfEnv := {
  online_cpus : result Error (list Z);
  pinned : string → bool;
  open_buffer : string → Z → result Error unit }.

Definition BPF_MAP_PATH : string := "/sys/fs/bpf".

(** [{:?}] of a path without characters to escape: the path in double quotes. *)
Definition path_debug (path : string) : string := String "034"%char (path +:+ String "034"%char "").

(** [process_perf_events] up to its return: one task is spawned for every CPU
    whose buffer is opened.  The conversions of the map in between cannot fail,
    as it was built as a [PerfEventArray]. *)
Fixpoint open_buffers (env : PerfEnv) (path : string) (cpus : list Z) : M (list (string * Z)) Error unit :=
  match cpus with
  | [] => mret ()
  | cpu :: rest =>
      lift (open_buffer env path cpu);;
      modify (λ tasks, tasks ++ [(path, cpu)]);;
      open_buffers env path rest
  end.
Definition process_perf_events (env : PerfEnv) (map_path : string) : M (list (string * Z)) Error unit :=
  cpus ← lift (online_cpus env);
  if pinned env map_path then open_buffers env map_path cpus
  else throw (Msg ("No maps named " +:+ path_debug map_path)).

(** [main] between the spawning of the loaders and the wait for Ctrl-C. *)
Definition main_start (env : PerfEnv) : M (list (string * Z)) Error unit :=
  process_perf_events env (BPF_MAP_PATH +:+ "/sk_ctrl_events");;
  process_perf_events env (BPF_MAP_PATH +:+ "/conn_stat_events");;
  process_perf_events env (BPF_MAP_PATH +:+ "/sk_data_events").

Lemma open_buffers_all env path cpus tasks :
  (∀ cpu, cpu ∈ cpus → open_buffer env path cpu = Ok ()) →
  open_buffers env path cpus tasks = (Ok (), tasks ++ ((path,.) <$> cpus)).
Proof.
  revert tasks. induction cpus as [|cpu cpus IH]; intros tasks Hall.
  { simpl. by rewrite app_nil_r. }
  cbn [open_buffers]. unfold mbind, M_bind, lift, modify. rewrite (Hall cpu) by constructor.
  rewrite IH; [|intros c Hc; apply Hall; by constructor]. by rewrite <- app_assoc.
Qed.

(** The three buffers of every CPU have a task when [main] starts to wait. *)
Lemma main_start_tasks env cpus :
  online_cpus env = Ok cpus → (∀ path, pinned env path = true) →
  (∀ path cpu, open_buffer env path cpu = Ok ()) →
  main_start env [] =
    (Ok (), ((BPF_MAP_PATH +:+ "/sk_ctrl_events",.) <$> cpus) ++
            ((BPF_MAP_PATH +:+ "/conn_stat_events",.) <$> cpus) ++
            ((BPF_MAP_PATH +:+ "/sk_data_events",.) <$> cpus)).
Proof.
  intros Hc Hp Ho. unfold main_start, process_perf_events, mbind, M_bind, lift.
  rewrite Hc, !Hp, !open_buffers_all by auto. by rewrite <- app_assoc.
Qed.

(** The loaders pin the maps, and [main] does not wait for them: when none of
    them has got that far, the program ends with an error. *)
Lemma main_start_before_loaders env cpus :
  online_cpus env = Ok cpus → (∀ path, pinned env path = false) →
  main_start env [] = (Err (Msg ("No maps named " +:+ path_debug (BPF_MAP_PATH +:+ "/sk_ctrl_events"))), []).
Proof. intros Hc Hp. unfold main_start, process_perf_events, mbind, M_bind, lift. by rewrite Hc, Hp. Qed.

(** ** What is logged *)

(** What [read_events] answers for control events followed by unused buffers. *)
Definition control_turn (t : list (SocketControlEvent * list Z) * list (list Z)) :
    result Error (list (list Z) * nat) :=
  Ok (((λ '(e, extra), sample (put_control e) extra) <$> t.1) ++ t.2, length t.1).

(** Every control event the probes send is logged with its connection, once
    and in order, in whatever batches the samples arrive. *)
Lemma control_events_logged turns :
  Forall (λ t, Forall (λ p, control_typed p.1) t.1) turns →
  perf_task SIZE_OF_CONTROL get_control handle_control (control_turn <$> turns) =
  ((λ p, LogControl (ce_id p.1)) <$> (turns ≫= fst), Ok ()).
Proof.
  intros Hall. induction Hall as [|[evs unused] turns Ht _ IH]; [done|].
  rewrite fmap_cons, bind_cons, fmap_app. cbn [perf_task control_turn fst snd]. rewrite IH.
  simpl in Ht.
  assert (Forall2 (λ e b, read_unaligned SIZE_OF_CONTROL get_control b = Value e) evs.*1
            ((λ '(e, extra), sample (put_control e) extra) <$> evs)) as H2.
  { rewrite Forall2_fmap. apply Forall_Forall2_diag. eapply Forall_impl; [exact Ht|].
    intros [e extra] He. apply read_unaligned_reads; [by apply put_control_length|by apply reads_control]. }
  pose proof (handle_samples_all _ _ handle_control _ _ unused 0 H2 [] eq_refl) as Hs.
  rewrite length_fmap in Hs. cbn [app] in Hs. rewrite Hs. by rewrite <- list_fmap_compose.
Qed.

(** ** Witnesses *)

(** An aya that refuses nothing. *)
Definition ex_aya : Aya := {|
  load_object := λ _, Ok (probe_name <$> all_probes);
  program_load := λ _ _, Ok (); program_attach := λ _ _ _, Ok () |}.

Lemma ex_aya_accepts : Forall (accepted ex_aya) loaders.
Proof.
  apply Forall_forall. intros l Hl. exists (probe_name <$> all_probes). split; [done|].
  assert (Forall (λ p, p.1 ∈ probe_name <$> all_probes) (ls ← loaders; programs ls)) as H.
  { rewrite tables_probes. apply Forall_fmap, Forall_forall. intros p _.
    change (probe_name p ∈ probe_name <$> all_probes).
    apply list_elem_of_fmap_2. destruct p; vm_compute; by repeat constructor. }
  rewrite Forall_forall in H. apply Forall_forall. intros p Hp. split_and!; [|done|done].
  apply H, list_elem_of_bind. eauto.
Qed.

Lemma probes_attached_witness :
  (probe_name entry_security_socket_recvmsg, "security_socket_sendmsg") ∈ main_links ex_aya.
Proof.
  apply (proj2 (proj2 (probes_attached ex_aya) ex_aya_accepts)). vm_compute. reflexivity.
Defined.

(** A read of 100 bytes on descriptor 7, with the given links. *)
Definition ex_read (lk : list (string * string)) : Maps :=
  let fire := fire (B := ex_smaps) ex_sk_kernel lk in
  fire "__x64_sys_read" Return (ex_ctx 100)
    (fire "security_socket_recvmsg" Entry (ex_ctx 0)
       (fire "__x64_sys_read" Entry (ex_ctx 0) ex_started)).

(** The links with the probe of [security_socket_recvmsg] where its name says. *)
Definition ex_named_links : list (string * string) := (λ p, (probe_name p, traced p)) <$> loaded_probes.

Lemma socket_read_untraced_witness :
  (∃ m, ex_read (main_links ex_aya) = set_ACTIVE_READ_MAP m ex_started) ∧
  length (SOCKET_DATA_EVENTS (ex_read ex_named_links)) = 1%nat.
Proof.
  split; [|vm_compute; reflexivity].
  apply (socket_read_untraced (B := ex_smaps) (BL := bounded_maps_laws 1024) ex_aya (main_links ex_aya)
           ex_sk_kernel ex_sk_kernel ex_sk_kernel (ex_ctx 0) (ex_ctx 0) (ex_ctx 100) ex_started
           "__x64_sys_read").
  - exact ex_aya_accepts.
  - reflexivity.
  - left. reflexivity.
  - reflexivity.
  - reflexivity.
Defined.

(** The control event of an accept, and a buffer for data events. *)
Definition ex_control : SocketControlEvent :=
  control_event (with_id {| uid := {| tgid := 5; start_time_ticks := 7 |}; id_fd := 8; tsid := 1000 |}
                   ConnInfo_default) Open SyscallAccept 1001 0 0.

Lemma control_events_logged_witness :
  perf_task SIZE_OF_CONTROL get_control handle_control
    (control_turn <$> [([(ex_control, [0; 0; 0; 0])], [[]]); ([(ex_control, [])], [])]) =
  ([LogControl (ce_id ex_control); LogControl (ce_id ex_control)], Ok ()).
Proof.
  apply (control_events_logged [([(ex_control, [0; 0; 0; 0])], [[]]); ([(ex_control, [])], [])]).
  repeat constructor; vm_compute; congruence.
Defined.

Definition ex_full : Maps :=
  set_SOCKET_DATA_EVENT_BUFFER
    (Some {| inner := ex_inner; msg := replicate (Z.to_nat MAX_MSG_SIZE) 0 |}) ex_started.
Lemma ex_full_started : started ex_full.
Proof. split_and!; [reflexivity..|]. intros e He. injection He as <-. reflexivity. Qed.
