(* ===== verification/PerfStream.v ===== *)
(** * socket-tracer: from the probes to the log

    The probes of [socket-tracer-ebpf] write their events to three perf event
    arrays, each with a ring per CPU; [process_perf_events] of
    [socket-tracer/src/main.rs] opens the rings and spawns for each a task that
    takes samples in batches and logs them.  Probes, rings and tasks run at the
    same time: here they are the steps of one transition system.  The kernel drops
    a sample that does not fit into its ring, and may drop any other; nobody
    notices, since the probes ignore the result of the output and the tasks the
    count of lost samples.

    The theorems say what reaches the log: the events that the rings kept, each
    once and in order, and each as it was sent as long as the sample is as long as
    the structure that is read from it.  A data event that was sent without the
    unused end of its buffer is read past the end of its sample, with whatever
    memory lies behind it: the identity is right, the text is the event's only up
    to the bytes that were sent. *)
From S2P Require Import Prelude RustStd Bpf SocketData SocketTracer SocketProbes SocketProps SocketLayout SocketTyped SocketUser.
From stdpp Require Import base gmap strings list relations.
From Stdlib Require Import ZArith Lia.

Local Open Scope Z_scope.

(** ** Events, bytes and samples *)

Inductive Arr := SkCtrlEvents | ConnStatEvents | SkDataEvents.
Global Instance Arr_eq_dec : EqDecision Arr.
Proof. solve_decision. Defined.

Inductive Sent :=
  | SControl (e : SocketControlEvent)
  | SStats (e : ConnStatsEvent)
  | SData (e : SocketDataEvent) (size : Z).

(** What the probes have written to an array, in order. *)
Definition sent_on (a : Arr) (s : Maps) : list Sent :=
  match a with
  | SkCtrlEvents => SControl <$> SOCKET_CONTROL_EVENTS s
  | ConnStatEvents => SStats <$> CONN_STATS_EVENTS s
  | SkDataEvents => (λ p, SData p.1 p.2) <$> SOCKET_DATA_EVENTS s
  end.

(** The bytes that an output copies, with any padding. *)
Definition wire (ev : Sent) (b : list Z) : Prop :=
  match ev with
  | SControl e => b = put_control e
  | SStats e => ∃ pad, length pad = 4%nat ∧ b = put_stats pad e
  | SData e n => ∃ pad, length pad = 7%nat ∧ b = take (Z.to_nat n) (put_data pad e)
  end.

(** A sample: those bytes and fewer than 8 more. *)
Definition sampled (ev : Sent) (b : list Z) : Prop :=
  ∃ bytes extra, wire ev bytes ∧ (length extra < 8)%nat ∧ b = sample bytes extra.

(** What a sample takes of a ring: a header, the length and the bytes. *)
Definition record_size (b : list Z) : Z := 12 + Z.of_nat (length b).
Definition used (ring : list (list Z)) : Z := foldr Z.add 0 (record_size <$> ring).

(** What the handler of the array logs of an event. *)
Definition log_of (ev : Sent) : Log :=
  match ev with
  | SControl e => handle_control e
  | SStats e => handle_stats e
  | SData e _ => handle_data e
  end.

(** The loop body of the task of an array, on the memory at the pointers of the buffers
    [read_events] filled. *)
Definition handle_batch (a : Arr) (buffers : list (list Z)) (read : nat) :
    list Log * result (option string) unit :=
  match a with
  | SkCtrlEvents => handle_samples SIZE_OF_CONTROL get_control handle_control buffers read 0
  | ConnStatEvents => handle_samples SIZE_OF_STATS get_stats handle_stats buffers read 0
  | SkDataEvents => handle_samples SIZE_OF_DATA get_data handle_data buffers read 0
  end.

(** ** Channels

    One ring with its task.  [Stopped (Some w)] is a task that panicked with [w],
    [Stopped None] one that faulted in a read past the end of its memory.  [ch_sent], [ch_kept]
    and [ch_lost] are the history of the channel: what the probes wrote on this
    CPU, what the ring took of it and how many events were dropped;
    [ch_transit] is what a probe has still to write. *)
Inductive TaskState := NotOpen | Reading | Stopped (why : option string).

Record Channel := {
  ch_sent : list Sent; ch_transit : list Sent; ch_kept : list Sent; ch_lost : nat;
  ch_ring : list (list Z); ch_log : list Log; ch_state : TaskState }.

Definition Channel_new : Channel := {|
  ch_sent := []; ch_transit := []; ch_kept := []; ch_lost := 0; ch_ring := []; ch_log := [];
  ch_state := NotOpen |}.

Definition write_all (evs : list Sent) (ch : Channel) : Channel := {|
  ch_sent := ch_sent ch ++ evs; ch_transit := ch_transit ch ++ evs; ch_kept := ch_kept ch;
  ch_lost := ch_lost ch; ch_ring := ch_ring ch; ch_log := ch_log ch; ch_state := ch_state ch |}.
Definition keep_first (ev : Sent) (rest : list Sent) (b : list Z) (ch : Channel) : Channel := {|
  ch_sent := ch_sent ch; ch_transit := rest; ch_kept := ch_kept ch ++ [ev]; ch_lost := ch_lost ch;
  ch_ring := ch_ring ch ++ [b]; ch_log := ch_log ch; ch_state := ch_state ch |}.
Definition drop_first (rest : list Sent) (ch : Channel) : Channel := {|
  ch_sent := ch_sent ch; ch_transit := rest; ch_kept := ch_kept ch; ch_lost := S (ch_lost ch);
  ch_ring := ch_ring ch; ch_log := ch_log ch; ch_state := ch_state ch |}.
Definition set_state (st : TaskState) (ch : Channel) : Channel := {|
  ch_sent := ch_sent ch; ch_transit := ch_transit ch; ch_kept := ch_kept ch; ch_lost := ch_lost ch;
  ch_ring := ch_ring ch; ch_log := ch_log ch; ch_state := st |}.

(** One turn of the task's loop: [read_events] has moved samples from the ring to the
    first buffers, [mems] is the memory at the pointers of these and [rest] what stays
    in the ring.  Everything logged up to the end of the turn stays logged. *)
Definition task_turn (a : Arr) (mems rest unused : list (list Z)) (ch : Channel) : Channel :=
  let '(logs, end_) := handle_batch a (mems ++ unused) (length mems) in {|
    ch_sent := ch_sent ch; ch_transit := ch_transit ch; ch_kept := ch_kept ch; ch_lost := ch_lost ch;
    ch_ring := rest; ch_log := ch_log ch ++ logs;
    ch_state := match end_ with Ok _ => ch_state ch | Err why => Stopped why end |}.

Section stream.
(** The bytes of a ring, and the CPUs, as many as a task has buffers. *)
Context (capacity : Z) (cpus : list Z).

Inductive chstep (a : Arr) : Channel → Channel → Prop :=
  (** [bpf_perf_event_output] puts the sample into the ring *)
  | ch_keep ev rest b ch : ch_transit ch = ev :: rest → ch_state ch ≠ NotOpen → sampled ev b →
      used (ch_ring ch) + record_size b ≤ capacity → chstep a ch (keep_first ev rest b ch)
  (** or fails, for want of room or of a ring *)
  | ch_lose ev rest ch : ch_transit ch = ev :: rest → chstep a ch (drop_first rest ch)
  (** [events.open(cpu, None)?] and [tokio::spawn] *)
  | ch_open ch : ch_state ch = NotOpen → chstep a ch (set_state Reading ch)
  (** [buf.read_events(&mut buffers).await] and the loop over the samples: each sample
      is at the start of its buffer, with any memory behind it *)
  | ch_read batch mems rest unused ch : ch_state ch = Reading → ch_ring ch = batch ++ rest →
      Forall2 prefix batch mems → length (mems ++ unused) = length cpus →
      chstep a ch (task_turn a mems rest unused ch)
  (** an error of [read_events] is unwrapped *)
  | ch_error ch : ch_state ch = Reading →
      chstep a ch (set_state (Stopped (Some "called `Result::unwrap()` on an `Err` value")) ch).

(** ** The whole tracer *)

Record Stream := { x_maps : Maps; x_chan : Arr → Z → Channel }.

Definition upd (a : Arr) (c : Z) (ch : Channel) (f : Arr → Z → Channel) : Arr → Z → Channel :=
  λ a' c', if decide (a' = a ∧ c' = c) then ch else f a' c'.

(** What a step of the probes has added to an array. *)
Definition new_on (a : Arr) (s s' : Maps) : list Sent := drop (length (sent_on a s)) (sent_on a s').

Definition Stream_start (s : Maps) : Stream := {| x_maps := s; x_chan := λ _ _, Channel_new |}.

Inductive pstep {B : SocketMaps} : Stream → Stream → Prop :=
  | p_probe c k p ctx x : c ∈ cpus → kernel_typed k →
      let s' := (run_probe k p ctx (x_maps x)).2 in
      pstep x {| x_maps := s';
                 x_chan := λ a' c', if decide (c' = c) then write_all (new_on a' (x_maps x) s') (x_chan x a' c')
                                    else x_chan x a' c' |}
  | p_control cm cv cd x :
      pstep x {| x_maps := set_controls cm cv cd (x_maps x); x_chan := x_chan x |}
  | p_channel a c ch x : chstep a (x_chan x a c) ch →
      pstep x {| x_maps := x_maps x; x_chan := upd a c ch (x_chan x) |}.
End stream.

(** ** Decoding *)

(** An event on its array, with fields of their types. *)
Definition sent_typed (a : Arr) (ev : Sent) : Prop :=
  match a, ev with
  | SkCtrlEvents, SControl e => control_typed e
  | ConnStatEvents, SStats e => stats_typed e
  | SkDataEvents, SData e n => data_typed e ∧ SIZE_OF_INNER ≤ n ≤ SIZE_OF_DATA
  | _, _ => False
  end.

(** The whole structure was sent, or at least 8 bytes of it were not. *)
Definition whole (ev : Sent) : Prop := match ev with SData _ n => n = SIZE_OF_DATA | _ => True end.
Definition short (ev : Sent) : Prop := match ev with SData _ n => n + 8 ≤ SIZE_OF_DATA | _ => False end.

Definition wire_size (ev : Sent) : Z :=
  match ev with SControl _ => SIZE_OF_CONTROL | SStats _ => SIZE_OF_STATS | SData _ n => n end.

Lemma wire_length a ev b : sent_typed a ev → wire ev b → Z.of_nat (length b) = wire_size ev.
Proof.
  destruct a, ev as [e|e|e n]; simpl; try done.
  - intros He ->. rewrite put_control_length by done. done.
  - intros He (pad & Hp & ->). rewrite put_stats_length by done. done.
  - intros [He Hn] (pad & Hp & ->). rewrite length_take, put_data_length by done.
    unfold SIZE_OF_INNER, SIZE_OF_DATA, SIZE_OF_INNER, MAX_MSG_SIZE in *. lia.
Qed.

Lemma sampled_length a ev b : sent_typed a ev → sampled ev b →
  wire_size ev ≤ Z.of_nat (length b) < wire_size ev + 8.
Proof.
  intros Ht (bytes & extra & Hw & Hx & ->). apply (wire_length a) in Hw; [|done].
  unfold sample. rewrite length_app. lia.
Qed.

Lemma record_size_pos b : 0 < record_size b.
Proof. unfold record_size. lia. Qed.
Lemma used_nonneg r : 0 ≤ used r.
Proof. induction r as [|b r IH]; [done|]. change (0 ≤ record_size b + used r). pose proof (record_size_pos b). lia. Qed.

(** The memory at the pointer of a buffer that holds the sample of an event. *)
Definition laid (ev : Sent) (mem : list Z) : Prop :=
  ∃ bytes behind, wire ev bytes ∧ mem = sample bytes behind.

Lemma sampled_laid ev b mem : sampled ev b → b `prefix_of` mem → laid ev mem.
Proof.
  intros (bytes & extra & Hw & _ & ->) [more ->]. exists bytes, (extra ++ more). split; [done|].
  unfold sample. by rewrite app_assoc.
Qed.

(** What is logged of an event when its sample is read: of a data event, the identity
    and the start of the text, as far as it was sent; then what lies behind. *)
Definition shown (ev : Sent) (l : Log) : Prop :=
  match ev with
  | SData e n => (∃ behind, l = LogData (de_id (inner e)) (de_source_function (inner e))
        (take 48 (take (Z.to_nat (n - SIZE_OF_INNER)) (msg e) ++ behind))) ∧
      (SIZE_OF_INNER + 48 ≤ n → l = log_of ev)
  | _ => l = log_of ev
  end.

(** The sample of a whole event is read back as the event. *)
Lemma control_read e mem : control_typed e → laid (SControl e) mem →
  read_unaligned SIZE_OF_CONTROL get_control mem = Value e.
Proof.
  intros He (bytes & behind & -> & ->).
  apply read_unaligned_reads; [by apply put_control_length|by apply reads_control].
Qed.
Lemma stats_read e mem : stats_typed e → laid (SStats e) mem →
  read_unaligned SIZE_OF_STATS get_stats mem = Value e.
Proof.
  intros He (bytes & behind & (pad & Hp & ->) & ->).
  apply read_unaligned_reads; [by apply put_stats_length|by apply reads_stats].
Qed.
Lemma data_read e mem : data_typed e → laid (SData e SIZE_OF_DATA) mem →
  read_unaligned SIZE_OF_DATA get_data mem = Value e.
Proof.
  intros He (bytes & behind & (pad & Hp & ->) & ->). pose proof (put_data_length pad e Hp He) as Hl.
  rewrite take_ge by lia. apply read_unaligned_reads; [done|by apply reads_data].
Qed.

(** A data event of any length: the memory, if there is enough of it, is read as an
    event with the right description and the text that is there. *)
Lemma data_memory e n mem : data_typed e → SIZE_OF_INNER ≤ n ≤ SIZE_OF_DATA → laid (SData e n) mem →
  ∃ pad behind, length pad = 7%nat ∧
    mem = put_inner pad (inner e) ++ take (Z.to_nat (n - SIZE_OF_INNER)) (msg e) ++ behind.
Proof.
  intros [He Hm] Hn (bytes & behind & (pad & Hp & ->) & ->). exists pad, behind. split; [done|].
  unfold sample, put_data. pose proof (put_inner_length pad (inner e) Hp) as Hl.
  rewrite take_app, (take_ge (put_inner _ _)), <- app_assoc by lia. rewrite Hl. do 2 f_equal. rewrite Z2Nat.inj_sub; [done|by vm_compute].
Qed.

Lemma data_read_past e n mem : data_typed e → SIZE_OF_INNER ≤ n ≤ SIZE_OF_DATA → laid (SData e n) mem →
  SIZE_OF_DATA ≤ Z.of_nat (length mem) →
  read_unaligned SIZE_OF_DATA get_data mem =
    Value {| inner := inner e; msg := take (Z.to_nat MAX_MSG_SIZE) (drop (Z.to_nat SIZE_OF_INNER) mem) |}.
Proof.
  intros He Hn Hl Hlen. destruct (data_memory e n mem He Hn Hl) as (pad & behind & Hp & ->).
  pose proof (put_inner_length pad (inner e) Hp) as Hli.
  unfold read_unaligned. rewrite decide_False by lia. unfold get_data, mbind, reader_bind.
  rewrite (reads_inner pad (inner e) Hp (proj1 He)). rewrite drop_app_length' by lia.
  unfold get_bytes. rewrite length_app, Hli in Hlen. rewrite decide_True; [done|].
  set (text := take _ _ ++ behind) in *. assert (0 ≤ SIZE_OF_INNER) by done. unfold SIZE_OF_DATA in Hlen. lia.
Qed.

Lemma data_shown e n mem : data_typed e → SIZE_OF_INNER ≤ n ≤ SIZE_OF_DATA → laid (SData e n) mem →
  shown (SData e n) (LogData (de_id (inner e)) (de_source_function (inner e))
                       (take 48 (drop (Z.to_nat SIZE_OF_INNER) mem))).
Proof.
  intros He Hn Hl. destruct (data_memory e n mem He Hn Hl) as (pad & behind & Hp & ->).
  rewrite drop_app_length' by (by rewrite (put_inner_length pad (inner e) Hp)).
  split; [by exists behind|]. intros H48. unfold log_of, handle_data. f_equal.
  rewrite take_app_le; [by rewrite take_take, Nat.min_l by lia|].
  rewrite length_take. destruct He as [_ Hm]. unfold SIZE_OF_DATA, MAX_MSG_SIZE in *. lia.
Qed.

Lemma samples_decoded {T} (C : T → Sent) size (get : reader T) handler evs mems unused :
  (∀ ev b, ev ∈ evs → laid ev b → ∃ e, ev = C e ∧ read_unaligned size get b = Value e) →
  (∀ e, log_of (C e) = handler e) → Forall2 laid evs mems →
  handle_samples size get handler (mems ++ unused) (length mems) 0 = (log_of <$> evs, Ok ()).
Proof.
  intros Hdec Hlog Hs.
  assert (∃ es, evs = C <$> es ∧ Forall2 (λ e b, read_unaligned size get b = Value e) es mems) as (es & -> & He).
  { induction Hs as [|ev b evs mems Hb _ IH]; [by exists []|].
    destruct (Hdec ev b) as (e & -> & Hr); [by left|done|].
    destruct IH as (es & -> & He); [intros ev' b' Hin; apply Hdec; by right|].
    exists (e :: es). split; [done|]. by constructor. }
  pose proof (handle_samples_all _ _ handler _ _ unused 0 He [] eq_refl) as Hall. cbn [app] in Hall.
  rewrite <- (Forall2_length _ _ _ He), Hall. f_equal. rewrite <- list_fmap_compose. apply list_fmap_ext. intros i e _. by rewrite <- Hlog.
Qed.

Lemma batch_whole a evs mems unused :
  Forall (sent_typed a) evs → Forall whole evs → Forall2 laid evs mems →
  handle_batch a (mems ++ unused) (length mems) = (log_of <$> evs, Ok ()).
Proof.
  rewrite !Forall_forall. intros Ht Hw Hs. destruct a; simpl.
  - apply (samples_decoded SControl); [|done|done]. intros ev b Hin Hb. specialize (Ht ev Hin).
    destruct ev as [e| |]; try done. exists e. split; [done|by apply control_read].
  - apply (samples_decoded SStats); [|done|done]. intros ev b Hin Hb. specialize (Ht ev Hin).
    destruct ev as [|e|]; try done. exists e. split; [done|by apply stats_read].
  - apply (samples_decoded (λ e, SData e SIZE_OF_DATA)); [|done|done]. intros ev b Hin Hb.
    specialize (Ht ev Hin). specialize (Hw ev Hin). destruct ev as [| |e n]; try done.
    simpl in Hw. subst n. exists e. split; [done|]. apply data_read; [apply Ht|done].
Qed.

Lemma text_in_msg : (48 ≤ Z.to_nat MAX_MSG_SIZE)%nat.
Proof. unfold MAX_MSG_SIZE. lia. Qed.

(** A batch of data events of any length: a log entry for each, until the memory ends. *)
Lemma data_batch evs mems before unused : Forall (sent_typed SkDataEvents) evs → Forall2 laid evs mems →
  ∃ logged logs end_,
    handle_samples SIZE_OF_DATA get_data handle_data (before ++ mems ++ unused) (length mems) (length before) =
      (logs, end_) ∧
    logged `prefix_of` evs ∧ Forall2 shown logged logs ∧ (end_ = Ok () ∧ logged = evs ∨ end_ = Err None).
Proof.
  intros Ht Hl. revert before Ht. induction Hl as [|ev mem evs mems Hb _ IH]; intros before Ht.
  { exists [], [], (Ok ()). split_and!; try done. by left. }
  inversion Ht as [|? ? He Ht']; subst. destruct ev as [| |e n]; try done. destruct He as [He Hn].
  cbn [length handle_samples]. rewrite lookup_app_r, Nat.sub_diag by lia. cbn [app lookup list_lookup].
  destruct (decide (Z.of_nat (length mem) < SIZE_OF_DATA)) as [Hm|Hm].
  { exists [], [], (Err None). unfold read_unaligned. rewrite decide_True by done.
    split_and!; [done|apply prefix_nil|done|by right]. }
  rewrite (data_read_past e n) by (done || lia).
  destruct (IH (before ++ [mem]) Ht') as (logged & logs & end_ & Heq & Hpre & Hsh & Hend).
  rewrite length_app, <- app_assoc in Heq. cbn [length app] in Heq. rewrite Nat.add_1_r in Heq. rewrite Heq.
  exists (SData e n :: logged), (handle_data {| inner := inner e;
    msg := take (Z.to_nat MAX_MSG_SIZE) (drop (Z.to_nat SIZE_OF_INNER) mem) |} :: logs), end_.
  split_and!; [done|by apply prefix_cons| |naive_solver]. constructor; [|done].
  unfold handle_data. cbn [inner msg]. rewrite take_take, (Nat.min_l _ _ text_in_msg).
  by apply data_shown.
Qed.

Lemma batch_shown a evs mems unused : Forall (sent_typed a) evs → Forall2 laid evs mems →
  ∃ logged logs end_, handle_batch a (mems ++ unused) (length mems) = (logs, end_) ∧
    logged `prefix_of` evs ∧ Forall2 shown logged logs ∧ (end_ = Ok () ∧ logged = evs ∨ end_ = Err None).
Proof.
  intros Ht Hl. destruct (decide (a = SkDataEvents)) as [->|Ha]; [by apply (data_batch evs mems [])|].
  exists evs, (log_of <$> evs), (Ok ()). split_and!; [|done| |by left].
  - apply batch_whole; try done. eapply Forall_impl; [exact Ht|]. intros [] He; try done. by destruct a.
  - clear Hl. induction Ht as [|ev evs Hev _ IH]; [done|]. constructor; [|done]. by destruct a, ev.
Qed.

(** ** The invariant *)

Lemma Forall_sublist {A} (P : A → Prop) l k : l `sublist_of` k → Forall P k → Forall P l.
Proof. induction 1; intros Hk; [done|inversion Hk; subst; auto..]. Qed.

Lemma sublist_same_length {A} (l k : list A) : l `sublist_of` k → length k = length l → l = k.
Proof.
  induction 1 as [|x l k Hs IH|x l k Hs IH]; intros Hl; [done|f_equal; apply IH; simpl in Hl; lia|].
  apply sublist_length in Hs. simpl in Hl. lia.
Qed.

Record chan_ok (capacity : Z) (a : Arr) (ch : Channel) : Prop := {
  co_typed : Forall (sent_typed a) (ch_sent ch);
  co_order : ∃ out, ch_sent ch = out ++ ch_transit ch ∧ ch_kept ch `sublist_of` out ∧
    length out = (length (ch_kept ch) + ch_lost ch)%nat;
  co_fit : Forall (λ ev, 12 + wire_size ev ≤ capacity) (ch_kept ch);
  co_closed : ch_state ch = NotOpen → ch_kept ch = [] ∧ ch_log ch = [];
  co_read : ∃ read waiting, ch_kept ch = read ++ waiting ∧ Forall2 sampled waiting (ch_ring ch) ∧
    (Forall whole read → ch_log ch = log_of <$> read ∧ ch_state ch ≠ Stopped None) ∧
    ∃ logged, logged `prefix_of` read ∧ Forall2 shown logged (ch_log ch) ∧
      (ch_state ch ≠ Stopped None → logged = read) }.

Lemma chan_kept_typed capacity a ch : chan_ok capacity a ch → Forall (sent_typed a) (ch_kept ch).
Proof.
  intros [Ht (out & Hs & Hsub & _)]. rewrite Hs, Forall_app in Ht. destruct Ht. by eapply Forall_sublist.
Qed.

Lemma Channel_new_ok capacity a : chan_ok capacity a Channel_new.
Proof.
  split; simpl; try done. - by exists [].
  - exists [], []. split_and!; try done. by exists [].
Qed.

Lemma write_all_ok capacity a evs ch :
  Forall (sent_typed a) evs → chan_ok capacity a ch → chan_ok capacity a (write_all evs ch).
Proof.
  intros He [Ht (out & Hs & Hsub) Hf Hc Hr]. split; simpl; try done.
  - apply Forall_app. done.
  - exists out. rewrite Hs, app_assoc. done.
Qed.

Lemma task_turn_ok capacity a batch mems rest unused ch : ch_state ch = Reading → ch_ring ch = batch ++ rest →
  Forall2 prefix batch mems → chan_ok capacity a ch → chan_ok capacity a (task_turn a mems rest unused ch).
Proof.
  intros Hst Hring Hmem Hok. pose proof (chan_kept_typed _ _ _ Hok) as Hkt.
  destruct Hok as [Ht Ho Hf Hc (read & waiting & Hk & H2 & Hw & logged & Hpre & Hsh & Hall)].
  rewrite Hring in H2. apply Forall2_app_inv_r in H2 as (w1 & w2 & H2 & H2' & ->).
  rewrite Hk in Hkt. apply Forall_app in Hkt as [_ [Hw1 _]%Forall_app].
  assert (Forall2 laid w1 mems) as Hlaid.
  { clear -H2 Hmem. revert mems Hmem. induction H2; intros mems Hmem; inversion Hmem; subst; constructor; eauto using sampled_laid. }
  rewrite Hst in Hall. specialize (Hall ltac:(done)) as ->.
  destruct (batch_shown a w1 mems unused Hw1 Hlaid) as (logged & logs & end_ & Hb & Hpre' & Hsh' & Hend).
  unfold task_turn. rewrite Hb. split; simpl; [done|done|done|rewrite Hst; by destruct end_|].
  exists (read ++ w1), w2. rewrite Hk, app_assoc. split_and!; [done|done| |].
  - intros [Hwr Hw1']%Forall_app. rewrite (batch_whole a w1) in Hb by done. injection Hb as <- <-.
    rewrite Hst. destruct (Hw Hwr) as [-> _]. by rewrite fmap_app.
  - exists (read ++ logged). split_and!; [by apply prefix_app|by apply Forall2_app|].
    destruct Hend as [[-> ->]| ->]; [done|]. intros H. by destruct H.
Qed.

Lemma chstep_ok capacity cpus a ch ch' :
  chstep capacity cpus a ch ch' → chan_ok capacity a ch → chan_ok capacity a ch'.
Proof.
  intros Hstep Hok. destruct Hstep as [ev rest b ch Htr Hst Hb Hroom|ev rest ch Htr|ch Hst|batch mems rest unused ch Hst Hring Hmem _|ch Hst].
  - destruct Hok as [Ht (out & Hs & Hsub & Hl) Hf Hc (read & waiting & Hk & H2 & Hw & logged & Hpre & Hsh & Hall)].
    rewrite Htr in Hs. assert (sent_typed a ev) as Hev.
    { rewrite Hs, Forall_app in Ht. destruct Ht as [_ Ht]. by inversion Ht. }
    split; simpl; try done.
    + exists (out ++ [ev]). rewrite Hs, <- app_assoc, !length_app. split_and!; [done|by apply sublist_app|simpl; lia].
    + apply Forall_app. split; [done|]. apply Forall_singleton.
      pose proof (sampled_length a ev b Hev Hb). pose proof (used_nonneg (ch_ring ch)). unfold record_size in Hroom. lia.
    + exists read, (waiting ++ [ev]). rewrite Hk, app_assoc. split_and!; [done|by apply Forall2_app; [|constructor]|done|].
      by exists logged.
  - destruct Hok as [Ht (out & Hs & Hsub & Hl) Hf Hc Hr]. split; simpl; try done.
    exists (out ++ [ev]). rewrite Hs, Htr, <- app_assoc, length_app. split_and!; [done|by apply sublist_inserts_r|simpl; lia].
  - destruct Hok as [Ht Ho Hf Hc (read & waiting & Hk & H2 & Hw & logged & Hpre & Hsh & Hall)]. destruct (Hc Hst) as [Hk0 Hlog].
    rewrite Hk in Hk0. apply app_nil in Hk0 as [-> ->]. split; simpl; try done.
    exists [], []. split_and!; [done..|]. exists []. by rewrite Hlog.
  - by eapply task_turn_ok.
  - destruct Hok as [Ht Ho Hf Hc (read & waiting & Hk & H2 & Hw & logged & Hpre & Hsh & Hall)]. split; simpl; try done.
    exists read, waiting. split_and!; [done|done|intros Hwh; split; [by apply Hw|done]|].
    exists logged. split_and!; [done|done|]. intros _. apply Hall. by rewrite Hst.
Qed.

(** *** Probes, arrays and CPUs *)

Lemma sent_on_after a s0 s : sent_after s0 s → sent_on a s0 `prefix_of` sent_on a s.
Proof.
  intros [[lc Hc] [ld Hd] [ls Hs]]. destruct a; simpl; rewrite ?Hc, ?Hd, ?Hs, fmap_app; by apply prefix_app_r.
Qed.

Lemma new_on_app a s s' : sent_after s s' → sent_on a s' = sent_on a s ++ new_on a s s'.
Proof.
  intros [l Hl]%(sent_on_after a). unfold new_on. rewrite Hl at 2. by rewrite drop_app_length.
Qed.

Lemma sent_on_typed a s0 s : typed_ok s0 s → tracer_ok s → Forall (sent_typed a) (sent_on a s).
Proof.
  intros [] [_ _ Hd _ _]. destruct a; simpl; apply Forall_fmap; try done.
  apply Forall_forall. intros p Hp. rewrite Forall_forall in ty_data, Hd.
  destruct (Hd p Hp) as (Hb & _ & Hn). change (data_typed p.1 ∧ SIZE_OF_INNER ≤ p.2 ≤ SIZE_OF_DATA).
  rewrite Hn. split; [by apply ty_data|]. unfold SIZE_OF_DATA, SIZE_OF_INNER in *. lia.
Qed.

(** What a step on one CPU adds, over all CPUs. *)
Lemma bind_update (cpus : list Z) (f : Z → list Sent) c new : NoDup cpus → c ∈ cpus →
  (cpus ≫= λ c', if decide (c' = c) then f c' ++ new else f c') ≡ₚ (cpus ≫= f) ++ new.
Proof.
  induction 1 as [|c' cpus Hc' Hnd IH]; [by intros ?%not_elem_of_nil|].
  intros [->|Hin]%elem_of_cons; rewrite !bind_cons.
  - rewrite decide_True by done. rewrite <- !app_assoc. f_equiv. rewrite (Permutation_app_comm _ new). f_equiv.
    apply reflexive_eq. clear -Hc'. induction cpus as [|c'' cpus IH]; [done|].
    apply not_elem_of_cons in Hc' as [Hne Hc']. rewrite !bind_cons, IH, decide_False by done. done.
  - rewrite decide_False by (by intros ->). rewrite <- app_assoc. f_equiv. by apply IH.
Qed.

(** A turn with one data event. *)
Lemma task_turn_one e n mem rest unused ch : data_typed e → SIZE_OF_INNER ≤ n ≤ SIZE_OF_DATA →
  ch_state ch = Reading → laid (SData e n) mem →
  let ch' := task_turn SkDataEvents [mem] rest unused ch in ch_ring ch' = rest ∧
  if decide (SIZE_OF_DATA ≤ Z.of_nat (length mem)) then
    ch_state ch' = Reading ∧
    ch_log ch' = ch_log ch ++ [LogData (de_id (inner e)) (de_source_function (inner e))
                                 (take 48 (drop (Z.to_nat SIZE_OF_INNER) mem))]
  else ch_state ch' = Stopped None ∧ ch_log ch' = ch_log ch.
Proof.
  intros He Hn Hst Hl. unfold task_turn. cbn [handle_batch length app handle_samples lookup list_lookup].
  case_decide as Hm.
  - rewrite (data_read_past e n) by done. cbn [ch_ring ch_state ch_log]. split_and!; [done|done|].
    unfold handle_data. cbn [inner msg]. by rewrite take_take, (Nat.min_l _ _ text_in_msg).
  - unfold read_unaligned. rewrite decide_True by lia. cbn [ch_ring ch_state ch_log].
    by rewrite app_nil_r.
Qed.

Section runs.
Context {B : SocketMaps} {BL : SocketMapsLaws B}.
Context (capacity : Z) (cpus : list Z) (Hcpus : NoDup cpus) (s0 : Maps).

Record stream_ok (x : Stream) : Prop := {
  so_typed : typed_ok s0 (x_maps x);
  so_tracer : tracer_ok (x_maps x);
  so_chan a c : chan_ok capacity a (x_chan x a c);
  so_sent a : sent_on a (x_maps x) ≡ₚ cpus ≫= λ c, ch_sent (x_chan x a c) }.

Lemma Stream_start_ok : unused_maps s0 → stream_ok (Stream_start s0).
Proof.
  intros Hs. split; simpl.
  - by apply unused_typed. - apply started_ok, Hs. - intros. apply Channel_new_ok.
  - intros a. destruct Hs as [(_ & H2 & H3 & H4 & _) _].
    assert (sent_on a s0 = []) as -> by (destruct a; simpl; by rewrite ?H2, ?H3, ?H4).
    apply reflexive_eq. clear. induction cpus; [done|]. by rewrite bind_cons.
Qed.

(** The histories of the channels when only one channel moves. *)
Lemma upd_sent a c ch f a' : ch_sent ch = ch_sent (f a c) →
  (cpus ≫= λ c', ch_sent (upd a c ch f a' c')) = cpus ≫= λ c', ch_sent (f a' c').
Proof.
  intros Hch. apply list_bind_ext; [|done]. intros c'. unfold upd. case_decide as H; [|done].
  by destruct H as [-> ->].
Qed.

Lemma chstep_sent a ch ch' : chstep capacity cpus a ch ch' → ch_sent ch' = ch_sent ch.
Proof. intros []; try done. unfold task_turn. by destruct (handle_batch _ _ _). Qed.

Lemma pstep_ok x x' : pstep capacity cpus x x' → stream_ok x → stream_ok x'.
Proof.
  intros Hstep [Hty Htr Hch Hse]. destruct Hstep as [c k p ctx x Hc Hk s'|cm cv cd x|a c ch x Hstep].
  - assert (typed_ok (x_maps x) s') as Hty1.
    { apply run_probe_typed; [done|]. by eapply typed_ok_self. }
    assert (tracer_ok s') as Htr'.
    { eapply sk_step_ok; [|done]. constructor. apply Hk. }
    pose proof (ty_after _ _ Hty1) as Haf. split; simpl.
    + by apply run_probe_typed.
    + done.
    + intros a c'. case_decide; [|done]. apply write_all_ok; [|done].
      pose proof (sent_on_typed a _ _ Hty1 Htr') as Hall. rewrite (new_on_app a _ _ Haf), Forall_app in Hall. apply Hall.
    + intros a. rewrite (new_on_app a _ _ Haf), Hse, <- (bind_update cpus _ c) by done.
      apply reflexive_eq, list_bind_ext; [|done]. intros c'. by case_decide.
  - split; simpl; try done; [by apply set_controls_typed|]. eapply sk_step_ok; [|done]. constructor.
  - split; simpl; try done.
    + intros a' c'. unfold upd. case_decide as H; [|done]. destruct H as [-> ->]. by eapply chstep_ok.
    + intros a'. by rewrite Hse, upd_sent by (by eapply chstep_sent).
Qed.

Lemma stream_run_ok x : unused_maps s0 → rtc (pstep capacity cpus) (Stream_start s0) x → stream_ok x.
Proof.
  intros Hs%Stream_start_ok Hr. induction Hr as [|x1 x2 x3 Hstep _ IH]; [done|]. by eapply IH, pstep_ok.
Qed.

(** C16: from the probes to the log.  Whatever the probes, the rings and the reading
    tasks do, every event that the probes have written to an array belongs to the
    CPU it was written on; of the events of a CPU the ring keeps some, in order,
    and the task has read a first part of these.  As long as the parts read are
    whole structures, which control and statistics events always are, the task
    has logged exactly them, once and in order, and has never read past a sample.
    If nothing was lost and nothing is under way, everything that was written has
    been logged. *)
Theorem events_delivered x : unused_maps s0 → rtc (pstep capacity cpus) (Stream_start s0) x →
  (∀ a, sent_on a (x_maps x) ≡ₚ cpus ≫= λ c, ch_sent (x_chan x a c)) ∧
  ∀ a c, let ch := x_chan x a c in
    ∃ read waiting, ch_kept ch = read ++ waiting ∧ length waiting = length (ch_ring ch) ∧
      ch_kept ch `sublist_of` ch_sent ch ∧
      (Forall whole read → ch_log ch = log_of <$> read ∧ ch_state ch ≠ Stopped None) ∧
      (a ≠ SkDataEvents → Forall whole read) ∧
      (ch_lost ch = 0%nat → ch_transit ch = [] → ch_ring ch = [] → read = ch_sent ch).
Proof.
  intros Hs Hr. destruct (stream_run_ok x Hs Hr) as [_ _ Hch Hse]. split; [done|]. intros a c ch.
  specialize (Hch a c). fold ch in Hch. pose proof (chan_kept_typed _ _ _ Hch) as Hkt.
  destruct Hch as [_ (out & Hout & Hsub & Hlen) _ _ (read & waiting & Hk & H2 & Hw & _)].
  exists read, waiting. split_and!; [done|by eapply Forall2_length| |done| |].
  - rewrite Hout. by apply sublist_inserts_r.
  - intros Ha. rewrite Hk in Hkt. apply Forall_app in Hkt as [Hkt _].
    eapply Forall_impl; [exact Hkt|]. intros [] He; try done. by destruct a.
  - intros Hlost Htrans Hring. rewrite Hring in H2. inversion H2; subst. rewrite app_nil_r in Hk.
    rewrite Hout, Htrans, app_nil_r, <- Hk. apply sublist_same_length; [done|lia].
Qed.

(** C34: data events are read past their end.  A task reads a whole data event from
    every sample, however long the sample is.  Of the data events that were read on
    a CPU each has one entry in the log, in order, unless the task has faulted; the
    entry has the event's connection and source, and its text is the event's up to
    the bytes that were sent, followed by whatever lies behind them; it is the
    event's own if 48 bytes of text were sent.  In a ring that has no room for a
    whole data event, as the rings [main] opens with the default size, every event
    that is kept is short.  And the memory behind a sample does get into the log:
    with any memory [mem] behind the sample that is next, the task's next step logs
    the first 48 bytes of [mem] at the place of the text; if [mem] ends before a
    whole event, that step faults. *)
Theorem data_events_read_past_end x c : unused_maps s0 → rtc (pstep capacity cpus) (Stream_start s0) x →
  let ch := x_chan x SkDataEvents c in
  (∃ read waiting logged, ch_kept ch = read ++ waiting ∧ length waiting = length (ch_ring ch) ∧
     logged `prefix_of` read ∧ Forall2 shown logged (ch_log ch) ∧
     (ch_state ch ≠ Stopped None → logged = read)) ∧
  (capacity + 8 ≤ 12 + SIZE_OF_DATA → Forall short (ch_kept ch)) ∧
  (∀ b rest mem, cpus ≠ [] → ch_state ch = Reading → ch_ring ch = b :: rest → b `prefix_of` mem →
     ∃ x' e n, pstep capacity cpus x x' ∧ SData e n ∈ ch_kept ch ∧ sampled (SData e n) b ∧
       let ch' := x_chan x' SkDataEvents c in ch_ring ch' = rest ∧
       if decide (SIZE_OF_DATA ≤ Z.of_nat (length mem)) then
         ch_state ch' = Reading ∧
         ch_log ch' = ch_log ch ++ [LogData (de_id (inner e)) (de_source_function (inner e))
                                      (take 48 (drop (Z.to_nat SIZE_OF_INNER) mem))]
       else ch_state ch' = Stopped None ∧ ch_log ch' = ch_log ch).
Proof.
  intros Hs Hr ch. destruct (stream_run_ok x Hs Hr) as [_ _ Hch _].
  specialize (Hch SkDataEvents c). fold ch in Hch. pose proof (chan_kept_typed _ _ _ Hch) as Hkt.
  destruct Hch as [_ _ Hf _ (read & waiting & Hk & H2 & _ & logged & Hpre & Hsh & Hall)]. split_and!.
  - exists read, waiting, logged. split_and!; try done. by eapply Forall2_length.
  - intros Hcap. rewrite Forall_forall in Hkt, Hf |- *. intros ev Hin. specialize (Hkt ev Hin).
    specialize (Hf ev Hin). destruct ev as [| |e n]; try done. simpl in *. lia.
  - intros b rest mem Hcpus0 Hst Hring Hmem. rewrite Hring in H2.
    inversion H2 as [|ev ? waiting' ? Hb _ Heq]; subst.
    assert (ev ∈ ch_kept ch) as Hin by (rewrite Hk; apply elem_of_app; right; by left).
    rewrite Forall_forall in Hkt. specialize (Hkt ev Hin).
    destruct ev as [| |e n]; try done. destruct Hkt as [He Hn].
    destruct cpus as [|cpu others] eqn:Hcp; [done|].
    exists {| x_maps := x_maps x;
              x_chan := upd SkDataEvents c (task_turn SkDataEvents [mem] rest ((λ _, []) <$> others) ch) (x_chan x) |}, e, n.
    split_and!; [|done|done|].
    + apply p_channel. eapply (ch_read _ _ _ [b]); [done|done|by repeat constructor|].
      by rewrite length_app, length_fmap.
    + unfold upd. cbn [x_chan]. rewrite decide_True by done.
      apply (task_turn_one e n); [done|done|done|by eapply sampled_laid].
Qed.
End runs.

(** ** Steps as functions, for evaluation *)

Definition at_chan (a : Arr) (c : Z) (f : Channel → Channel) (x : Stream) : Stream :=
  {| x_maps := x_maps x; x_chan := upd a c (f (x_chan x a c)) (x_chan x) |}.
Definition open_at (a : Arr) (c : Z) : Stream → Stream := at_chan a c (set_state Reading).
Definition keep_at (a : Arr) (c : Z) (b : list Z) : Stream → Stream :=
  at_chan a c (λ ch, match ch_transit ch with ev :: rest => keep_first ev rest b ch | [] => ch end).
Definition read_at (a : Arr) (c : Z) (mems rest unused : list (list Z)) : Stream → Stream :=
  at_chan a c (task_turn a mems rest unused).
Definition probe_at {B : SocketMaps} (c : Z) (k : Kernel) (p : Probe) (ctx : ProbeContext) (x : Stream) : Stream :=
  let s' := (run_probe k p ctx (x_maps x)).2 in
  {| x_maps := s';
     x_chan := λ a' c', if decide (c' = c) then write_all (new_on a' (x_maps x) s') (x_chan x a' c')
                        else x_chan x a' c' |}.

Section functions.
Context {B : SocketMaps} (capacity : Z) (cpus : list Z).

Lemma open_at_step a c x : ch_state (x_chan x a c) = NotOpen → pstep capacity cpus x (open_at a c x).
Proof. intros H. by apply p_channel, ch_open. Qed.

Lemma keep_at_step a c b ev rest x : ch_transit (x_chan x a c) = ev :: rest → sampled ev b →
  ch_state (x_chan x a c) = Reading → used (ch_ring (x_chan x a c)) + record_size b ≤ capacity →
  pstep capacity cpus x (keep_at a c b x).
Proof.
  intros Ht Hb Hst Hroom. apply p_channel. rewrite Ht. apply (ch_keep capacity cpus a ev rest b); try done.
  by rewrite Hst.
Qed.

Lemma read_at_step a c batch rest unused x : ch_state (x_chan x a c) = Reading →
  ch_ring (x_chan x a c) = batch ++ rest → length (batch ++ unused) = length cpus →
  pstep capacity cpus x (read_at a c batch rest unused x).
Proof. intros. apply p_channel. by apply (ch_read _ _ _ batch). Qed.

Lemma probe_at_step c k p ctx x : c ∈ cpus → kernel_typed k → pstep capacity cpus x (probe_at c k p ctx x).
Proof. intros. by apply p_probe. Qed.
End functions.

(** ** Witnesses *)

(** A kernel whose clock stays in range. *)
Definition ex_typed_kernel : Kernel := {|
  ktime_get_ns := λ n, (1000 + Z.of_nat n) mod 2 ^ 64; current_pid_tgid := 5 * 2 ^ 32 + 9; current_task := 64;
  read_group_leader := λ _, Ok 128; read_start_boottime := λ _, Ok 70000000;
  read_sock_common := read_sock_common ex_sk_kernel;
  read_sa_family := λ _, Ok AF_INET; read_sockaddr_in := read_sockaddr_in ex_sk_kernel;
  read_sockaddr_in6 := λ _, Err (-14); read_user_buf := λ a n, Ok (mem_range ex_mem a n);
  read_iovec := λ _, Ok {| iov_base := 8192; iov_len := 10 |};
  read_user_msghdr := λ _, Err (-14); read_mmsghdr := λ _, Err (-14) |}.

Lemma ex_kernel_typed : kernel_typed ex_typed_kernel.
Proof.
  split.
  - intros a v Hv. simplify_eq/=. vm_compute. split; congruence.
  - intros n. apply Z.mod_pos_bound. lia.
  - vm_compute. split; congruence.
  - intros a t Ht. simplify_eq/=. vm_compute. split; congruence.
  - intros a sc Hsc. simplify_eq/=. done.
  - intros a f Hf. simplify_eq/=. vm_compute. split; congruence.
  - intros a sa [=].
  - intros a n bytes Hb. simplify_eq/=. unfold mem_range. by rewrite length_fmap, length_seq.
Qed.

(** An accept on CPU 0 whose Open event goes through the ring to the log. *)
Definition ex_unused : Maps := set_SOCKET_DATA_EVENT_BUFFER None ex_accepting.
Lemma ex_unused_ok : unused_maps ex_unused.
Proof.
  split_and!; try reflexivity; [split_and!; try reflexivity|]; intros e He; by simplify_eq/=.
Qed.

Definition ex_accept_run : Stream :=
  probe_at (B := ex_smaps) 0 ex_typed_kernel ret_accept (ex_ctx 8)
    (open_at SkCtrlEvents 0 (Stream_start ex_unused)).
Definition ex_open_event : SocketControlEvent := default ex_control (head (SOCKET_CONTROL_EVENTS (x_maps ex_accept_run))).
Definition ex_open_sample : list Z := put_control ex_open_event.
Definition ex_logged : Stream :=
  read_at SkCtrlEvents 0 [ex_open_sample] [] [] (keep_at SkCtrlEvents 0 ex_open_sample ex_accept_run).

Lemma ex_logged_run : rtc (pstep (B := ex_smaps) 8192 [0]) (Stream_start ex_unused) ex_logged.
Proof.
  eapply rtc_l; [by apply (open_at_step 8192 [0] SkCtrlEvents 0)|].
  eapply rtc_l; [apply (probe_at_step 8192 [0] 0 ex_typed_kernel ret_accept (ex_ctx 8));
                 [by left|exact ex_kernel_typed]|].
  fold ex_accept_run.
  eapply rtc_l; [apply (keep_at_step 8192 [0] SkCtrlEvents 0 ex_open_sample (SControl ex_open_event) [])|].
  - vm_compute. reflexivity.
  - exists ex_open_sample, []. split_and!; [done|simpl; lia|unfold sample; by rewrite app_nil_r].
  - reflexivity.
  - vm_compute. congruence.
  - apply rtc_once. apply read_at_step; vm_compute; reflexivity.
Qed.

Lemma events_delivered_witness :
  let ch := x_chan ex_logged SkCtrlEvents 0 in
  length (ch_sent ch) = 1%nat ∧ ch_log ch = log_of <$> ch_sent ch.
Proof.
  intros ch. split; [vm_compute; reflexivity|].
  destruct (events_delivered (B := ex_smaps) (BL := bounded_maps_laws 1024) 8192 [0] (NoDup_singleton 0)
    ex_unused ex_logged ex_unused_ok ex_logged_run) as [_ H].
  destruct (H SkCtrlEvents 0) as (read & waiting & _ & _ & _ & Hlog & Hwhole & Hall).
  fold ch in Hlog, Hall.
  assert (read = ch_sent ch) as <- by (apply Hall; vm_compute; reflexivity).
  destruct Hlog as [Hl _]; [apply Hwhole; discriminate|exact Hl].
Defined.

(** A write of 10 bytes: its event is in the ring of CPU 0. *)
Lemma zeroed_typed n : n = Z.to_nat MAX_MSG_SIZE → data_typed {| inner := ex_inner; msg := replicate n 0 |}.
Proof.
  intros Hn. split; [unfold inner_typed, id_typed, in_u, in_s; simpl; lia|].
  cbn [msg]. by rewrite length_replicate.
Qed.

Lemma ex_full_unused : unused_maps ex_full.
Proof.
  refine (conj ex_full_started (conj eq_refl (conj eq_refl (conj eq_refl (conj eq_refl (conj eq_refl _)))))).
  intros e He. assert (∀ e0, Some e0 = Some e → data_typed e0 → data_typed e) as H by (by intros e0 [= ->]).
  exact (H _ He (zeroed_typed _ eq_refl)).
Qed.

Definition ex_data_written : Stream :=
  probe_at (B := ex_smaps) 0 ex_typed_kernel ret_write (ex_ctx 10)
    (probe_at (B := ex_smaps) 0 ex_typed_kernel entry_write (ex_ctx 0)
      (open_at SkDataEvents 0 (Stream_start ex_full))).
Definition ex_written : SocketDataEvent * Z :=
  default (ex_event, 0) (head (SOCKET_DATA_EVENTS (x_maps ex_data_written))).
Definition ex_data_sample : list Z := take (Z.to_nat ex_written.2) (put_data (replicate 7 0) ex_written.1).
Definition ex_data_kept : Stream := keep_at SkDataEvents 0 ex_data_sample ex_data_written.

(** One event, of 106 bytes, is waiting to be written. *)
Definition ex_one_event : bool :=
  match SOCKET_DATA_EVENTS (x_maps ex_data_written) with [p] => p.2 =? 106 | _ => false end.

Lemma probe_at_transit {B : SocketMaps} a c k p ctx x :
  ch_transit (x_chan (probe_at c k p ctx x) a c) =
  ch_transit (x_chan x a c) ++ new_on a (x_maps x) (x_maps (probe_at c k p ctx x)).
Proof. simpl. by rewrite decide_True. Qed.

Lemma ex_written_transit : ex_written.2 = 106 ∧
  ch_transit (x_chan ex_data_written SkDataEvents 0) = [SData ex_written.1 ex_written.2].
Proof.
  assert (ex_one_event = true) as H by (vm_compute; reflexivity). unfold ex_one_event in H.
  unfold ex_written. set (evs := SOCKET_DATA_EVENTS (x_maps ex_data_written)) in *.
  assert (ch_transit (x_chan ex_data_written SkDataEvents 0) = (λ p, SData p.1 p.2) <$> evs) as ->.
  { unfold ex_data_written. rewrite probe_at_transit. fold ex_data_written.
    set (x1 := probe_at _ _ entry_write _ _).
    assert (SOCKET_DATA_EVENTS (x_maps x1) = []) as H1 by (vm_compute; reflexivity).
    assert (ch_transit (x_chan x1 SkDataEvents 0) = []) as -> by (vm_compute; reflexivity).
    unfold new_on, sent_on. rewrite H1. reflexivity. }
  clearbody evs. destruct evs as [|p [|q l]]; [discriminate H| |discriminate H].
  apply Z.eqb_eq in H. split; [exact H|reflexivity].
Qed.

Lemma ex_data_kept_run : rtc (pstep (B := ex_smaps) 8192 [0]) (Stream_start ex_full) ex_data_kept.
Proof.
  eapply rtc_l; [apply (open_at_step 8192 [0] SkDataEvents 0); reflexivity|].
  eapply rtc_l; [apply (probe_at_step 8192 [0] 0 ex_typed_kernel entry_write (ex_ctx 0)); [by left|exact ex_kernel_typed]|].
  eapply rtc_l; [apply (probe_at_step 8192 [0] 0 ex_typed_kernel ret_write (ex_ctx 10)); [by left|exact ex_kernel_typed]|].
  fold ex_data_written. apply rtc_once. destruct ex_written_transit as [Hn Ht].
  eapply keep_at_step; [exact Ht| |reflexivity|].
  - refine (ex_intro _ ex_data_sample (ex_intro _ [] (conj _ (conj _ _)))).
    + refine (ex_intro _ (replicate 7 0) (conj eq_refl _)). unfold ex_data_sample. reflexivity.
    + simpl. lia.
    + unfold sample. rewrite app_nil_r. reflexivity.
  - assert (Z.of_nat (length ex_data_sample) ≤ 106) as Hl.
    { unfold ex_data_sample. rewrite Hn, length_take. lia. }
    assert (ch_ring (x_chan ex_data_written SkDataEvents 0) = []) as -> by reflexivity.
    unfold record_size. change (used []) with 0. lia.
Qed.

Lemma keep_at_chan a c b ev rest x : ch_transit (x_chan x a c) = ev :: rest →
  x_chan (keep_at a c b x) a c = keep_first ev rest b (x_chan x a c).
Proof. intros Ht. unfold keep_at, at_chan, upd. cbn [x_chan]. rewrite decide_True by done. by rewrite Ht. Qed.

(** The memory behind the 10 bytes of text. *)
Lemma ex_data_text :
  take 48 (drop (Z.to_nat SIZE_OF_INNER) (ex_data_sample ++ replicate (Z.to_nat SIZE_OF_DATA) 7)) =
  take 10 (msg ex_written.1) ++ replicate 38 7.
Proof.
  assert ((10 <=? length (msg ex_written.1))%nat = true) as Hm%Nat.leb_le by (vm_compute; reflexivity).
  unfold ex_data_sample, put_data. rewrite (proj1 ex_written_transit).
  set (inner_ := put_inner _ _). assert (length inner_ = 96%nat) as Hi by (by apply put_inner_length).
  rewrite take_app, (take_ge inner_) by lia. rewrite Hi, <- app_assoc, drop_app_length' by (by rewrite Hi).
  rewrite take_app, length_take, (take_ge (take _ _)) by (rewrite length_take; lia).
  replace (Z.to_nat 106 - 96)%nat with 10%nat by lia. f_equal.
Qed.

Lemma read_past_end_witness :
  let ch := x_chan ex_data_kept SkDataEvents 0 in
  length (ch_kept ch) = 1%nat ∧ Forall short (ch_kept ch) ∧
  ∃ x' id source, pstep (B := ex_smaps) 8192 [0] ex_data_kept x' ∧
    ch_log (x_chan x' SkDataEvents 0) =
      [LogData id source (take 10 (msg ex_written.1) ++ replicate 38 7)].
Proof.
  intros ch.
  destruct (data_events_read_past_end (B := ex_smaps) (BL := bounded_maps_laws 1024) 8192 [0] (NoDup_singleton 0)
    ex_full ex_data_kept 0 ex_full_unused ex_data_kept_run) as (_ & Hshort & Hnext).
  destruct ex_written_transit as [Hn Ht].
  pose proof (keep_at_chan _ _ ex_data_sample _ _ _ Ht) as Hch. fold ex_data_kept in Hch.
  split; [unfold ch; rewrite Hch; reflexivity|]. split; [apply Hshort; vm_compute; congruence|].
  destruct (Hnext ex_data_sample [] (ex_data_sample ++ replicate (Z.to_nat SIZE_OF_DATA) 7)) as
    (x' & e & n & Hstep & _ & _ & _ & Hread).
  - discriminate.
  - rewrite Hch. reflexivity.
  - rewrite Hch. reflexivity.
  - apply prefix_app_r. reflexivity.
  - rewrite decide_True in Hread by (rewrite length_app, length_replicate; unfold SIZE_OF_DATA, SIZE_OF_INNER, MAX_MSG_SIZE; lia).
    destruct Hread as [_ Hlog]. exists x', (de_id (inner e)), (de_source_function (inner e)).
    split; [exact Hstep|]. rewrite Hlog, Hch. change (ch_log (keep_first _ _ _ _)) with ([] : list Log).
    rewrite app_nil_l, ex_data_text. reflexivity.
Defined.
