(* ===== verification/SocketMain.v ===== *)
(** * socket-tracer: [main]

    [socket-tracer/src/main.rs] as a transition system: the nineteen loaders are
    tasks that attach their probes and then wait on one [Notify]; [main] meanwhile
    opens the three event maps, which the loaders pin, waits for Ctrl-C, calls
    [notify_one] and returns, which drops the runtime with all of its tasks.  The
    object of a loader, and with it its probes, is dropped when the loader ends.

    tokio's [Notify] is a parameter with its documented laws; what an object pins
    when it is loaded is another, as is the answer of the system calls. *)
From S2P Require Import Prelude RustStd AgentApi Bpf Program SocketData SocketProbes SocketProps SocketUser.
From stdpp Require Import base gmap strings list relations pretty.
From Stdlib Require Import ZArith Lia.

(** ** [tokio::sync::Notify] *)

(** [wait i]: task [i] polls [notified()] for the first time; the answer is whether
    it goes on at once.  [notify_one] answers with the task it wakes, if any. *)
Class Notify := {
  NState : Type;
  notify_new : NState;
  wait : nat → NState → bool * NState;
  notify_one : NState → option nat * NState;
  permit : NState → bool;
  waiting : NState → list nat }.

(** A notification goes to a waiting task; without one, a permit is stored, at most
    one, and the next task that waits takes it and goes on. *)
Class NotifyLaws (N : Notify) : Prop := {
  notify_new_idle : permit notify_new = false ∧ waiting notify_new = [];
  wait_permit i n : permit n = true →
    (wait i n).1 = true ∧ permit (wait i n).2 = false ∧ waiting (wait i n).2 = waiting n;
  wait_queued i n : permit n = false →
    (wait i n).1 = false ∧ permit (wait i n).2 = false ∧ waiting (wait i n).2 ≡ₚ i :: waiting n;
  notify_waiting n : waiting n ≠ [] →
    ∃ i, (notify_one n).1 = Some i ∧ waiting n ≡ₚ i :: waiting (notify_one n).2 ∧
      permit (notify_one n).2 = permit n;
  notify_nobody n : waiting n = [] →
    (notify_one n).1 = None ∧ waiting (notify_one n).2 = [] ∧ permit (notify_one n).2 = true }.

(** ** The state of the program *)

Inductive LState := Spawned | Waiting | Woken | Ended | Failed.
Global Instance LState_eq_dec : EqDecision LState.
Proof. solve_decision. Defined.
Inductive Stage := Opening (n : nat) | AwaitCtrlC | Notified | Exited (r : result Error unit).

Record Main `{N : Notify} := {
  mn_loaders : list LState;
  mn_notify : NState;
  mn_stage : Stage;
  mn_pinned : list string;
  mn_tasks : list (string * Z);
  mn_debug : list string }.

(** [if ret != 0 { debug!(..) }]: the limit is only a warning. *)
Definition memlock_log (ret : Z) : list string :=
  if (ret =? 0)%Z then [] else ["remove limit on locked memory failed, ret is: " +:+ pretty ret].

(** The maps [main] opens, in this order. *)
Definition event_maps : list string :=
  [BPF_MAP_PATH +:+ "/sk_ctrl_events"; BPF_MAP_PATH +:+ "/conn_stat_events"; BPF_MAP_PATH +:+ "/sk_data_events"].

(** The program has not returned. *)
Definition running (st : Stage) : bool := match st with Exited _ => false | _ => true end.
(** It has not passed the wait for Ctrl-C. *)
Definition before_signal (st : Stage) : bool := match st with Opening _ | AwaitCtrlC => true | _ => false end.
Definition holds_probes (st : LState) : bool := match st with Waiting | Woken => true | _ => false end.
(** A loader that goes past [notified().await] by itself. *)
Definition let_go (st : LState) : bool := match st with Woken | Ended => true | _ => false end.

Section main.
Context `{N : Notify} (aya : Aya).
(** The paths that loading an object pins, the CPUs, and the opening of a buffer. *)
Context (pins : string → list string) (cpus : result Error (list Z)) (open : string → Z → result Error unit).

Definition Main_start (ret : Z) (pinned0 : list string) : Main := {|
  mn_loaders := replicate (length loaders) Spawned; mn_notify := notify_new; mn_stage := Opening 0;
  mn_pinned := pinned0; mn_tasks := []; mn_debug := memlock_log ret |}.

(** The links of the loaders that hold their object. *)
Definition attached (m : Main) : list (string * string) :=
  if running (mn_stage m) then
    concat (zip_with (λ l st, if holds_probes st then links aya l else []) loaders (mn_loaders m))
  else [].

Definition perf_env (m : Main) : PerfEnv :=
  {| online_cpus := cpus; pinned := λ path, bool_decide (path ∈ mn_pinned m); open_buffer := open |}.

(** [Bpf::load] pins the maps of the object. *)
Definition pinned_by (l : Loader) : list string :=
  match load_object aya (object l) with Ok _ => pins (object l) | Err _ => [] end.

(** A spawned loader up to its [notified().await]. *)
Definition loader_turn (i : nat) (l : Loader) (m : Main) : Main :=
  match run aya l [] with
  | (Err _, _) =>
      {| mn_loaders := <[i := Failed]> (mn_loaders m); mn_notify := mn_notify m; mn_stage := mn_stage m;
         mn_pinned := mn_pinned m ++ pinned_by l; mn_tasks := mn_tasks m; mn_debug := mn_debug m |}
  | (Ok _, _) =>
      let '(at_once, n) := wait i (mn_notify m) in
      {| mn_loaders := <[i := if at_once then Ended else Waiting]> (mn_loaders m); mn_notify := n;
         mn_stage := mn_stage m; mn_pinned := mn_pinned m ++ pinned_by l; mn_tasks := mn_tasks m;
         mn_debug := mn_debug m |}
  end.

(** The [n]-th [process_perf_events(..).await?]. *)
Definition open_turn (n : nat) (path : string) (m : Main) : Main :=
  let '(r, tasks) := process_perf_events (perf_env m) path (mn_tasks m) in
  {| mn_loaders := mn_loaders m; mn_notify := mn_notify m;
     mn_stage := match r with
                 | Ok _ => if decide (S n = length event_maps) then AwaitCtrlC else Opening (S n)
                 | Err e => Exited (Err e)
                 end;
     mn_pinned := mn_pinned m; mn_tasks := tasks; mn_debug := mn_debug m |}.

(** [signal::ctrl_c().await?] and [notify.notify_one()]. *)
Definition ctrl_c_turn (r : result Error unit) (m : Main) : Main :=
  match r with
  | Err e =>
      {| mn_loaders := mn_loaders m; mn_notify := mn_notify m; mn_stage := Exited (Err e);
         mn_pinned := mn_pinned m; mn_tasks := mn_tasks m; mn_debug := mn_debug m |}
  | Ok _ =>
      let '(woken, n) := notify_one (mn_notify m) in
      {| mn_loaders := match woken with Some i => <[i := Woken]> (mn_loaders m) | None => mn_loaders m end;
         mn_notify := n; mn_stage := Notified; mn_pinned := mn_pinned m; mn_tasks := mn_tasks m;
         mn_debug := mn_debug m |}
  end.

Definition set_loader (i : nat) (st : LState) (m : Main) : Main :=
  {| mn_loaders := <[i := st]> (mn_loaders m); mn_notify := mn_notify m; mn_stage := mn_stage m;
     mn_pinned := mn_pinned m; mn_tasks := mn_tasks m; mn_debug := mn_debug m |}.
Definition exit_with (r : result Error unit) (m : Main) : Main :=
  {| mn_loaders := mn_loaders m; mn_notify := mn_notify m; mn_stage := Exited r;
     mn_pinned := mn_pinned m; mn_tasks := mn_tasks m; mn_debug := mn_debug m |}.

Inductive mstep : Main → Main → Prop :=
  | m_loader i l m : running (mn_stage m) = true → mn_loaders m !! i = Some Spawned → loaders !! i = Some l →
      mstep m (loader_turn i l m)
  | m_open n path m : mn_stage m = Opening n → event_maps !! n = Some path → mstep m (open_turn n path m)
  | m_ctrl_c r m : mn_stage m = AwaitCtrlC → mstep m (ctrl_c_turn r m)
  | m_woken i m : running (mn_stage m) = true → mn_loaders m !! i = Some Woken → mstep m (set_loader i Ended m)
  | m_return m : mn_stage m = Notified → mstep m (exit_with (Ok ()) m).
End main.

(** ** Lemmas *)

(** How many elements of a list satisfy a test, when one of them changes. *)
Definition count {A} (P : A → bool) (l : list A) : nat := length (filter (λ x, P x = true) l).

Lemma count_insert {A} (P : A → bool) l i x y : l !! i = Some y →
  (count P (<[i := x]> l) + Nat.b2n (P y) = count P l + Nat.b2n (P x))%nat.
Proof.
  unfold count. revert i. induction l as [|z l IH]; intros i; [done|]. destruct i as [|i]; simpl.
  - intros [= ->]. rewrite !filter_cons. destruct (P x), (P y); simpl; lia.
  - intros Hi. specialize (IH i Hi). rewrite !filter_cons. destruct (decide (P z = true)); simpl; lia.
Qed.

Lemma count_zero {A} (P : A → bool) l i x : count P l = 0%nat → l !! i = Some x → P x = false.
Proof.
  unfold count. intros H0 Hx. destruct (P x) eqn:E; [|done].
  apply nil_length_inv in H0. exfalso. apply (not_elem_of_nil x). rewrite <- H0.
  apply list_elem_of_filter. split; [done|]. by eapply list_elem_of_lookup_2.
Qed.

Lemma elem_of_zip_concat {A B C} (f : A → B → list C) (l : list A) (k : list B) x :
  x ∈ concat (zip_with f l k) ↔ ∃ i a b, l !! i = Some a ∧ k !! i = Some b ∧ x ∈ f a b.
Proof.
  revert k. induction l as [|a l IH]; intros [|b k]; simpl;
    [set_solver| | |]; try (split; [by intros ?%not_elem_of_nil|intros (i & ? & ? & Ha & Hb & _); destruct i; done]).
  rewrite elem_of_app, IH. split.
  - intros [Hx|(i & a' & b' & Hx)]; [by exists 0%nat, a, b|by exists (S i), a', b'].
  - intros ([|i] & a' & b' & Ha & Hb & Hx); simplify_eq/=; [by left|right; by exists i, a', b'].
Qed.

Lemma open_buffers_ok env path cs tasks tasks' :
  open_buffers env path cs tasks = (Ok (), tasks') → tasks' = tasks ++ ((path,.) <$> cs).
Proof.
  revert tasks. induction cs as [|c cs IH]; intros tasks; cbn [open_buffers].
  { intros [= <-]. by rewrite app_nil_r. }
  intros H. run_inv. apply IH in H. rewrite H, <- app_assoc. done.
Qed.

Lemma process_perf_events_ok env path tasks r tasks' :
  process_perf_events env path tasks = (Ok r, tasks') →
  ∃ cs, online_cpus env = Ok cs ∧ pinned env path = true ∧ tasks' = tasks ++ ((path,.) <$> cs).
Proof.
  unfold process_perf_events. intros H. run_inv. destruct (pinned env path); [|done].
  apply open_buffers_ok in H. eauto.
Qed.

Section invariant.
Context `{N : Notify} `{NL : !NotifyLaws N} (aya : Aya).
Context (pins : string → list string) (cpus : result Error (list Z)) (open : string → Z → result Error unit).
Context (ret : Z) (pinned0 : list string).
Implicit Types m : Main.

(** A path that is pinned was so before, or some loader's object pinned it. *)
Definition accounted m (path : string) : Prop :=
  path ∈ pinned0 ∨ ∃ i l st, loaders !! i = Some l ∧ mn_loaders m !! i = Some st ∧ st ≠ Spawned ∧
    path ∈ pinned_by aya pins l.

(** The first [n] maps are pinned and have a task for every CPU. *)
Definition opened (n : nat) m : Prop :=
  (∀ path, path ∈ take n event_maps → path ∈ mn_pinned m) ∧
  ((0 < n)%nat → ∃ cs, cpus = Ok cs ∧ mn_tasks m = take n event_maps ≫= λ path, (path,.) <$> cs) ∧
  (n = 0%nat → mn_tasks m = []).

Record main_ok m : Prop := {
  mo_length : length (mn_loaders m) = length loaders;
  mo_waiting i : i ∈ waiting (mn_notify m) ↔ mn_loaders m !! i = Some Waiting;
  mo_nodup : NoDup (waiting (mn_notify m));
  mo_before : before_signal (mn_stage m) = true →
    (count let_go (mn_loaders m) + Nat.b2n (permit (mn_notify m)) = 0)%nat;
  mo_one : (count let_go (mn_loaders m) + Nat.b2n (permit (mn_notify m)) ≤ 1)%nat;
  mo_pins path : path ∈ mn_pinned m → accounted m path;
  mo_opened : match mn_stage m with
              | Opening n => opened n m
              | AwaitCtrlC | Notified => opened (length event_maps) m
              | Exited _ => True
              end }.

Lemma Main_start_ok : main_ok (Main_start ret pinned0).
Proof.
  destruct notify_new_idle as [Hp Hw]. split; simpl; rewrite ?Hp, ?Hw.
  - done.
  - intros i. split; [by intros ?%not_elem_of_nil|].
    change (replicate (length loaders) Spawned !! i = Some Waiting → i ∈ []).
    by intros [[=] _]%lookup_replicate.
  - constructor. - done. - simpl; lia. - intros path Hx. by left.
  - split_and!; [by intros path ?%not_elem_of_nil|lia|done].
Qed.

(** A change of a loader that is not waiting before. *)
Lemma accounted_insert m m' i st path : mn_loaders m' = <[i := st]> (mn_loaders m) → st ≠ Spawned →
  accounted m path → accounted m' path.
Proof.
  intros Hl Hst [H|(j & l & st' & H1 & H2 & H3 & H4)]; [by left|right].
  destruct (decide (i = j)) as [->|Hne].
  - exists j, l, st. split_and!; try done. rewrite Hl. apply list_lookup_insert_eq. by eapply lookup_lt_Some.
  - exists j, l, st'. split_and!; try done. by rewrite Hl, list_lookup_insert_ne.
Qed.

Lemma opened_mono n m m' : mn_tasks m' = mn_tasks m → (∀ path, path ∈ mn_pinned m → path ∈ mn_pinned m') →
  opened n m → opened n m'.
Proof. intros Ht Hp (H1 & H2 & H3). split_and!; rewrite ?Ht; auto. Qed.

Lemma loader_moves_ok m i l st n : main_ok m → mn_loaders m !! i = Some Spawned → loaders !! i = Some l →
  st ≠ Spawned → waiting n ≡ₚ (if decide (st = Waiting) then [i] else []) ++ waiting (mn_notify m) →
  (Nat.b2n (let_go st) + Nat.b2n (permit n) = Nat.b2n (permit (mn_notify m)))%nat →
  main_ok {| mn_loaders := <[i := st]> (mn_loaders m); mn_notify := n; mn_stage := mn_stage m;
             mn_pinned := mn_pinned m ++ pinned_by aya pins l; mn_tasks := mn_tasks m; mn_debug := mn_debug m |}.
Proof.
  intros [Hlen Hw Hnd Hb Ho Hp Hopen] Hi Hl Hst Hwait Hfree.
  pose proof (count_insert let_go _ _ st _ Hi) as Hc. simpl in Hc.
  assert (i ∉ waiting (mn_notify m)) as Hni by (rewrite Hw, Hi; done).
  assert (i < length (mn_loaders m))%nat as Hlt by (by eapply lookup_lt_Some). split; simpl.
  - by rewrite length_insert.
  - intros j. rewrite Hwait, elem_of_app, Hw. destruct (decide (j = i)) as [->|Hne].
    + rewrite list_lookup_insert_eq by done. case_decide; set_solver.
    + rewrite list_lookup_insert_ne by done. case_decide; set_solver.
  - rewrite Hwait. case_decide; [|done]. by constructor.
  - intros H. specialize (Hb H). lia.
  - lia.
  - intros path [Hx|Hx]%elem_of_app.
    + eapply accounted_insert; [reflexivity|done|by apply Hp].
    + right. exists i, l, st. split_and!; try done. by apply list_lookup_insert_eq.
  - destruct (mn_stage m); try done; (eapply opened_mono; [| |exact Hopen]; [done|]; intros path Hx; simpl; set_solver).
Qed.

Lemma loader_turn_ok m i l : main_ok m → mn_loaders m !! i = Some Spawned → loaders !! i = Some l →
  main_ok (loader_turn aya pins i l m).
Proof.
  intros Hm Hi Hl. unfold loader_turn. destruct (run aya l []) as [[|] ?]; [|by apply loader_moves_ok].
  destruct (permit (mn_notify m)) eqn:Hp.
  - destruct (wait_permit i _ Hp) as (H1 & H2 & H3). destruct (wait i (mn_notify m)) as [b n]. simpl in *. subst b.
    apply loader_moves_ok; try done; simpl; by rewrite ?H2, ?H3, ?Hp.
  - destruct (wait_queued i _ Hp) as (H1 & H2 & H3). destruct (wait i (mn_notify m)) as [b n]. simpl in *. subst b.
    apply loader_moves_ok; try done; simpl; by rewrite ?H2, ?H3, ?Hp.
Qed.

Lemma open_turn_ok m n path : main_ok m → mn_stage m = Opening n → event_maps !! n = Some path →
  main_ok (open_turn cpus open n path m).
Proof.
  intros [Hlen Hw Hnd Hb Ho Hp Hopen] Hst Hpath. rewrite Hst in *. simpl in Hb.
  unfold open_turn. destruct (process_perf_events _ _ _) as [[u|e] tasks] eqn:Hr; [|by split].
  apply process_perf_events_ok in Hr as (cs & Hcs & Hpin & ->). simpl in Hcs, Hpin.
  apply bool_decide_eq_true in Hpin. split; simpl; try done.
  { case_decide; done. }
  assert (opened (S n) {| mn_loaders := mn_loaders m; mn_notify := mn_notify m; mn_stage := mn_stage m;
    mn_pinned := mn_pinned m; mn_tasks := mn_tasks m ++ ((path,.) <$> cs); mn_debug := mn_debug m |}) as Hn.
  { destruct Hopen as (H1 & H2 & H3). unfold opened. cbn [mn_pinned mn_tasks].
    rewrite (take_S_r _ _ path) by done. split_and!; [|intros _|done].
    - intros p [Hx|Hx]%elem_of_app; [by apply H1|]. by apply list_elem_of_singleton in Hx as ->.
    - exists cs. split; [done|]. rewrite bind_app, bind_singleton. f_equal.
      destruct n as [|n]; [by apply H3|]. destruct H2 as (cs' & Hcs' & ->); [lia|].
      by assert (cs' = cs) as -> by congruence. }
  case_decide as Hlast; [|exact Hn]. rewrite Hlast in Hn. exact Hn.
Qed.

Lemma ctrl_c_turn_ok m r : main_ok m → mn_stage m = AwaitCtrlC → main_ok (ctrl_c_turn r m).
Proof.
  intros [Hlen Hw Hnd Hb Ho Hp Hopen] Hst. rewrite Hst in *. specialize (Hb eq_refl).
  destruct r as [u|e]; simpl; [|by split].
  destruct (waiting (mn_notify m)) as [|w ws] eqn:Hws.
  - destruct (notify_nobody _ Hws) as (H1 & H2 & H3). destruct (notify_one (mn_notify m)) as [o n]. simpl in *. subst o.
    split; simpl; rewrite ?H2, ?H3; try done. simpl. lia.
  - destruct (notify_waiting (mn_notify m)) as (i & H1 & H2 & H3); [by rewrite Hws|].
    destruct (notify_one (mn_notify m)) as [o n]. simpl in *. subst o. rewrite Hws in H2.
    assert (mn_loaders m !! i = Some Waiting) as Hi. { apply Hw. rewrite H2. by left. }
    pose proof (count_insert let_go _ _ Woken _ Hi) as Hc. simpl in Hc.
    rewrite H2 in Hnd. apply NoDup_cons in Hnd as [Hni Hnd].
    assert (i < length (mn_loaders m))%nat as Hlt by (by eapply lookup_lt_Some). split; simpl; try done.
    + by rewrite length_insert.
    + intros j. destruct (decide (j = i)) as [->|Hne].
      * rewrite list_lookup_insert_eq by done. split; done.
      * rewrite list_lookup_insert_ne by done. rewrite <- Hw, H2. set_solver.
    + rewrite H3. lia.
    + intros path Hx. eapply accounted_insert; [reflexivity|done|by apply Hp].
Qed.

Lemma woken_ok m i : main_ok m → mn_loaders m !! i = Some Woken → main_ok (set_loader i Ended m).
Proof.
  intros [Hlen Hw Hnd Hb Ho Hp Hopen] Hi. pose proof (count_insert let_go _ _ Ended _ Hi) as Hc. simpl in Hc.
  assert (i < length (mn_loaders m))%nat as Hlt by (by eapply lookup_lt_Some). split; simpl; try done.
  - by rewrite length_insert.
  - intros j. rewrite Hw. destruct (decide (j = i)) as [->|Hne].
    + rewrite list_lookup_insert_eq, Hi by done. done.
    + by rewrite list_lookup_insert_ne.
  - intros H. specialize (Hb H). lia.
  - lia.
  - intros path Hx. eapply accounted_insert; [reflexivity|done|by apply Hp].
Qed.

Lemma mstep_ok m m' : mstep aya pins cpus open m m' → main_ok m → main_ok m'.
Proof.
  intros [i l m0 Hrun Hi Hl|n path m0 Hst Hpath|r m0 Hst|i m0 Hrun Hi|m0 Hst] Hm.
  - by apply loader_turn_ok. - by apply open_turn_ok. - by apply ctrl_c_turn_ok. - by apply woken_ok.
  - destruct Hm as [Hlen Hw Hnd Hb Ho Hp Hopen]. by split.
Qed.

Lemma main_run_ok m : rtc (mstep aya pins cpus open) (Main_start ret pinned0) m → main_ok m.
Proof. apply rtc_ind_r; [apply Main_start_ok|]. intros m1 m2 _ Hstep Hm. by eapply mstep_ok. Qed.

(** *** What is attached *)

Lemma elem_of_attached m x : x ∈ attached aya m ↔ running (mn_stage m) = true ∧
  ∃ i l st, loaders !! i = Some l ∧ mn_loaders m !! i = Some st ∧ holds_probes st = true ∧ x ∈ links aya l.
Proof.
  unfold attached. destruct (running (mn_stage m)); [|set_solver]. rewrite elem_of_zip_concat. split.
  - intros (i & l & st & Hl & Hst & Hx). destruct (holds_probes st) eqn:?; [|by apply not_elem_of_nil in Hx]. eauto 10.
  - intros (_ & i & l & st & Hl & Hst & Hh & Hx). exists i, l, st. by rewrite Hh.
Qed.

Lemma mstep_attached m m' : mstep aya pins cpus open m m' → main_ok m → before_signal (mn_stage m') = true →
  before_signal (mn_stage m) = true ∧
  ∀ i, mn_loaders m !! i = Some Waiting → mn_loaders m' !! i = Some Waiting.
Proof.
  intros [j l m0 Hrun Hj Hl|n path m0 Hst Hpath|r m0 Hst|j m0 Hrun Hj|m0 Hst] Hm; simpl.
  - unfold loader_turn. destruct (run aya l []) as [[|] ?]; [destruct (wait _ _)|]; simpl; intros Hb; split; try done;
      intros i Hi; rewrite list_lookup_insert_ne; congruence.
  - unfold open_turn. destruct (process_perf_events _ _ _). simpl. rewrite Hst. done.
  - destruct r; simpl; [by destruct (notify_one _)|done].
  - intros Hb. pose proof (mo_before _ Hm Hb) as H0.
    assert (count let_go (mn_loaders m0) = 0%nat) as Hc by lia.
    by apply (count_zero _ _ _ _ Hc) in Hj.
  - done.
Qed.

(** C35: the life of the program.  Until Ctrl-C no loader goes past its wait, so the
    probes it has attached stay attached; then at most one of the nineteen
    loaders is let go, the others keep waiting until the program returns, which
    drops them all.  When the program waits for Ctrl-C, each of the three event
    maps has a task on every CPU and was pinned by a loader's object or before
    the start. *)
Theorem one_loader_let_go m : rtc (mstep aya pins cpus open) (Main_start ret pinned0) m →
  (count let_go (mn_loaders m) ≤ 1)%nat ∧
  (before_signal (mn_stage m) = true →
     count let_go (mn_loaders m) = 0%nat ∧
     ∀ m' x, rtc (mstep aya pins cpus open) m m' → before_signal (mn_stage m') = true →
       x ∈ attached aya m → x ∈ attached aya m') ∧
  (mn_stage m = AwaitCtrlC ∨ mn_stage m = Notified →
     (∃ cs, cpus = Ok cs ∧ mn_tasks m = event_maps ≫= λ path, (path,.) <$> cs) ∧
     ∀ path, path ∈ event_maps → path ∈ pinned0 ∨
       ∃ i l st, loaders !! i = Some l ∧ mn_loaders m !! i = Some st ∧ st ≠ Spawned ∧
         path ∈ pinned_by aya pins l) ∧
  (∀ r, mn_stage m = Exited r → attached aya m = []).
Proof.
  intros Hr. pose proof (main_run_ok m Hr) as Hm. split_and!.
  - pose proof (mo_one m Hm). lia.
  - intros Hb. pose proof (mo_before m Hm Hb) as H0. split; [lia|]. intros m' x Hr' Hb' Hx.
    assert (before_signal (mn_stage m) = true ∧
            ∀ i, mn_loaders m !! i = Some Waiting → mn_loaders m' !! i = Some Waiting) as [_ Hkeep].
    { clear Hx Hr H0 Hb. revert Hm. induction Hr' as [m|m1 m2 m3 Hstep _ IH]; [done|]. intros Hm.
      destruct (IH Hb' (mstep_ok _ _ Hstep Hm)) as [Hb2 H23].
      destruct (mstep_attached _ _ Hstep Hm Hb2) as [Hb1 H12]. split; [done|]. intros i Hi. by apply H23, H12. }
    apply elem_of_attached in Hx as (_ & i & l & st & Hl & Hst & Hh & Hx). apply elem_of_attached.
    split; [by destruct (mn_stage m')|]. exists i, l, Waiting. split_and!; try done. apply Hkeep.
    assert (count let_go (mn_loaders m) = 0%nat) as Hc by lia.
    apply (count_zero _ _ _ _ Hc) in Hst as Hlg. by destruct st.
  - intros Hst. assert (opened (length event_maps) m) as (H1 & H2 & _).
    { pose proof (mo_opened m Hm) as Ho. destruct Hst as [Hst|Hst]; by rewrite Hst in Ho. }
    rewrite take_ge in H1, H2 by done. split; [apply H2; simpl; lia|]. intros path Hx. by apply (mo_pins m Hm), H1.
  - intros r Hst. unfold attached. by rewrite Hst.
Qed.
End invariant.

(** ** Witness *)

(** Waiting tasks are woken in the order they came. *)
Definition fifo_notify : Notify := {|
  NState := bool * list nat; notify_new := (false, []);
  wait i n := if n.1 then (true, (false, n.2)) else (false, (false, n.2 ++ [i]));
  notify_one n := match n.2 with i :: rest => (Some i, (n.1, rest)) | [] => (None, (true, [])) end;
  permit := fst; waiting := snd |}.
Lemma fifo_notify_laws : NotifyLaws fifo_notify.
Proof.
  split; simpl.
  - done.
  - by intros i [[] ws].
  - intros i [[] ws]; [done|]. simpl. intros _. split_and!; [done..|]. by rewrite Permutation_app_comm.
  - intros [b [|i ws]] H; [done|]. simpl. by exists i.
  - by intros [b ws] [= ->].
Qed.

(** The first loader attaches its probes and pins the maps, [main] gets as far as
    Ctrl-C, and the second loader attaches its probes only then. *)
Definition ex_pins (obj : string) : list string := event_maps.
Definition ex_open (_ : string) (_ : Z) : result Error unit := Ok ().
Definition ex_main_at (steps : nat) : Main (N := fifo_notify) :=
  foldl (λ m f, f m) (Main_start (N := fifo_notify) 0 [])
    (take steps
      [loader_turn (N := fifo_notify) ex_aya ex_pins 0 connect_run;
       open_turn (N := fifo_notify) (Ok [0%Z; 1%Z]) ex_open 0 (BPF_MAP_PATH +:+ "/sk_ctrl_events");
       open_turn (N := fifo_notify) (Ok [0%Z; 1%Z]) ex_open 1 (BPF_MAP_PATH +:+ "/conn_stat_events");
       open_turn (N := fifo_notify) (Ok [0%Z; 1%Z]) ex_open 2 (BPF_MAP_PATH +:+ "/sk_data_events");
       loader_turn (N := fifo_notify) ex_aya ex_pins 1 accept_run]).

Lemma ex_main_run :
  rtc (mstep (N := fifo_notify) ex_aya ex_pins (Ok [0%Z; 1%Z]) ex_open) (Main_start (N := fifo_notify) 0 []) (ex_main_at 5).
Proof.
  eapply rtc_l; [by apply (m_loader _ _ _ _ 0 connect_run)|].
  eapply rtc_l; [by apply (m_open _ _ _ _ 0 (BPF_MAP_PATH +:+ "/sk_ctrl_events"))|].
  eapply rtc_l; [by apply (m_open _ _ _ _ 1 (BPF_MAP_PATH +:+ "/conn_stat_events"))|].
  eapply rtc_l; [by apply (m_open _ _ _ _ 2 (BPF_MAP_PATH +:+ "/sk_data_events"))|].
  apply rtc_once. by apply (m_loader _ _ _ _ 1 accept_run).
Qed.

Lemma one_loader_witness :
  mn_stage (ex_main_at 5) = AwaitCtrlC ∧ count let_go (mn_loaders (ex_main_at 5)) = 0%nat ∧
  length (attached ex_aya (ex_main_at 5)) = 4%nat ∧ length (mn_tasks (ex_main_at 5)) = 6%nat.
Proof.
  destruct (one_loader_let_go (N := fifo_notify) (NL := fifo_notify_laws) ex_aya ex_pins (Ok [0%Z; 1%Z]) ex_open 0 []
    (ex_main_at 5) ex_main_run) as (_ & Hb & Ht & _).
  assert (mn_stage (ex_main_at 5) = AwaitCtrlC) as Hst by reflexivity.
  split; [exact Hst|]. split; [apply Hb; reflexivity|]. split; [vm_compute; reflexivity|].
  destruct Ht as [(cs & [= <-] & ->) _]; [by left|]. reflexivity.
Defined.
