(* ===== verification/PerfArray.v ===== *)
(** * Perf event arrays and bounded reads of the socket tracer

    [socket-tracer-ebpf/src/helpers.rs]: [MyPerfEventArray], whose outputs may be
    shorter than its element type, and the read into a buffer that is cut at the
    buffer's end.  The two kernel helpers behind them are parameters. *)
From S2P Require Import Prelude.
From stdpp Require Import base gmap list.
From Stdlib Require Import ZArith Lia.

Local Open Scope Z_scope.

(** ** The definition of a map *)

Inductive PinningType := PinNone | ByName.
Definition PinningType_as_u32 (p : PinningType) : Z := match p with PinNone => 0 | ByName => 1 end.

(** [bpf_map_type::BPF_MAP_TYPE_PERF_EVENT_ARRAY] and [BPF_F_CURRENT_CPU], constants of
    the kernel's interface. *)
Definition BPF_MAP_TYPE_PERF_EVENT_ARRAY : Z := 4.
Definition BPF_F_CURRENT_CPU : Z := 4294967295.

Record bpf_map_def := {
  type_ : Z; key_size : Z; value_size : Z; max_entries : Z; map_flags : Z; map_id : Z;
  pinning : Z }.

Definition with_max_entries (max_entries flags : Z) : bpf_map_def := {|
  type_ := BPF_MAP_TYPE_PERF_EVENT_ARRAY; key_size := 4; value_size := 4;
  max_entries := max_entries; map_flags := flags; map_id := 0;
  pinning := PinningType_as_u32 PinNone |}.
Definition perf_new (flags : Z) : bpf_map_def := with_max_entries 0 flags.
Definition pinned (max_entries flags : Z) : bpf_map_def := {|
  type_ := BPF_MAP_TYPE_PERF_EVENT_ARRAY; key_size := 4; value_size := 4;
  max_entries := max_entries; map_flags := flags; map_id := 0;
  pinning := PinningType_as_u32 ByName |}.

(** ** Output *)

(** The rings of a perf event array, one per CPU, and what each has received. *)
Definition Rings : Type := gmap Z (list (list Z)).

(** [bpf_perf_event_output] on a CPU: the flags word, the bytes of the object that
    is pointed to, and how many of them to send.  Its result is dropped. *)
Class PerfOutput := {
  perf_event_output (cpu : Z) (flags : Z) (data : list Z) (size : Z) : Rings → Rings }.

(** The low half of the flags is an index, or [BPF_F_CURRENT_CPU]; no other flag is
    defined, and an index that has no ring is an error. *)
Class PerfOutputLaws (K : PerfOutput) : Prop := {
  perf_output_current cpu data size r samples :
    r !! cpu = Some samples → 0 ≤ size ≤ Z.of_nat (length data) →
    perf_event_output cpu BPF_F_CURRENT_CPU data size r =
      <[cpu := samples ++ [take (Z.to_nat size) data]]> r;
  perf_output_flags cpu flags data size r :
    Z.shiftr flags 32 ≠ 0 → perf_event_output cpu flags data size r = r;
  perf_output_no_ring cpu data size r :
    r !! cpu = None → perf_event_output cpu BPF_F_CURRENT_CPU data size r = r }.

Section output.
Context `{K : PerfOutput}.
(** [size_of::<T>()] *)
Context (size_of_T : Z).

Definition flags_word (index flags : Z) : Z := Z.lor (Z.shiftl flags 32) index.

Definition output_at_index (cpu index : Z) (data : list Z) (flags : Z) : Rings → Rings :=
  perf_event_output cpu (flags_word index flags) data size_of_T.
Definition output (cpu : Z) (data : list Z) (flags : Z) : Rings → Rings :=
  output_at_index cpu BPF_F_CURRENT_CPU data flags.
Definition output_at_index_with_size (cpu index : Z) (data : list Z) (size flags : Z) : Rings → Rings :=
  perf_event_output cpu (flags_word index flags) data size.
Definition output_with_size (cpu : Z) (data : list Z) (size flags : Z) : Rings → Rings :=
  output_at_index_with_size cpu BPF_F_CURRENT_CPU data size flags.
End output.

(** ** Reading into a buffer *)

(** [bpf_probe_read]: its return value and what it leaves in the destination. *)
Class ProbeRead := { probe_read (src n : Z) : Z * list Z }.
Class ProbeReadLaws (R : ProbeRead) : Prop := {
  probe_read_length src n : 0 ≤ n → Z.of_nat (length (probe_read src n).2) = n }.

Definition bpf_probe_read_buf_with_size `{R : ProbeRead} (src : Z) (dst : list Z) (size : Z) :
    result Z unit * list Z :=
  let read_size := Z.min size (Z.of_nat (length dst)) in
  let n := wrapu 32 read_size in
  let '(ret, bytes) := probe_read src n in
  (if ret =? 0 then Ok () else Err ret, bytes ++ drop (Z.to_nat n) dst).

(** ** Lemmas *)

Lemma flags_word_parts index flags : 0 ≤ index < 2 ^ 32 → 0 ≤ flags < 2 ^ 32 →
  Z.land (flags_word index flags) (2 ^ 32 - 1) = index ∧
  Z.shiftr (flags_word index flags) 32 = flags ∧ 0 ≤ flags_word index flags < 2 ^ 64.
Proof.
  intros Hi Hf. unfold flags_word.
  assert (Z.lor (Z.shiftl flags 32) index = flags * 2 ^ 32 + index) as ->.
  { rewrite <- Z.add_lor_land, Z.shiftl_mul_pow2 by lia.
    assert (Z.land (flags * 2 ^ 32) index = 0) as ->; [|lia].
    apply Z.bits_inj'. intros n Hn. rewrite Z.land_spec, Z.bits_0, <- Z.shiftl_mul_pow2 by lia.
    destruct (Z.lt_ge_cases n 32).
    - by rewrite Z.shiftl_spec_low.
    - rewrite (Z.bits_above_log2 index n), andb_false_r; [done|lia|].
      destruct (decide (index = 0)) as [->|]; [simpl; lia|]. apply Z.log2_lt_pow2; [lia|].
      eapply Z.lt_le_trans; [apply Hi|]. by apply Z.pow_le_mono_r. }
  split_and!; [| |lia|lia].
  - change (2 ^ 32 - 1) with (Z.ones 32). rewrite Z.land_ones, Z.add_comm, Z.mod_add by lia.
    by apply Z.mod_small.
  - rewrite Z.shiftr_div_pow2, Z.div_add_l, Z.div_small by lia. lia.
Qed.

Lemma flags_word_current : flags_word BPF_F_CURRENT_CPU 0 = BPF_F_CURRENT_CPU.
Proof. reflexivity. Qed.

Lemma read_size_bounds (dst : list Z) size : 0 ≤ size → Z.of_nat (length dst) < 2 ^ 32 →
  wrapu 32 (Z.min size (Z.of_nat (length dst))) = Z.min size (Z.of_nat (length dst)).
Proof. intros. apply wrapu_id. unfold in_u. lia. Qed.

(** ** Properties *)

(** An output on the current CPU with no flags adds one sample, the first [size]
    bytes of the object, to that CPU's ring and to no other; a flag loses it. *)
Lemma output_with_size_spec `{K : PerfOutput, !PerfOutputLaws K} cpu data size r samples :
  r !! cpu = Some samples → 0 ≤ size ≤ Z.of_nat (length data) →
  output_with_size cpu data size 0 r = <[cpu := samples ++ [take (Z.to_nat size) data]]> r ∧
  output (Z.of_nat (length data)) cpu data 0 r = <[cpu := samples ++ [data]]> r ∧
  ∀ flags, 0 < flags < 2 ^ 32 → output_with_size cpu data size flags r = r.
Proof.
  intros Hr Hs. unfold output_with_size, output_at_index_with_size, output, output_at_index.
  rewrite flags_word_current. split_and!.
  - by apply perf_output_current.
  - rewrite (perf_output_current _ _ _ _ samples) by (done || lia).
    by rewrite Nat2Z.id, take_ge.
  - intros flags Hf. apply perf_output_flags.
    destruct (flags_word_parts BPF_F_CURRENT_CPU flags) as (_ & -> & _); unfold BPF_F_CURRENT_CPU; lia.
Qed.

(** A read into a buffer never writes past its end: whatever size is asked for
    and whether the read succeeds or faults, the buffer keeps its length and
    every byte from [size] on, and a read that succeeds within the buffer
    fills exactly [size] bytes. *)
Lemma probe_read_buf_bounds `{R : ProbeRead, !ProbeReadLaws R} src dst size :
  0 ≤ size → Z.of_nat (length dst) < 2 ^ 32 →
  let '(r, dst') := bpf_probe_read_buf_with_size src dst size in
  length dst' = length dst ∧
  drop (Z.to_nat size) dst' = drop (Z.to_nat size) dst ∧
  (r = Ok () → size ≤ Z.of_nat (length dst) → take (Z.to_nat size) dst' = (probe_read src size).2).
Proof.
  intros Hs Hl. unfold bpf_probe_read_buf_with_size. rewrite read_size_bounds by done.
  set (n := Z.min size _). pose proof (probe_read_length src n ltac:(lia)) as Hb.
  destruct (probe_read src n) as [ret bytes] eqn:Hp. simpl in Hb.
  assert (length bytes = Z.to_nat n) as Hb' by lia. split_and!.
  - rewrite length_app, length_drop. lia.
  - destruct (Z.le_gt_cases size (Z.of_nat (length dst))).
    + assert (n = size) as -> by lia. rewrite drop_app_ge, Hb' by lia.
      by rewrite Nat.sub_diag.
    + rewrite !drop_ge; [done|lia|]. rewrite length_app, length_drop. lia.
  - intros _ Hle. assert (n = size) as E by lia. rewrite <- E, Hp, take_app_le by lia.
    by rewrite take_ge by lia.
Qed.

(** ** Witnesses *)

Definition ex_perf_output : PerfOutput := {|
  perf_event_output cpu flags data size r :=
    if flags =? BPF_F_CURRENT_CPU then
      match r !! cpu with
      | Some samples => <[cpu := samples ++ [take (Z.to_nat size) data]]> r
      | None => r
      end
    else r |}.
Lemma ex_perf_output_laws : PerfOutputLaws ex_perf_output.
Proof.
  split; simpl.
  - by intros ????? -> _.
  - intros cpu flags data size r Hf. destruct (Z.eqb_spec flags BPF_F_CURRENT_CPU) as [->|]; [|done].
    by vm_compute in Hf.
  - by intros ???? ->.
Qed.

Definition ex_probe_read : ProbeRead := {| probe_read src n := (0, replicate (Z.to_nat n) src) |}.
Lemma ex_probe_read_laws : ProbeReadLaws ex_probe_read.
Proof. split. intros src n Hn. simpl. rewrite length_replicate. lia. Qed.

Lemma probe_read_buf_witness :
  length (bpf_probe_read_buf_with_size (R := ex_probe_read) 7 [1; 2; 3; 4] 9).2 = 4%nat ∧
  bpf_probe_read_buf_with_size (R := ex_probe_read) 7 [1; 2; 3; 4] 2 = (Ok (), [7; 7; 3; 4]).
Proof.
  split; [|reflexivity].
  exact (proj1 (@probe_read_buf_bounds ex_probe_read ex_probe_read_laws 7 [1; 2; 3; 4] 9
                  ltac:(lia) ltac:(reflexivity))).
Defined.
