(* ===== verification/Bitfield.v ===== *)
(** * Bit fields of the kernel bindings

    [__BindgenBitfieldUnit] of [vmlinux.rs] (the same code in both tracers): single
    bits and fields of up to 64 bits inside an array of bytes, on either byte
    order.  An access outside the storage panics, here [None]. *)
From S2P Require Import Prelude.
From stdpp Require Import base strings list.
From Stdlib Require Import ZArith Lia.

Local Open Scope Z_scope.

Section unit.
(** [cfg!(target_endian = "big")] *)
Context (big : bool).
Implicit Types (storage : list Z) (index bit_offset bit_width : nat) (val : Z).

Definition bit_index index : nat := if big then 7 - index mod 8 else index mod 8.

Definition get_bit storage index : option bool :=
  byte ← storage !! (index / 8)%nat;
  let mask := Z.shiftl 1 (Z.of_nat (bit_index index)) in
  Some (Z.land byte mask =? mask).

Definition set_bit storage index (b : bool) : option (list Z) :=
  byte ← storage !! (index / 8)%nat;
  let mask := Z.shiftl 1 (Z.of_nat (bit_index index)) in
  Some (<[(index / 8)%nat := if b then Z.lor byte mask else Z.land byte (Z.lnot mask)]> storage).

(** The place in the value of the [i]-th bit of the field. *)
Definition field_index bit_width (i : nat) : nat := if big then bit_width - 1 - i else i.

Fixpoint get_loop storage bit_offset bit_width (n i : nat) val : option Z :=
  match n with
  | O => Some val
  | S n' =>
      b ← get_bit storage (i + bit_offset);
      get_loop storage bit_offset bit_width n' (S i)
        (if b : bool then Z.lor val (Z.shiftl 1 (Z.of_nat (field_index bit_width i))) else val)
  end.
Definition get storage bit_offset bit_width : option Z :=
  get_loop storage bit_offset bit_width bit_width 0 0.

Fixpoint set_loop bit_offset bit_width val (n i : nat) storage : option (list Z) :=
  match n with
  | O => Some storage
  | S n' =>
      let mask := Z.shiftl 1 (Z.of_nat i) in
      storage' ← set_bit storage (field_index bit_width i + bit_offset) (Z.land val mask =? mask);
      set_loop bit_offset bit_width val n' (S i) storage'
  end.
Definition set storage bit_offset bit_width val : option (list Z) :=
  set_loop bit_offset bit_width val bit_width 0 storage.

(** ** Reference: the bits of a storage, and the integer it holds *)

Definition bit storage index : bool :=
  Z.testbit (default 0 (storage !! (index / 8)%nat)) (Z.of_nat (bit_index index)).

Definition is_byte (b : Z) : Prop := 0 ≤ b < 256.

(** ** Lemmas *)

Lemma mask_testbit (n : nat) k : 0 ≤ k →
  Z.testbit (Z.shiftl 1 (Z.of_nat n)) k = bool_decide (k = Z.of_nat n).
Proof.
  intros Hk. rewrite Z.shiftl_1_l. destruct (decide (k = Z.of_nat n)) as [->|Hne].
  - rewrite Z.pow2_bits_true by lia. by rewrite bool_decide_eq_true_2.
  - rewrite Z.pow2_bits_false by lia. by rewrite bool_decide_eq_false_2.
Qed.

Lemma land_mask a (n : nat) :
  (Z.land a (Z.shiftl 1 (Z.of_nat n)) =? Z.shiftl 1 (Z.of_nat n)) = Z.testbit a (Z.of_nat n).
Proof.
  destruct (Z.testbit a (Z.of_nat n)) eqn:Ht.
  - apply Z.eqb_eq, Z.bits_inj'. intros k Hk. rewrite Z.land_spec, mask_testbit by done.
    case_bool_decide; [|by rewrite andb_false_r]. subst. by rewrite Ht.
  - apply Z.eqb_neq. intros E. apply (f_equal (λ z, Z.testbit z (Z.of_nat n))) in E.
    rewrite Z.land_spec, mask_testbit, Ht in E by lia. by rewrite bool_decide_eq_true_2 in E.
Qed.

Lemma in_storage storage index : (index < 8 * length storage)%nat → is_Some (storage !! (index / 8)%nat).
Proof. intros H. apply lookup_lt_is_Some. apply Nat.Div0.div_lt_upper_bound. lia. Qed.

Lemma get_bit_spec storage index :
  get_bit storage index =
    if decide (index < 8 * length storage)%nat then Some (bit storage index) else None.
Proof.
  unfold get_bit, bit. case_decide as H.
  - destruct (in_storage _ _ H) as [b ->]. simpl. by rewrite land_mask.
  - rewrite lookup_ge_None_2; [done|]. apply Nat.div_le_lower_bound; lia.
Qed.

(** Different indices of one byte are different bits of it. *)
Lemma bit_index_inj i j : (i / 8 = j / 8)%nat → bit_index i = bit_index j → i = j.
Proof.
  unfold bit_index. intros Hd Hb. rewrite (Nat.div_mod_eq i 8), (Nat.div_mod_eq j 8), Hd.
  pose proof (Nat.mod_upper_bound i 8). pose proof (Nat.mod_upper_bound j 8).
  destruct big; lia.
Qed.

Lemma bit_index_lt i : (bit_index i < 8)%nat.
Proof. unfold bit_index. pose proof (Nat.mod_upper_bound i 8). destruct big; lia. Qed.

(** The byte after writing one of its bits. *)
Lemma set_byte_testbit byte (n : nat) b k : 0 ≤ k →
  Z.testbit (if b : bool then Z.lor byte (Z.shiftl 1 (Z.of_nat n))
             else Z.land byte (Z.lnot (Z.shiftl 1 (Z.of_nat n)))) k =
  if decide (k = Z.of_nat n) then b else Z.testbit byte k.
Proof.
  intros Hk. destruct b.
  - rewrite Z.lor_spec, mask_testbit by done. case_decide.
    + by rewrite bool_decide_eq_true_2, orb_true_r.
    + by rewrite bool_decide_eq_false_2, orb_false_r.
  - rewrite Z.land_spec, Z.lnot_spec, mask_testbit by done. case_decide.
    + by rewrite bool_decide_eq_true_2, andb_false_r.
    + by rewrite bool_decide_eq_false_2, andb_true_r.
Qed.

(** A byte is an integer without bits from the eighth on. *)
Lemma is_byte_bits z : is_byte z ↔ 0 ≤ z ∧ ∀ k, 8 ≤ k → Z.testbit z k = false.
Proof.
  unfold is_byte. split.
  - intros Hz. split; [lia|]. intros k Hk. destruct (decide (z = 0)) as [->|]; [apply Z.bits_0|].
    apply Z.bits_above_log2; [lia|]. apply Z.log2_lt_pow2; [lia|].
    eapply Z.lt_le_trans; [apply Hz|]. by apply (Z.pow_le_mono_r 2 8 k).
  - intros [Hz Hk]. split; [done|].
    assert (z = Z.land z (Z.ones 8)) as ->.
    { apply Z.bits_inj'. intros n Hn. rewrite Z.land_spec. destruct (Z.lt_ge_cases n 8).
      - rewrite Z.ones_spec_low by lia. by rewrite andb_true_r.
      - rewrite Hk by lia. done. }
    rewrite Z.land_ones by lia. by apply Z.mod_pos_bound.
Qed.

Lemma set_byte_is_byte byte (n : nat) b : is_byte byte → (n < 8)%nat →
  is_byte (if b : bool then Z.lor byte (Z.shiftl 1 (Z.of_nat n))
           else Z.land byte (Z.lnot (Z.shiftl 1 (Z.of_nat n)))).
Proof.
  intros Hb Hn. apply is_byte_bits. split.
  - unfold is_byte in Hb. destruct b.
    + apply Z.lor_nonneg. rewrite Z.shiftl_1_l. split; [lia|]. by apply Z.pow_nonneg.
    + apply Z.land_nonneg. left. lia.
  - intros k Hk. rewrite set_byte_testbit, decide_False by lia. apply is_byte_bits in Hb. by apply Hb.
Qed.

Lemma set_bit_spec storage index b : (index < 8 * length storage)%nat →
  ∃ storage', set_bit storage index b = Some storage' ∧ length storage' = length storage ∧
    (∀ j, bit storage' j = if decide (j = index) then b else bit storage j) ∧
    (Forall is_byte storage → Forall is_byte storage').
Proof.
  intros Hi. unfold set_bit. destruct (in_storage _ _ Hi) as [byte Hbyte]. rewrite Hbyte. simpl.
  eexists. split; [reflexivity|]. split; [apply length_insert|]. split.
  - intros j. unfold bit. destruct (decide (index / 8 = j / 8)%nat) as [Hd|Hd].
    + rewrite <- Hd, list_lookup_insert_eq by (by apply lookup_lt_is_Some; eexists).
      rewrite Hbyte. cbn [from_option id]. rewrite set_byte_testbit by lia. destruct (decide (j = index)) as [->|Hne].
      * by rewrite decide_True.
      * rewrite decide_False; [done|]. intros ?%Nat2Z.inj. by apply Hne, bit_index_inj.
    + rewrite list_lookup_insert_ne by done. rewrite decide_False; [done|]. congruence.
  - intros Hf. apply Forall_insert; [done|]. apply set_byte_is_byte; [|apply bit_index_lt].
    by eapply Forall_lookup_1.
Qed.

Lemma field_index_invol w i : (i < w)%nat →
  field_index w (field_index w i) = i ∧ (field_index w i < w)%nat.
Proof. unfold field_index. destruct big; lia. Qed.

Lemma get_loop_spec storage off w n i val : (i + n = w)%nat → (off + w ≤ 8 * length storage)%nat →
  0 ≤ val →
  ∃ v, get_loop storage off w n i val = Some v ∧ 0 ≤ v ∧
    ∀ k : nat, Z.testbit v (Z.of_nat k) =
      Z.testbit val (Z.of_nat k) ||
      bool_decide (k < w ∧ i ≤ field_index w k)%nat && bit storage (field_index w k + off).
Proof.
  revert i val. induction n as [|n IH]; intros i val Hi Hlen Hv; simpl.
  - eexists. split; [reflexivity|]. split; [done|]. intros k.
    rewrite bool_decide_eq_false_2; [by rewrite orb_false_r|].
    intros [Hk Hf]. pose proof (field_index_invol w k Hk). lia.
  - rewrite get_bit_spec, decide_True by lia. simpl.
    assert (0 ≤ Z.shiftl 1 (Z.of_nat (field_index w i))) as Hm
      by (rewrite Z.shiftl_1_l; by apply Z.pow_nonneg).
    destruct (IH (S i) (if bit storage (i + off) then Z.lor val (Z.shiftl 1 (Z.of_nat (field_index w i)))
                        else val)) as (v & Hg & Hv0 & Hb); [lia|done| |].
    { destruct (bit storage _); [by apply Z.lor_nonneg|done]. }
    exists v. split; [exact Hg|]. split; [done|]. intros k. rewrite Hb.
    destruct (decide (k = field_index w i)) as [->|Hne].
    + destruct (field_index_invol w i) as [-> Hlt]; [lia|].
      rewrite bool_decide_eq_false_2, bool_decide_eq_true_2, orb_false_r by lia. simpl.
      destruct (bit storage (i + off)).
      * rewrite Z.lor_spec, mask_testbit by lia. by rewrite bool_decide_eq_true_2, !orb_true_r.
      * by rewrite orb_false_r.
    + f_equal.
      * destruct (bit storage (i + off)); [|done].
        rewrite Z.lor_spec, mask_testbit, bool_decide_eq_false_2, orb_false_r by lia. done.
      * f_equal. apply bool_decide_ext. split; [lia|]. intros [Hk Hf]. split; [done|].
        destruct (decide (i = field_index w k)) as [->|]; [|lia].
        by destruct (field_index_invol w k Hk) as [E _]; rewrite E in Hne.
Qed.

Lemma set_loop_spec off w val n i storage : (i + n = w)%nat → (off + w ≤ 8 * length storage)%nat →
  ∃ storage', set_loop off w val n i storage = Some storage' ∧ length storage' = length storage ∧
    (∀ j, bit storage' j =
       if decide (off ≤ j < off + w ∧ i ≤ field_index w (j - off))%nat
       then Z.testbit val (Z.of_nat (field_index w (j - off))) else bit storage j) ∧
    (Forall is_byte storage → Forall is_byte storage').
Proof.
  revert i storage. induction n as [|n IH]; intros i storage Hi Hlen; simpl.
  - eexists. split; [reflexivity|]. split; [done|]. split; [|done]. intros j.
    rewrite decide_False; [done|]. intros [Hk Hf].
    pose proof (field_index_invol w (j - off)). lia.
  - destruct (field_index_invol w i) as [Hinv Hlt]; [lia|].
    destruct (set_bit_spec storage (field_index w i + off)
      (Z.land val (Z.shiftl 1 (Z.of_nat i)) =? Z.shiftl 1 (Z.of_nat i))) as (st1 & H1 & L1 & B1 & F1);
      [lia|]. rewrite H1. simpl. destruct (IH (S i) st1) as (st2 & -> & L2 & B2 & F2); [lia..|].
    eexists. split; [reflexivity|]. split; [congruence|]. split; [|auto]. intros j.
    rewrite B2, B1, land_mask. destruct (decide (j = field_index w i + off)%nat) as [->|Hne].
    + replace (field_index w i + off - off)%nat with (field_index w i) by lia. rewrite Hinv.
      rewrite decide_False, decide_True by lia. done.
    + apply decide_ext. split; [lia|]. intros [Hk Hf]. split; [done|].
      destruct (decide (i = field_index w (j - off))) as [->|]; [|lia].
      destruct (field_index_invol w (j - off)) as [E _]; [lia|]. rewrite E in Hne. lia.
Qed.

(** The field as the code reads it, bit by bit. *)
Lemma get_bits storage off w : (off + w ≤ 8 * length storage)%nat →
  ∃ v, get storage off w = Some v ∧ 0 ≤ v ∧
    ∀ k : nat, Z.testbit v (Z.of_nat k) =
      bool_decide (k < w)%nat && bit storage (field_index w k + off).
Proof.
  intros Hlen. destruct (get_loop_spec storage off w w 0 0) as (v & Hg & Hv & Hb); [lia..|].
  exists v. split; [exact Hg|]. split; [done|]. intros k. rewrite Hb, Z.bits_0. simpl. f_equal.
  apply bool_decide_ext. lia.
Qed.

Lemma set_bits storage off w val : (off + w ≤ 8 * length storage)%nat →
  ∃ storage', set storage off w val = Some storage' ∧ length storage' = length storage ∧
    (∀ j, bit storage' j = if decide (off ≤ j < off + w)%nat
                           then Z.testbit val (Z.of_nat (field_index w (j - off))) else bit storage j) ∧
    (Forall is_byte storage → Forall is_byte storage').
Proof.
  intros Hlen. destruct (set_loop_spec off w val w 0 storage) as (st & Hs & Hl & Hb & Hf); [lia..|].
  exists st. split_and!; [exact Hs|done| |done]. intros j. rewrite Hb. apply decide_ext. lia.
Qed.

(** Two non-negative integers with the same bits. *)
Lemma bits_eq_nat u v : 0 ≤ u → 0 ≤ v →
  (∀ k : nat, Z.testbit u (Z.of_nat k) = Z.testbit v (Z.of_nat k)) → u = v.
Proof.
  intros Hu Hv H. apply Z.bits_inj'. intros n Hn. rewrite <- (Z2Nat.id n) by done. apply H.
Qed.

Lemma bits_ext storage storage' off w : length storage' = length storage →
  (∀ k, (k < w)%nat → bit storage' (field_index w k + off) = bit storage (field_index w k + off)) →
  (off + w ≤ 8 * length storage)%nat → get storage' off w = get storage off w.
Proof.
  intros Hl Hb Hlen. destruct (get_bits storage off w) as (v & -> & Hv & Hg); [done|].
  destruct (get_bits storage' off w) as (v' & -> & Hv' & Hg'); [lia|]. f_equal.
  apply bits_eq_nat; [done..|]. intros k. rewrite Hg, Hg'. case_bool_decide; [|done].
  by rewrite Hb.
Qed.

(** Writing a bit field and reading it back gives the value cut to the field's
    width, on either byte order; every field that shares no bit with it reads as
    before, and the storage stays an array of as many bytes. *)
Lemma bitfield_roundtrip storage off w val :
  (off + w ≤ 8 * length storage)%nat → Forall is_byte storage →
  ∃ storage', set storage off w val = Some storage' ∧
    length storage' = length storage ∧ Forall is_byte storage' ∧
    get storage' off w = Some (val mod 2 ^ Z.of_nat w) ∧
    ∀ off' w', (off' + w' ≤ 8 * length storage)%nat → (off' + w' ≤ off ∨ off + w ≤ off')%nat →
      get storage' off' w' = get storage off' w'.
Proof.
  intros Hlen Hbytes. destruct (set_bits storage off w val Hlen) as (st & Hs & Hl & Hb & Hf).
  exists st. split_and!; [done..|by apply Hf| |].
  - destruct (get_bits st off w) as (v & -> & Hv & Hg); [lia|]. f_equal.
    apply bits_eq_nat; [done|apply Z.mod_pos_bound; lia|]. intros k. rewrite Hg, Hb.
    rewrite <- Z.land_ones, Z.land_spec by lia. case_bool_decide as Hk.
    + destruct (field_index_invol w k Hk) as [Hi Hlt]. rewrite decide_True by lia.
      rewrite Z.ones_spec_low, andb_true_r by lia.
      replace (field_index w k + off - off)%nat with (field_index w k) by lia. by rewrite Hi.
    + rewrite Z.ones_spec_high by lia. by rewrite andb_false_r.
  - intros off' w' Hlen' Hdis. apply bits_ext; [done| |done]. intros k Hk. rewrite Hb.
    destruct (field_index_invol w' k Hk) as [_ Hlt]. rewrite decide_False; [done|lia].
Qed.
End unit.

(** ** The little-endian reading *)

(** The storage as one little-endian integer. *)
Fixpoint le_int (storage : list Z) : Z :=
  match storage with [] => 0 | b :: rest => b + 256 * le_int rest end.

Lemma le_int_nonneg storage : Forall is_byte storage → 0 ≤ le_int storage.
Proof. induction 1 as [|b st Hb _ IH]; simpl; unfold is_byte in *; lia. Qed.

Lemma byte_cons_testbit b n (k : nat) : is_byte b → 0 ≤ n →
  Z.testbit (b + 256 * n) (Z.of_nat k) =
    if decide (k < 8)%nat then Z.testbit b (Z.of_nat k) else Z.testbit n (Z.of_nat (k - 8)).
Proof.
  intros Hb Hn. replace (b + 256 * n) with (b + n * 2 ^ 8) by lia. unfold is_byte in Hb. case_decide.
  - rewrite <- (Z.mod_pow2_bits_low (b + n * 2 ^ 8) 8) by lia.
    rewrite Z.mod_add, Z.mod_small by lia. done.
  - replace (Z.of_nat k) with (Z.of_nat (k - 8) + 8) by lia.
    rewrite <- Z.div_pow2_bits, Z.div_add, Z.div_small by lia. done.
Qed.

Lemma le_int_bit storage (i : nat) : Forall is_byte storage →
  Z.testbit (le_int storage) (Z.of_nat i) = bit false storage i.
Proof.
  intros H. revert i. induction H as [|b st Hb Hst IH]; intros i; unfold bit; simpl le_int.
  - by rewrite Z.bits_0, lookup_nil, Z.bits_0.
  - rewrite byte_cons_testbit by (done || by apply le_int_nonneg). unfold bit_index. case_decide.
    + by rewrite Nat.div_small, Nat.mod_small by lia.
    + rewrite IH. unfold bit, bit_index.
      assert (i = (i - 8) + 1 * 8)%nat as E by lia.
      assert (i / 8 = S ((i - 8) / 8))%nat as -> by (rewrite E at 1; rewrite Nat.div_add; lia).
      assert (i mod 8 = (i - 8) mod 8)%nat as -> by (rewrite E at 1; by rewrite Nat.Div0.mod_add).
      done.
Qed.

(** On a little-endian machine the bit-by-bit read of a field is the usual
    shift and mask of the storage taken as one integer. *)
Lemma get_is_shift_and_mask storage off w :
  (off + w ≤ 8 * length storage)%nat → Forall is_byte storage →
  get false storage off w =
    Some (Z.land (Z.shiftr (le_int storage) (Z.of_nat off)) (Z.ones (Z.of_nat w))).
Proof.
  intros Hlen Hb. destruct (get_bits false storage off w Hlen) as (v & -> & Hv & Hg). f_equal.
  apply bits_eq_nat; [done|rewrite Z.land_ones by lia; apply Z.mod_pos_bound; lia|].
  intros k. rewrite Hg, Z.land_spec, Z.shiftr_spec by lia. case_bool_decide as Hk.
  - rewrite Z.ones_spec_low, andb_true_r, <- Nat2Z.inj_add, le_int_bit by (done || lia). done.
  - rewrite Z.ones_spec_high by lia. by rewrite andb_false_r.
Qed.

(** ** Accessors *)

(** A field of a bit field unit: its offset and width, and the width of the
    integer type its accessors convert from and to. *)
Record bitfield := { bf_name : string; bf_off : nat; bf_width : nat; bf_bits : Z }.

Section accessors.
Context (big : bool).
Implicit Types (f : bitfield) (storage : list Z).

Definition field_get f storage : option Z := wrapu (bf_bits f) <$> get big storage (bf_off f) (bf_width f).
Definition field_set f storage (val : Z) : option (list Z) :=
  set big storage (bf_off f) (bf_width f) val.

Fixpoint set_all (fs : list bitfield) (vals : list Z) storage : option (list Z) :=
  match fs, vals with
  | f :: fs', v :: vals' => storage' ← field_set f storage v; set_all fs' vals' storage'
  | _, _ => Some storage
  end.
(** [new_bitfield_1] of a unit of [n] bytes, its arguments in order. *)
Definition new_bitfield (n : nat) (fs : list bitfield) (vals : list Z) : option (list Z) :=
  set_all fs vals (replicate n 0).
End accessors.

(** The fields follow one another inside a unit of [n] bytes, and each fits its type. *)
Fixpoint fields_from (from n : nat) (fs : list bitfield) : bool :=
  match fs with
  | [] => true
  | f :: rest =>
      (from <=? bf_off f)%nat && (bf_off f + bf_width f <=? 8 * n)%nat &&
      (Z.of_nat (bf_width f) <=? bf_bits f) && fields_from (bf_off f + bf_width f) n rest
  end.

Lemma fields_from_after from n fs f : fields_from from n fs = true → f ∈ fs →
  (from ≤ bf_off f ∧ bf_off f + bf_width f ≤ 8 * n)%nat ∧ Z.of_nat (bf_width f) ≤ bf_bits f.
Proof.
  revert from. induction fs as [|g fs IH]; intros from Hf Hin; [by apply elem_of_nil in Hin|].
  simpl in Hf. rewrite !andb_true_iff, !Nat.leb_le, Z.leb_le in Hf. destruct Hf as [[[H1 H2] H3] H4].
  apply elem_of_cons in Hin as [->|Hin]; [lia|]. destruct (IH _ H4 Hin). lia.
Qed.

(** Fields that lie before the ones that are set keep their value. *)
Lemma set_all_spec big n fs : ∀ from vals storage,
  fields_from from n fs = true → length vals = length fs → length storage = n → Forall is_byte storage →
  ∃ storage', set_all big fs vals storage = Some storage' ∧ length storage' = n ∧
    Forall is_byte storage' ∧
    Forall2 (λ f v, get big storage' (bf_off f) (bf_width f) = Some (v mod 2 ^ Z.of_nat (bf_width f)))
      fs vals ∧
    ∀ off w, (off + w ≤ from)%nat → (off + w ≤ 8 * n)%nat → get big storage' off w = get big storage off w.
Proof.
  induction fs as [|f fs IH]; intros from vals storage Hf Hlen Hst Hb.
  { destruct vals; [|done]. exists storage. split_and!; done. }
  destruct vals as [|v vals]; [done|]. injection Hlen as Hlen. simpl in Hf.
  rewrite !andb_true_iff, !Nat.leb_le in Hf. destruct Hf as [[[H1 H2] _] H4].
  destruct (bitfield_roundtrip big storage (bf_off f) (bf_width f) v) as (st & Hs & Hl & Hb' & Hg & Ho);
    [lia|done|]. simpl. unfold field_set. rewrite Hs. simpl.
  destruct (IH _ vals st H4 Hlen ltac:(lia) Hb') as (st' & Hs' & Hl' & Hb'' & Hg' & Ho').
  exists st'. split_and!; try done.
  - constructor; [|done]. rewrite Ho' by lia. exact Hg.
  - intros off w Hw Hw'. rewrite Ho' by lia. apply Ho; lia.
Qed.

(** C24: the accessors of a bit field unit whose fields follow one another are
    independent: the constructor of the unit gives every getter its argument, cut
    to the field's width, and a setter changes what its own getter returns and
    no other; on either byte order. *)
Theorem bitfield_accessors big n fs vals :
  fields_from 0 n fs = true → length vals = length fs →
  ∃ unit, new_bitfield big n fs vals = Some unit ∧
    Forall2 (λ f v, field_get big f unit = Some (v mod 2 ^ Z.of_nat (bf_width f))) fs vals ∧
    ∀ f v, f ∈ fs → ∃ unit', field_set big f unit v = Some unit' ∧
      field_get big f unit' = Some (v mod 2 ^ Z.of_nat (bf_width f)) ∧
      ∀ g, g ∈ fs → (bf_off g + bf_width g ≤ bf_off f ∨ bf_off f + bf_width f ≤ bf_off g)%nat →
        field_get big g unit' = field_get big g unit.
Proof.
  intros Hf Hlen.
  destruct (set_all_spec big n fs 0 vals (replicate n 0)) as (unit & Hn & Hl & Hb & Hg & _);
    [done..|by rewrite length_replicate|apply Forall_replicate; unfold is_byte; lia|].
  assert (∀ f z, f ∈ fs → wrapu (bf_bits f) (z mod 2 ^ Z.of_nat (bf_width f)) =
                          z mod 2 ^ Z.of_nat (bf_width f)) as Hw.
  { intros f z Hin. destruct (fields_from_after _ _ _ _ Hf Hin) as [_ Hle]. apply wrapu_id.
    pose proof (Z.mod_pos_bound z (2 ^ Z.of_nat (bf_width f)) ltac:(lia)).
    pose proof (Z.pow_le_mono_r 2 _ _ ltac:(lia) Hle). unfold in_u. lia. }
  exists unit. split_and!; [exact Hn| |].
  - unfold field_get. apply Forall2_same_length_lookup_2; [by rewrite Hlen|].
    intros i f v Hfi Hvi. rewrite (Forall2_lookup_lr _ _ _ _ _ _ Hg Hfi Hvi). simpl. f_equal.
    apply Hw. by eapply list_elem_of_lookup_2.
  - intros f v Hin. destruct (fields_from_after _ _ _ _ Hf Hin) as [Hr _].
    destruct (bitfield_roundtrip big unit (bf_off f) (bf_width f) v) as (st & Hs & _ & _ & Hg' & Ho);
      [lia|done|]. exists st. unfold field_set, field_get. split_and!; [done| |].
    + rewrite Hg'. simpl. by rewrite Hw.
    + intros g Hing Hdis. destruct (fields_from_after _ _ _ _ Hf Hing) as [Hr' _].
      by rewrite Ho by lia.
Qed.

(** ** Witnesses *)


Definition ex_unit : list bitfield :=
  [{| bf_name := "a"; bf_off := 0; bf_width := 3; bf_bits := 8 |};
   {| bf_name := "b"; bf_off := 3; bf_width := 7; bf_bits := 32 |}].

Lemma bitfield_accessors_witness :
  ∃ unit, new_bitfield true 2 ex_unit [9; 100] = Some unit ∧
    Forall2 (λ f v, field_get true f unit = Some v) ex_unit [1; 100].
Proof.
  destruct (bitfield_accessors true 2 ex_unit [9; 100] eq_refl eq_refl) as (unit & Hn & Hg & _).
  exists unit. split; [exact Hn|].
  inversion Hg as [|f v fs vs H1 H2]; subst. inversion H2; subst. repeat constructor; assumption.
Defined.

Lemma shift_and_mask_witness : get false [165; 60; 255] 4 8 = Some 202.
Proof.
  rewrite (get_is_shift_and_mask [165; 60; 255] 4 8);
    [reflexivity|simpl; lia|repeat constructor; unfold is_byte; lia].
Defined.
