(* ===== verification/KernelLayout.v ===== *)
(** * Layout of the kernel's structures

    The bindings of [vmlinux.rs] are [#[repr(C)]] structures and unions; the eBPF
    programs take the address of a field and read it, so what they read is fixed
    by the layout that Rust gives these types.  This file computes that layout
    (x86-64, as documented for [repr(C)]) and proves it sound for every list of
    declarations; the declarations themselves are in the files of each tracer. *)
From S2P Require Import Prelude Bitfield.
From stdpp Require Import base gmap strings list.
From Stdlib Require Import ZArith Lia Znumtheory Sorted.

Local Open Scope Z_scope.

(** ** Types and declarations *)

Inductive ty :=
  | Int (bytes : Z)
  | Ptr
  | Arr (t : ty) (n : Z)
  | Ref (name : string).

Global Instance ty_eq_dec : EqDecision ty.
Proof. solve_decision. Defined.

Inductive Kind := KStruct | KUnion.

(** A declaration; [d_align] is its [repr(align(N))]. *)
Record decl := { d_name : string; d_kind : Kind; d_align : option Z; d_fields : list (string * ty) }.

(** Rust's primitive types, the C types of aya, and bindgen's wrappers: a bit field
    unit is an array of bytes, a flexible array member an empty one; a field of
    a union that bindgen cannot express as one ([__BindgenUnionField]) has no size. *)
Definition u8 : ty := Int 1.
Definition u16 : ty := Int 2.
Definition u32 : ty := Int 4.
Definition u64 : ty := Int 8.
Definition usize : ty := Int 8.
Definition bool' : ty := Int 1.
Definition c_char : ty := Int 1.
Definition c_uchar : ty := Int 1.
Definition c_short : ty := Int 2.
Definition c_ushort : ty := Int 2.
Definition c_int : ty := Int 4.
Definition c_uint : ty := Int 4.
Definition c_long : ty := Int 8.
Definition c_ulong : ty := Int 8.
Definition c_longlong : ty := Int 8.
Definition c_ulonglong : ty := Int 8.
Definition BindgenBitfieldUnit (n : Z) : ty := Arr u8 n.
Definition IncompleteArrayField (t : ty) : ty := Arr t 0.
Definition BindgenUnionField (t : ty) : ty := Arr u8 0.

(** ** The layout *)

Record lay := { l_size : Z; l_align : Z }.
Record placed := { p_name : string; p_ty : ty; p_off : Z; p_lay : lay }.

(** What is known of the declared types: layout and placed fields. *)
Notation env := (gmap string (lay * list placed)).

Fixpoint type_layout (e : env) (t : ty) : option lay :=
  match t with
  | Int n => Some {| l_size := n; l_align := n |}
  | Ptr => Some {| l_size := 8; l_align := 8 |}
  | Arr t n => l ← type_layout e t; Some {| l_size := l_size l * n; l_align := l_align l |}
  | Ref name => fst <$> e !! name
  end.

Definition round_up (x a : Z) : Z := (x + a - 1) / a * a.

(** The fields from [off] on: placed, and the end and alignment so far. *)
Fixpoint place (e : env) (kind : Kind) (fields : list (string * ty)) (off end_ al : Z) :
    option (list placed * Z * Z) :=
  match fields with
  | [] => Some ([], end_, al)
  | (name, t) :: rest =>
      l ← type_layout e t;
      let o := match kind with KStruct => round_up off (l_align l) | KUnion => 0 end in
      '(ps, end', al') ← place e kind rest (o + l_size l) (Z.max end_ (o + l_size l)) (Z.max al (l_align l));
      Some ({| p_name := name; p_ty := t; p_off := o; p_lay := l |} :: ps, end', al')
  end.

Definition layout_decl (e : env) (d : decl) : option (lay * list placed) :=
  '(ps, end_, al) ← place e (d_kind d) (d_fields d) 0 0 1;
  let al := Z.max al (default 1 (d_align d)) in
  Some ({| l_size := round_up end_ al; l_align := al |}, ps).

(** Declarations in an order in which each uses earlier ones; a second
    declaration of a name is an error. *)
Fixpoint build_from (e : env) (ds : list decl) : option env :=
  match ds with
  | [] => Some e
  | d :: rest =>
      match e !! d_name d with
      | Some _ => None
      | None => r ← layout_decl e d; build_from (<[d_name d := r]> e) rest
      end
  end.
Definition build : list decl → option env := build_from ∅.

Fixpoint find_field (name : string) (ps : list placed) : option placed :=
  match ps with
  | [] => None
  | p :: rest => if decide (p_name p = name) then Some p else find_field name rest
  end.

(** The offset and type of a place inside a type: the path of a field access. *)
Fixpoint offset_of (e : env) (t : ty) (path : list string) : option (Z * ty) :=
  match path with
  | [] => Some (0, t)
  | f :: rest =>
      match t with
      | Ref name =>
          '(_, ps) ← e !! name; p ← find_field f ps;
          '(o, t') ← offset_of e (p_ty p) rest; Some (p_off p + o, t')
      | _ => None
      end
  end.

(** Whether the list is accepted, for evaluation. *)
Definition builds (ds : list decl) : bool := match build ds with Some _ => true | None => false end.

Lemma builds_is_Some ds : builds ds = true → is_Some (build ds).
Proof. unfold builds. destruct (build ds); [by eexists|done]. Qed.

(** ** Soundness *)

Definition pow2 (a : Z) : Prop := ∃ k, 0 ≤ k ∧ a = 2 ^ k.
Definition wf_lay (l : lay) : Prop := 0 ≤ l_size l ∧ pow2 (l_align l) ∧ (l_align l | l_size l).

(** The type is built of integers of sizes that are powers of two. *)
Fixpoint wf_ty (t : ty) : bool :=
  match t with
  | Int n => (n =? 1) || (n =? 2) || (n =? 4) || (n =? 8)
  | Ptr | Ref _ => true
  | Arr t n => wf_ty t && (0 <=? n)
  end.
Definition wf_align (a : option Z) : bool :=
  match a with
  | None => true
  | Some a => existsb (Z.eqb a) [1; 2; 4; 8; 16; 32; 64; 128; 256; 512; 1024; 2048; 4096]
  end.
Definition wf_decl (d : decl) : bool :=
  wf_align (d_align d) && forallb (λ f, wf_ty f.2) (d_fields d).

(** A place within an object of layout [l]. *)
Definition inside (l : lay) (o : Z) (l' : lay) : Prop :=
  0 ≤ o ∧ o + l_size l' ≤ l_size l ∧ (l_align l' | o) ∧ (l_align l' | l_align l).

Definition wf_env (e : env) : Prop := ∀ n l ps, e !! n = Some (l, ps) →
  wf_lay l ∧ Forall (λ p, inside l (p_off p) (p_lay p) ∧ wf_lay (p_lay p) ∧
                          wf_ty (p_ty p) = true ∧ type_layout e (p_ty p) = Some (p_lay p)) ps.

Lemma pow2_pos a : pow2 a → 0 < a.
Proof. intros (k & Hk & ->). by apply Z.pow_pos_nonneg. Qed.

Lemma pow2_divide a b : pow2 a → pow2 b → a ≤ b → (a | b).
Proof.
  intros (i & Hi & ->) (j & Hj & ->) Hle. apply Z.pow_le_mono_r_iff in Hle; [|lia..].
  exists (2 ^ (j - i)). rewrite <- Z.pow_add_r by lia. f_equal. lia.
Qed.

Lemma pow2_max a b : pow2 a → pow2 b → pow2 (Z.max a b).
Proof. intros Ha Hb. by destruct (Z.max_spec a b) as [[_ ->]|[_ ->]]. Qed.

Lemma wf_align_pow2 a : wf_align a = true → pow2 (default 1 a).
Proof.
  destruct a as [a|]; cbn [wf_align default from_option id]; [|by exists 0].
  intros (k & Hin & ->%Z.eqb_eq)%existsb_exists.
  repeat destruct Hin as [<-|Hin]; try done;
    [by exists 0|by exists 1|by exists 2|by exists 3|by exists 4|by exists 5|by exists 6|by exists 7
    |by exists 8|by exists 9|by exists 10|by exists 11|by exists 12].
Qed.

Lemma round_up_spec x a : 0 < a → x ≤ round_up x a < x + a ∧ (a | round_up x a).
Proof.
  intros Ha. unfold round_up. split; [|by apply Z.divide_factor_r].
  pose proof (Z.div_mod (x + a - 1) a). pose proof (Z.mod_pos_bound (x + a - 1) a Ha). lia.
Qed.

Lemma type_layout_wf e t l : wf_env e → wf_ty t = true → type_layout e t = Some l → wf_lay l.
Proof.
  intros He. revert l. induction t as [n| |t IH n|name]; simpl; intros l Hw Hl.
  - injection Hl as <-. unfold wf_lay. simpl.
    assert (n = 1 ∨ n = 2 ∨ n = 4 ∨ n = 8) as [-> | [-> | [-> | ->]]] by lia;
      (split; [lia|split; [|done]]); [by exists 0|by exists 1|by exists 2|by exists 3].
  - injection Hl as <-. split; [simpl; lia|split; [by exists 3|done]].
  - apply bind_Some in Hl as (l' & Hl' & [= <-]). apply andb_prop in Hw as [Hw Hn].
    destruct (IH _ Hw Hl') as (H1 & H2 & H3). split; simpl; [nia|]. split; [done|].
    by apply Z.divide_mul_l.
  - apply fmap_Some in Hl as ([l' ps] & Hl' & ->). simpl. by apply (He _ _ _ Hl').
Qed.

Lemma type_layout_mono e e' t l : e ⊆ e' → type_layout e t = Some l → type_layout e' t = Some l.
Proof.
  intros Hsub. revert l. induction t as [n| |t IH n|name]; simpl; intros l Hl; try done.
  - apply bind_Some in Hl as (l' & Hl' & [= <-]). by rewrite (IH _ Hl').
  - apply fmap_Some in Hl as (r & Hr & ->). apply fmap_Some. exists r.
    split; [by eapply lookup_weaken|done].
Qed.

(** One field comes after another. *)
Definition before (p q : placed) : Prop := p_off p + l_size (p_lay p) ≤ p_off q.

Definition field_ok (e : env) (end_ al : Z) (p : placed) : Prop :=
  0 ≤ p_off p ∧ p_off p + l_size (p_lay p) ≤ end_ ∧ (l_align (p_lay p) | p_off p) ∧
  l_align (p_lay p) ≤ al ∧ wf_lay (p_lay p) ∧ wf_ty (p_ty p) = true ∧
  type_layout e (p_ty p) = Some (p_lay p).

Lemma place_spec e kind fields : wf_env e → forallb (λ f, wf_ty f.2) fields = true →
  ∀ off end_ al ps end' al', 0 ≤ off → pow2 al →
  place e kind fields off end_ al = Some (ps, end', al') →
  end_ ≤ end' ∧ pow2 al' ∧ al ≤ al' ∧ Forall (field_ok e end' al') ps ∧
  (kind = KStruct → Forall (λ p, off ≤ p_off p) ps ∧ StronglySorted before ps).
Proof.
  intros He. induction fields as [|[name t] rest IH]; intros Hw off end_ al ps end' al' Hoff Hal Hp.
  { injection Hp as <- <- <-. split_and!; try done. intros _. split; constructor. }
  cbn [forallb snd] in Hw. apply andb_prop in Hw as [Ht Hrest].
  cbn [place] in Hp. apply bind_Some in Hp as (l & Hl & Hp).
  set (o := match kind with KStruct => round_up off (l_align l) | KUnion => 0 end) in Hp.
  apply bind_Some in Hp as ([[ps' e'] a'] & Hp & [= <- <- <-]).
  destruct (type_layout_wf _ _ _ He Ht Hl) as (Hs & Ha & Hd).
  pose proof (round_up_spec off (l_align l) (pow2_pos _ Ha)) as [Hr Hrd].
  assert (0 ≤ o) as Ho by (subst o; destruct kind; [cut (off ≤ round_up off (l_align l)); [lia|apply Hr]|done]).
  assert ((l_align l | o)) as Hod by (subst o; destruct kind; [done|by exists 0]).
  destruct (IH Hrest (o + l_size l) _ _ _ _ _ ltac:(lia) (pow2_max _ _ Hal Ha) Hp) as (H1 & H2 & H3 & H4 & H5).
  split_and!; [lia|done|lia| |].
  - constructor; [|done]. unfold field_ok. simpl. split_and!; try done; lia.
  - intros Hk. destruct (H5 Hk) as [H6 H7]. subst kind. split.
    + constructor; [simpl; lia|]. eapply Forall_impl; [exact H6|]. simpl. intros p ?. lia.
    + constructor; [done|]. exact H6.
Qed.

(** The layout of one declaration over a sound environment is sound. *)
Lemma layout_decl_spec e d l ps : wf_env e → wf_decl d = true → layout_decl e d = Some (l, ps) →
  wf_lay l ∧
  Forall (λ p, inside l (p_off p) (p_lay p) ∧ wf_lay (p_lay p) ∧
               wf_ty (p_ty p) = true ∧ type_layout e (p_ty p) = Some (p_lay p)) ps ∧
  (d_kind d = KStruct → StronglySorted before ps).
Proof.
  intros He [Ha Hf]%andb_prop Hd. unfold layout_decl in Hd.
  apply bind_Some in Hd as ([[ps' end_] al] & Hp & [= <- <-]).
  destruct (place_spec e (d_kind d) _ He Hf 0 0 1 _ _ _ ltac:(lia) ltac:(by exists 0) Hp)
    as (H1 & H2 & H3 & H4 & H5).
  set (a := Z.max al (default 1 (d_align d))).
  assert (pow2 a) as Hpa by (apply pow2_max; [done|by apply wf_align_pow2]).
  destruct (round_up_spec end_ a (pow2_pos _ Hpa)) as [Hr Hrd].
  split_and!.
  - split_and!; simpl; [lia|done|done].
  - eapply Forall_impl; [exact H4|]. intros p (P1 & P2 & P3 & P4 & P5 & P6 & P7).
    split_and!; try done. unfold inside. simpl. split_and!; [lia|lia|done|].
    apply pow2_divide; [apply P5|done|lia].
  - intros Hk. by apply H5.
Qed.

Lemma wf_env_insert e d l ps : wf_env e → wf_decl d = true → e !! d_name d = None →
  layout_decl e d = Some (l, ps) → wf_env (<[d_name d := (l, ps)]> e).
Proof.
  intros He Hw Hn Hd n l' ps' Hl.
  assert (e ⊆ <[d_name d := (l, ps)]> e) as Hsub by (by apply insert_subseteq).
  assert (wf_lay l' ∧ Forall (λ p, inside l' (p_off p) (p_lay p) ∧ wf_lay (p_lay p) ∧
            wf_ty (p_ty p) = true ∧ type_layout e (p_ty p) = Some (p_lay p)) ps') as [H1 H2].
  { destruct (decide (d_name d = n)) as [<-|Hne].
    - rewrite lookup_insert_eq in Hl. injection Hl as <- <-.
      destruct (layout_decl_spec _ _ _ _ He Hw Hd) as (? & ? & _). done.
    - rewrite lookup_insert_ne in Hl by done. by apply (He n). }
  split; [done|]. eapply Forall_impl; [exact H2|]. intros p (P1 & P2 & P3 & P4).
  split_and!; try done. by eapply type_layout_mono.
Qed.

Lemma wf_env_build_from e ds e' : wf_env e → forallb wf_decl ds = true →
  build_from e ds = Some e' → wf_env e'.
Proof.
  revert e. induction ds as [|d ds IH]; intros e He Hw Hb; simpl in *; [by injection Hb as <-|].
  apply andb_prop in Hw as [Hd Hds]. destruct (e !! d_name d) eqn:Hn; [done|].
  apply bind_Some in Hb as ([l ps] & Hl & Hb). eapply IH; [|done|exact Hb].
  by apply wf_env_insert.
Qed.

Lemma wf_env_build ds e : forallb wf_decl ds = true → build ds = Some e → wf_env e.
Proof. apply wf_env_build_from. intros ???. by rewrite lookup_empty. Qed.

Lemma find_field_In name ps p : find_field name ps = Some p → p ∈ ps.
Proof.
  induction ps as [|q ps IH]; simpl; [done|]. case_decide; [intros [= <-]; constructor|].
  intros Hf. constructor. by apply IH.
Qed.

Lemma inside_trans l o l' o' l'' : inside l o l' → inside l' o' l'' → inside l (o + o') l''.
Proof.
  intros (A1 & A2 & A3 & A4) (B1 & B2 & B3 & B4). split_and!; [lia|lia| |by etrans].
  apply Z.divide_add_r; [by etrans|done].
Qed.

(** In a program's list of declarations, the place that any path of field names
    leads to lies inside the object it starts from, at an offset that keeps the
    alignment of its type. *)
Lemma offset_of_inside ds e t path l o t' :
  forallb wf_decl ds = true → build ds = Some e → wf_ty t = true → type_layout e t = Some l →
  offset_of e t path = Some (o, t') →
  ∃ l', type_layout e t' = Some l' ∧ inside l o l'.
Proof.
  intros Hw Hb Hty Hl. pose proof (wf_env_build _ _ Hw Hb) as He.
  revert t l o Hty Hl. induction path as [|f path IH]; intros t l o Hty Hl Ho; simpl in Ho.
  { injection Ho as <- <-. exists l. split; [done|].
    destruct (type_layout_wf _ _ _ He Hty Hl) as (? & ? & ?). split_and!; [lia|lia|by exists 0|done]. }
  destruct t as [| | |name]; try done. simpl in Hl. apply fmap_Some in Hl as ([l1 ps] & Hn & ->).
  rewrite Hn in Ho. simpl in Ho. apply bind_Some in Ho as (p & Hp & Ho).
  apply bind_Some in Ho as ([o1 t1] & Ho & [= <- <-]). simpl.
  destruct (He _ _ _ Hn) as [_ Hps].
  destruct (proj1 (Forall_forall _ _) Hps p (find_field_In _ _ _ Hp)) as (Hin & Hwl & Hwt & Hpl).
  destruct (IH _ _ _ Hwt Hpl Ho) as (l' & Hl' & Hin'). exists l'. split; [done|].
  by eapply inside_trans.
Qed.
