(* ===== verification/KernelMemory.v ===== *)
(** * Reading the kernel's structures from memory

    [bpf_probe_read_kernel] and [bpf_probe_read_user] copy the bytes of a value
    from an address, or fail with [-EFAULT]; a field of the value is the bytes at
    the offset that the layout gives it, as a little-endian integer. *)
From S2P Require Import Prelude RustStd Bitfield KernelLayout.
From stdpp Require Import base gmap strings list.
From Stdlib Require Import ZArith Lia.

Local Open Scope Z_scope.

(** The bytes that can be read. *)
Definition Memory : Type := Z → option Z.

Definition EFAULT : Z := -14.

Fixpoint load (m : Memory) (a : Z) (n : nat) : option (list Z) :=
  match n with
  | O => Some []
  | S n' => b ← m a; rest ← load m (a + 1) n'; Some (b :: rest)
  end.

(** [bpf_probe_read_kernel::<T>(a)] for a [T] of [n] bytes. *)
Definition probe_read_bytes (m : Memory) (a : Z) (n : nat) : result Z (list Z) := ok_or EFAULT (load m a n).

Definition slice {A} (o n : nat) (l : list A) : list A := take n (drop o l).

(** The big-endian integer of some bytes. *)
Fixpoint be_int (l : list Z) : Z :=
  match l with [] => 0 | b :: rest => b * 256 ^ Z.of_nat (length rest) + be_int rest end.

Section layout.
Context (ds : list decl).

Definition the_env : env := default ∅ (build ds).
Definition size_of (t : ty) : nat := Z.to_nat (default 0 (l_size <$> type_layout the_env t)).
Definition off (t : ty) (path : list string) : nat :=
  Z.to_nat (default 0 (fst <$> offset_of the_env t path)).
Definition field_size (t : ty) (path : list string) : nat :=
  default 0%nat ((λ r, size_of r.2) <$> offset_of the_env t path).

(** The bytes of a field of a value of type [t], and an integer field. *)
Definition field_bytes (t : ty) (path : list string) (obj : list Z) : list Z :=
  slice (off t path) (field_size t path) obj.
Definition field_int (t : ty) (path : list string) (obj : list Z) : Z := le_int (field_bytes t path obj).

(** [bpf_probe_read_kernel] of the field at a path of the object at [a]. *)
Definition read_field (m : Memory) (a : Z) (t : ty) (path : list string) : result Z (list Z) :=
  probe_read_bytes m (a + Z.of_nat (off t path)) (field_size t path).
Definition read_int (m : Memory) (a : Z) (t : ty) (path : list string) : result Z Z :=
  le_int <$> read_field m a t path.
Definition read_object (m : Memory) (a : Z) (t : ty) : result Z (list Z) := read_field m a t [].
End layout.

(** The place of a field: its offset and size in bytes. *)
Definition place_at (ds : list decl) (t : ty) (path : list string) (o n : nat) : Prop :=
  off ds t path = o ∧ field_size ds t path = n.

(** ** Lemmas *)

(** An object in memory. *)
Definition mem_holds (m : Memory) (a : Z) (obj : list Z) : Prop :=
  ∀ i b, obj !! i = Some b → m (a + Z.of_nat i) = Some b.

Lemma load_holds m a obj : mem_holds m a obj → load m a (length obj) = Some obj.
Proof.
  revert a. induction obj as [|b obj IH]; intros a H; [done|]. simpl.
  pose proof (H 0%nat b eq_refl) as Hb. rewrite Z.add_0_r in Hb. rewrite Hb. simpl.
  rewrite IH; [done|]. intros i b' Hi. specialize (H (S i) b' Hi).
  rewrite <- H. f_equal. lia.
Qed.

Lemma holds_slice m a obj o n : mem_holds m a obj → mem_holds m (a + Z.of_nat o) (slice o n obj).
Proof.
  intros H i b Hi. unfold slice in Hi. apply lookup_take_Some in Hi as [Hi _].
  rewrite lookup_drop in Hi. apply H in Hi. rewrite <- Hi. f_equal. lia.
Qed.

Lemma slice_length {A} o n (l : list A) : (o + n ≤ length l)%nat → length (slice o n l) = n.
Proof. intros. unfold slice. rewrite length_take, length_drop. lia. Qed.

Lemma slice_slice {A} o n o' n' (l : list A) : (o' + n' ≤ n)%nat →
  slice o' n' (slice o n l) = slice (o + o') n' l.
Proof.
  intros. unfold slice. rewrite skipn_firstn_comm, take_take, drop_drop.
  by rewrite Nat.min_l by lia.
Qed.

(** A read inside an object that is in memory returns its bytes there. *)
Lemma probe_read_slice m a obj o n : mem_holds m a obj → (o + n ≤ length obj)%nat →
  probe_read_bytes m (a + Z.of_nat o) n = Ok (slice o n obj).
Proof.
  intros H Hlen. unfold probe_read_bytes.
  rewrite <- (slice_length o n obj Hlen) at 1. by rewrite load_holds by (by apply holds_slice).
Qed.

Lemma read_field_holds ds m a obj t path : mem_holds m a obj →
  (off ds t path + field_size ds t path ≤ length obj)%nat →
  read_field ds m a t path = Ok (field_bytes ds t path obj).
Proof. intros H Hlen. unfold read_field. by apply probe_read_slice. Qed.

Lemma from_be16_le b0 b1 : is_byte b0 → is_byte b1 → from_be16 (le_int [b0; b1]) = be_int [b0; b1].
Proof.
  unfold is_byte. intros H0 H1. rewrite from_be16_arith. simpl.
  assert ((b0 + 256 * (b1 + 256 * 0)) mod 256 = b0) as Hm.
  { symmetry. apply (Z.mod_unique_pos _ _ b1); lia. }
  assert ((b0 + 256 * (b1 + 256 * 0)) / 256 = b1) as Hd.
  { symmetry. apply (Z.div_unique_pos _ _ _ b0); lia. }
  simpl in Hm, Hd. rewrite Hm, Hd, Z.mod_small by lia. lia.
Qed.

Lemma from_be32_le b0 b1 b2 b3 : is_byte b0 → is_byte b1 → is_byte b2 → is_byte b3 →
  from_be32 (le_int [b0; b1; b2; b3]) = be_int [b0; b1; b2; b3].
Proof.
  intros H0 H1 H2 H3. rewrite from_be32_arith.
  assert (le_int [b0; b1; b2; b3] mod 65536 = le_int [b0; b1]) as ->.
  { symmetry. unfold is_byte in *. apply (Z.mod_unique_pos _ _ (le_int [b2; b3])); cbn [le_int]; lia. }
  assert (le_int [b0; b1; b2; b3] / 65536 = le_int [b2; b3]) as ->.
  { symmetry. unfold is_byte in *. apply (Z.div_unique_pos _ _ _ (le_int [b0; b1])); cbn [le_int]; lia. }
  rewrite Z.mod_small by (unfold is_byte in *; cbn [le_int]; lia).
  rewrite !from_be16_le by done. cbn [be_int length]. lia.
Qed.

(** A network-order field of two or four bytes, read as the code reads it. *)
Lemma from_be16_bytes l : length l = 2%nat → Forall is_byte l → from_be16 (le_int l) = be_int l.
Proof.
  destruct l as [|b0 [|b1 [|]]]; try done. intros _ Hb. rewrite !Forall_cons in Hb.
  apply from_be16_le; apply Hb.
Qed.

Lemma from_be32_bytes l : length l = 4%nat → Forall is_byte l → from_be32 (le_int l) = be_int l.
Proof.
  destruct l as [|b0 [|b1 [|b2 [|b3 [|]]]]]; try done. intros _ Hb. rewrite !Forall_cons in Hb.
  apply from_be32_le; apply Hb.
Qed.

Lemma Forall_slice {A} (P : A → Prop) o n l : Forall P l → Forall P (slice o n l).
Proof. intros. unfold slice. by apply Forall_take, Forall_drop. Qed.

Lemma from_be16_slice o obj : (o + 2 ≤ length obj)%nat → Forall is_byte obj →
  from_be16 (le_int (slice o 2 obj)) = be_int (slice o 2 obj).
Proof. intros. apply from_be16_bytes; [by apply slice_length|by apply Forall_slice]. Qed.
Lemma from_be32_slice o obj : (o + 4 ≤ length obj)%nat → Forall is_byte obj →
  from_be32 (le_int (slice o 4 obj)) = be_int (slice o 4 obj).
Proof. intros. apply from_be32_bytes; [by apply slice_length|by apply Forall_slice]. Qed.

(** Reads through a known place. *)
Lemma read_field_at ds m a obj t path o n : place_at ds t path o n →
  mem_holds m a obj → (o + n ≤ length obj)%nat → read_field ds m a t path = Ok (slice o n obj).
Proof.
  intros [<- <-] H Hlen. by rewrite (read_field_holds ds m a obj).
Qed.

Lemma read_int_at ds m a obj t path o n : place_at ds t path o n →
  mem_holds m a obj → (o + n ≤ length obj)%nat → read_int ds m a t path = Ok (le_int (slice o n obj)).
Proof. intros Hp H Hlen. unfold read_int. by rewrite (read_field_at ds m a obj t path o n). Qed.

Lemma field_bytes_at ds t path o n bytes : place_at ds t path o n →
  field_bytes ds t path bytes = slice o n bytes.
Proof. intros [<- <-]. done. Qed.

Lemma field_int_at ds t path o n bytes : place_at ds t path o n →
  field_int ds t path bytes = le_int (slice o n bytes).
Proof. intros [<- <-]. done. Qed.

(** Layouts are evaluated by [vm_compute] only. *)
#[global] Opaque off field_size field_bytes field_int.
