(* ===== verification/ConnBindings.v ===== *)
(** * The kernel structures the connection tracer reads

    [ebpf/conn-tracer/conn-tracer-ebpf/src/vmlinux.rs]: [tcp_sock], which the probes
    read, and every type that is part of it by value, with the accessors of
    their bit fields. *)
From S2P Require Import Prelude Bitfield KernelLayout.
From stdpp Require Import base gmap strings list.
From Stdlib Require Import ZArith Lia.

Local Open Scope Z_scope.

Definition __u64 : ty := c_ulonglong.
Definition __addrpair : ty := __u64.
Definition __u32 : ty := c_uint.
Definition __be32 : ty := __u32.
Definition sock_common__bindgen_ty_1__bindgen_ty_1 : decl := {|
  d_name := "sock_common__bindgen_ty_1__bindgen_ty_1"; d_kind := KStruct; d_align := None;
  d_fields := [
    ("skc_daddr", __be32); ("skc_rcv_saddr", __be32) ] |}.
Definition sock_common__bindgen_ty_1 : decl := {|
  d_name := "sock_common__bindgen_ty_1"; d_kind := KUnion; d_align := None;
  d_fields := [
    ("skc_addrpair", __addrpair);
    ("__bindgen_anon_1", Ref "sock_common__bindgen_ty_1__bindgen_ty_1") ] |}.
Definition __u16 : ty := c_ushort.
Definition sock_common__bindgen_ty_2 : decl := {|
  d_name := "sock_common__bindgen_ty_2"; d_kind := KUnion; d_align := None;
  d_fields := [
    ("skc_hash", c_uint); ("skc_u16hashes", Arr __u16 2) ] |}.
Definition __portpair : ty := __u32.
Definition __be16 : ty := __u16.
Definition sock_common__bindgen_ty_3__bindgen_ty_1 : decl := {|
  d_name := "sock_common__bindgen_ty_3__bindgen_ty_1"; d_kind := KStruct; d_align := None;
  d_fields := [
    ("skc_dport", __be16); ("skc_num", __u16) ] |}.
Definition sock_common__bindgen_ty_3 : decl := {|
  d_name := "sock_common__bindgen_ty_3"; d_kind := KUnion; d_align := None;
  d_fields := [
    ("skc_portpair", __portpair);
    ("__bindgen_anon_1", Ref "sock_common__bindgen_ty_3__bindgen_ty_1") ] |}.
Definition hlist_node : decl := {|
  d_name := "hlist_node"; d_kind := KStruct; d_align := None;
  d_fields := [
    ("next", Ptr); ("pprev", Ptr) ] |}.
Definition sock_common__bindgen_ty_4 : decl := {|
  d_name := "sock_common__bindgen_ty_4"; d_kind := KUnion; d_align := None;
  d_fields := [
    ("skc_bind_node", Ref "hlist_node"); ("skc_portaddr_node", Ref "hlist_node") ] |}.
Definition possible_net_t : decl := {|
  d_name := "possible_net_t"; d_kind := KStruct; d_align := None;
  d_fields := [
    ("net", Ptr) ] |}.
Definition __u8 : ty := c_uchar.
Definition in6_addr__bindgen_ty_1 : decl := {|
  d_name := "in6_addr__bindgen_ty_1"; d_kind := KUnion; d_align := None;
  d_fields := [
    ("u6_addr8", Arr __u8 16); ("u6_addr16", Arr __be16 8); ("u6_addr32", Arr __be32 4) ] |}.
Definition in6_addr : decl := {|
  d_name := "in6_addr"; d_kind := KStruct; d_align := None;
  d_fields := [
    ("in6_u", Ref "in6_addr__bindgen_ty_1") ] |}.
Definition __s64 : ty := c_longlong.
Definition s64 : ty := __s64.
Definition atomic64_t : decl := {|
  d_name := "atomic64_t"; d_kind := KStruct; d_align := None;
  d_fields := [
    ("counter", s64) ] |}.
Definition sock_common__bindgen_ty_5 : decl := {|
  d_name := "sock_common__bindgen_ty_5"; d_kind := KUnion; d_align := None;
  d_fields := [
    ("skc_flags", c_ulong); ("skc_listener", Ptr); ("skc_tw_dr", Ptr) ] |}.
Definition hlist_nulls_node : decl := {|
  d_name := "hlist_nulls_node"; d_kind := KStruct; d_align := None;
  d_fields := [
    ("next", Ptr); ("pprev", Ptr) ] |}.
Definition sock_common__bindgen_ty_6 : decl := {|
  d_name := "sock_common__bindgen_ty_6"; d_kind := KUnion; d_align := None;
  d_fields := [
    ("skc_node", Ref "hlist_node"); ("skc_nulls_node", Ref "hlist_nulls_node") ] |}.
Definition u32_ : ty := __u32.
Definition sock_common__bindgen_ty_7 : decl := {|
  d_name := "sock_common__bindgen_ty_7"; d_kind := KUnion; d_align := None;
  d_fields := [
    ("skc_incoming_cpu", c_int); ("skc_rcv_wnd", u32_); ("skc_tw_rcv_nxt", u32_) ] |}.
Definition atomic_t : decl := {|
  d_name := "atomic_t"; d_kind := KStruct; d_align := None;
  d_fields := [
    ("counter", c_int) ] |}.
Definition refcount_struct : decl := {|
  d_name := "refcount_struct"; d_kind := KStruct; d_align := None;
  d_fields := [
    ("refs", Ref "atomic_t") ] |}.
Definition refcount_t : ty := Ref "refcount_struct".
Definition sock_common__bindgen_ty_8 : decl := {|
  d_name := "sock_common__bindgen_ty_8"; d_kind := KUnion; d_align := None;
  d_fields := [
    ("skc_rxhash", u32_); ("skc_window_clamp", u32_); ("skc_tw_snd_nxt", u32_) ] |}.
Definition sock_common : decl := {|
  d_name := "sock_common"; d_kind := KStruct; d_align := None;
  d_fields := [
    ("__bindgen_anon_1", Ref "sock_common__bindgen_ty_1");
    ("__bindgen_anon_2", Ref "sock_common__bindgen_ty_2");
    ("__bindgen_anon_3", Ref "sock_common__bindgen_ty_3"); ("skc_family", c_ushort);
    ("skc_state", c_uchar); ("_bitfield_align_1", Arr u8 0);
    ("_bitfield_1", BindgenBitfieldUnit 1); ("skc_bound_dev_if", c_int);
    ("__bindgen_anon_4", Ref "sock_common__bindgen_ty_4"); ("skc_prot", Ptr);
    ("skc_net", Ref "possible_net_t"); ("skc_v6_daddr", Ref "in6_addr");
    ("skc_v6_rcv_saddr", Ref "in6_addr"); ("skc_cookie", Ref "atomic64_t");
    ("__bindgen_anon_5", Ref "sock_common__bindgen_ty_5");
    ("skc_dontcopy_begin", IncompleteArrayField c_int);
    ("__bindgen_anon_6", Ref "sock_common__bindgen_ty_6"); ("skc_tx_queue_mapping", c_ushort);
    ("skc_rx_queue_mapping", c_ushort); ("__bindgen_anon_7", Ref "sock_common__bindgen_ty_7");
    ("skc_refcnt", refcount_t); ("skc_dontcopy_end", IncompleteArrayField c_int);
    ("__bindgen_anon_8", Ref "sock_common__bindgen_ty_8") ] |}.
Definition sock_common_bitfield_1 : list bitfield := [
  {| bf_name := "skc_reuse"; bf_off := 0; bf_width := 4; bf_bits := 8 |};
  {| bf_name := "skc_reuseport"; bf_off := 4; bf_width := 1; bf_bits := 8 |};
  {| bf_name := "skc_ipv6only"; bf_off := 5; bf_width := 1; bf_bits := 8 |};
  {| bf_name := "skc_net_refcnt"; bf_off := 6; bf_width := 1; bf_bits := 8 |} ].
Definition u8_ : ty := __u8.
Definition qspinlock__bindgen_ty_1__bindgen_ty_1 : decl := {|
  d_name := "qspinlock__bindgen_ty_1__bindgen_ty_1"; d_kind := KStruct; d_align := None;
  d_fields := [
    ("locked", u8_); ("pending", u8_) ] |}.
Definition u16_ : ty := __u16.
Definition qspinlock__bindgen_ty_1__bindgen_ty_2 : decl := {|
  d_name := "qspinlock__bindgen_ty_1__bindgen_ty_2"; d_kind := KStruct; d_align := None;
  d_fields := [
    ("locked_pending", u16_); ("tail", u16_) ] |}.
Definition qspinlock__bindgen_ty_1 : decl := {|
  d_name := "qspinlock__bindgen_ty_1"; d_kind := KUnion; d_align := None;
  d_fields := [
    ("val", Ref "atomic_t"); ("__bindgen_anon_1", Ref "qspinlock__bindgen_ty_1__bindgen_ty_1");
    ("__bindgen_anon_2", Ref "qspinlock__bindgen_ty_1__bindgen_ty_2") ] |}.
Definition qspinlock : decl := {|
  d_name := "qspinlock"; d_kind := KStruct; d_align := None;
  d_fields := [
    ("__bindgen_anon_1", Ref "qspinlock__bindgen_ty_1") ] |}.
Definition arch_spinlock_t : ty := Ref "qspinlock".
Definition raw_spinlock : decl := {|
  d_name := "raw_spinlock"; d_kind := KStruct; d_align := None;
  d_fields := [
    ("raw_lock", arch_spinlock_t) ] |}.
Definition spinlock__bindgen_ty_1 : decl := {|
  d_name := "spinlock__bindgen_ty_1"; d_kind := KUnion; d_align := None;
  d_fields := [
    ("rlock", Ref "raw_spinlock") ] |}.
Definition spinlock : decl := {|
  d_name := "spinlock"; d_kind := KStruct; d_align := None;
  d_fields := [
    ("__bindgen_anon_1", Ref "spinlock__bindgen_ty_1") ] |}.
Definition spinlock_t : ty := Ref "spinlock".
Definition list_head : decl := {|
  d_name := "list_head"; d_kind := KStruct; d_align := None;
  d_fields := [
    ("next", Ptr); ("prev", Ptr) ] |}.
Definition wait_queue_head : decl := {|
  d_name := "wait_queue_head"; d_kind := KStruct; d_align := None;
  d_fields := [
    ("lock", spinlock_t); ("head", Ref "list_head") ] |}.
Definition wait_queue_head_t : ty := Ref "wait_queue_head".
Definition socket_lock_t : decl := {|
  d_name := "socket_lock_t"; d_kind := KStruct; d_align := None;
  d_fields := [
    ("slock", spinlock_t); ("owned", c_int); ("wq", wait_queue_head_t) ] |}.
Definition sk_buff_head__bindgen_ty_1__bindgen_ty_1 : decl := {|
  d_name := "sk_buff_head__bindgen_ty_1__bindgen_ty_1"; d_kind := KStruct; d_align := None;
  d_fields := [
    ("next", Ptr); ("prev", Ptr) ] |}.
Definition sk_buff_list : decl := {|
  d_name := "sk_buff_list"; d_kind := KStruct; d_align := None;
  d_fields := [
    ("next", Ptr); ("prev", Ptr) ] |}.
Definition sk_buff_head__bindgen_ty_1 : decl := {|
  d_name := "sk_buff_head__bindgen_ty_1"; d_kind := KUnion; d_align := None;
  d_fields := [
    ("__bindgen_anon_1", Ref "sk_buff_head__bindgen_ty_1__bindgen_ty_1");
    ("list", Ref "sk_buff_list") ] |}.
Definition sk_buff_head : decl := {|
  d_name := "sk_buff_head"; d_kind := KStruct; d_align := None;
  d_fields := [
    ("__bindgen_anon_1", Ref "sk_buff_head__bindgen_ty_1"); ("qlen", __u32); ("lock", spinlock_t) ] |}.
Definition sock__bindgen_ty_1 : decl := {|
  d_name := "sock__bindgen_ty_1"; d_kind := KStruct; d_align := None;
  d_fields := [
    ("rmem_alloc", Ref "atomic_t"); ("len", c_int); ("head", Ptr); ("tail", Ptr) ] |}.
Definition sock__bindgen_ty_2 : decl := {|
  d_name := "sock__bindgen_ty_2"; d_kind := KUnion; d_align := None;
  d_fields := [
    ("sk_wq", Ptr); ("sk_wq_raw", Ptr) ] |}.
Definition rb_root : decl := {|
  d_name := "rb_root"; d_kind := KStruct; d_align := None;
  d_fields := [
    ("rb_node", Ptr) ] |}.
Definition sock__bindgen_ty_3 : decl := {|
  d_name := "sock__bindgen_ty_3"; d_kind := KUnion; d_align := None;
  d_fields := [
    ("sk_send_head", Ptr); ("tcp_rtx_queue", Ref "rb_root") ] |}.
Definition __s32 : ty := c_int.
Definition timer_list : decl := {|
  d_name := "timer_list"; d_kind := KStruct; d_align := None;
  d_fields := [
    ("entry", Ref "hlist_node"); ("expires", c_ulong); ("function", Ptr); ("flags", u32_) ] |}.
Definition page_frag : decl := {|
  d_name := "page_frag"; d_kind := KStruct; d_align := None;
  d_fields := [
    ("page", Ptr); ("offset", __u32); ("size", __u32) ] |}.
Definition u64_ : ty := __u64.
Definition netdev_features_t : ty := u64_.
Definition gfp_t : ty := c_uint.
Definition qrwlock__bindgen_ty_1__bindgen_ty_1 : decl := {|
  d_name := "qrwlock__bindgen_ty_1__bindgen_ty_1"; d_kind := KStruct; d_align := None;
  d_fields := [
    ("wlocked", u8_); ("__lstate", Arr u8_ 3) ] |}.
Definition qrwlock__bindgen_ty_1 : decl := {|
  d_name := "qrwlock__bindgen_ty_1"; d_kind := KUnion; d_align := None;
  d_fields := [
    ("cnts", Ref "atomic_t"); ("__bindgen_anon_1", Ref "qrwlock__bindgen_ty_1__bindgen_ty_1") ] |}.
Definition qrwlock : decl := {|
  d_name := "qrwlock"; d_kind := KStruct; d_align := None;
  d_fields := [
    ("__bindgen_anon_1", Ref "qrwlock__bindgen_ty_1"); ("wait_lock", arch_spinlock_t) ] |}.
Definition arch_rwlock_t : ty := Ref "qrwlock".
Definition rwlock_t : decl := {|
  d_name := "rwlock_t"; d_kind := KStruct; d_align := None;
  d_fields := [
    ("raw_lock", arch_rwlock_t) ] |}.
Definition __kernel_uid32_t : ty := c_uint.
Definition uid_t : ty := __kernel_uid32_t.
Definition kuid_t : decl := {|
  d_name := "kuid_t"; d_kind := KStruct; d_align := None;
  d_fields := [
    ("val", uid_t) ] |}.
Definition ktime_t : ty := s64.
Definition bool_ : ty := bool'.
Definition sock_cgroup_data : decl := {|
  d_name := "sock_cgroup_data"; d_kind := KStruct; d_align := None;
  d_fields := [
    ("cgroup", Ptr); ("classid", u32_); ("prioidx", u16_) ] |}.
Definition callback_head : decl := {|
  d_name := "callback_head"; d_kind := KStruct; d_align := None;
  d_fields := [
    ("next", Ptr); ("func", Ptr) ] |}.
Definition netns_tracker : decl := {|
  d_name := "netns_tracker"; d_kind := KStruct; d_align := None;
  d_fields := [
 ] |}.
Definition sock : decl := {|
  d_name := "sock"; d_kind := KStruct; d_align := None;
  d_fields := [
    ("__sk_common", Ref "sock_common"); ("sk_rx_dst", Ptr); ("sk_rx_dst_ifindex", c_int);
    ("sk_rx_dst_cookie", u32_); ("sk_lock", Ref "socket_lock_t"); ("sk_drops", Ref "atomic_t");
    ("sk_rcvlowat", c_int); ("sk_error_queue", Ref "sk_buff_head");
    ("sk_receive_queue", Ref "sk_buff_head"); ("sk_backlog", Ref "sock__bindgen_ty_1");
    ("sk_forward_alloc", c_int); ("sk_reserved_mem", u32_); ("sk_ll_usec", c_uint);
    ("sk_napi_id", c_uint); ("sk_rcvbuf", c_int); ("sk_wait_pending", c_int); ("sk_filter", Ptr);
    ("__bindgen_anon_1", Ref "sock__bindgen_ty_2"); ("sk_policy", Arr Ptr 2);
    ("sk_dst_cache", Ptr); ("sk_omem_alloc", Ref "atomic_t"); ("sk_sndbuf", c_int);
    ("sk_wmem_queued", c_int); ("sk_wmem_alloc", refcount_t); ("sk_tsq_flags", c_ulong);
    ("__bindgen_anon_2", Ref "sock__bindgen_ty_3"); ("sk_write_queue", Ref "sk_buff_head");
    ("sk_peek_off", __s32); ("sk_write_pending", c_int); ("sk_dst_pending_confirm", __u32);
    ("sk_pacing_status", u32_); ("sk_sndtimeo", c_long); ("sk_timer", Ref "timer_list");
    ("sk_priority", __u32); ("sk_mark", __u32); ("sk_pacing_rate", c_ulong);
    ("sk_max_pacing_rate", c_ulong); ("sk_frag", Ref "page_frag");
    ("sk_route_caps", netdev_features_t); ("sk_gso_type", c_int); ("sk_gso_max_size", c_uint);
    ("sk_allocation", gfp_t); ("sk_txhash", __u32); ("_bitfield_align_1", Arr u8 0);
    ("_bitfield_1", BindgenBitfieldUnit 1); ("sk_pacing_shift", u8_); ("sk_type", u16_);
    ("sk_protocol", u16_); ("sk_gso_max_segs", u16_); ("sk_lingertime", c_ulong);
    ("sk_prot_creator", Ptr); ("sk_callback_lock", Ref "rwlock_t"); ("sk_err", c_int);
    ("sk_err_soft", c_int); ("sk_ack_backlog", u32_); ("sk_max_ack_backlog", u32_);
    ("sk_uid", Ref "kuid_t"); ("sk_txrehash", u8_); ("sk_prefer_busy_poll", u8_);
    ("sk_busy_poll_budget", u16_); ("sk_peer_lock", spinlock_t); ("sk_bind_phc", c_int);
    ("sk_peer_pid", Ptr); ("sk_peer_cred", Ptr); ("sk_rcvtimeo", c_long); ("sk_stamp", ktime_t);
    ("sk_tskey", Ref "atomic_t"); ("sk_zckey", Ref "atomic_t"); ("sk_tsflags", u32_);
    ("sk_shutdown", u8_); ("sk_clockid", u8_); ("_bitfield_align_2", Arr u8 0);
    ("_bitfield_2", BindgenBitfieldUnit 1); ("sk_use_task_frag", bool_); ("sk_socket", Ptr);
    ("sk_user_data", Ptr); ("sk_security", Ptr); ("sk_cgrp_data", Ref "sock_cgroup_data");
    ("sk_memcg", Ptr); ("sk_state_change", Ptr); ("sk_data_ready", Ptr); ("sk_write_space", Ptr);
    ("sk_error_report", Ptr); ("sk_backlog_rcv", Ptr); ("sk_validate_xmit_skb", Ptr);
    ("sk_destruct", Ptr); ("sk_reuseport_cb", Ptr); ("sk_bpf_storage", Ptr);
    ("sk_rcu", Ref "callback_head"); ("ns_tracker", Ref "netns_tracker");
    ("sk_bind2_node", Ref "hlist_node") ] |}.
Definition sock_bitfield_1 : list bitfield := [
  {| bf_name := "sk_gso_disabled"; bf_off := 0; bf_width := 1; bf_bits := 8 |};
  {| bf_name := "sk_kern_sock"; bf_off := 1; bf_width := 1; bf_bits := 8 |};
  {| bf_name := "sk_no_check_tx"; bf_off := 2; bf_width := 1; bf_bits := 8 |};
  {| bf_name := "sk_no_check_rx"; bf_off := 3; bf_width := 1; bf_bits := 8 |};
  {| bf_name := "sk_userlocks"; bf_off := 4; bf_width := 4; bf_bits := 8 |} ].
Definition sock_bitfield_2 : list bitfield := [
  {| bf_name := "sk_txtime_deadline_mode"; bf_off := 0; bf_width := 1; bf_bits := 8 |};
  {| bf_name := "sk_txtime_report_errors"; bf_off := 1; bf_width := 1; bf_bits := 8 |};
  {| bf_name := "sk_txtime_unused"; bf_off := 2; bf_width := 6; bf_bits := 8 |} ].
Definition __s16 : ty := c_short.
Definition inet_cork : decl := {|
  d_name := "inet_cork"; d_kind := KStruct; d_align := None;
  d_fields := [
    ("flags", c_uint); ("addr", __be32); ("opt", Ptr); ("fragsize", c_uint); ("length", c_int);
    ("dst", Ptr); ("tx_flags", u8_); ("ttl", __u8); ("tos", __s16); ("priority", c_char);
    ("gso_size", __u16); ("transmit_time", u64_); ("mark", u32_) ] |}.
Definition __be64 : ty := __u64.
Definition flowi_tunnel : decl := {|
  d_name := "flowi_tunnel"; d_kind := KStruct; d_align := None;
  d_fields := [
    ("tun_id", __be64) ] |}.
Definition flowi_common : decl := {|
  d_name := "flowi_common"; d_kind := KStruct; d_align := None;
  d_fields := [
    ("flowic_oif", c_int); ("flowic_iif", c_int); ("flowic_l3mdev", c_int);
    ("flowic_mark", __u32); ("flowic_tos", __u8); ("flowic_scope", __u8); ("flowic_proto", __u8);
    ("flowic_flags", __u8); ("flowic_secid", __u32); ("flowic_uid", Ref "kuid_t");
    ("flowic_tun_key", Ref "flowi_tunnel"); ("flowic_multipath_hash", __u32) ] |}.
Definition flowi_uli__bindgen_ty_1 : decl := {|
  d_name := "flowi_uli__bindgen_ty_1"; d_kind := KStruct; d_align := None;
  d_fields := [
    ("dport", __be16); ("sport", __be16) ] |}.
Definition flowi_uli__bindgen_ty_2 : decl := {|
  d_name := "flowi_uli__bindgen_ty_2"; d_kind := KStruct; d_align := None;
  d_fields := [
    ("type_", __u8); ("code", __u8) ] |}.
Definition flowi_uli__bindgen_ty_3 : decl := {|
  d_name := "flowi_uli__bindgen_ty_3"; d_kind := KStruct; d_align := None;
  d_fields := [
    ("type_", __u8) ] |}.
Definition flowi_uli : decl := {|
  d_name := "flowi_uli"; d_kind := KUnion; d_align := None;
  d_fields := [
    ("ports", Ref "flowi_uli__bindgen_ty_1"); ("icmpt", Ref "flowi_uli__bindgen_ty_2");
    ("gre_key", __be32); ("mht", Ref "flowi_uli__bindgen_ty_3") ] |}.
Definition flowi4 : decl := {|
  d_name := "flowi4"; d_kind := KStruct; d_align := None;
  d_fields := [
    ("__fl_common", Ref "flowi_common"); ("saddr", __be32); ("daddr", __be32);
    ("uli", Ref "flowi_uli") ] |}.
Definition flowi6 : decl := {|
  d_name := "flowi6"; d_kind := KStruct; d_align := None;
  d_fields := [
    ("__fl_common", Ref "flowi_common"); ("daddr", Ref "in6_addr"); ("saddr", Ref "in6_addr");
    ("flowlabel", __be32); ("uli", Ref "flowi_uli"); ("mp_hash", __u32) ] |}.
Definition flowi__bindgen_ty_1 : decl := {|
  d_name := "flowi__bindgen_ty_1"; d_kind := KUnion; d_align := None;
  d_fields := [
    ("__fl_common", Ref "flowi_common"); ("ip4", Ref "flowi4"); ("ip6", Ref "flowi6") ] |}.
Definition flowi : decl := {|
  d_name := "flowi"; d_kind := KStruct; d_align := None;
  d_fields := [
    ("u", Ref "flowi__bindgen_ty_1") ] |}.
Definition inet_cork_full : decl := {|
  d_name := "inet_cork_full"; d_kind := KStruct; d_align := None;
  d_fields := [
    ("base", Ref "inet_cork"); ("fl", Ref "flowi") ] |}.
Definition inet_sock__bindgen_ty_1 : decl := {|
  d_name := "inet_sock__bindgen_ty_1"; d_kind := KStruct; d_align := None;
  d_fields := [
    ("lo", __u16); ("hi", __u16) ] |}.
Definition inet_sock : decl := {|
  d_name := "inet_sock"; d_kind := KStruct; d_align := None;
  d_fields := [
    ("sk", Ref "sock"); ("pinet6", Ptr); ("inet_saddr", __be32); ("uc_ttl", __s16);
    ("cmsg_flags", __u16); ("inet_opt", Ptr); ("inet_id", Ref "atomic_t"); ("inet_sport", __be16);
    ("tos", __u8); ("min_ttl", __u8); ("mc_ttl", __u8); ("pmtudisc", __u8);
    ("_bitfield_align_1", Arr u8 0); ("_bitfield_1", BindgenBitfieldUnit 2); ("rcv_tos", __u8);
    ("convert_csum", __u8); ("uc_index", c_int); ("mc_index", c_int); ("mc_addr", __be32);
    ("mc_list", Ptr); ("cork", Ref "inet_cork_full");
    ("local_port_range", Ref "inet_sock__bindgen_ty_1") ] |}.
Definition inet_sock_bitfield_1 : list bitfield := [
  {| bf_name := "recverr"; bf_off := 0; bf_width := 1; bf_bits := 8 |};
  {| bf_name := "is_icsk"; bf_off := 1; bf_width := 1; bf_bits := 8 |};
  {| bf_name := "freebind"; bf_off := 2; bf_width := 1; bf_bits := 8 |};
  {| bf_name := "hdrincl"; bf_off := 3; bf_width := 1; bf_bits := 8 |};
  {| bf_name := "mc_loop"; bf_off := 4; bf_width := 1; bf_bits := 8 |};
  {| bf_name := "transparent"; bf_off := 5; bf_width := 1; bf_bits := 8 |};
  {| bf_name := "mc_all"; bf_off := 6; bf_width := 1; bf_bits := 8 |};
  {| bf_name := "nodefrag"; bf_off := 7; bf_width := 1; bf_bits := 8 |};
  {| bf_name := "bind_address_no_port"; bf_off := 8; bf_width := 1; bf_bits := 8 |};
  {| bf_name := "recverr_rfc4884"; bf_off := 9; bf_width := 1; bf_bits := 8 |};
  {| bf_name := "defer_connect"; bf_off := 10; bf_width := 1; bf_bits := 8 |} ].
Definition fastopen_queue : decl := {|
  d_name := "fastopen_queue"; d_kind := KStruct; d_align := None;
  d_fields := [
    ("rskq_rst_head", Ptr); ("rskq_rst_tail", Ptr); ("lock", spinlock_t); ("qlen", c_int);
    ("max_qlen", c_int); ("ctx", Ptr) ] |}.
Definition request_sock_queue : decl := {|
  d_name := "request_sock_queue"; d_kind := KStruct; d_align := None;
  d_fields := [
    ("rskq_lock", spinlock_t); ("rskq_defer_accept", u8_); ("synflood_warned", u32_);
    ("qlen", Ref "atomic_t"); ("young", Ref "atomic_t"); ("rskq_accept_head", Ptr);
    ("rskq_accept_tail", Ptr); ("fastopenq", Ref "fastopen_queue") ] |}.
Definition inet_connection_sock__bindgen_ty_1 : decl := {|
  d_name := "inet_connection_sock__bindgen_ty_1"; d_kind := KStruct; d_align := None;
  d_fields := [
    ("pending", __u8); ("quick", __u8); ("pingpong", __u8); ("retry", __u8); ("ato", __u32);
    ("timeout", c_ulong); ("lrcvtime", __u32); ("last_seg_size", __u16); ("rcv_mss", __u16) ] |}.
Definition inet_connection_sock__bindgen_ty_2 : decl := {|
  d_name := "inet_connection_sock__bindgen_ty_2"; d_kind := KStruct; d_align := None;
  d_fields := [
    ("search_high", c_int); ("search_low", c_int); ("_bitfield_align_1", Arr u32 0);
    ("_bitfield_1", BindgenBitfieldUnit 4); ("probe_timestamp", u32_) ] |}.
Definition inet_connection_sock__bindgen_ty_2_bitfield_1 : list bitfield := [
  {| bf_name := "probe_size"; bf_off := 0; bf_width := 31; bf_bits := 32 |};
  {| bf_name := "enabled"; bf_off := 31; bf_width := 1; bf_bits := 32 |} ].
Definition inet_connection_sock : decl := {|
  d_name := "inet_connection_sock"; d_kind := KStruct; d_align := None;
  d_fields := [
    ("icsk_inet", Ref "inet_sock"); ("icsk_accept_queue", Ref "request_sock_queue");
    ("icsk_bind_hash", Ptr); ("icsk_bind2_hash", Ptr); ("icsk_timeout", c_ulong);
    ("icsk_retransmit_timer", Ref "timer_list"); ("icsk_delack_timer", Ref "timer_list");
    ("icsk_rto", __u32); ("icsk_rto_min", __u32); ("icsk_delack_max", __u32);
    ("icsk_pmtu_cookie", __u32); ("icsk_ca_ops", Ptr); ("icsk_af_ops", Ptr);
    ("icsk_ulp_ops", Ptr); ("icsk_ulp_data", Ptr); ("icsk_clean_acked", Ptr);
    ("icsk_sync_mss", Ptr); ("_bitfield_align_1", Arr u8 0);
    ("_bitfield_1", BindgenBitfieldUnit 1); ("icsk_retransmits", __u8); ("icsk_pending", __u8);
    ("icsk_backoff", __u8); ("icsk_syn_retries", __u8); ("icsk_probes_out", __u8);
    ("icsk_ext_hdr_len", __u16); ("icsk_ack", Ref "inet_connection_sock__bindgen_ty_1");
    ("icsk_mtup", Ref "inet_connection_sock__bindgen_ty_2"); ("icsk_probes_tstamp", u32_);
    ("icsk_user_timeout", u32_); ("icsk_ca_priv", Arr u64_ 13) ] |}.
Definition inet_connection_sock_bitfield_1 : list bitfield := [
  {| bf_name := "icsk_ca_state"; bf_off := 0; bf_width := 5; bf_bits := 8 |};
  {| bf_name := "icsk_ca_initialized"; bf_off := 5; bf_width := 1; bf_bits := 8 |};
  {| bf_name := "icsk_ca_setsockopt"; bf_off := 6; bf_width := 1; bf_bits := 8 |};
  {| bf_name := "icsk_ca_dst_locked"; bf_off := 7; bf_width := 1; bf_bits := 8 |} ].
Definition tcp_rack : decl := {|
  d_name := "tcp_rack"; d_kind := KStruct; d_align := None;
  d_fields := [
    ("mstamp", u64_); ("rtt_us", u32_); ("end_seq", u32_); ("last_delivered", u32_);
    ("reo_wnd_steps", u8_); ("_bitfield_align_1", Arr u8 0);
    ("_bitfield_1", BindgenBitfieldUnit 1); ("__bindgen_padding_0", u16) ] |}.
Definition tcp_rack_bitfield_1 : list bitfield := [
  {| bf_name := "reo_wnd_persist"; bf_off := 0; bf_width := 5; bf_bits := 8 |};
  {| bf_name := "dsack_seen"; bf_off := 5; bf_width := 1; bf_bits := 8 |};
  {| bf_name := "advanced"; bf_off := 6; bf_width := 1; bf_bits := 8 |} ].
Definition minmax_sample : decl := {|
  d_name := "minmax_sample"; d_kind := KStruct; d_align := None;
  d_fields := [
    ("t", u32_); ("v", u32_) ] |}.
Definition minmax : decl := {|
  d_name := "minmax"; d_kind := KStruct; d_align := None;
  d_fields := [
    ("s", Arr (Ref "minmax_sample") 3) ] |}.
Definition tcp_options_received : decl := {|
  d_name := "tcp_options_received"; d_kind := KStruct; d_align := None;
  d_fields := [
    ("ts_recent_stamp", c_int); ("ts_recent", u32_); ("rcv_tsval", u32_); ("rcv_tsecr", u32_);
    ("_bitfield_align_1", Arr u8 0); ("_bitfield_1", BindgenBitfieldUnit 3); ("num_sacks", u8_);
    ("user_mss", u16_); ("mss_clamp", u16_) ] |}.
Definition tcp_options_received_bitfield_1 : list bitfield := [
  {| bf_name := "saw_tstamp"; bf_off := 0; bf_width := 1; bf_bits := 16 |};
  {| bf_name := "tstamp_ok"; bf_off := 1; bf_width := 1; bf_bits := 16 |};
  {| bf_name := "dsack"; bf_off := 2; bf_width := 1; bf_bits := 16 |};
  {| bf_name := "wscale_ok"; bf_off := 3; bf_width := 1; bf_bits := 16 |};
  {| bf_name := "sack_ok"; bf_off := 4; bf_width := 3; bf_bits := 16 |};
  {| bf_name := "smc_ok"; bf_off := 7; bf_width := 1; bf_bits := 16 |};
  {| bf_name := "snd_wscale"; bf_off := 8; bf_width := 4; bf_bits := 16 |};
  {| bf_name := "rcv_wscale"; bf_off := 12; bf_width := 4; bf_bits := 16 |};
  {| bf_name := "saw_unknown"; bf_off := 16; bf_width := 1; bf_bits := 8 |};
  {| bf_name := "unused"; bf_off := 17; bf_width := 7; bf_bits := 8 |} ].
Definition rb_node : decl := {|
  d_name := "rb_node"; d_kind := KStruct; d_align := None;
  d_fields := [
    ("__rb_parent_color", c_ulong); ("rb_right", Ptr); ("rb_left", Ptr) ] |}.
Definition timerqueue_node : decl := {|
  d_name := "timerqueue_node"; d_kind := KStruct; d_align := None;
  d_fields := [
    ("node", Ref "rb_node"); ("expires", ktime_t) ] |}.
Definition hrtimer : decl := {|
  d_name := "hrtimer"; d_kind := KStruct; d_align := None;
  d_fields := [
    ("node", Ref "timerqueue_node"); ("_softexpires", ktime_t); ("function", Ptr); ("base", Ptr);
    ("state", u8_); ("is_rel", u8_); ("is_soft", u8_); ("is_hard", u8_) ] |}.
Definition tcp_sack_block : decl := {|
  d_name := "tcp_sack_block"; d_kind := KStruct; d_align := None;
  d_fields := [
    ("start_seq", u32_); ("end_seq", u32_) ] |}.
Definition tcp_sock__bindgen_ty_1 : decl := {|
  d_name := "tcp_sock__bindgen_ty_1"; d_kind := KStruct; d_align := None;
  d_fields := [
    ("rtt_us", u32_); ("seq", u32_); ("time", u64_) ] |}.
Definition tcp_sock__bindgen_ty_2 : decl := {|
  d_name := "tcp_sock__bindgen_ty_2"; d_kind := KStruct; d_align := None;
  d_fields := [
    ("space", u32_); ("seq", u32_); ("time", u64_) ] |}.
Definition tcp_sock__bindgen_ty_3 : decl := {|
  d_name := "tcp_sock__bindgen_ty_3"; d_kind := KStruct; d_align := None;
  d_fields := [
    ("probe_seq_start", u32_); ("probe_seq_end", u32_) ] |}.
Definition tcp_sock : decl := {|
  d_name := "tcp_sock"; d_kind := KStruct; d_align := None;
  d_fields := [
    ("inet_conn", Ref "inet_connection_sock"); ("tcp_header_len", u16_); ("gso_segs", u16_);
    ("pred_flags", __be32); ("bytes_received", u64_); ("segs_in", u32_); ("data_segs_in", u32_);
    ("rcv_nxt", u32_); ("copied_seq", u32_); ("rcv_wup", u32_); ("snd_nxt", u32_);
    ("segs_out", u32_); ("data_segs_out", u32_); ("bytes_sent", u64_); ("bytes_acked", u64_);
    ("dsack_dups", u32_); ("snd_una", u32_); ("snd_sml", u32_); ("rcv_tstamp", u32_);
    ("lsndtime", u32_); ("last_oow_ack_time", u32_); ("compressed_ack_rcv_nxt", u32_);
    ("tsoffset", u32_); ("tsq_node", Ref "list_head"); ("tsorted_sent_queue", Ref "list_head");
    ("snd_wl1", u32_); ("snd_wnd", u32_); ("max_window", u32_); ("mss_cache", u32_);
    ("window_clamp", u32_); ("rcv_ssthresh", u32_); ("rack", Ref "tcp_rack"); ("advmss", u16_);
    ("compressed_ack", u8_); ("_bitfield_align_1", Arr u8 0);
    ("_bitfield_1", BindgenBitfieldUnit 1); ("chrono_start", u32_); ("chrono_stat", Arr u32_ 3);
    ("_bitfield_align_2", Arr u8 0); ("_bitfield_2", BindgenBitfieldUnit 2);
    ("repair_queue", u8_); ("_bitfield_align_3", Arr u8 0);
    ("_bitfield_3", BindgenBitfieldUnit 1); ("tlp_high_seq", u32_); ("tcp_tx_delay", u32_);
    ("tcp_wstamp_ns", u64_); ("tcp_clock_cache", u64_); ("tcp_mstamp", u64_); ("srtt_us", u32_);
    ("mdev_us", u32_); ("mdev_max_us", u32_); ("rttvar_us", u32_); ("rtt_seq", u32_);
    ("rtt_min", Ref "minmax"); ("packets_out", u32_); ("retrans_out", u32_);
    ("max_packets_out", u32_); ("cwnd_usage_seq", u32_); ("urg_data", u16_); ("ecn_flags", u8_);
    ("keepalive_probes", u8_); ("reordering", u32_); ("reord_seen", u32_); ("snd_up", u32_);
    ("rx_opt", Ref "tcp_options_received"); ("snd_ssthresh", u32_); ("snd_cwnd", u32_);
    ("snd_cwnd_cnt", u32_); ("snd_cwnd_clamp", u32_); ("snd_cwnd_used", u32_);
    ("snd_cwnd_stamp", u32_); ("prior_cwnd", u32_); ("prr_delivered", u32_); ("prr_out", u32_);
    ("delivered", u32_); ("delivered_ce", u32_); ("lost", u32_); ("app_limited", u32_);
    ("first_tx_mstamp", u64_); ("delivered_mstamp", u64_); ("rate_delivered", u32_);
    ("rate_interval_us", u32_); ("rcv_wnd", u32_); ("write_seq", u32_); ("notsent_lowat", u32_);
    ("pushed_seq", u32_); ("lost_out", u32_); ("sacked_out", u32_);
    ("pacing_timer", Ref "hrtimer"); ("compressed_ack_timer", Ref "hrtimer");
    ("lost_skb_hint", Ptr); ("retransmit_skb_hint", Ptr); ("out_of_order_queue", Ref "rb_root");
    ("ooo_last_skb", Ptr); ("duplicate_sack", Arr (Ref "tcp_sack_block") 1);
    ("selective_acks", Arr (Ref "tcp_sack_block") 4);
    ("recv_sack_cache", Arr (Ref "tcp_sack_block") 4); ("highest_sack", Ptr);
    ("lost_cnt_hint", c_int); ("prior_ssthresh", u32_); ("high_seq", u32_);
    ("retrans_stamp", u32_); ("undo_marker", u32_); ("undo_retrans", c_int);
    ("bytes_retrans", u64_); ("total_retrans", u32_); ("urg_seq", u32_);
    ("keepalive_time", c_uint); ("keepalive_intvl", c_uint); ("linger2", c_int);
    ("bpf_sock_ops_cb_flags", u8_); ("_bitfield_align_4", Arr u8 0);
    ("_bitfield_4", BindgenBitfieldUnit 1); ("timeout_rehash", u16_); ("rcv_ooopack", u32_);
    ("rcv_rtt_last_tsecr", u32_); ("rcv_rtt_est", Ref "tcp_sock__bindgen_ty_1");
    ("rcvq_space", Ref "tcp_sock__bindgen_ty_2"); ("mtu_probe", Ref "tcp_sock__bindgen_ty_3");
    ("plb_rehash", u32_); ("mtu_info", u32_); ("is_mptcp", bool_); ("smc_hs_congested", Ptr);
    ("syn_smc", bool_); ("af_specific", Ptr); ("md5sig_info", Ptr); ("fastopen_req", Ptr);
    ("fastopen_rsk", Ptr); ("saved_syn", Ptr) ] |}.
Definition tcp_sock_bitfield_1 : list bitfield := [
  {| bf_name := "dup_ack_counter"; bf_off := 0; bf_width := 2; bf_bits := 8 |};
  {| bf_name := "tlp_retrans"; bf_off := 2; bf_width := 1; bf_bits := 8 |};
  {| bf_name := "unused"; bf_off := 3; bf_width := 5; bf_bits := 8 |} ].
Definition tcp_sock_bitfield_2 : list bitfield := [
  {| bf_name := "chrono_type"; bf_off := 0; bf_width := 2; bf_bits := 8 |};
  {| bf_name := "rate_app_limited"; bf_off := 2; bf_width := 1; bf_bits := 8 |};
  {| bf_name := "fastopen_connect"; bf_off := 3; bf_width := 1; bf_bits := 8 |};
  {| bf_name := "fastopen_no_cookie"; bf_off := 4; bf_width := 1; bf_bits := 8 |};
  {| bf_name := "is_sack_reneg"; bf_off := 5; bf_width := 1; bf_bits := 8 |};
  {| bf_name := "fastopen_client_fail"; bf_off := 6; bf_width := 2; bf_bits := 8 |};
  {| bf_name := "nonagle"; bf_off := 8; bf_width := 4; bf_bits := 8 |};
  {| bf_name := "thin_lto"; bf_off := 12; bf_width := 1; bf_bits := 8 |};
  {| bf_name := "recvmsg_inq"; bf_off := 13; bf_width := 1; bf_bits := 8 |};
  {| bf_name := "repair"; bf_off := 14; bf_width := 1; bf_bits := 8 |};
  {| bf_name := "frto"; bf_off := 15; bf_width := 1; bf_bits := 8 |} ].
Definition tcp_sock_bitfield_3 : list bitfield := [
  {| bf_name := "save_syn"; bf_off := 0; bf_width := 2; bf_bits := 8 |};
  {| bf_name := "syn_data"; bf_off := 2; bf_width := 1; bf_bits := 8 |};
  {| bf_name := "syn_fastopen"; bf_off := 3; bf_width := 1; bf_bits := 8 |};
  {| bf_name := "syn_fastopen_exp"; bf_off := 4; bf_width := 1; bf_bits := 8 |};
  {| bf_name := "syn_fastopen_ch"; bf_off := 5; bf_width := 1; bf_bits := 8 |};
  {| bf_name := "syn_data_acked"; bf_off := 6; bf_width := 1; bf_bits := 8 |};
  {| bf_name := "is_cwnd_limited"; bf_off := 7; bf_width := 1; bf_bits := 8 |} ].
Definition tcp_sock_bitfield_4 : list bitfield := [
  {| bf_name := "bpf_chg_cc_inprogress"; bf_off := 0; bf_width := 1; bf_bits := 8 |} ].

(** The declarations, each after those it uses. *)
Definition decls : list decl := [
  sock_common__bindgen_ty_1__bindgen_ty_1; sock_common__bindgen_ty_1; sock_common__bindgen_ty_2;
  sock_common__bindgen_ty_3__bindgen_ty_1; sock_common__bindgen_ty_3; hlist_node;
  sock_common__bindgen_ty_4; possible_net_t; in6_addr__bindgen_ty_1; in6_addr; atomic64_t;
  sock_common__bindgen_ty_5; hlist_nulls_node; sock_common__bindgen_ty_6;
  sock_common__bindgen_ty_7; atomic_t; refcount_struct; sock_common__bindgen_ty_8; sock_common;
  qspinlock__bindgen_ty_1__bindgen_ty_1; qspinlock__bindgen_ty_1__bindgen_ty_2;
  qspinlock__bindgen_ty_1; qspinlock; raw_spinlock; spinlock__bindgen_ty_1; spinlock; list_head;
  wait_queue_head; socket_lock_t; sk_buff_head__bindgen_ty_1__bindgen_ty_1; sk_buff_list;
  sk_buff_head__bindgen_ty_1; sk_buff_head; sock__bindgen_ty_1; sock__bindgen_ty_2; rb_root;
  sock__bindgen_ty_3; timer_list; page_frag; qrwlock__bindgen_ty_1__bindgen_ty_1;
  qrwlock__bindgen_ty_1; qrwlock; rwlock_t; kuid_t; sock_cgroup_data; callback_head;
  netns_tracker; sock; inet_cork; flowi_tunnel; flowi_common; flowi_uli__bindgen_ty_1;
  flowi_uli__bindgen_ty_2; flowi_uli__bindgen_ty_3; flowi_uli; flowi4; flowi6;
  flowi__bindgen_ty_1; flowi; inet_cork_full; inet_sock__bindgen_ty_1; inet_sock; fastopen_queue;
  request_sock_queue; inet_connection_sock__bindgen_ty_1; inet_connection_sock__bindgen_ty_2;
  inet_connection_sock; tcp_rack; minmax_sample; minmax; tcp_options_received; rb_node;
  timerqueue_node; hrtimer; tcp_sack_block; tcp_sock__bindgen_ty_1; tcp_sock__bindgen_ty_2;
  tcp_sock__bindgen_ty_3; tcp_sock ].

(** The bit field units: their size in bytes and their fields. *)
Definition bitfield_units : list (nat * list bitfield) := [
  (1%nat, sock_common_bitfield_1); (1%nat, sock_bitfield_1); (1%nat, sock_bitfield_2);
  (2%nat, inet_sock_bitfield_1); (4%nat, inet_connection_sock__bindgen_ty_2_bitfield_1);
  (1%nat, inet_connection_sock_bitfield_1); (1%nat, tcp_rack_bitfield_1);
  (3%nat, tcp_options_received_bitfield_1); (1%nat, tcp_sock_bitfield_1);
  (2%nat, tcp_sock_bitfield_2); (1%nat, tcp_sock_bitfield_3); (1%nat, tcp_sock_bitfield_4) ].
