(* ===== verification/SocketBindings.v ===== *)
(** * The kernel structures the socket tracer reads

    [ebpf/socket-tracer/socket-tracer-ebpf/src/vmlinux.rs]: [task_struct], [sock],
    [socket], which is what [sock_alloc] returns, the socket addresses and message headers that the probes read, and every type
    that is part of them by value, with the accessors of their bit fields. *)
From S2P Require Import Prelude Bitfield KernelLayout.
From stdpp Require Import base gmap strings list.
From Stdlib Require Import ZArith Lia.

Local Open Scope Z_scope.

Definition __u32 : ty := c_uint.
Definition u32_ : ty := __u32.
Definition thread_info : decl := {|
  d_name := "thread_info"; d_kind := KStruct; d_align := None;
  d_fields := [
    ("flags", c_ulong); ("syscall_work", c_ulong); ("status", u32_) ] |}.
Definition atomic_t : decl := {|
  d_name := "atomic_t"; d_kind := KStruct; d_align := None;
  d_fields := [
    ("counter", c_int) ] |}.
Definition refcount_struct : decl := {|
  d_name := "refcount_struct"; d_kind := KStruct; d_align := None;
  d_fields := [
    ("refs", Ref "atomic_t") ] |}.
Definition refcount_t : ty := Ref "refcount_struct".
Definition llist_node : decl := {|
  d_name := "llist_node"; d_kind := KStruct; d_align := None;
  d_fields := [
    ("next", Ptr) ] |}.
Definition __call_single_node__bindgen_ty_1 : decl := {|
  d_name := "__call_single_node__bindgen_ty_1"; d_kind := KUnion; d_align := None;
  d_fields := [
    ("u_flags", c_uint); ("a_flags", Ref "atomic_t") ] |}.
Definition __u16 : ty := c_ushort.
Definition u16_ : ty := __u16.
Definition __call_single_node : decl := {|
  d_name := "__call_single_node"; d_kind := KStruct; d_align := None;
  d_fields := [
    ("llist", Ref "llist_node"); ("__bindgen_anon_1", Ref "__call_single_node__bindgen_ty_1");
    ("src", u16_); ("dst", u16_) ] |}.
Definition load_weight : decl := {|
  d_name := "load_weight"; d_kind := KStruct; d_align := None;
  d_fields := [
    ("weight", c_ulong); ("inv_weight", u32_) ] |}.
Definition rb_node : decl := {|
  d_name := "rb_node"; d_kind := KStruct; d_align := None;
  d_fields := [
    ("__rb_parent_color", c_ulong); ("rb_right", Ptr); ("rb_left", Ptr) ] |}.
Definition list_head : decl := {|
  d_name := "list_head"; d_kind := KStruct; d_align := None;
  d_fields := [
    ("next", Ptr); ("prev", Ptr) ] |}.
Definition __u64 : ty := c_ulonglong.
Definition u64_ : ty := __u64.
Definition __s64 : ty := c_longlong.
Definition s64 : ty := __s64.
Definition sched_statistics : decl := {|
  d_name := "sched_statistics"; d_kind := KStruct; d_align := None;
  d_fields := [
    ("wait_start", u64_); ("wait_max", u64_); ("wait_count", u64_); ("wait_sum", u64_);
    ("iowait_count", u64_); ("iowait_sum", u64_); ("sleep_start", u64_); ("sleep_max", u64_);
    ("sum_sleep_runtime", s64); ("block_start", u64_); ("block_max", u64_); ("exec_max", u64_);
    ("slice_max", u64_); ("nr_migrations_cold", u64_); ("nr_failed_migrations_affine", u64_);
    ("nr_failed_migrations_running", u64_); ("nr_failed_migrations_hot", u64_);
    ("nr_forced_migrations", u64_); ("nr_wakeups", u64_); ("nr_wakeups_sync", u64_);
    ("nr_wakeups_migrate", u64_); ("nr_wakeups_local", u64_); ("nr_wakeups_remote", u64_);
    ("nr_wakeups_affine", u64_); ("nr_wakeups_affine_attempts", u64_);
    ("nr_wakeups_passive", u64_); ("nr_wakeups_idle", u64_) ] |}.
Definition util_est : decl := {|
  d_name := "util_est"; d_kind := KStruct; d_align := None;
  d_fields := [
    ("enqueued", c_uint); ("ewma", c_uint) ] |}.
Definition sched_avg : decl := {|
  d_name := "sched_avg"; d_kind := KStruct; d_align := None;
  d_fields := [
    ("last_update_time", u64_); ("load_sum", u64_); ("runnable_sum", u64_); ("util_sum", u32_);
    ("period_contrib", u32_); ("load_avg", c_ulong); ("runnable_avg", c_ulong);
    ("util_avg", c_ulong); ("util_est", Ref "util_est") ] |}.
Definition sched_entity : decl := {|
  d_name := "sched_entity"; d_kind := KStruct; d_align := None;
  d_fields := [
    ("load", Ref "load_weight"); ("run_node", Ref "rb_node"); ("group_node", Ref "list_head");
    ("on_rq", c_uint); ("exec_start", u64_); ("sum_exec_runtime", u64_); ("vruntime", u64_);
    ("prev_sum_exec_runtime", u64_); ("nr_migrations", u64_);
    ("statistics", Ref "sched_statistics"); ("depth", c_int); ("parent", Ptr); ("cfs_rq", Ptr);
    ("my_q", Ptr); ("runnable_weight", c_ulong); ("_bitfield_align_1", Arr u8 0);
    ("_bitfield_1", BindgenBitfieldUnit 24); ("avg", Ref "sched_avg") ] |}.
Definition sched_entity_bitfield_1 : list bitfield := [
 ].
Definition sched_rt_entity : decl := {|
  d_name := "sched_rt_entity"; d_kind := KStruct; d_align := None;
  d_fields := [
    ("run_list", Ref "list_head"); ("timeout", c_ulong); ("watchdog_stamp", c_ulong);
    ("time_slice", c_uint); ("on_rq", c_ushort); ("on_list", c_ushort); ("back", Ptr) ] |}.
Definition ktime_t : ty := s64.
Definition timerqueue_node : decl := {|
  d_name := "timerqueue_node"; d_kind := KStruct; d_align := None;
  d_fields := [
    ("node", Ref "rb_node"); ("expires", ktime_t) ] |}.
Definition __u8 : ty := c_uchar.
Definition u8_ : ty := __u8.
Definition hrtimer : decl := {|
  d_name := "hrtimer"; d_kind := KStruct; d_align := None;
  d_fields := [
    ("node", Ref "timerqueue_node"); ("_softexpires", ktime_t); ("function", Ptr); ("base", Ptr);
    ("state", u8_); ("is_rel", u8_); ("is_soft", u8_); ("is_hard", u8_) ] |}.
Definition sched_dl_entity : decl := {|
  d_name := "sched_dl_entity"; d_kind := KStruct; d_align := None;
  d_fields := [
    ("rb_node", Ref "rb_node"); ("dl_runtime", u64_); ("dl_deadline", u64_); ("dl_period", u64_);
    ("dl_bw", u64_); ("dl_density", u64_); ("runtime", s64); ("deadline", u64_);
    ("flags", c_uint); ("_bitfield_align_1", Arr u8 0); ("_bitfield_1", BindgenBitfieldUnit 1);
    ("dl_timer", Ref "hrtimer"); ("inactive_timer", Ref "hrtimer"); ("pi_se", Ptr) ] |}.
Definition sched_dl_entity_bitfield_1 : list bitfield := [
  {| bf_name := "dl_throttled"; bf_off := 0; bf_width := 1; bf_bits := 32 |};
  {| bf_name := "dl_yielded"; bf_off := 1; bf_width := 1; bf_bits := 32 |};
  {| bf_name := "dl_non_contending"; bf_off := 2; bf_width := 1; bf_bits := 32 |};
  {| bf_name := "dl_overrun"; bf_off := 3; bf_width := 1; bf_bits := 32 |} ].
Definition uclamp_se : decl := {|
  d_name := "uclamp_se"; d_kind := KStruct; d_align := Some 4;
  d_fields := [
    ("_bitfield_align_1", Arr u16 0); ("_bitfield_1", BindgenBitfieldUnit 2);
    ("__bindgen_padding_0", u16) ] |}.
Definition uclamp_se_bitfield_1 : list bitfield := [
  {| bf_name := "value"; bf_off := 0; bf_width := 11; bf_bits := 32 |};
  {| bf_name := "bucket_id"; bf_off := 11; bf_width := 3; bf_bits := 32 |};
  {| bf_name := "active"; bf_off := 14; bf_width := 1; bf_bits := 32 |};
  {| bf_name := "user_defined"; bf_off := 15; bf_width := 1; bf_bits := 32 |} ].
Definition hlist_head : decl := {|
  d_name := "hlist_head"; d_kind := KStruct; d_align := None;
  d_fields := [
    ("first", Ptr) ] |}.
Definition cpumask : decl := {|
  d_name := "cpumask"; d_kind := KStruct; d_align := None;
  d_fields := [
    ("bits", Arr c_ulong 128) ] |}.
Definition cpumask_t : ty := Ref "cpumask".
Definition rcu_special__bindgen_ty_1 : decl := {|
  d_name := "rcu_special__bindgen_ty_1"; d_kind := KStruct; d_align := None;
  d_fields := [
    ("blocked", u8_); ("need_qs", u8_); ("exp_hint", u8_); ("need_mb", u8_) ] |}.
Definition rcu_special : decl := {|
  d_name := "rcu_special"; d_kind := KUnion; d_align := None;
  d_fields := [
    ("b", Ref "rcu_special__bindgen_ty_1"); ("s", u32_) ] |}.
Definition bool_ : ty := bool'.
Definition sched_info : decl := {|
  d_name := "sched_info"; d_kind := KStruct; d_align := None;
  d_fields := [
    ("pcount", c_ulong); ("run_delay", c_ulonglong); ("last_arrival", c_ulonglong);
    ("last_queued", c_ulonglong) ] |}.
Definition plist_node : decl := {|
  d_name := "plist_node"; d_kind := KStruct; d_align := None;
  d_fields := [
    ("prio", c_int); ("prio_list", Ref "list_head"); ("node_list", Ref "list_head") ] |}.
Definition vmacache : decl := {|
  d_name := "vmacache"; d_kind := KStruct; d_align := None;
  d_fields := [
    ("seqnum", u64_); ("vmas", Arr Ptr 4) ] |}.
Definition task_rss_stat : decl := {|
  d_name := "task_rss_stat"; d_kind := KStruct; d_align := None;
  d_fields := [
    ("events", c_int); ("count", Arr c_int 4) ] |}.
Definition restart_block__bindgen_ty_1__bindgen_ty_1 : decl := {|
  d_name := "restart_block__bindgen_ty_1__bindgen_ty_1"; d_kind := KStruct; d_align := None;
  d_fields := [
    ("uaddr", Ptr); ("val", u32_); ("flags", u32_); ("bitset", u32_); ("time", u64_);
    ("uaddr2", Ptr) ] |}.
Definition __kernel_clockid_t : ty := c_int.
Definition clockid_t : ty := __kernel_clockid_t.
Definition timespec_type_Type : ty := c_uint.
Definition restart_block__bindgen_ty_1__bindgen_ty_2__bindgen_ty_1 : decl := {|
  d_name := "restart_block__bindgen_ty_1__bindgen_ty_2__bindgen_ty_1"; d_kind := KUnion; d_align := None;
  d_fields := [
    ("rmtp", Ptr); ("compat_rmtp", Ptr) ] |}.
Definition restart_block__bindgen_ty_1__bindgen_ty_2 : decl := {|
  d_name := "restart_block__bindgen_ty_1__bindgen_ty_2"; d_kind := KStruct; d_align := None;
  d_fields := [
    ("clockid", clockid_t); ("type_", timespec_type_Type);
    ("__bindgen_anon_1", Ref "restart_block__bindgen_ty_1__bindgen_ty_2__bindgen_ty_1");
    ("expires", u64_) ] |}.
Definition restart_block__bindgen_ty_1__bindgen_ty_3 : decl := {|
  d_name := "restart_block__bindgen_ty_1__bindgen_ty_3"; d_kind := KStruct; d_align := None;
  d_fields := [
    ("ufds", Ptr); ("nfds", c_int); ("has_timeout", c_int); ("tv_sec", c_ulong);
    ("tv_nsec", c_ulong) ] |}.
Definition restart_block__bindgen_ty_1 : decl := {|
  d_name := "restart_block__bindgen_ty_1"; d_kind := KUnion; d_align := None;
  d_fields := [
    ("futex", Ref "restart_block__bindgen_ty_1__bindgen_ty_1");
    ("nanosleep", Ref "restart_block__bindgen_ty_1__bindgen_ty_2");
    ("poll", Ref "restart_block__bindgen_ty_1__bindgen_ty_3") ] |}.
Definition restart_block : decl := {|
  d_name := "restart_block"; d_kind := KStruct; d_align := None;
  d_fields := [
    ("arch_data", c_ulong); ("fn_", Ptr); ("__bindgen_anon_1", Ref "restart_block__bindgen_ty_1") ] |}.
Definition __kernel_pid_t : ty := c_int.
Definition pid_t : ty := __kernel_pid_t.
Definition hlist_node : decl := {|
  d_name := "hlist_node"; d_kind := KStruct; d_align := None;
  d_fields := [
    ("next", Ptr); ("pprev", Ptr) ] |}.
Definition qspinlock__bindgen_ty_1__bindgen_ty_1 : decl := {|
  d_name := "qspinlock__bindgen_ty_1__bindgen_ty_1"; d_kind := KStruct; d_align := None;
  d_fields := [
    ("locked", u8_); ("pending", u8_) ] |}.
Definition qspinlock__bindgen_ty_1__bindgen_ty_2 : decl := {|
  d_name := "qspinlock__bindgen_ty_1__bindgen_ty_2"; d_kind := KStruct; d_align := None;
  d_fields := [
    ("locked_pending", u16_); ("tail", u16_) ] |}.
Definition qspinlock__bindgen_ty_1 : decl := {|
  d_name := "qspinlock__bindgen_ty_1"; d_kind := KUnion; d_align := None;
  d_fields := [
    ("val", Ref "atomic_t"); ("__bindgen_anon_1", Ref "qspinlock__bindgen_ty_1__bindgen_ty_1");
    ("__bindgen_anon_2", Ref "qspinlock__bindgen_ty_1__bindgen_ty_2") ] |}.
Definition qspinlock : decl := {|
  d_name := "qspinlock"; d_kind := KStruct; d_align := None;
  d_fields := [
    ("__bindgen_anon_1", Ref "qspinlock__bindgen_ty_1") ] |}.
Definition arch_spinlock_t : ty := Ref "qspinlock".
Definition raw_spinlock : decl := {|
  d_name := "raw_spinlock"; d_kind := KStruct; d_align := None;
  d_fields := [
    ("raw_lock", arch_spinlock_t) ] |}.
Definition raw_spinlock_t : ty := Ref "raw_spinlock".
Definition prev_cputime : decl := {|
  d_name := "prev_cputime"; d_kind := KStruct; d_align := None;
  d_fields := [
    ("utime", u64_); ("stime", u64_); ("lock", raw_spinlock_t) ] |}.
Definition rb_root : decl := {|
  d_name := "rb_root"; d_kind := KStruct; d_align := None;
  d_fields := [
    ("rb_node", Ptr) ] |}.
Definition rb_root_cached : decl := {|
  d_name := "rb_root_cached"; d_kind := KStruct; d_align := None;
  d_fields := [
    ("rb_root", Ref "rb_root"); ("rb_leftmost", Ptr) ] |}.
Definition timerqueue_head : decl := {|
  d_name := "timerqueue_head"; d_kind := KStruct; d_align := None;
  d_fields := [
    ("rb_root", Ref "rb_root_cached") ] |}.
Definition posix_cputimer_base : decl := {|
  d_name := "posix_cputimer_base"; d_kind := KStruct; d_align := None;
  d_fields := [
    ("nextevt", u64_); ("tqhead", Ref "timerqueue_head") ] |}.
Definition posix_cputimers : decl := {|
  d_name := "posix_cputimers"; d_kind := KStruct; d_align := None;
  d_fields := [
    ("bases", Arr (Ref "posix_cputimer_base") 3); ("timers_active", c_uint);
    ("expiry_active", c_uint) ] |}.
Definition callback_head : decl := {|
  d_name := "callback_head"; d_kind := KStruct; d_align := None;
  d_fields := [
    ("next", Ptr); ("func", Ptr) ] |}.
Definition posix_cputimers_work : decl := {|
  d_name := "posix_cputimers_work"; d_kind := KStruct; d_align := None;
  d_fields := [
    ("work", Ref "callback_head"); ("scheduled", c_uint) ] |}.
Definition sysv_sem : decl := {|
  d_name := "sysv_sem"; d_kind := KStruct; d_align := None;
  d_fields := [
    ("undo_list", Ptr) ] |}.
Definition sysv_shm : decl := {|
  d_name := "sysv_shm"; d_kind := KStruct; d_align := None;
  d_fields := [
    ("shm_clist", Ref "list_head") ] |}.
Definition sigset_t : decl := {|
  d_name := "sigset_t"; d_kind := KStruct; d_align := None;
  d_fields := [
    ("sig", Arr c_ulong 1) ] |}.
Definition sigpending : decl := {|
  d_name := "sigpending"; d_kind := KStruct; d_align := None;
  d_fields := [
    ("list", Ref "list_head"); ("signal", Ref "sigset_t") ] |}.
Definition __kernel_uid32_t : ty := c_uint.
Definition uid_t : ty := __kernel_uid32_t.
Definition kuid_t : decl := {|
  d_name := "kuid_t"; d_kind := KStruct; d_align := None;
  d_fields := [
    ("val", uid_t) ] |}.
Definition seccomp : decl := {|
  d_name := "seccomp"; d_kind := KStruct; d_align := None;
  d_fields := [
    ("mode", c_int); ("filter_count", Ref "atomic_t"); ("filter", Ptr) ] |}.
Definition syscall_user_dispatch : decl := {|
  d_name := "syscall_user_dispatch"; d_kind := KStruct; d_align := None;
  d_fields := [
    ("selector", Ptr); ("offset", c_ulong); ("len", c_ulong); ("on_dispatch", bool_) ] |}.
Definition spinlock__bindgen_ty_1 : decl := {|
  d_name := "spinlock__bindgen_ty_1"; d_kind := KUnion; d_align := None;
  d_fields := [
    ("rlock", Ref "raw_spinlock") ] |}.
Definition spinlock : decl := {|
  d_name := "spinlock"; d_kind := KStruct; d_align := None;
  d_fields := [
    ("__bindgen_anon_1", Ref "spinlock__bindgen_ty_1") ] |}.
Definition spinlock_t : ty := Ref "spinlock".
Definition wake_q_node : decl := {|
  d_name := "wake_q_node"; d_kind := KStruct; d_align := None;
  d_fields := [
    ("next", Ptr) ] |}.
Definition task_io_accounting : decl := {|
  d_name := "task_io_accounting"; d_kind := KStruct; d_align := None;
  d_fields := [
    ("rchar", u64_); ("wchar", u64_); ("syscr", u64_); ("syscw", u64_); ("read_bytes", u64_);
    ("write_bytes", u64_); ("cancelled_write_bytes", u64_) ] |}.
Definition nodemask_t : decl := {|
  d_name := "nodemask_t"; d_kind := KStruct; d_align := None;
  d_fields := [
    ("bits", Arr c_ulong 16) ] |}.
Definition seqcount : decl := {|
  d_name := "seqcount"; d_kind := KStruct; d_align := None;
  d_fields := [
    ("sequence", c_uint) ] |}.
Definition seqcount_t : ty := Ref "seqcount".
Definition seqcount_spinlock : decl := {|
  d_name := "seqcount_spinlock"; d_kind := KStruct; d_align := None;
  d_fields := [
    ("seqcount", seqcount_t) ] |}.
Definition seqcount_spinlock_t : ty := Ref "seqcount_spinlock".
Definition atomic64_t : decl := {|
  d_name := "atomic64_t"; d_kind := KStruct; d_align := None;
  d_fields := [
    ("counter", s64) ] |}.
Definition atomic_long_t : ty := Ref "atomic64_t".
Definition optimistic_spin_queue : decl := {|
  d_name := "optimistic_spin_queue"; d_kind := KStruct; d_align := None;
  d_fields := [
    ("tail", Ref "atomic_t") ] |}.
Definition mutex : decl := {|
  d_name := "mutex"; d_kind := KStruct; d_align := None;
  d_fields := [
    ("owner", atomic_long_t); ("wait_lock", raw_spinlock_t); ("osq", Ref "optimistic_spin_queue");
    ("wait_list", Ref "list_head") ] |}.
Definition arch_tlbflush_unmap_batch : decl := {|
  d_name := "arch_tlbflush_unmap_batch"; d_kind := KStruct; d_align := None;
  d_fields := [
    ("cpumask", Ref "cpumask") ] |}.
Definition tlbflush_unmap_batch : decl := {|
  d_name := "tlbflush_unmap_batch"; d_kind := KStruct; d_align := None;
  d_fields := [
    ("arch", Ref "arch_tlbflush_unmap_batch"); ("flush_required", bool_); ("writable", bool_) ] |}.
Definition task_struct__bindgen_ty_1 : decl := {|
  d_name := "task_struct__bindgen_ty_1"; d_kind := KUnion; d_align := None;
  d_fields := [
    ("rcu_users", refcount_t); ("rcu", Ref "callback_head") ] |}.
Definition page_frag : decl := {|
  d_name := "page_frag"; d_kind := KStruct; d_align := None;
  d_fields := [
    ("page", Ptr); ("offset", __u32); ("size", __u32) ] |}.
Definition gfp_t : ty := c_uint.
Definition kmap_ctrl : decl := {|
  d_name := "kmap_ctrl"; d_kind := KStruct; d_align := None;
  d_fields := [
 ] |}.
Definition timer_list : decl := {|
  d_name := "timer_list"; d_kind := KStruct; d_align := None;
  d_fields := [
    ("entry", Ref "hlist_node"); ("expires", c_ulong); ("function", Ptr); ("flags", u32_) ] |}.
Definition llist_head : decl := {|
  d_name := "llist_head"; d_kind := KStruct; d_align := None;
  d_fields := [
    ("first", Ptr) ] |}.
Definition desc_struct : decl := {|
  d_name := "desc_struct"; d_kind := KStruct; d_align := None;
  d_fields := [
    ("limit0", u16_); ("base0", u16_); ("_bitfield_align_1", Arr u8 0);
    ("_bitfield_1", BindgenBitfieldUnit 4) ] |}.
Definition desc_struct_bitfield_1 : list bitfield := [
  {| bf_name := "base1"; bf_off := 0; bf_width := 8; bf_bits := 16 |};
  {| bf_name := "type_"; bf_off := 8; bf_width := 4; bf_bits := 16 |};
  {| bf_name := "s"; bf_off := 12; bf_width := 1; bf_bits := 16 |};
  {| bf_name := "dpl"; bf_off := 13; bf_width := 2; bf_bits := 16 |};
  {| bf_name := "p"; bf_off := 15; bf_width := 1; bf_bits := 16 |};
  {| bf_name := "limit1"; bf_off := 16; bf_width := 4; bf_bits := 16 |};
  {| bf_name := "avl"; bf_off := 20; bf_width := 1; bf_bits := 16 |};
  {| bf_name := "l"; bf_off := 21; bf_width := 1; bf_bits := 16 |};
  {| bf_name := "d"; bf_off := 22; bf_width := 1; bf_bits := 16 |};
  {| bf_name := "g"; bf_off := 23; bf_width := 1; bf_bits := 16 |};
  {| bf_name := "base2"; bf_off := 24; bf_width := 8; bf_bits := 16 |} ].
Definition fpu_state_perm : decl := {|
  d_name := "fpu_state_perm"; d_kind := KStruct; d_align := None;
  d_fields := [
    ("__state_perm", u64_); ("__state_size", c_uint); ("__user_state_size", c_uint) ] |}.
Definition fpregs_state : decl := {|
  d_name := "fpregs_state"; d_kind := KStruct; d_align := None;
  d_fields := [
    ("fsave", BindgenUnionField (Ref "fregs_state"));
    ("fxsave", BindgenUnionField (Ref "fxregs_state"));
    ("soft", BindgenUnionField (Ref "swregs_state"));
    ("xsave", BindgenUnionField (Ref "xregs_state"));
    ("__padding", BindgenUnionField (Arr u8_ 4096)); ("bindgen_union_field", Arr u64 512) ] |}.
Definition fpstate : decl := {|
  d_name := "fpstate"; d_kind := KStruct; d_align := None;
  d_fields := [
    ("size", c_uint); ("user_size", c_uint); ("xfeatures", u64_); ("user_xfeatures", u64_);
    ("xfd", u64_); ("_bitfield_align_1", Arr u8 0); ("_bitfield_1", BindgenBitfieldUnit 32);
    ("regs", Ref "fpregs_state") ] |}.
Definition fpstate_bitfield_1 : list bitfield := [
  {| bf_name := "is_valloc"; bf_off := 0; bf_width := 1; bf_bits := 32 |};
  {| bf_name := "is_guest"; bf_off := 1; bf_width := 1; bf_bits := 32 |};
  {| bf_name := "is_confidential"; bf_off := 2; bf_width := 1; bf_bits := 32 |};
  {| bf_name := "in_use"; bf_off := 3; bf_width := 1; bf_bits := 32 |} ].
Definition fpu : decl := {|
  d_name := "fpu"; d_kind := KStruct; d_align := None;
  d_fields := [
    ("last_cpu", c_uint); ("avx512_timestamp", c_ulong); ("fpstate", Ptr);
    ("__task_fpstate", Ptr); ("perm", Ref "fpu_state_perm"); ("_bitfield_align_1", Arr u8 0);
    ("_bitfield_1", BindgenBitfieldUnit 16); ("__fpstate", Ref "fpstate") ] |}.
Definition fpu_bitfield_1 : list bitfield := [
 ].
Definition thread_struct : decl := {|
  d_name := "thread_struct"; d_kind := KStruct; d_align := None;
  d_fields := [
    ("tls_array", Arr (Ref "desc_struct") 3); ("sp", c_ulong); ("es", c_ushort); ("ds", c_ushort);
    ("fsindex", c_ushort); ("gsindex", c_ushort); ("fsbase", c_ulong); ("gsbase", c_ulong);
    ("ptrace_bps", Arr Ptr 4); ("virtual_dr6", c_ulong); ("ptrace_dr7", c_ulong);
    ("cr2", c_ulong); ("trap_nr", c_ulong); ("error_code", c_ulong); ("io_bitmap", Ptr);
    ("iopl_emul", c_ulong); ("_bitfield_align_1", Arr u8 0);
    ("_bitfield_1", BindgenBitfieldUnit 1); ("pkru", u32_); ("_bitfield_align_2", Arr u8 0);
    ("_bitfield_2", BindgenBitfieldUnit 40); ("fpu", Ref "fpu") ] |}.
Definition thread_struct_bitfield_1 : list bitfield := [
  {| bf_name := "iopl_warn"; bf_off := 0; bf_width := 1; bf_bits := 32 |};
  {| bf_name := "sig_on_uaccess_err"; bf_off := 1; bf_width := 1; bf_bits := 32 |} ].
Definition task_struct : decl := {|
  d_name := "task_struct"; d_kind := KStruct; d_align := None;
  d_fields := [
    ("thread_info", Ref "thread_info"); ("__state", c_uint); ("stack", Ptr);
    ("usage", refcount_t); ("flags", c_uint); ("ptrace", c_uint); ("on_cpu", c_int);
    ("wake_entry", Ref "__call_single_node"); ("cpu", c_uint); ("wakee_flips", c_uint);
    ("wakee_flip_decay_ts", c_ulong); ("last_wakee", Ptr); ("recent_used_cpu", c_int);
    ("wake_cpu", c_int); ("on_rq", c_int); ("prio", c_int); ("static_prio", c_int);
    ("normal_prio", c_int); ("rt_priority", c_uint); ("sched_class", Ptr);
    ("_bitfield_align_1", Arr u8 0); ("_bitfield_1", BindgenBitfieldUnit 56);
    ("se", Ref "sched_entity"); ("rt", Ref "sched_rt_entity"); ("dl", Ref "sched_dl_entity");
    ("core_node", Ref "rb_node"); ("core_cookie", c_ulong); ("core_occupation", c_uint);
    ("sched_task_group", Ptr); ("uclamp_req", Arr (Ref "uclamp_se") 2);
    ("uclamp", Arr (Ref "uclamp_se") 2); ("preempt_notifiers", Ref "hlist_head");
    ("btrace_seq", c_uint); ("policy", c_uint); ("nr_cpus_allowed", c_int); ("cpus_ptr", Ptr);
    ("user_cpus_ptr", Ptr); ("cpus_mask", cpumask_t); ("migration_pending", Ptr);
    ("migration_disabled", c_ushort); ("migration_flags", c_ushort);
    ("trc_reader_nesting", c_int); ("trc_ipi_to_cpu", c_int);
    ("trc_reader_special", Ref "rcu_special"); ("trc_reader_checked", bool_);
    ("trc_holdout_list", Ref "list_head"); ("sched_info", Ref "sched_info");
    ("tasks", Ref "list_head"); ("pushable_tasks", Ref "plist_node");
    ("pushable_dl_tasks", Ref "rb_node"); ("mm", Ptr); ("active_mm", Ptr);
    ("vmacache", Ref "vmacache"); ("rss_stat", Ref "task_rss_stat"); ("exit_state", c_int);
    ("exit_code", c_int); ("exit_signal", c_int); ("pdeath_signal", c_int); ("jobctl", c_ulong);
    ("personality", c_uint); ("_bitfield_align_2", Arr u8 0);
    ("_bitfield_2", BindgenBitfieldUnit 6); ("atomic_flags", c_ulong);
    ("restart_block", Ref "restart_block"); ("pid", pid_t); ("tgid", pid_t);
    ("stack_canary", c_ulong); ("real_parent", Ptr); ("parent", Ptr);
    ("children", Ref "list_head"); ("sibling", Ref "list_head"); ("group_leader", Ptr);
    ("ptraced", Ref "list_head"); ("ptrace_entry", Ref "list_head"); ("thread_pid", Ptr);
    ("pid_links", Arr (Ref "hlist_node") 4); ("thread_group", Ref "list_head");
    ("thread_node", Ref "list_head"); ("vfork_done", Ptr); ("set_child_tid", Ptr);
    ("clear_child_tid", Ptr); ("pf_io_worker", Ptr); ("utime", u64_); ("stime", u64_);
    ("gtime", u64_); ("prev_cputime", Ref "prev_cputime"); ("nvcsw", c_ulong);
    ("nivcsw", c_ulong); ("start_time", u64_); ("start_boottime", u64_); ("min_flt", c_ulong);
    ("maj_flt", c_ulong); ("posix_cputimers", Ref "posix_cputimers");
    ("posix_cputimers_work", Ref "posix_cputimers_work"); ("ptracer_cred", Ptr);
    ("real_cred", Ptr); ("cred", Ptr); ("cached_requested_key", Ptr); ("comm", Arr c_char 16);
    ("nameidata", Ptr); ("sysvsem", Ref "sysv_sem"); ("sysvshm", Ref "sysv_shm");
    ("last_switch_count", c_ulong); ("last_switch_time", c_ulong); ("fs", Ptr); ("files", Ptr);
    ("io_uring", Ptr); ("nsproxy", Ptr); ("signal", Ptr); ("sighand", Ptr);
    ("blocked", Ref "sigset_t"); ("real_blocked", Ref "sigset_t");
    ("saved_sigmask", Ref "sigset_t"); ("pending", Ref "sigpending"); ("sas_ss_sp", c_ulong);
    ("sas_ss_size", usize); ("sas_ss_flags", c_uint); ("task_works", Ptr); ("audit_context", Ptr);
    ("loginuid", Ref "kuid_t"); ("sessionid", c_uint); ("seccomp", Ref "seccomp");
    ("syscall_dispatch", Ref "syscall_user_dispatch"); ("parent_exec_id", u64_);
    ("self_exec_id", u64_); ("alloc_lock", spinlock_t); ("pi_lock", raw_spinlock_t);
    ("wake_q", Ref "wake_q_node"); ("pi_waiters", Ref "rb_root_cached"); ("pi_top_task", Ptr);
    ("pi_blocked_on", Ptr); ("in_ubsan", c_uint); ("journal_info", Ptr); ("bio_list", Ptr);
    ("plug", Ptr); ("reclaim_state", Ptr); ("backing_dev_info", Ptr); ("io_context", Ptr);
    ("capture_control", Ptr); ("ptrace_message", c_ulong); ("last_siginfo", Ptr);
    ("ioac", Ref "task_io_accounting"); ("psi_flags", c_uint); ("acct_rss_mem1", u64_);
    ("acct_vm_mem1", u64_); ("acct_timexpd", u64_); ("mems_allowed", Ref "nodemask_t");
    ("mems_allowed_seq", seqcount_spinlock_t); ("cpuset_mem_spread_rotor", c_int);
    ("cpuset_slab_spread_rotor", c_int); ("cgroups", Ptr); ("cg_list", Ref "list_head");
    ("closid", u32_); ("rmid", u32_); ("robust_list", Ptr); ("compat_robust_list", Ptr);
    ("pi_state_list", Ref "list_head"); ("pi_state_cache", Ptr);
    ("futex_exit_mutex", Ref "mutex"); ("futex_state", c_uint); ("perf_event_ctxp", Arr Ptr 2);
    ("perf_event_mutex", Ref "mutex"); ("perf_event_list", Ref "list_head"); ("mempolicy", Ptr);
    ("il_prev", c_short); ("pref_node_fork", c_short); ("numa_scan_seq", c_int);
    ("numa_scan_period", c_uint); ("numa_scan_period_max", c_uint); ("numa_preferred_nid", c_int);
    ("numa_migrate_retry", c_ulong); ("node_stamp", u64_); ("last_task_numa_placement", u64_);
    ("last_sum_exec_runtime", u64_); ("numa_work", Ref "callback_head"); ("numa_group", Ptr);
    ("numa_faults", Ptr); ("total_numa_faults", c_ulong); ("numa_faults_locality", Arr c_ulong 3);
    ("numa_pages_migrated", c_ulong); ("rseq", Ptr); ("rseq_sig", u32_);
    ("rseq_event_mask", c_ulong); ("tlb_ubc", Ref "tlbflush_unmap_batch");
    ("__bindgen_anon_1", Ref "task_struct__bindgen_ty_1"); ("splice_pipe", Ptr);
    ("task_frag", Ref "page_frag"); ("delays", Ptr); ("nr_dirtied", c_int);
    ("nr_dirtied_pause", c_int); ("dirty_paused_when", c_ulong); ("timer_slack_ns", u64_);
    ("default_timer_slack_ns", u64_); ("curr_ret_stack", c_int); ("curr_ret_depth", c_int);
    ("ret_stack", Ptr); ("ftrace_timestamp", c_ulonglong); ("trace_overrun", Ref "atomic_t");
    ("tracing_graph_pause", Ref "atomic_t"); ("trace", c_ulong); ("trace_recursion", c_ulong);
    ("memcg_in_oom", Ptr); ("memcg_oom_gfp_mask", gfp_t); ("memcg_oom_order", c_int);
    ("memcg_nr_pages_over_high", c_uint); ("active_memcg", Ptr); ("throttle_queue", Ptr);
    ("utask", Ptr); ("sequential_io", c_uint); ("sequential_io_avg", c_uint);
    ("kmap_ctrl", Ref "kmap_ctrl"); ("pagefault_disabled", c_int); ("oom_reaper_list", Ptr);
    ("oom_reaper_timer", Ref "timer_list"); ("stack_vm_area", Ptr);
    ("stack_refcount", refcount_t); ("patch_state", c_int); ("security", Ptr);
    ("bpf_storage", Ptr); ("bpf_ctx", Ptr); ("mce_vaddr", Ptr); ("mce_kflags", __u64);
    ("mce_addr", u64_); ("_bitfield_align_3", Arr u64 0); ("_bitfield_3", BindgenBitfieldUnit 8);
    ("mce_kill_me", Ref "callback_head"); ("mce_count", c_int);
    ("kretprobe_instances", Ref "llist_head"); ("l1d_flush_kill", Ref "callback_head");
    ("_bitfield_align_4", Arr u8 0); ("_bitfield_4", BindgenBitfieldUnit 32);
    ("thread", Ref "thread_struct") ] |}.
Definition task_struct_bitfield_2 : list bitfield := [
  {| bf_name := "sched_reset_on_fork"; bf_off := 0; bf_width := 1; bf_bits := 32 |};
  {| bf_name := "sched_contributes_to_load"; bf_off := 1; bf_width := 1; bf_bits := 32 |};
  {| bf_name := "sched_migrated"; bf_off := 2; bf_width := 1; bf_bits := 32 |};
  {| bf_name := "sched_psi_wake_requeue"; bf_off := 3; bf_width := 1; bf_bits := 32 |};
  {| bf_name := "sched_remote_wakeup"; bf_off := 32; bf_width := 1; bf_bits := 32 |};
  {| bf_name := "in_execve"; bf_off := 33; bf_width := 1; bf_bits := 32 |};
  {| bf_name := "in_iowait"; bf_off := 34; bf_width := 1; bf_bits := 32 |};
  {| bf_name := "restore_sigmask"; bf_off := 35; bf_width := 1; bf_bits := 32 |};
  {| bf_name := "in_user_fault"; bf_off := 36; bf_width := 1; bf_bits := 32 |};
  {| bf_name := "no_cgroup_migration"; bf_off := 37; bf_width := 1; bf_bits := 32 |};
  {| bf_name := "frozen"; bf_off := 38; bf_width := 1; bf_bits := 32 |};
  {| bf_name := "use_memdelay"; bf_off := 39; bf_width := 1; bf_bits := 32 |};
  {| bf_name := "in_memstall"; bf_off := 40; bf_width := 1; bf_bits := 32 |};
  {| bf_name := "in_eventfd_signal"; bf_off := 41; bf_width := 1; bf_bits := 32 |} ].
Definition task_struct_bitfield_3 : list bitfield := [
  {| bf_name := "mce_ripv"; bf_off := 0; bf_width := 1; bf_bits := 64 |};
  {| bf_name := "mce_whole_page"; bf_off := 1; bf_width := 1; bf_bits := 64 |};
  {| bf_name := "__mce_reserved"; bf_off := 2; bf_width := 62; bf_bits := 64 |} ].
Definition task_struct_bitfield_4 : list bitfield := [
 ].
Definition __addrpair : ty := __u64.
Definition __be32 : ty := __u32.
Definition sock_common__bindgen_ty_1__bindgen_ty_1 : decl := {|
  d_name := "sock_common__bindgen_ty_1__bindgen_ty_1"; d_kind := KStruct; d_align := None;
  d_fields := [
    ("skc_daddr", __be32); ("skc_rcv_saddr", __be32) ] |}.
Definition sock_common__bindgen_ty_1 : decl := {|
  d_name := "sock_common__bindgen_ty_1"; d_kind := KUnion; d_align := None;
  d_fields := [
    ("skc_addrpair", __addrpair);
    ("__bindgen_anon_1", Ref "sock_common__bindgen_ty_1__bindgen_ty_1") ] |}.
Definition sock_common__bindgen_ty_2 : decl := {|
  d_name := "sock_common__bindgen_ty_2"; d_kind := KUnion; d_align := None;
  d_fields := [
    ("skc_hash", c_uint); ("skc_u16hashes", Arr __u16 2) ] |}.
Definition __portpair : ty := __u32.
Definition __be16 : ty := __u16.
Definition sock_common__bindgen_ty_3__bindgen_ty_1 : decl := {|
  d_name := "sock_common__bindgen_ty_3__bindgen_ty_1"; d_kind := KStruct; d_align := None;
  d_fields := [
    ("skc_dport", __be16); ("skc_num", __u16) ] |}.
Definition sock_common__bindgen_ty_3 : decl := {|
  d_name := "sock_common__bindgen_ty_3"; d_kind := KUnion; d_align := None;
  d_fields := [
    ("skc_portpair", __portpair);
    ("__bindgen_anon_1", Ref "sock_common__bindgen_ty_3__bindgen_ty_1") ] |}.
Definition sock_common__bindgen_ty_4 : decl := {|
  d_name := "sock_common__bindgen_ty_4"; d_kind := KUnion; d_align := None;
  d_fields := [
    ("skc_bind_node", Ref "hlist_node"); ("skc_portaddr_node", Ref "hlist_node") ] |}.
Definition possible_net_t : decl := {|
  d_name := "possible_net_t"; d_kind := KStruct; d_align := None;
  d_fields := [
    ("net", Ptr) ] |}.
Definition in6_addr__bindgen_ty_1 : decl := {|
  d_name := "in6_addr__bindgen_ty_1"; d_kind := KUnion; d_align := None;
  d_fields := [
    ("u6_addr8", Arr __u8 16); ("u6_addr16", Arr __be16 8); ("u6_addr32", Arr __be32 4) ] |}.
Definition in6_addr : decl := {|
  d_name := "in6_addr"; d_kind := KStruct; d_align := None;
  d_fields := [
    ("in6_u", Ref "in6_addr__bindgen_ty_1") ] |}.
Definition sock_common__bindgen_ty_5 : decl := {|
  d_name := "sock_common__bindgen_ty_5"; d_kind := KUnion; d_align := None;
  d_fields := [
    ("skc_flags", c_ulong); ("skc_listener", Ptr); ("skc_tw_dr", Ptr) ] |}.
Definition hlist_nulls_node : decl := {|
  d_name := "hlist_nulls_node"; d_kind := KStruct; d_align := None;
  d_fields := [
    ("next", Ptr); ("pprev", Ptr) ] |}.
Definition sock_common__bindgen_ty_6 : decl := {|
  d_name := "sock_common__bindgen_ty_6"; d_kind := KUnion; d_align := None;
  d_fields := [
    ("skc_node", Ref "hlist_node"); ("skc_nulls_node", Ref "hlist_nulls_node") ] |}.
Definition sock_common__bindgen_ty_7 : decl := {|
  d_name := "sock_common__bindgen_ty_7"; d_kind := KUnion; d_align := None;
  d_fields := [
    ("skc_incoming_cpu", c_int); ("skc_rcv_wnd", u32_); ("skc_tw_rcv_nxt", u32_) ] |}.
Definition sock_common__bindgen_ty_8 : decl := {|
  d_name := "sock_common__bindgen_ty_8"; d_kind := KUnion; d_align := None;
  d_fields := [
    ("skc_rxhash", u32_); ("skc_window_clamp", u32_); ("skc_tw_snd_nxt", u32_) ] |}.
Definition sock_common : decl := {|
  d_name := "sock_common"; d_kind := KStruct; d_align := None;
  d_fields := [
    ("__bindgen_anon_1", Ref "sock_common__bindgen_ty_1");
    ("__bindgen_anon_2", Ref "sock_common__bindgen_ty_2");
    ("__bindgen_anon_3", Ref "sock_common__bindgen_ty_3"); ("skc_family", c_ushort);
    ("skc_state", c_uchar); ("_bitfield_align_1", Arr u8 0);
    ("_bitfield_1", BindgenBitfieldUnit 1); ("skc_bound_dev_if", c_int);
    ("__bindgen_anon_4", Ref "sock_common__bindgen_ty_4"); ("skc_prot", Ptr);
    ("skc_net", Ref "possible_net_t"); ("skc_v6_daddr", Ref "in6_addr");
    ("skc_v6_rcv_saddr", Ref "in6_addr"); ("skc_cookie", Ref "atomic64_t");
    ("__bindgen_anon_5", Ref "sock_common__bindgen_ty_5");
    ("skc_dontcopy_begin", IncompleteArrayField c_int);
    ("__bindgen_anon_6", Ref "sock_common__bindgen_ty_6"); ("skc_tx_queue_mapping", c_ushort);
    ("skc_rx_queue_mapping", c_ushort); ("__bindgen_anon_7", Ref "sock_common__bindgen_ty_7");
    ("skc_refcnt", refcount_t); ("skc_dontcopy_end", IncompleteArrayField c_int);
    ("__bindgen_anon_8", Ref "sock_common__bindgen_ty_8") ] |}.
Definition sock_common_bitfield_1 : list bitfield := [
  {| bf_name := "skc_reuse"; bf_off := 0; bf_width := 4; bf_bits := 8 |};
  {| bf_name := "skc_reuseport"; bf_off := 4; bf_width := 1; bf_bits := 8 |};
  {| bf_name := "skc_ipv6only"; bf_off := 5; bf_width := 1; bf_bits := 8 |};
  {| bf_name := "skc_net_refcnt"; bf_off := 6; bf_width := 1; bf_bits := 8 |} ].
Definition wait_queue_head : decl := {|
  d_name := "wait_queue_head"; d_kind := KStruct; d_align := None;
  d_fields := [
    ("lock", spinlock_t); ("head", Ref "list_head") ] |}.
Definition wait_queue_head_t : ty := Ref "wait_queue_head".
Definition socket_lock_t : decl := {|
  d_name := "socket_lock_t"; d_kind := KStruct; d_align := None;
  d_fields := [
    ("slock", spinlock_t); ("owned", c_int); ("wq", wait_queue_head_t) ] |}.
Definition sk_buff_head : decl := {|
  d_name := "sk_buff_head"; d_kind := KStruct; d_align := None;
  d_fields := [
    ("next", Ptr); ("prev", Ptr); ("qlen", __u32); ("lock", spinlock_t) ] |}.
Definition sock__bindgen_ty_1 : decl := {|
  d_name := "sock__bindgen_ty_1"; d_kind := KStruct; d_align := None;
  d_fields := [
    ("rmem_alloc", Ref "atomic_t"); ("len", c_int); ("head", Ptr); ("tail", Ptr) ] |}.
Definition sock__bindgen_ty_2 : decl := {|
  d_name := "sock__bindgen_ty_2"; d_kind := KUnion; d_align := None;
  d_fields := [
    ("sk_wq", Ptr); ("sk_wq_raw", Ptr) ] |}.
Definition sock__bindgen_ty_3 : decl := {|
  d_name := "sock__bindgen_ty_3"; d_kind := KUnion; d_align := None;
  d_fields := [
    ("sk_send_head", Ptr); ("tcp_rtx_queue", Ref "rb_root") ] |}.
Definition __s32 : ty := c_int.
Definition netdev_features_t : ty := u64_.
Definition qrwlock__bindgen_ty_1__bindgen_ty_1 : decl := {|
  d_name := "qrwlock__bindgen_ty_1__bindgen_ty_1"; d_kind := KStruct; d_align := None;
  d_fields := [
    ("wlocked", u8_); ("__lstate", Arr u8_ 3) ] |}.
Definition qrwlock__bindgen_ty_1 : decl := {|
  d_name := "qrwlock__bindgen_ty_1"; d_kind := KUnion; d_align := None;
  d_fields := [
    ("cnts", Ref "atomic_t"); ("__bindgen_anon_1", Ref "qrwlock__bindgen_ty_1__bindgen_ty_1") ] |}.
Definition qrwlock : decl := {|
  d_name := "qrwlock"; d_kind := KStruct; d_align := None;
  d_fields := [
    ("__bindgen_anon_1", Ref "qrwlock__bindgen_ty_1"); ("wait_lock", arch_spinlock_t) ] |}.
Definition arch_rwlock_t : ty := Ref "qrwlock".
Definition rwlock_t : decl := {|
  d_name := "rwlock_t"; d_kind := KStruct; d_align := None;
  d_fields := [
    ("raw_lock", arch_rwlock_t) ] |}.
Definition sock_cgroup_data : decl := {|
  d_name := "sock_cgroup_data"; d_kind := KStruct; d_align := None;
  d_fields := [
    ("cgroup", Ptr); ("classid", u32_); ("prioidx", u16_) ] |}.
Definition sock : decl := {|
  d_name := "sock"; d_kind := KStruct; d_align := None;
  d_fields := [
    ("__sk_common", Ref "sock_common"); ("sk_lock", Ref "socket_lock_t");
    ("sk_drops", Ref "atomic_t"); ("sk_rcvlowat", c_int); ("sk_error_queue", Ref "sk_buff_head");
    ("sk_rx_skb_cache", Ptr); ("sk_receive_queue", Ref "sk_buff_head");
    ("sk_backlog", Ref "sock__bindgen_ty_1"); ("sk_forward_alloc", c_int); ("sk_ll_usec", c_uint);
    ("sk_napi_id", c_uint); ("sk_rcvbuf", c_int); ("sk_filter", Ptr);
    ("__bindgen_anon_1", Ref "sock__bindgen_ty_2"); ("sk_policy", Arr Ptr 2); ("sk_rx_dst", Ptr);
    ("sk_rx_dst_ifindex", c_int); ("sk_rx_dst_cookie", u32_); ("sk_dst_cache", Ptr);
    ("sk_omem_alloc", Ref "atomic_t"); ("sk_sndbuf", c_int); ("sk_wmem_queued", c_int);
    ("sk_wmem_alloc", refcount_t); ("sk_tsq_flags", c_ulong);
    ("__bindgen_anon_2", Ref "sock__bindgen_ty_3"); ("sk_tx_skb_cache", Ptr);
    ("sk_write_queue", Ref "sk_buff_head"); ("sk_peek_off", __s32); ("sk_write_pending", c_int);
    ("sk_dst_pending_confirm", __u32); ("sk_pacing_status", u32_); ("sk_sndtimeo", c_long);
    ("sk_timer", Ref "timer_list"); ("sk_priority", __u32); ("sk_mark", __u32);
    ("sk_pacing_rate", c_ulong); ("sk_max_pacing_rate", c_ulong); ("sk_frag", Ref "page_frag");
    ("sk_route_caps", netdev_features_t); ("sk_route_nocaps", netdev_features_t);
    ("sk_route_forced_caps", netdev_features_t); ("sk_gso_type", c_int);
    ("sk_gso_max_size", c_uint); ("sk_allocation", gfp_t); ("sk_txhash", __u32);
    ("_bitfield_align_1", Arr u8 0); ("_bitfield_1", BindgenBitfieldUnit 1);
    ("sk_pacing_shift", u8_); ("sk_type", u16_); ("sk_protocol", u16_); ("sk_gso_max_segs", u16_);
    ("sk_lingertime", c_ulong); ("sk_prot_creator", Ptr); ("sk_callback_lock", Ref "rwlock_t");
    ("sk_err", c_int); ("sk_err_soft", c_int); ("sk_ack_backlog", u32_);
    ("sk_max_ack_backlog", u32_); ("sk_uid", Ref "kuid_t"); ("sk_prefer_busy_poll", u8_);
    ("sk_busy_poll_budget", u16_); ("sk_peer_lock", spinlock_t); ("sk_peer_pid", Ptr);
    ("sk_peer_cred", Ptr); ("sk_rcvtimeo", c_long); ("sk_stamp", ktime_t); ("sk_tsflags", u16_);
    ("sk_bind_phc", c_int); ("sk_shutdown", u8_); ("sk_tskey", Ref "atomic_t");
    ("sk_zckey", Ref "atomic_t"); ("sk_clockid", u8_); ("_bitfield_align_2", Arr u8 0);
    ("_bitfield_2", BindgenBitfieldUnit 1); ("sk_socket", Ptr); ("sk_user_data", Ptr);
    ("sk_security", Ptr); ("sk_cgrp_data", Ref "sock_cgroup_data"); ("sk_memcg", Ptr);
    ("sk_state_change", Ptr); ("sk_data_ready", Ptr); ("sk_write_space", Ptr);
    ("sk_error_report", Ptr); ("sk_backlog_rcv", Ptr); ("sk_validate_xmit_skb", Ptr);
    ("sk_destruct", Ptr); ("sk_reuseport_cb", Ptr); ("sk_bpf_storage", Ptr);
    ("sk_rcu", Ref "callback_head") ] |}.
Definition sock_bitfield_1 : list bitfield := [
  {| bf_name := "sk_padding"; bf_off := 0; bf_width := 1; bf_bits := 8 |};
  {| bf_name := "sk_kern_sock"; bf_off := 1; bf_width := 1; bf_bits := 8 |};
  {| bf_name := "sk_no_check_tx"; bf_off := 2; bf_width := 1; bf_bits := 8 |};
  {| bf_name := "sk_no_check_rx"; bf_off := 3; bf_width := 1; bf_bits := 8 |};
  {| bf_name := "sk_userlocks"; bf_off := 4; bf_width := 4; bf_bits := 8 |} ].
Definition sock_bitfield_2 : list bitfield := [
  {| bf_name := "sk_txtime_deadline_mode"; bf_off := 0; bf_width := 1; bf_bits := 8 |};
  {| bf_name := "sk_txtime_report_errors"; bf_off := 1; bf_width := 1; bf_bits := 8 |};
  {| bf_name := "sk_txtime_unused"; bf_off := 2; bf_width := 6; bf_bits := 8 |} ].
Definition __kernel_sa_family_t : ty := c_ushort.
Definition sa_family_t : ty := __kernel_sa_family_t.
Definition socket_wq : decl := {|
  d_name := "socket_wq"; d_kind := KStruct; d_align := None;
  d_fields := [
    ("wait", wait_queue_head_t); ("fasync_list", Ptr); ("flags", c_ulong);
    ("rcu", Ref "callback_head"); ("_bitfield_align_1", Arr u8 0);
    ("_bitfield_1", BindgenBitfieldUnit 8) ] |}.
Definition socket_state : ty := c_uint.
Definition socket : decl := {|
  d_name := "socket"; d_kind := KStruct; d_align := None;
  d_fields := [
    ("state", socket_state); ("type_", c_short); ("flags", c_ulong); ("file", Ptr); ("sk", Ptr);
    ("ops", Ptr); ("_bitfield_align_1", Arr u8 0); ("_bitfield_1", BindgenBitfieldUnit 24);
    ("wq", Ref "socket_wq") ] |}.
Definition sockaddr : decl := {|
  d_name := "sockaddr"; d_kind := KStruct; d_align := None;
  d_fields := [
    ("sa_family", sa_family_t); ("sa_data", Arr c_char 14) ] |}.
Definition in_addr : decl := {|
  d_name := "in_addr"; d_kind := KStruct; d_align := None;
  d_fields := [
    ("s_addr", __be32) ] |}.
Definition sockaddr_in : decl := {|
  d_name := "sockaddr_in"; d_kind := KStruct; d_align := None;
  d_fields := [
    ("sin_family", __kernel_sa_family_t); ("sin_port", __be16); ("sin_addr", Ref "in_addr");
    ("__pad", Arr c_uchar 8) ] |}.
Definition sockaddr_in6 : decl := {|
  d_name := "sockaddr_in6"; d_kind := KStruct; d_align := None;
  d_fields := [
    ("sin6_family", c_ushort); ("sin6_port", __be16); ("sin6_flowinfo", __be32);
    ("sin6_addr", Ref "in6_addr"); ("sin6_scope_id", __u32) ] |}.
Definition __kernel_ulong_t : ty := c_ulong.
Definition __kernel_size_t : ty := __kernel_ulong_t.
Definition iovec : decl := {|
  d_name := "iovec"; d_kind := KStruct; d_align := None;
  d_fields := [
    ("iov_base", Ptr); ("iov_len", __kernel_size_t) ] |}.
Definition user_msghdr : decl := {|
  d_name := "user_msghdr"; d_kind := KStruct; d_align := None;
  d_fields := [
    ("msg_name", Ptr); ("msg_namelen", c_int); ("msg_iov", Ptr); ("msg_iovlen", __kernel_size_t);
    ("msg_control", Ptr); ("msg_controllen", __kernel_size_t); ("msg_flags", c_uint) ] |}.
Definition mmsghdr : decl := {|
  d_name := "mmsghdr"; d_kind := KStruct; d_align := None;
  d_fields := [
    ("msg_hdr", Ref "user_msghdr"); ("msg_len", c_uint) ] |}.

(** The declarations, each after those it uses. *)
Definition decls : list decl := [
  thread_info; atomic_t; refcount_struct; llist_node; __call_single_node__bindgen_ty_1;
  __call_single_node; load_weight; rb_node; list_head; sched_statistics; util_est; sched_avg;
  sched_entity; sched_rt_entity; timerqueue_node; hrtimer; sched_dl_entity; uclamp_se; hlist_head;
  cpumask; rcu_special__bindgen_ty_1; rcu_special; sched_info; plist_node; vmacache;
  task_rss_stat; restart_block__bindgen_ty_1__bindgen_ty_1;
  restart_block__bindgen_ty_1__bindgen_ty_2__bindgen_ty_1;
  restart_block__bindgen_ty_1__bindgen_ty_2; restart_block__bindgen_ty_1__bindgen_ty_3;
  restart_block__bindgen_ty_1; restart_block; hlist_node; qspinlock__bindgen_ty_1__bindgen_ty_1;
  qspinlock__bindgen_ty_1__bindgen_ty_2; qspinlock__bindgen_ty_1; qspinlock; raw_spinlock;
  prev_cputime; rb_root; rb_root_cached; timerqueue_head; posix_cputimer_base; posix_cputimers;
  callback_head; posix_cputimers_work; sysv_sem; sysv_shm; sigset_t; sigpending; kuid_t; seccomp;
  syscall_user_dispatch; spinlock__bindgen_ty_1; spinlock; wake_q_node; task_io_accounting;
  nodemask_t; seqcount; seqcount_spinlock; atomic64_t; optimistic_spin_queue; mutex;
  arch_tlbflush_unmap_batch; tlbflush_unmap_batch; task_struct__bindgen_ty_1; page_frag;
  kmap_ctrl; timer_list; llist_head; desc_struct; fpu_state_perm; fpregs_state; fpstate; fpu;
  thread_struct; task_struct; sock_common__bindgen_ty_1__bindgen_ty_1; sock_common__bindgen_ty_1;
  sock_common__bindgen_ty_2; sock_common__bindgen_ty_3__bindgen_ty_1; sock_common__bindgen_ty_3;
  sock_common__bindgen_ty_4; possible_net_t; in6_addr__bindgen_ty_1; in6_addr;
  sock_common__bindgen_ty_5; hlist_nulls_node; sock_common__bindgen_ty_6;
  sock_common__bindgen_ty_7; sock_common__bindgen_ty_8; sock_common; wait_queue_head;
  socket_lock_t; sk_buff_head; sock__bindgen_ty_1; sock__bindgen_ty_2; sock__bindgen_ty_3;
  qrwlock__bindgen_ty_1__bindgen_ty_1; qrwlock__bindgen_ty_1; qrwlock; rwlock_t; sock_cgroup_data;
  sock; socket_wq; socket; sockaddr; in_addr; sockaddr_in; sockaddr_in6; iovec; user_msghdr; mmsghdr ].

(** The bit field units: their size in bytes and their fields. *)
Definition bitfield_units : list (nat * list bitfield) := [
  (24%nat, sched_entity_bitfield_1); (1%nat, sched_dl_entity_bitfield_1);
  (2%nat, uclamp_se_bitfield_1); (4%nat, desc_struct_bitfield_1); (32%nat, fpstate_bitfield_1);
  (16%nat, fpu_bitfield_1); (1%nat, thread_struct_bitfield_1); (6%nat, task_struct_bitfield_2);
  (8%nat, task_struct_bitfield_3); (32%nat, task_struct_bitfield_4);
  (1%nat, sock_common_bitfield_1); (1%nat, sock_bitfield_1); (1%nat, sock_bitfield_2) ].
