(* ===== verification/ConnMemory.v ===== *)
(** * The connection tracer over the kernel's memory

    [conn-tracer-ebpf/src/main.rs] reads a [tcp_sock] through the bindings of its
    [vmlinux.rs].  Here the answers of the kernel ([ConnTracer.Kernel]) are computed
    from memory with the layout of those bindings, and the endpoints and counters
    the probes record are related to the bytes of the kernel's object. *)
From S2P Require Import Prelude RustStd Bpf ConnTracer Bitfield KernelLayout KernelMemory ConnBindings.
From stdpp Require Import base gmap strings list.
From Stdlib Require Import ZArith Lia.

Local Open Scope Z_scope.

(** ** The reads of the probes *)

Section reads.
Context (m : Memory).
Notation sock := (Ref "sock").
Notation sock_common := (Ref "sock_common").
Notation tcp_sock := (Ref "tcp_sock").

(** The value of type [sock_common] that [bpf_probe_read_kernel] returns. *)
Definition sock_common_of (bytes : list Z) : ConnTracer.sock_common := {|
  skc_family := field_int decls sock_common ["skc_family"] bytes;
  skc_rcv_saddr := field_int decls sock_common
                     ["__bindgen_anon_1"; "__bindgen_anon_1"; "skc_rcv_saddr"] bytes;
  skc_daddr := field_int decls sock_common ["__bindgen_anon_1"; "__bindgen_anon_1"; "skc_daddr"] bytes;
  skc_num := field_int decls sock_common ["__bindgen_anon_3"; "__bindgen_anon_1"; "skc_num"] bytes;
  skc_dport := field_int decls sock_common ["__bindgen_anon_3"; "__bindgen_anon_1"; "skc_dport"] bytes |}.

Definition memory_kernel (time pid_tgid : Z) : Kernel := {|
  read_sock_common sk := sock_common_of <$> read_field decls m sk sock ["__sk_common"];
  read_bytes_sent sk := read_int decls m sk tcp_sock ["bytes_sent"];
  read_bytes_received sk := read_int decls m sk tcp_sock ["bytes_received"];
  read_max_ack_backlog sk := read_int decls m sk sock ["sk_max_ack_backlog"];
  ktime_get_ns := time;
  current_pid_tgid := pid_tgid |}.
End reads.

(** ** Layout *)

(** The bindings of the connection tracer are a well-formed list of
    declarations: every type is declared once and before its uses, their layout
    is computed, every bit field unit has its fields side by side inside it, and
    [tcp_sock] begins with the [sock] the probes are given, so the cast between
    the two pointers keeps all of its fields where they are. *)
Lemma conn_bindings_layout :
  forallb wf_decl decls = true ∧
  is_Some (build decls) ∧
  forallb (λ u, fields_from 0 u.1 u.2) bitfield_units = true ∧
  offset_of (the_env decls) (Ref "tcp_sock") ["inet_conn"; "icsk_inet"; "sk"] = Some (0, Ref "sock") ∧
  offset_of (the_env decls) (Ref "sock") ["__sk_common"] = Some (0, Ref "sock_common") ∧
  size_of decls (Ref "sock_common") = 136%nat ∧ size_of decls (Ref "sock") = 776%nat ∧
  size_of decls (Ref "tcp_sock") = 2256%nat.
Proof.
  split_and!; [| apply builds_is_Some | | | | | |]; vm_compute; reflexivity.
Qed.

(** The places the probes read. *)
Lemma conn_places :
  place_at decls (Ref "sock") ["__sk_common"] 0 136 ∧
  place_at decls (Ref "sock_common") ["skc_family"] 16 2 ∧
  place_at decls (Ref "sock_common") ["__bindgen_anon_1"; "__bindgen_anon_1"; "skc_rcv_saddr"] 4 4 ∧
  place_at decls (Ref "sock_common") ["__bindgen_anon_1"; "__bindgen_anon_1"; "skc_daddr"] 0 4 ∧
  place_at decls (Ref "sock_common") ["__bindgen_anon_3"; "__bindgen_anon_1"; "skc_num"] 14 2 ∧
  place_at decls (Ref "sock_common") ["__bindgen_anon_3"; "__bindgen_anon_1"; "skc_dport"] 12 2 ∧
  place_at decls (Ref "tcp_sock") ["bytes_sent"] 1456 8 ∧
  place_at decls (Ref "tcp_sock") ["bytes_received"] 1416 8 ∧
  place_at decls (Ref "sock") ["sk_max_ack_backlog"] 556 4.
Proof. split_and!; split; vm_compute; reflexivity. Qed.

Lemma Build_sock_common_eq a b c d e a' b' c' d' e' :
  a = a' → b = b' → c = c' → d = d' → e = e' →
  ConnTracer.Build_sock_common a b c d e = ConnTracer.Build_sock_common a' b' c' d' e'.
Proof. by intros -> -> -> -> ->. Qed.

Lemma sock_common_of_at bytes : sock_common_of bytes = {|
  skc_family := le_int (slice 16 2 bytes);
  skc_rcv_saddr := le_int (slice 4 4 bytes); skc_daddr := le_int (slice 0 4 bytes);
  skc_num := le_int (slice 14 2 bytes); skc_dport := le_int (slice 12 2 bytes) |}.
Proof.
  destruct conn_places as (_ & O2 & O3 & O4 & O5 & O6 & _).
  exact (Build_sock_common_eq _ _ _ _ _ _ _ _ _ _
           (field_int_at _ _ _ _ _ bytes O2) (field_int_at _ _ _ _ _ bytes O3)
           (field_int_at _ _ _ _ _ bytes O4) (field_int_at _ _ _ _ _ bytes O5)
           (field_int_at _ _ _ _ _ bytes O6)).
Qed.

(** What the kernel answers when a [tcp_sock] is at [sk]. *)
Lemma memory_kernel_reads m sk obj time pid_tgid : mem_holds m sk obj → length obj = 2256%nat →
  let k := memory_kernel m time pid_tgid in
  read_sock_common k sk = Ok {|
    skc_family := le_int (slice 16 2 obj);
    skc_rcv_saddr := le_int (slice 4 4 obj); skc_daddr := le_int (slice 0 4 obj);
    skc_num := le_int (slice 14 2 obj); skc_dport := le_int (slice 12 2 obj) |} ∧
  read_bytes_sent k sk = Ok (le_int (slice 1456 8 obj)) ∧
  read_bytes_received k sk = Ok (le_int (slice 1416 8 obj)) ∧
  read_max_ack_backlog k sk = Ok (le_int (slice 556 4 obj)).
Proof.
  intros H Hlen k.
  destruct conn_places as (O1 & _ & _ & _ & _ & _ & O7 & O8 & O9).
  cbn [read_sock_common read_bytes_sent read_bytes_received read_max_ack_backlog memory_kernel k].
  split_and!.
  - rewrite (read_field_at _ _ _ obj _ _ _ _ O1) by (done || lia).
    cbn [fmap result_fmap]. rewrite sock_common_of_at.
    by rewrite !slice_slice by lia.
  - by apply (read_int_at _ _ _ obj _ _ _ _ O7); [|lia].
  - by apply (read_int_at _ _ _ obj _ _ _ _ O8); [|lia].
  - by apply (read_int_at _ _ _ obj _ _ _ _ O9); [|lia].
Qed.

(** What the probes record of an IPv4 socket is what the bytes of the kernel's
    [tcp_sock] say: the addresses and the remote port are its network-order
    fields, the counters its [bytes_sent] and [bytes_received].  The local port
    is recorded from [skc_num] in the same way, most significant byte first,
    though the kernel keeps that field in host order. *)
Lemma parse_sock_data_from_memory m sk obj time pid_tgid :
  mem_holds m sk obj → length obj = 2256%nat → Forall is_byte obj →
  le_int (slice 16 2 obj) = AF_INET →
  parse_sock_data (memory_kernel m time pid_tgid) sk = Ok (
    {| ck_id := 0; ck_pid := 0;
       src_addr := be_int (slice 4 4 obj); src_port := be_int (slice 14 2 obj);
       dest_addr := be_int (slice 0 4 obj); dest_port := be_int (slice 12 2 obj); ck_role := 0 |},
    {| bytes_sent := le_int (slice 1456 8 obj); bytes_received := le_int (slice 1416 8 obj);
       is_active := 0 |}).
Proof.
  intros H Hlen Hb Hf.
  destruct (memory_kernel_reads m sk obj time pid_tgid H Hlen) as (R1 & R2 & R3 & _).
  unfold parse_sock_data. rewrite R1. cbn [mbind result_bind]. rewrite R2. cbn [mbind result_bind].
  rewrite R3. cbn [mbind result_bind skc_family skc_rcv_saddr skc_daddr skc_num skc_dport].
  rewrite decide_True by done.
  by rewrite !from_be16_slice, !from_be32_slice by (exact Hb || (rewrite Hlen; lia)).
Qed.

(** A read of a probe fails only if a byte of the [tcp_sock] cannot be read, and it
    reads nothing else. *)
Lemma memory_kernel_local m m' sk obj time pid_tgid :
  mem_holds m sk obj → mem_holds m' sk obj → length obj = 2256%nat →
  parse_sock_data (memory_kernel m time pid_tgid) sk =
    parse_sock_data (memory_kernel m' time pid_tgid) sk ∧
  get_sock_role (memory_kernel m time pid_tgid) sk = get_sock_role (memory_kernel m' time pid_tgid) sk.
Proof.
  intros H H' Hlen. generalize (memory_kernel_reads m sk obj time pid_tgid H Hlen).
  generalize (memory_kernel_reads m' sk obj time pid_tgid H' Hlen).
  generalize (memory_kernel m time pid_tgid), (memory_kernel m' time pid_tgid). simpl.
  intros k k' (Q1 & Q2 & Q3 & Q4) (R1 & R2 & R3 & R4).
  unfold parse_sock_data, get_sock_role. by rewrite R1, R2, R3, R4, Q1, Q2, Q3, Q4.
Qed.

(** ** Witnesses *)

(** 10.0.0.1:80 as seen from 10.0.0.2, local port 443 in host order. *)
Definition ex_tcp_sock : list Z :=
  [10; 0; 0; 1; 10; 0; 0; 2; 0; 0; 0; 0; 0; 80; 187; 1; 2; 0] ++ replicate 2238 0.
Definition ex_memory : Memory := λ a, ex_tcp_sock !! Z.to_nat (a - 4096).

Lemma ex_memory_holds : mem_holds ex_memory 4096 ex_tcp_sock.
Proof. intros i b Hi. unfold ex_memory. rewrite <- Hi. f_equal. lia. Qed.

Lemma parse_sock_data_witness :
  ∃ st, parse_sock_data (memory_kernel ex_memory 0 0) 4096 = Ok (
    {| ck_id := 0; ck_pid := 0; src_addr := 167772162; src_port := 47873;
       dest_addr := 167772161; dest_port := 80; ck_role := 0 |}, st) ∧ bytes_sent st = 0.
Proof.
  rewrite (parse_sock_data_from_memory ex_memory 4096 ex_tcp_sock 0 0 ex_memory_holds).
  - eexists. split; vm_compute; reflexivity.
  - reflexivity.
  - unfold ex_tcp_sock. apply Forall_app. split.
    + repeat constructor; unfold is_byte; lia.
    + apply Forall_replicate. unfold is_byte. lia.
  - reflexivity.
Defined.
