(* ===== verification/SocketMemory.v ===== *)
(** * The socket tracer over the memory of the kernel and of the process

    The reads of [socket-tracer-ebpf/src] (lib.rs, helpers.rs and the probes of the
    message calls) with the layout of the bindings in its [vmlinux.rs]: what the
    kernel answers ([SocketData.Kernel]) is computed from two memories, the one
    [bpf_probe_read_kernel] reads and the one [bpf_probe_read_user] reads. *)
From S2P Require Import Prelude RustStd Bpf SocketData SocketTracer SocketProbes SocketProps SocketLayout SocketTyped SocketThreads Bitfield KernelLayout KernelMemory SocketBindings ConnBindings ConnMemory.
From stdpp Require Import base gmap strings list.
From Stdlib Require Import ZArith Lia.

Local Open Scope Z_scope.

Notation decls := SocketBindings.decls.

Section reads.
Context (kernel user : Memory).

Definition anon1 (f : string) : list string := ["__bindgen_anon_1"; "__bindgen_anon_1"; f].
Definition anon3 (f : string) : list string := ["__bindgen_anon_3"; "__bindgen_anon_1"; f].

Definition sock_common_value (bytes : list Z) : SocketData.sock_common := {|
  skc_family := field_int decls (Ref "sock_common") ["skc_family"] bytes;
  skc_rcv_saddr := field_int decls (Ref "sock_common") (anon1 "skc_rcv_saddr") bytes;
  skc_daddr := field_int decls (Ref "sock_common") (anon1 "skc_daddr") bytes;
  skc_num := field_int decls (Ref "sock_common") (anon3 "skc_num") bytes;
  skc_dport := field_int decls (Ref "sock_common") (anon3 "skc_dport") bytes;
  skc_v6_rcv_saddr := field_bytes decls (Ref "sock_common") ["skc_v6_rcv_saddr"; "in6_u"; "u6_addr8"] bytes;
  skc_v6_daddr := field_bytes decls (Ref "sock_common") ["skc_v6_daddr"; "in6_u"; "u6_addr8"] bytes |}.

Definition sockaddr_in_value (bytes : list Z) : SocketData.sockaddr_in := {|
  sin_port := field_int decls (Ref "sockaddr_in") ["sin_port"] bytes;
  s_addr := field_int decls (Ref "sockaddr_in") ["sin_addr"; "s_addr"] bytes |}.

Definition sockaddr_in6_value (bytes : list Z) : SocketData.sockaddr_in6 := {|
  sin6_port := field_int decls (Ref "sockaddr_in6") ["sin6_port"] bytes;
  u6_addr8 := field_bytes decls (Ref "sockaddr_in6") ["sin6_addr"; "in6_u"; "u6_addr8"] bytes |}.

Definition iovec_value (bytes : list Z) : SocketData.iovec := {|
  iov_base := field_int decls (Ref "iovec") ["iov_base"] bytes;
  iov_len := field_int decls (Ref "iovec") ["iov_len"] bytes |}.

Definition user_msghdr_value (bytes : list Z) : SocketData.user_msghdr := {|
  msg_name := field_int decls (Ref "user_msghdr") ["msg_name"] bytes;
  msg_iov := field_int decls (Ref "user_msghdr") ["msg_iov"] bytes;
  msg_iovlen := field_int decls (Ref "user_msghdr") ["msg_iovlen"] bytes |}.

Definition mmsghdr_value (bytes : list Z) : SocketData.mmsghdr := {|
  msg_hdr := user_msghdr_value (field_bytes decls (Ref "mmsghdr") ["msg_hdr"] bytes);
  mm_msg_len := field_int decls (Ref "mmsghdr") ["msg_len"] bytes |}.

(** Socket addresses and payloads are read from the process; the kernel's objects,
    and also the headers and vectors of messages, with [bpf_probe_read_kernel]. *)
Definition memory_kernel (time : nat → Z) (pid_tgid task : Z) : Kernel := {|
  ktime_get_ns := time; current_pid_tgid := pid_tgid; current_task := task;
  read_group_leader a := read_int decls kernel a (Ref "task_struct") ["group_leader"];
  read_start_boottime a := read_int decls kernel a (Ref "task_struct") ["start_boottime"];
  read_sock_common a := sock_common_value <$> read_field decls kernel a (Ref "sock") ["__sk_common"];
  read_sa_family a := read_int decls user a (Ref "sockaddr") ["sa_family"];
  read_sockaddr_in a := sockaddr_in_value <$> read_object decls user a (Ref "sockaddr_in");
  read_sockaddr_in6 a := sockaddr_in6_value <$> read_object decls user a (Ref "sockaddr_in6");
  read_user_buf a n := probe_read_bytes user a (Z.to_nat n);
  read_iovec a := iovec_value <$> read_object decls kernel a (Ref "iovec");
  read_user_msghdr a := user_msghdr_value <$> read_object decls kernel a (Ref "user_msghdr");
  read_mmsghdr a := mmsghdr_value <$> read_object decls kernel a (Ref "mmsghdr") |}.
End reads.

(** ** Layout *)

(** The place of a field in both bindings. *)
Definition same_place (t : string) (path : list string) : bool :=
  bool_decide (offset_of (the_env SocketBindings.decls) (Ref t) path =
               offset_of (the_env ConnBindings.decls) (Ref t) path) &&
  bool_decide (is_Some (offset_of (the_env ConnBindings.decls) (Ref t) path)).

(** The bindings of the socket tracer are well formed; the stride of its loop
    over vectors is the size of [iovec]; and they place every field of
    [sock_common] that either tracer reads where the bindings of the connection
    tracer do, although the two come from kernels whose [sock] differs. *)
Lemma socket_bindings_layout :
  forallb wf_decl decls = true ∧
  is_Some (build decls) ∧
  forallb (λ u, fields_from 0 u.1 u.2) SocketBindings.bitfield_units = true ∧
  Z.of_nat (size_of decls (Ref "iovec")) = SIZE_OF_IOVEC ∧
  forallb (same_place "sock_common")
    [["skc_family"]; anon1 "skc_rcv_saddr"; anon1 "skc_daddr"; anon3 "skc_num"; anon3 "skc_dport";
     ["skc_v6_rcv_saddr"; "in6_u"; "u6_addr8"]; ["skc_v6_daddr"; "in6_u"; "u6_addr8"]] = true ∧
  same_place "sock" ["__sk_common"] = true ∧
  same_place "sock" ["sk_max_ack_backlog"] = false.
Proof.
  split_and!; [| apply builds_is_Some | | | | |]; vm_compute; reflexivity.
Qed.

(** In the bindings of both tracers, whatever path of field names is followed from
    whatever type, the place it leads to lies inside the object it starts from and
    at an offset that keeps the alignment of its type: a read of a field never
    leaves its structure. *)
Lemma bindings_fields_inside ds t path l o t' :
  ds = ConnBindings.decls ∨ ds = SocketBindings.decls →
  wf_ty t = true → type_layout (the_env ds) t = Some l →
  offset_of (the_env ds) t path = Some (o, t') →
  ∃ l', type_layout (the_env ds) t' = Some l' ∧ inside l o l'.
Proof.
  intros Hds Ht Hl Ho.
  assert (forallb wf_decl ds = true ∧ builds ds = true) as [Hw Hb].
  { destruct Hds as [-> | ->]; split; vm_compute; reflexivity. }
  apply builds_is_Some in Hb as [e He]. unfold the_env in *. rewrite He in *.
  by apply (offset_of_inside ds e t path l o t').
Qed.

(** The places the probes read. *)
Lemma socket_places :
  place_at decls (Ref "task_struct") ["group_leader"] 2448 8 ∧
  place_at decls (Ref "task_struct") ["start_boottime"] 2696 8 ∧
  place_at decls (Ref "sockaddr") ["sa_family"] 0 2 ∧
  place_at decls (Ref "sockaddr_in") ["sin_port"] 2 2 ∧
  place_at decls (Ref "sockaddr_in") ["sin_addr"; "s_addr"] 4 4 ∧
  place_at decls (Ref "sockaddr_in") [] 0 16 ∧
  place_at decls (Ref "sockaddr_in6") ["sin6_port"] 2 2 ∧
  place_at decls (Ref "sockaddr_in6") ["sin6_addr"; "in6_u"; "u6_addr8"] 8 16 ∧
  place_at decls (Ref "sockaddr_in6") [] 0 28 ∧
  place_at decls (Ref "iovec") [] 0 16.
Proof. split_and!; split; vm_compute; reflexivity. Qed.

Lemma sockaddr_in_value_at bytes : sockaddr_in_value bytes =
  {| sin_port := le_int (slice 2 2 bytes); s_addr := le_int (slice 4 4 bytes) |}.
Proof.
  destruct socket_places as (_ & _ & _ & O1 & O2 & _). unfold sockaddr_in_value.
  exact (eq_trans (f_equal (λ p, SocketData.Build_sockaddr_in p _) (field_int_at _ _ _ _ _ bytes O1))
                  (f_equal (SocketData.Build_sockaddr_in _) (field_int_at _ _ _ _ _ bytes O2))).
Qed.

Lemma sockaddr_in6_value_at bytes : sockaddr_in6_value bytes =
  {| sin6_port := le_int (slice 2 2 bytes); u6_addr8 := slice 8 16 bytes |}.
Proof.
  destruct socket_places as (_ & _ & _ & _ & _ & _ & O1 & O2 & _). unfold sockaddr_in6_value.
  exact (eq_trans (f_equal (λ p, SocketData.Build_sockaddr_in6 p _) (field_int_at _ _ _ _ _ bytes O1))
                  (f_equal (SocketData.Build_sockaddr_in6 _) (field_bytes_at _ _ _ _ _ bytes O2))).
Qed.

(** What the kernel answers about an address in the memory of the process. *)
Lemma sockaddr_reads kernel user time pid_tgid task a obj : mem_holds user a obj →
  let k := memory_kernel kernel user time pid_tgid task in
  ((2 ≤ length obj)%nat → read_sa_family k a = Ok (le_int (slice 0 2 obj))) ∧
  ((16 ≤ length obj)%nat → read_sockaddr_in k a =
     Ok {| sin_port := le_int (slice 2 2 obj); s_addr := le_int (slice 4 4 obj) |}) ∧
  ((28 ≤ length obj)%nat → read_sockaddr_in6 k a =
     Ok {| sin6_port := le_int (slice 2 2 obj); u6_addr8 := slice 8 16 obj |}).
Proof.
  intros H k. destruct socket_places as (_ & _ & O1 & _ & _ & O2 & _ & _ & O3 & _).
  cbn [read_sa_family read_sockaddr_in read_sockaddr_in6 memory_kernel k]. split_and!; intros Hlen.
  - apply (read_int_at _ _ _ obj _ _ _ _ O1 H). lia.
  - unfold read_object. rewrite (read_field_at _ _ _ obj _ _ _ _ O2 H) by lia.
    cbn [fmap result_fmap]. rewrite sockaddr_in_value_at, !slice_slice by lia. reflexivity.
  - unfold read_object. rewrite (read_field_at _ _ _ obj _ _ _ _ O3 H) by lia.
    cbn [fmap result_fmap]. rewrite sockaddr_in6_value_at, !slice_slice by lia. reflexivity.
Qed.

(** C25: the remote endpoint taken from a socket address is the one its bytes say: for
    an IPv4 address the port and the address in network order, for an IPv6 one
    the port and the sixteen bytes of the address; it is read from the process,
    sixteen or twenty-eight bytes of it. *)
Theorem sockaddr_from_memory kernel user time pid_tgid task a obj c :
  mem_holds user a obj → Forall is_byte obj →
  let k := memory_kernel kernel user time pid_tgid task in
  (le_int (slice 0 2 obj) = AF_INET → (16 ≤ length obj)%nat →
     parse_sockaddr_data k a c =
       (Ok 0, with_ports (src_port c) (be_int (slice 2 2 obj))
                (with_addr4 (src_addr_in4 c) (be_int (slice 4 4 obj)) (with_family AF_INET c)))) ∧
  (le_int (slice 0 2 obj) = AF_INET6 → (28 ≤ length obj)%nat →
     parse_sockaddr_data k a c =
       (Ok 0, with_ports (src_port c) (be_int (slice 2 2 obj))
                (with_addr6 (src_addr_in6 c) (slice 8 16 obj) (with_family AF_INET6 c)))).
Proof.
  intros H Hb. generalize (sockaddr_reads kernel user time pid_tgid task a obj H).
  generalize (memory_kernel kernel user time pid_tgid task). intros k (R1 & R2 & R3). simpl.
  unfold parse_sockaddr_data. split; intros Hf Hlen.
  - rewrite R1 by lia. rewrite decide_True by done. rewrite R2 by done. rewrite Hf.
    cbn [sin_port s_addr]. by rewrite from_be16_slice, from_be32_slice by (exact Hb || lia).
  - rewrite R1 by lia. rewrite Hf. rewrite decide_False by done. rewrite decide_True by done.
    rewrite R3 by done. cbn [sin6_port u6_addr8]. by rewrite from_be16_slice by (exact Hb || lia).
Qed.

(** Reads of a memory of bytes give values of the fields' types. *)
Lemma load_bytes m a n l : (∀ a' b, m a' = Some b → is_byte b) → load m a n = Some l →
  length l = n ∧ Forall is_byte l.
Proof.
  intros Hm. revert a l. induction n as [|n IH]; intros a l; cbn [load].
  { intros [= <-]. done. }
  intros (b & Hb & (rest & Hr & [= <-])%bind_Some)%bind_Some. apply IH in Hr as [Hl Hf].
  split; [simpl; by rewrite Hl|]. constructor; [by eapply Hm|done].
Qed.

Lemma le_int_range l : Forall is_byte l → in_u (8 * Z.of_nat (length l)) (le_int l).
Proof.
  intros Hl. split; [by apply le_int_nonneg|]. induction Hl as [|b l Hb _ IH]; [simpl; lia|].
  cbn [le_int length]. replace (8 * Z.of_nat (S (length l))) with (8 + 8 * Z.of_nat (length l)) by lia.
  rewrite Z.pow_add_r by lia. change (2 ^ 8) with 256. unfold is_byte in Hb. lia.
Qed.

Lemma read_field_bytes m a t path o n l : (∀ a' b, m a' = Some b → is_byte b) → place_at decls t path o n →
  read_field decls m a t path = Ok l → length l = n ∧ Forall is_byte l.
Proof.
  intros Hm [<- <-]. unfold read_field, probe_read_bytes. destruct (load _ _ _) as [l'|] eqn:Hl; [|done].
  intros [= <-]. by eapply load_bytes.
Qed.

Lemma slice_range o n l : (o + n ≤ length l)%nat → Forall is_byte l → in_u (8 * Z.of_nat n) (le_int (slice o n l)).
Proof.
  intros Hl Hb. rewrite <- (slice_length o n l Hl) at 1. by apply le_int_range, Forall_slice.
Qed.

Lemma array_places :
  place_at decls (Ref "sock") ["__sk_common"] 0 136 ∧
  place_at decls (Ref "sock_common") ["skc_v6_rcv_saddr"; "in6_u"; "u6_addr8"] 72 16 ∧
  place_at decls (Ref "sock_common") ["skc_v6_daddr"; "in6_u"; "u6_addr8"] 56 16 ∧
  place_at decls (Ref "iovec") ["iov_len"] 8 8.
Proof. split_and!; split; vm_compute; reflexivity. Qed.

(** What the probes rely on of the kernel's answers holds of every memory of bytes,
    clock and process. *)
Lemma memory_kernel_typed kernel user time pid_tgid task :
  (∀ a b, kernel a = Some b → is_byte b) → (∀ a b, user a = Some b → is_byte b) →
  (∀ n, in_u 64 (time n)) → in_u 64 pid_tgid →
  kernel_typed (memory_kernel kernel user time pid_tgid task).
Proof.
  intros Hk Hu Ht Hp. destruct array_places as (Psk & Prcv & Pdst & Plen).
  destruct socket_places as (_ & Pbt & Pfam & _ & _ & _ & _ & Pa6 & Pin6 & Piov).
  split; cbn [memory_kernel ktime_get_ns current_pid_tgid read_start_boottime read_sock_common
    read_sa_family read_sockaddr_in6 read_user_buf]; [|done|done|..].
  - intros a v. cbn [memory_kernel read_iovec].
    unfold read_object. destruct (read_field _ _ _ _ _) as [l|] eqn:Hl; cbn [fmap result_fmap]; [|done].
    intros [= <-]. apply (read_field_bytes _ _ _ _ _ _ _ Hk Piov) in Hl as [Hl Hb]. cbn [iovec_value iov_len].
    rewrite (field_int_at _ _ _ _ _ l Plen). apply (slice_range 8 8); [lia|done].
  - intros a t. unfold read_int. destruct (read_field _ _ _ _ _) as [l|] eqn:Hl; cbn [fmap result_fmap]; [|done].
    intros [= <-]. apply (read_field_bytes _ _ _ _ _ _ _ Hk Pbt) in Hl as [Hl Hb].
    apply le_int_range in Hb. by rewrite Hl in Hb.
  - intros a sc. destruct (read_field _ _ _ _ _) as [l|] eqn:Hl; cbn [fmap result_fmap]; [|done].
    intros [= <-]. apply (read_field_bytes _ _ _ _ _ _ _ Hk Psk) in Hl as [Hl _].
    cbn [sock_common_value skc_v6_rcv_saddr skc_v6_daddr].
    rewrite (field_bytes_at _ _ _ _ _ l Prcv), (field_bytes_at _ _ _ _ _ l Pdst), !slice_length by lia. done.
  - intros a f. unfold read_int. destruct (read_field _ _ _ _ _) as [l|] eqn:Hl; cbn [fmap result_fmap]; [|done].
    intros [= <-]. apply (read_field_bytes _ _ _ _ _ _ _ Hu Pfam) in Hl as [Hl Hb].
    apply le_int_range in Hb. by rewrite Hl in Hb.
  - intros a sa. unfold read_object. destruct (read_field _ _ _ _ _) as [l|] eqn:Hl; cbn [fmap result_fmap]; [|done].
    intros [= <-]. apply (read_field_bytes _ _ _ _ _ _ _ Hu Pin6) in Hl as [Hl _].
    cbn [sockaddr_in6_value u6_addr8]. rewrite (field_bytes_at _ _ _ _ _ l Pa6), slice_length by lia. done.
  - intros a n bytes. unfold probe_read_bytes. destruct (load _ _ _) as [l|] eqn:Hl; [|done].
    intros [= <-]. by apply (load_bytes _ _ _ _ Hu) in Hl as [Hl _].
Qed.

(** An address that [bpf_probe_read_kernel] cannot read. *)
Lemma read_iovec_fault kernel user time pid_tgid task a : kernel a = None →
  read_iovec (memory_kernel kernel user time pid_tgid task) a = Err EFAULT.
Proof.
  intros Ha. cbn [read_iovec memory_kernel]. unfold read_object, read_field.
  destruct socket_places as (_ & _ & _ & _ & _ & _ & _ & _ & _ & O1 & O2). rewrite O1, O2.
  unfold probe_read_bytes. rewrite Z.add_0_r. cbn [load]. by rewrite Ha.
Qed.

(** What has been sent. *)
Definition events (s : Maps) := (SOCKET_CONTROL_EVENTS s, SOCKET_DATA_EVENTS s, CONN_STATS_EVENTS s).

(** A connection that is found or made up: of a recorded family, or of none. *)
Lemma get_or_create_cases {B : SocketMaps} k tg fd s :
  let '(r, s1) := get_or_create_conn_info k tg fd s in
  events s1 = events s ∧
  match r with
  | Ok c => CONN_INFO_MAP s !! gen_tgid_fd tg fd = Some c ∨ sa_family c = AF_UNKNOWN
  | Err _ => CONN_INFO_MAP s !! gen_tgid_fd tg fd = None
  end.
Proof.
  unfold get_or_create_conn_info, init_conn_info, init_conn_id, gen_tsid, now, gets, mbind, M_bind, mret, M_ret.
  cbn [CONN_INFO_MAP set_clock_reads].
  destruct (CONN_INFO_MAP s !! gen_tgid_fd tg fd) as [c|] eqn:Hc; [by auto|].
  unfold conn_info_insert, map_insert_op. destruct (bpf_update _ _ _); by auto.
Qed.

(** C23: vectors are read with [bpf_probe_read_kernel].  When a call of a traced
    process transfers data through a vector that is in the memory of the process
    and not readable that way, as system calls pass it, then processing the call
    ends with an error, EFAULT if its connection is already recorded, and sends
    nothing: no data, and no statistics of the bytes either. *)
Theorem user_vectors_not_traced {B : SocketMaps} kernel user time pid_tgid task dir args count s :
  let k := memory_kernel kernel user time pid_tgid task in
  let tg := Z.shiftr pid_tgid 32 in
  let key := gen_tgid_fd tg (da_fd args) in
  kernel (iov args) = None → iov args ≠ 0 → 0 < iovlen args → 0 ≤ da_fd args → 0 < count →
  match_trace_tgid s tg ≠ Unmatched →
  (∀ c, CONN_INFO_MAP s !! key = Some c → should_trace_conn c = true) →
  ∃ e s', process_syscall_data_vecs k pid_tgid dir args count s = (Err e, s') ∧
    events s' = events s ∧ (is_Some (CONN_INFO_MAP s !! key) → e = EFAULT).
Proof.
  intros k tg key Ha Hi Hl Hfd Hn Hm Htr. pose proof (read_iovec_fault kernel user time pid_tgid task _ Ha) as Hv.
  fold k in Hv. clearbody k. pose proof (get_or_create_cases k tg (da_fd args) s) as Hc.
  unfold process_syscall_data_vecs, process_data. cbn [vecs negb andb pd_direction bytes_count SocketTracer.pid_tgid].
  rewrite (proj2 (Z.eqb_neq _ _) Hi), (proj2 (Z.leb_gt _ _) Hl), (proj2 (Z.ltb_ge _ _) Hfd), (proj2 (Z.leb_gt _ _) Hn).
  cbn [orb]. unfold mbind at 1, M_bind at 1, gets at 1. fold tg. rewrite decide_False by done.
  unfold mbind at 1, M_bind at 1. destruct (get_or_create_conn_info k tg (da_fd args) s) as [[c|e] s1].
  2: { exists e, s1. destruct Hc as [Hev Hnone]. split_and!; [done|done|].
       unfold key. rewrite Hnone. intros [? [=]]. }
  destruct Hc as [Hev Hc]. exists EFAULT, s1. split_and!; [|done|done].
  assert (should_trace_conn c = true) as ->.
  { destruct Hc as [Hc|Hc]; [by apply Htr|]. unfold should_trace_conn. by rewrite Hc. }
  cbn [negb]. unfold mbind at 1, M_bind at 1, gets at 1. unfold mbind at 1, M_bind at 1, lift at 1.
  assert (classify_vecs k PROTOCOL_VEC_LIMIT 0 c dir (iov args) (iovlen args) count = Err EFAULT) as ->; [|done].
  unfold PROTOCOL_VEC_LIMIT. cbn [classify_vecs].
  by rewrite (proj2 (Z.leb_gt _ _) Hl), Z.mul_0_l, Z.add_0_r, Hv.
Qed.

(** ** Accepted sockets *)

(** What [sock_alloc] of the kernel returns: a [socket], whose [file] is null or an
    aligned pointer. *)
Record socket_at (m : Memory) (a : Z) (obj : list Z) : Prop := {
  so_memory : mem_holds m a obj;
  so_length : length obj = size_of decls (Ref "socket");
  so_file : field_int decls (Ref "socket") ["file"] obj mod 8 = 0 }.

Lemma socket_place : place_at decls (Ref "socket") ["file"] 16 8 ∧ size_of decls (Ref "socket") = 128%nat ∧
  place_at decls (Ref "sock_common") ["skc_family"] 16 2.
Proof. split_and!; [split|..|split]; vm_compute; reflexivity. Qed.

Lemma load_lookup m a n l i : load m a n = Some l → (i < n)%nat → ∃ b, l !! i = Some b ∧ m (a + Z.of_nat i) = Some b.
Proof.
  revert a l i. induction n as [|n IH]; intros a l i; cbn [load]; [lia|].
  intros (b & Hb & (rest & Hr & [= <-])%bind_Some)%bind_Some Hi. destruct i as [|i].
  - exists b. rewrite Z.add_0_r. done.
  - destruct (IH _ _ i Hr) as (b' & Hl & Hm); [lia|]. exists b'. split; [done|].
    rewrite <- Hm. f_equal. lia.
Qed.

Lemma le_int_low b l : (b + 256 * le_int l) mod 8 = b mod 8.
Proof. replace (b + 256 * le_int l) with (b + 32 * le_int l * 8) by lia. by rewrite Z.mod_add. Qed.

Lemma slice_cons {A} o n (l : list A) x : l !! o = Some x → slice o (S n) l = x :: slice (S o) n l.
Proof. intros Hx. unfold slice. by rewrite (drop_S l x o Hx). Qed.

(** Where [sock_common] has its family, a [socket] has the low bytes of its [file]. *)
Lemma read_field_lookup m a t path o n l i : place_at decls t path o n →
  read_field decls m a t path = Ok l → (i < n)%nat →
  ∃ b, l !! i = Some b ∧ m (a + Z.of_nat o + Z.of_nat i) = Some b.
Proof.
  intros [<- <-]. unfold read_field, probe_read_bytes. destruct (load _ _ _) as [l'|] eqn:Hl; [|done].
  intros [= <-] Hi. exact (load_lookup _ _ _ _ _ Hl Hi).
Qed.

Lemma socket_family kernel user time pid_tgid task a obj sc :
  socket_at kernel a obj → read_sock_common (memory_kernel kernel user time pid_tgid task) a = Ok sc →
  skc_family sc mod 8 = 0.
Proof.
  intros [Hm Hlen Hfile]. destruct socket_place as (Pf & Hsize & Pfam). rewrite Hsize in Hlen.
  destruct array_places as (Psk & _). cbn [read_sock_common memory_kernel].
  destruct (read_field _ _ _ _ _) as [l|] eqn:Hl; cbn [fmap result_fmap]; [|done].
  intros [= <-]. destruct (read_field_lookup _ _ _ _ _ _ _ 16 Psk Hl) as (b & Hlb & Hmb); [lia|].
  rewrite (field_int_at _ _ _ _ _ obj Pf) in Hfile. cbn [sock_common_value skc_family].
  rewrite (field_int_at _ _ _ _ _ l Pfam).
  destruct (lookup_lt_is_Some_2 obj 16) as [b' Hb']; [lia|].
  assert (b' = b) as ->.
  { specialize (Hm _ _ Hb'). rewrite Z.add_0_r, Hm in Hmb. by injection Hmb. }
  rewrite (slice_cons _ _ _ _ Hb') in Hfile. rewrite (slice_cons _ _ _ _ Hlb). cbn [le_int] in *.
  by rewrite le_int_low in *.
Qed.

Lemma socket_not_parsed kernel user time pid_tgid task a obj c : socket_at kernel a obj →
  ∃ e, parse_sock_data (memory_kernel kernel user time pid_tgid task) a c = (Err e, c).
Proof.
  intros Hso. pose proof (λ sc, socket_family kernel user time pid_tgid task a obj sc Hso) as Hfam. revert Hfam.
  generalize (memory_kernel kernel user time pid_tgid task). intros k Hfam. unfold parse_sock_data.
  destruct (read_sock_common k a) as [sc|e]; [|by exists e]. specialize (Hfam sc eq_refl).
  rewrite !decide_False by (intros Hf; rewrite Hf in Hfam; discriminate Hfam). by exists 1.
Qed.

(** An opening whose socket cannot be parsed leaves nothing but a reading of the clock. *)
Lemma submit_open_unparsed {B : SocketMaps} k args s :
  oe_sk args ≠ 0 → (∀ c, ∃ e, parse_sock_data k (oe_sk args) c = (Err e, c)) →
  ∃ e n, submit_open_event k args s = (Err e, set_clock_reads n s).
Proof.
  intros Hsk Hp. unfold submit_open_event.
  destruct (init_conn_info_run k (oe_tgid args) (oe_fd args) s) as (i & Hinit & _).
  unfold mbind at 1, M_bind at 1. rewrite Hinit, (proj2 (Z.eqb_neq _ _) Hsk). cbn [negb].
  destruct (Hp (with_role (oe_role args) (with_family AF_UNKNOWN (with_role RoleUnknown (with_id i ConnInfo_default)))))
    as (e & ->). by eexists _, _.
Qed.

Lemma ret_accept_unparsed {B : SocketMaps} k ctx s args :
  ACTIVE_ACCEPT_MAP s !! current_pid_tgid k = Some args → aa_sock args ≠ 0 →
  (∀ c, ∃ e, parse_sock_data k (aa_sock args) c = (Err e, c)) →
  let '(r, s') := try_ret_accept k ctx s in
  CONN_INFO_MAP s' = CONN_INFO_MAP s ∧ events s' = events s ∧
  (∀ fd, ret_i32 ctx = Ok fd → 0 ≤ fd → match_trace_tgid s (Z.shiftr (current_pid_tgid k) 32) ≠ Unmatched →
     ∃ e, r = Err e).
Proof.
  intros Hargs Hsk Hp. set (key := current_pid_tgid k) in *.
  assert (∃ r n, process_syscall_accept k ctx key args s = (r, set_clock_reads n s) ∧
    ∀ fd, ret_i32 ctx = Ok fd → 0 ≤ fd → match_trace_tgid s (Z.shiftr key 32) ≠ Unmatched → ∃ e, r = Err e)
    as (r & n & Hrun & Hr).
  { assert (s = set_clock_reads (clock_reads s) s) as Hs by (by destruct s).
    unfold process_syscall_accept, mbind, M_bind, lift, gets, mret, M_ret.
    destruct (ret_i32 ctx) as [fd|e]; [|eexists _, _; split; [by rewrite <- Hs|done]].
    case_decide; [eexists _, _; split; [by rewrite <- Hs|done]|].
    destruct (Z.ltb_spec fd 0); [eexists _, _; split; [by rewrite <- Hs|intros ? [= <-]; lia]|].
    set (oe := {| oe_tgid := _ |}). destruct (submit_open_unparsed k oe s) as (e & m & ->); [done|done|].
    eexists _, _. split; [done|]. eauto. }
  unfold try_ret_accept, accept_get, mbind, M_bind, gets, lift, attempt. fold key.
  rewrite Hargs. cbn [ok_or]. rewrite Hrun. unfold accept_remove, map_remove_op.
  destruct (bpf_delete _ _); simpl; split_and!; eauto.
Qed.

(** C22: accepted sockets are not traced.  [ret_sock_alloc] keeps what [sock_alloc]
    returns as the [sock] of the accept, but the kernel returns a [socket]: where
    the probe of the accept reads the address family it finds the low bytes of the
    pointer [file], which is null or aligned and so never AF_INET or AF_INET6.
    Whatever other threads do in between, the return of accept and accept4 then
    records no connection and sends no event, and ends with an error whenever a
    process that is traced got a descriptor. *)
Theorem accepted_sockets_not_traced {B : SocketMaps} {BL : SocketMapsLaws B}
    kernel user time task k0 args sk obj ctx s s1 s2 p ctx' :
  let key := current_pid_tgid k0 in
  let k := memory_kernel kernel user time key task in
  ACTIVE_ACCEPT_MAP s !! key = Some args → aa_sock args = 0 →
  ret_u64 ctx = Ok sk → sk ≠ 0 → try_ret_sock_alloc k0 ctx s = (Ok 0, s1) →
  rtc (other_step key) s1 s2 →
  socket_at kernel sk obj → p = ret_accept ∨ p = ret_accept4 →
  let '(r, s3) := try_probe k p ctx' s2 in
  CONN_INFO_MAP s3 = CONN_INFO_MAP s2 ∧ events s3 = events s2 ∧
  (∀ fd, ret_i32 ctx' = Ok fd → 0 ≤ fd → match_trace_tgid s2 (Z.shiftr key 32) ≠ Unmatched →
     ∃ e, r = Err e).
Proof.
  intros key k Hargs Hz Hret Hsk Halloc Hrun Hso Hp.
  assert (p_accept (pending key s2) = Some {| aa_sockaddr := aa_sockaddr args; aa_sock := sk |}) as Hpend.
  { rewrite (other_run_pending _ _ _ Hrun). unfold try_ret_sock_alloc, accept_get in Halloc. fold key in Halloc.
    run_inv. rewrite Hargs in *. simplify_eq/=. rewrite Hz in *. simpl in *. run_inv.
    apply lookup_insert_eq. }
  assert (try_probe k p ctx' s2 = try_ret_accept k ctx' s2) as -> by (by destruct Hp as [-> | ->]).
  apply (ret_accept_unparsed k ctx' s2 _ Hpend); [done|]. intros c. by eapply socket_not_parsed.
Qed.

(** The start time of a process, through the leader of its thread group. *)
Lemma start_time_from_memory kernel user time pid_tgid task leader tobj lobj :
  task ≠ 0 → mem_holds kernel task tobj → Z.of_nat (length tobj) = 9664 →
  le_int (slice 2448 8 tobj) = leader → mem_holds kernel leader lobj → Z.of_nat (length lobj) = 9664 →
  get_tgid_start_time (memory_kernel kernel user time pid_tgid task) =
    Ok (le_int (slice 2696 8 lobj) / 10000000).
Proof.
  intros Ht Hm Hlen Hl Hm' Hlen'. destruct socket_places as (O1 & O2 & _).
  unfold get_tgid_start_time. cbn [current_task read_group_leader read_start_boottime memory_kernel].
  destruct (Z.eqb_spec task 0); [done|].
  rewrite (read_int_at _ _ _ tobj _ _ _ _ O1 Hm) by lia.
  cbn [map_err mbind result_bind]. rewrite Hl.
  rewrite (read_int_at _ _ _ lobj _ _ _ _ O2 Hm') by lia. reflexivity.
Qed.

(** ** Witnesses *)

(** 10.0.0.1:80 at address 8192 of the process. *)
Definition ex_sockaddr : list Z := [2; 0; 0; 80; 10; 0; 0; 1; 0; 0; 0; 0; 0; 0; 0; 0].
Definition ex_user : Memory := λ a, ex_sockaddr !! Z.to_nat (a - 8192).

Lemma ex_user_holds : mem_holds ex_user 8192 ex_sockaddr.
Proof. intros i b Hi. unfold ex_user. rewrite <- Hi. f_equal. lia. Qed.

Definition ex_mem_kernel : Kernel := memory_kernel (λ _, None) ex_user (λ n, Z.of_nat n) (5 * 2 ^ 32) 64.

Lemma sockaddr_from_memory_witness :
  parse_sockaddr_data ex_mem_kernel 8192 ConnInfo_default =
    (Ok 0, with_ports 0 80 (with_addr4 0 167772161 (with_family AF_INET ConnInfo_default))).
Proof.
  exact (proj1 (sockaddr_from_memory (λ _, None) ex_user (λ n, Z.of_nat n) (5 * 2 ^ 32) 64 8192 ex_sockaddr
                  ConnInfo_default ex_user_holds
                  ltac:(repeat constructor; unfold is_byte; lia)) eq_refl ltac:(simpl; lia)).
Defined.

(** A writev of 100 bytes whose vector is at address 8192. *)
Lemma user_vectors_not_traced_witness :
  ∃ e s', process_syscall_data_vecs (B := ex_smaps) ex_mem_kernel (5 * 2 ^ 32) Egress
    (vec_args SyscallWriteV ATrue 7 8192 1 0) 100 ex_started = (Err e, s') ∧ events s' = events ex_started.
Proof.
  destruct (user_vectors_not_traced (B := ex_smaps) (λ _, None) ex_user (λ n, Z.of_nat n) (5 * 2 ^ 32) 64
              Egress (vec_args SyscallWriteV ATrue 7 8192 1 0) 100 ex_started)
    as (e & s' & Hr & Hev & _); [reflexivity|discriminate|reflexivity|discriminate|reflexivity| | |].
  - vm_compute. discriminate.
  - intros c. vm_compute. discriminate.
  - exists e, s'. split; [exact Hr|exact Hev].
Defined.

(** An accept on which [sock_alloc] returns the socket at address 4096, whose [file]
    is at 0x800 of the last kernel page; the call returns descriptor 8. *)
Definition ex_socket : list Z := replicate 16 0 ++ [0; 248; 255; 255; 255; 255; 255; 255] ++ replicate 104 0.
Definition ex_socket_memory : Memory := λ a, ex_socket !! Z.to_nat (a - 4096).
Definition ex_accept1 : Maps := (run_probe (B := ex_smaps) ex_sk_kernel entry_accept (ex_ctx 0) ex_started).2.
Definition ex_accept2 : Maps := (run_probe (B := ex_smaps) ex_sk_kernel ret_sock_alloc (ex_ctx 4096) ex_accept1).2.

Lemma ex_socket_at : socket_at ex_socket_memory 4096 ex_socket.
Proof.
  split; [|vm_compute; reflexivity..].
  intros i b Hi. unfold ex_socket_memory. rewrite <- Hi. f_equal. lia.
Qed.

Lemma accepted_sockets_witness :
  ∃ e s3, try_ret_accept (B := ex_smaps)
    (memory_kernel ex_socket_memory ex_user (λ n, Z.of_nat n) (current_pid_tgid ex_sk_kernel) 64) (ex_ctx 8) ex_accept2 =
    (Err e, s3) ∧ events s3 = events ex_started.
Proof.
  pose proof (accepted_sockets_not_traced (B := ex_smaps) (BL := bounded_maps_laws 1024) ex_socket_memory ex_user
    (λ n, Z.of_nat n) 64 ex_sk_kernel (default {| aa_sockaddr := 0; aa_sock := 0 |}
      (ACTIVE_ACCEPT_MAP ex_accept1 !! current_pid_tgid ex_sk_kernel)) 4096 ex_socket (ex_ctx 4096)
    ex_accept1 ex_accept2 ex_accept2 ret_accept (ex_ctx 8)) as H.
  assert (match_trace_tgid ex_accept2 (Z.shiftr (current_pid_tgid ex_sk_kernel) 32) ≠ Unmatched) as Hm
    by (vm_compute; discriminate).
  cbn [try_probe] in H. destruct (try_ret_accept _ _ _) as [r s3].
  destruct H as (_ & Hev & Hr); [vm_compute; reflexivity|vm_compute; reflexivity|reflexivity|discriminate| |apply rtc_refl
    |exact ex_socket_at|by left|].
  - refine (eq_trans (surjective_pairing _) (f_equal (λ r, (r, _)) _)). vm_compute. reflexivity.
  - destruct (Hr 8 eq_refl ltac:(lia) Hm) as [e ->]. exists e, s3. split; [reflexivity|].
    rewrite Hev. vm_compute. reflexivity.
Defined.
