(* ===== verification/EndToEnd.v ===== *)
(** * From the kernel's memory to a report of the service map

    The connection tracer fills the CONNECTIONS map from the kernel's sockets and
    the service map of the agent polls it.  Here the two are put together: what a
    poll reports for a connection, in terms of the bytes of the kernel's
    [tcp_sock].  The byte counter arrives unchanged; of the two ports the one
    that is reported is right on the side that connects and swapped on the side
    that accepts. *)
From S2P Require Import Prelude RustStd Bpf ConnTracer AgentApi CacheManager Program ServiceMap Bitfield KernelLayout KernelMemory ConnMemory.
From stdpp Require Import base gmap strings list.
From Stdlib Require Import ZArith Lia.

Local Open Scope Z_scope.

(** ** The map after the probes *)

Section probes.
Context {BS : BpfMap Z SockInfo} {BC : BpfMap ConnectionKey ConnectionStats}.
Context `{!LruLaws BS} `{!LruLaws BC}.

(** Only [key] is recorded. *)
Definition only (key : ConnectionKey) (s : Maps) : Prop := ∀ k, k ≠ key → CONNECTIONS s !! k = None.

Lemma connections_insert_only key st s s' :
  connections_insert key st s = (Ok (), s') → only key s → CONNECTIONS s' = {[ key := st ]}.
Proof.
  unfold connections_insert, only. destruct (bpf_update _ _ _) as [m|] eqn:Hu; intros H Ho; simplify_eq/=.
  apply map_eq. intros k. destruct (decide (k = key)) as [->|Hne].
  - rewrite lookup_singleton_eq. by eapply lru_update_eq.
  - rewrite lookup_singleton_ne by done.
    destruct (lru_update_ne _ _ _ _ k Hu Hne) as [->| ->]; auto.
Qed.

Lemma data_only k sk ck st i s r s' :
  parse_sock_data k sk = Ok (ck, st) → SOCKETS s !! sk = Some i → si_is_active i = 1 →
  dest_addr ck ≠ 0 → only (with_info ck i) s →
  try_sock_conn_tracer k (Some sk) s = (Ok r, s') →
  CONNECTIONS s' = {[ with_info ck i := with_active st 1 ]}.
Proof.
  intros Hp Hi Ha Hd Ho Hrun. unfold try_sock_conn_tracer in Hrun. run_inv.
  rewrite (proj2 (Z.eqb_neq _ _) Hd) in Hrun. cbn [andb] in Hrun. run_inv.
  rewrite Hi, Ha in Hrun. simpl in Hrun. run_inv.
  match goal with H : connections_insert _ _ _ = _ |- _ => by apply (connections_insert_only _ _ _ _ H) end.
Qed.

Lemma syn_recv_only k sk ck st s r s' :
  parse_sock_data k sk = Ok (ck, st) → dest_addr ck ≠ 0 →
  let i := {| si_id := get_unique_id k; si_pid := 0; si_is_active := 1;
              si_role := CONNECTION_ROLE_SERVER |} in
  only (with_info ck i) s → handle_tcp_syn_recv k sk s = (Ok r, s') → only (with_info ck i) s'.
Proof.
  intros Hp Hd i Ho Hrun. unfold handle_tcp_syn_recv in Hrun. run_inv.
  rewrite (proj2 (Z.eqb_neq _ _) Hd) in Hrun. run_inv.
  match goal with H : sockets_insert _ _ _ = _ |- _ => apply sockets_insert_ok in H as [_ Hs] end.
  match goal with H : connections_insert _ _ _ = _ |- _ =>
    pose proof (connections_insert_only _ _ _ _ H ltac:(intros k' Hk'; rewrite Hs; by apply Ho)) as Hc end.
  intros k' Hk'. rewrite Hc. by rewrite lookup_singleton_ne.
Qed.
End probes.

(** ** A poll of a map with one connection *)

Section poll.
Context `{HI : HashIter} {BC : BpfMap ConnectionKey ConnectionStats} `{!HashLaws BC}.
Context (aya_iter : gmap ConnectionKey ConnectionStats → list (result Z (ConnectionKey * ConnectionStats))).
Context (caches : CacheHandle → CacheManager).

Lemma poll_single s fd h key st c n :
  attached s fd h → aya_lists aya_iter (kmaps s fd) → past_conns_map (inner s) = ∅ →
  kmaps s fd = {[ key := st ]} → in_u 64 (bytes_sent st) →
  reported (caches h) (key, st) = Some (c, n) →
  ∃ s', poll aya_iter caches s = (Ok {[ c := n ]}, s').
Proof.
  intros Hat Hl Hp Hk Hst Hr.
  assert (n = bytes_sent st) as -> by exact (reported_bytes _ _ _ Hr).
  destruct (poll_lookups aya_iter caches s fd h Hat Hl) as (m & s' & past' & Hrun & Hm & _).
  - rewrite Hk. by apply map_Forall_singleton.
  - rewrite Hp. apply map_Forall_empty.
  - exists s'. rewrite Hrun. do 2 f_equal. apply map_eq. intros c'. rewrite Hm, Hp, Hk, map_to_list_singleton.
    cbn [omap list_omap]. rewrite Hr. cbn [fmap list_fmap fst]. rewrite lookup_empty.
    destruct (decide (c' = c)) as [->|Hne].
    + rewrite decide_True by (left; constructor). rewrite lookup_singleton_eq. simpl.
      rewrite decide_True by done. rewrite !Z.add_0_r, wrapu_id by done. reflexivity.
    + rewrite lookup_singleton_ne, decide_False; [done| |done].
      intros [?%list_elem_of_singleton|[? ?]]; done.
Qed.
End poll.

(** ** The whole path *)

(** The IPv4 [tcp_sock] at [sk], seen at some moment. *)
Record tcp_sock_at (m : Memory) (sk : Z) (obj : list Z) : Prop := {
  ts_memory : mem_holds m sk obj;
  ts_length : length obj = 2256%nat;
  ts_bytes : Forall is_byte obj;
  ts_family : le_int (slice 16 2 obj) = AF_INET }.

Definition local_addr (obj : list Z) : Z := be_int (slice 4 4 obj).
Definition remote_addr (obj : list Z) : Z := be_int (slice 0 4 obj).
Definition remote_port (obj : list Z) : Z := be_int (slice 12 2 obj).
(** [skc_num], in host order *)
Definition local_port (obj : list Z) : Z := le_int (slice 14 2 obj).
Definition sent_bytes (obj : list Z) : Z := le_int (slice 1456 8 obj).

Lemma parse_tcp_sock m sk obj time pid_tgid : tcp_sock_at m sk obj →
  ∃ st, parse_sock_data (memory_kernel m time pid_tgid) sk = Ok (
    {| ck_id := 0; ck_pid := 0; src_addr := local_addr obj; src_port := from_be16 (local_port obj);
       dest_addr := remote_addr obj; dest_port := remote_port obj; ck_role := 0 |}, st) ∧
  bytes_sent st = sent_bytes obj.
Proof.
  intros [Hm Hl Hb Hf]. unfold local_port. rewrite from_be16_slice by (exact Hb || (rewrite Hl; lia)).
  eexists. split; [by apply parse_sock_data_from_memory|done].
Qed.

Lemma sent_bytes_range obj : Forall is_byte obj → in_u 64 (sent_bytes obj).
Proof.
  intros Hb. unfold sent_bytes, in_u.
  assert (∀ l, Forall is_byte l → 0 ≤ le_int l < 256 ^ Z.of_nat (length l)) as Hr.
  { intros l. induction 1 as [|b l Hx _ IH]; cbn [le_int length]; [done|].
    rewrite Nat2Z.inj_succ, Z.pow_succ_r by lia. unfold is_byte in Hx. lia. }
  pose proof (Hr _ (Forall_slice _ 1456 8 _ Hb)) as H. revert H.
  assert (length (slice 1456 8 obj) ≤ 8)%nat as Hlen by (unfold slice; rewrite length_take; lia).
  pose proof (Z.pow_le_mono_r 256 (Z.of_nat (length (slice 1456 8 obj))) 8 ltac:(lia) ltac:(lia)). lia.
Qed.

Section path.
Context {BS : BpfMap Z SockInfo} {BC : BpfMap ConnectionKey ConnectionStats}.
Context `{!LruLaws BS} `{!LruLaws BC} `{!HashLaws BC} `{HI : HashIter}.
Context (aya_iter : gmap ConnectionKey ConnectionStats → list (result Z (ConnectionKey * ConnectionStats))).
Context (caches : CacheHandle → CacheManager).

(** The agent polls the map the probes have filled, with nothing archived. *)
Record polls (s : SM) (fd : MapFd) (h : CacheHandle) (ms : Maps) : Prop := {
  po_attached : attached s fd h;
  po_lists : aya_lists aya_iter (kmaps s fd);
  po_past : past_conns_map (inner s) = ∅;
  po_map : kmaps s fd = CONNECTIONS ms }.

(** The addresses of the socket belong to the workloads [a] and [b], and the
    connection is not local. *)
Record known (h : CacheHandle) (obj : list Z) (a b : Workload) : Prop := {
  kn_local : resolve_ip (caches h) (local_addr obj) = Some a;
  kn_remote : resolve_ip (caches h) (remote_addr obj) = Some b;
  kn_other : local_addr obj ≠ remote_addr obj;
  kn_set : remote_addr obj ≠ 0;
  kn_loopback : is_loopback_address (remote_addr obj) = false }.

Lemma report_recorded s fd h ms ck i st a b obj c :
  polls s fd h ms → known h obj a b → Forall is_byte obj →
  src_addr ck = local_addr obj → dest_addr ck = remote_addr obj →
  si_role i ≠ CONNECTION_ROLE_UNKNOWN → bytes_sent st = sent_bytes obj →
  build_connection (caches h) (with_info ck i) = Ok c →
  CONNECTIONS ms = {[ with_info ck i := with_active st 1 ]} →
  ∃ s', poll aya_iter caches s = (Ok {[ c := sent_bytes obj ]}, s').
Proof.
  intros [Hat Hl Hp Hk] [_ _ Ho _ Hlo] Hb Hs Hd Hi Hsent Hbc Hm.
  apply (poll_single aya_iter caches s fd h (with_info ck i) (with_active st 1)); [done..| | |].
  - by rewrite Hk, Hm.
  - simpl. rewrite Hsent. by apply sent_bytes_range.
  - unfold reported. cbn [fst snd is_active with_active src_addr dest_addr ck_role with_info].
    rewrite Z.eqb_refl, Hs, Hd, Hlo, (proj2 (Z.eqb_neq _ _) Ho), (proj2 (Z.eqb_neq _ _) Hi), Hbc.
    simpl. by rewrite Hsent.
Qed.

(** C12: an outgoing connection: after SYN_SENT and a data event on a socket of an
    otherwise idle node, the next poll reports exactly that connection, from the
    workload of the socket's local address to that of its remote address and
    port, with the kernel's count of sent bytes. *)
Theorem outgoing_connection_reported m sk obj time pid_tgid k1 s1 s2 r1 r2 s fd h a b :
  tcp_sock_at m sk obj → known h obj a b → polls s fd h s2 →
  try_state_tracer k1 (Ok sk) (Ok TCP_SYN_SENT) Maps_empty = (Ok r1, s1) →
  try_sock_conn_tracer (memory_kernel m time pid_tgid) (Some sk) s1 = (Ok r2, s2) →
  ∃ s', poll aya_iter caches s =
    (Ok {[ {| client := a; server := b; role := CONNECTION_ROLE_CLIENT;
              server_port := remote_port obj |} := sent_bytes obj ]}, s').
Proof.
  intros Hobj Hkn Hpo H1 H2. destruct (parse_tcp_sock m sk obj time pid_tgid Hobj) as (st & Hparse & Hst).
  change (handle_tcp_syn_sent k1 sk Maps_empty = (Ok r1, s1)) in H1. apply syn_sent_ok in H1 as [Hi Hc].
  pose proof Hkn as [Hka Hkb _ Hz _].
  pose proof (data_only _ _ _ st _ _ _ _ Hparse Hi eq_refl Hz
                ltac:(intros k _; by rewrite Hc) H2) as Hm.
  refine (report_recorded s fd h s2 _ _ st a b obj _ Hpo Hkn (ts_bytes _ _ _ Hobj) _ _ _ Hst _ Hm);
    [reflexivity|reflexivity|done|].
  unfold build_connection. cbn [src_addr dest_addr with_info ck_role dest_port src_port si_role].
  rewrite Hka. cbn [ok_or mbind result_bind]. rewrite Hkb. reflexivity.
Qed.

(** C17: an accepted connection, through SYN_RECV and a data event, is reported from
    the remote workload to the local one with the count of sent bytes; its server
    port is the local port with its two bytes exchanged, since [skc_num] is
    already in host order when it is converted. *)
Theorem accepted_connection_port_swapped m m0 sk obj obj0 time pid_tgid time0 pid0 s1 s2 r1 r2 s fd h a b :
  tcp_sock_at m sk obj → tcp_sock_at m0 sk obj0 → take 18 obj0 = take 18 obj →
  known h obj a b → polls s fd h s2 →
  try_state_tracer (memory_kernel m0 time0 pid0) (Ok sk) (Ok TCP_SYN_RECV) Maps_empty = (Ok r1, s1) →
  try_sock_conn_tracer (memory_kernel m time pid_tgid) (Some sk) s1 = (Ok r2, s2) →
  ∃ s', poll aya_iter caches s =
    (Ok {[ {| client := b; server := a; role := CONNECTION_ROLE_SERVER;
              server_port := from_be16 (local_port obj) |} := sent_bytes obj ]}, s').
Proof.
  intros Hobj Hobj0 Htake Hkn Hpo H1 H2.
  assert (∀ o n, (o + n ≤ 18)%nat → slice o n obj0 = slice o n obj) as Hsl.
  { intros o n Hon. pose proof (slice_slice 0 18 o n obj0 Hon) as E0.
    pose proof (slice_slice 0 18 o n obj Hon) as E1. rewrite Nat.add_0_l in E0, E1.
    rewrite <- E0, <- E1. f_equal. exact Htake. }
  destruct (parse_tcp_sock m sk obj time pid_tgid Hobj) as (st & Hparse & Hst).
  destruct (parse_tcp_sock m0 sk obj0 time0 pid0 Hobj0) as (st0 & Hparse0 & _).
  assert (local_addr obj0 = local_addr obj) as E1 by exact (f_equal be_int (Hsl 4 4 ltac:(lia)))%nat.
  assert (remote_addr obj0 = remote_addr obj) as E2 by exact (f_equal be_int (Hsl 0 4 ltac:(lia)))%nat.
  assert (remote_port obj0 = remote_port obj) as E3 by exact (f_equal be_int (Hsl 12 2 ltac:(lia)))%nat.
  assert (local_port obj0 = local_port obj) as E4 by exact (f_equal le_int (Hsl 14 2 ltac:(lia)))%nat.
  rewrite E1, E2, E3, E4 in Hparse0. clear E1 E2 E3 E4.
  pose proof Hkn as [Hka Hkb _ Hz _].
  change (handle_tcp_syn_recv (memory_kernel m0 time0 pid0) sk Maps_empty = (Ok r1, s1)) in H1.
  pose proof (syn_recv_only _ _ _ _ _ _ _ Hparse0 Hz (λ k _, lookup_empty k) H1) as Hon.
  apply (syn_recv_ok _ _ _ _ _ _ _ Hparse0 Hz) in H1 as [_ Hi].
  pose proof (data_only _ _ _ st _ _ _ _ Hparse Hi eq_refl Hz Hon H2) as Hm.
  refine (report_recorded s fd h s2 _ _ st a b obj _ Hpo Hkn (ts_bytes _ _ _ Hobj) _ _ _ Hst _ Hm);
    [reflexivity|reflexivity|done|].
  unfold build_connection. cbn [src_addr dest_addr with_info ck_role dest_port src_port si_role].
  rewrite Hka. cbn [ok_or mbind result_bind]. rewrite Hkb. reflexivity.
Qed.
End path.

(** ** Witnesses *)

(** 10.0.0.1, local port 443, connected with 10.0.0.2:8080; 300 bytes sent. *)
Definition ex_obj : list Z :=
  [10; 0; 0; 2; 10; 0; 0; 1; 0; 0; 0; 0; 31; 144; 187; 1; 2; 0] ++ replicate 1438 0 ++
  [44; 1; 0; 0; 0; 0; 0; 0] ++ replicate 792 0.
Definition ex_mem : Memory := λ a, ex_obj !! Z.to_nat (a - 4096).

Lemma ex_obj_at : tcp_sock_at ex_mem 4096 ex_obj.
Proof.
  split; [|reflexivity| |reflexivity].
  - intros i b Hi. unfold ex_mem. rewrite <- Hi. f_equal. lia.
  - unfold ex_obj. repeat (apply Forall_app; split); try (apply Forall_replicate; unfold is_byte; lia);
      repeat constructor; unfold is_byte; lia.
Qed.

Lemma ex_known : known (λ _, ex_tables) 0%nat ex_obj (ex_wl "cart" "Deployment") (ex_wl "db" "StatefulSet").
Proof. split; try reflexivity; vm_compute; discriminate. Qed.

Lemma ex_fields :
  remote_port ex_obj = 8080 ∧ from_be16 (local_port ex_obj) = 47873 ∧ sent_bytes ex_obj = 300.
Proof. split_and!; vm_compute; reflexivity. Qed.

Definition ex_probe1 (new_state : Z) : Maps :=
  snd (try_state_tracer (BS := ex_BS) (BC := ex_BC) (memory_kernel ex_mem 1 7) (Ok 4096) (Ok new_state) Maps_empty).
Definition ex_probe2 (new_state : Z) : Maps :=
  snd (try_sock_conn_tracer (BS := ex_BS) (BC := ex_BC) (memory_kernel ex_mem 2 7) (Some 4096) (ex_probe1 new_state)).

Lemma ex_runs st : st = TCP_SYN_SENT ∨ st = TCP_SYN_RECV →
  try_state_tracer (BS := ex_BS) (BC := ex_BC) (memory_kernel ex_mem 1 7) (Ok 4096) (Ok st) Maps_empty =
    (Ok 0, ex_probe1 st) ∧
  try_sock_conn_tracer (BS := ex_BS) (BC := ex_BC) (memory_kernel ex_mem 2 7) (Some 4096) (ex_probe1 st) =
    (Ok 0, ex_probe2 st).
Proof.
  intros Hst. split; refine (eq_trans (surjective_pairing _) (f_equal (λ r, (r, _)) _));
    destruct Hst as [-> | ->]; vm_compute; reflexivity.
Qed.

Lemma ex_polls ms : polls ex_iter (ex_sm (CONNECTIONS ms)) 3 0%nat ms.
Proof. split; [apply ex_attached|apply ex_iter_lists|reflexivity|reflexivity]. Qed.

Lemma outgoing_connection_witness :
  ∃ s', poll (HI := hm_iter_default) (BC := ex_BC) ex_iter (λ _, ex_tables)
          (ex_sm (CONNECTIONS (ex_probe2 TCP_SYN_SENT))) =
    (Ok {[ {| client := ex_wl "cart" "Deployment"; server := ex_wl "db" "StatefulSet";
              role := CONNECTION_ROLE_CLIENT; server_port := 8080 |} := 300 ]}, s').
Proof.
  destruct ex_fields as (<- & _ & <-).
  exact (outgoing_connection_reported (BS := ex_BS) (BC := ex_BC) (LruLaws0 := bounded_hash_lru 16)
           (LruLaws1 := bounded_hash_lru 16) (HashLaws0 := bounded_hash_laws 16) (HI := hm_iter_default)
           ex_iter (λ _, ex_tables) ex_mem 4096 ex_obj 2 7 (memory_kernel ex_mem 1 7)
           (ex_probe1 TCP_SYN_SENT) (ex_probe2 TCP_SYN_SENT) 0 0
           (ex_sm (CONNECTIONS (ex_probe2 TCP_SYN_SENT))) 3 0%nat _ _ ex_obj_at ex_known (ex_polls _)
           (proj1 (ex_runs _ (or_introl eq_refl))) (proj2 (ex_runs _ (or_introl eq_refl)))).
Defined.

Lemma accepted_connection_witness :
  ∃ s', poll (HI := hm_iter_default) (BC := ex_BC) ex_iter (λ _, ex_tables)
          (ex_sm (CONNECTIONS (ex_probe2 TCP_SYN_RECV))) =
    (Ok {[ {| client := ex_wl "db" "StatefulSet"; server := ex_wl "cart" "Deployment";
              role := CONNECTION_ROLE_SERVER; server_port := 47873 |} := 300 ]}, s').
Proof.
  destruct ex_fields as (_ & <- & <-).
  exact (accepted_connection_port_swapped (BS := ex_BS) (BC := ex_BC) (LruLaws0 := bounded_hash_lru 16)
           (LruLaws1 := bounded_hash_lru 16) (HashLaws0 := bounded_hash_laws 16) (HI := hm_iter_default)
           ex_iter (λ _, ex_tables) ex_mem ex_mem 4096 ex_obj ex_obj 2 7 1 7
           (ex_probe1 TCP_SYN_RECV) (ex_probe2 TCP_SYN_RECV) 0 0
           (ex_sm (CONNECTIONS (ex_probe2 TCP_SYN_RECV))) 3 0%nat _ _ ex_obj_at ex_obj_at eq_refl ex_known
           (ex_polls _) (proj1 (ex_runs _ (or_intror eq_refl))) (proj2 (ex_runs _ (or_intror eq_refl)))).
Defined.
