(* ===== verification/PollConcurrent.v ===== *)
(** * Polls of the service map while the probes run

    [poll] of [agent/src/progs/service_map/program.rs] takes its steps while the
    probes of the connection tracer write the same map on other CPUs, while the
    watchers change the address tables and while other polls run (the program's own
    timer and every scrape call it).  A poll iterates under the read lock, releases
    it, and under the write lock reads, removes, names and archives the inactive
    entries one by one.  Here these are separate steps, interleaved with the map
    operations of [ConnConcurrent], with changes of the tables and with each other;
    each of the two addresses of a connection is looked up in the tables of its own
    moment.

    A history keeps the last entry that the kernel wrote for each connection key,
    and what became of the keys that left the map.  As long as the kernel does not
    write a key again that a poll has removed or is removing, the archive is the sum
    of the last counters of the keys that polls removed and could name, each counted
    once.  The key of an accepted connection breaks that condition. *)
From S2P Require Import Prelude RustStd Bpf ConnTracer ConnConcurrent AgentApi CacheManager Program ServiceMap EndToEnd.
From stdpp Require Import base gmap strings list relations.
From Stdlib Require Import ZArith Lia.

Local Open Scope Z_scope.

(** ** A poll in progress *)

(** [PClient] has looked up the first address of an active entry; [PTook] has read the
    entry to remove, [PGone] has removed it and [PNamed] has looked up its first
    address.  Each has the handle of the cache manager, not its contents. *)
Inductive Poller :=
  | PRead (h : CacheHandle) (past : gmap Connection Z)
      (keys_to_remove : list ConnectionKey) (current_conns : gmap Connection Z)
  | PClient (h : CacheHandle) (past : gmap Connection Z)
      (keys_to_remove : list ConnectionKey) (current_conns : gmap Connection Z)
      (key : ConnectionKey) (stats : ConnectionStats) (client_workload : option Workload)
  | PWait (h : CacheHandle) (keys_to_remove : list ConnectionKey) (current_conns : gmap Connection Z)
  | PWrite (h : CacheHandle) (keys_to_remove : list ConnectionKey) (current_conns : gmap Connection Z)
  | PTook (h : CacheHandle) (key : ConnectionKey) (throughput : Z)
      (keys_to_remove : list ConnectionKey) (current_conns : gmap Connection Z)
  | PGone (h : CacheHandle) (key : ConnectionKey) (throughput : Z)
      (keys_to_remove : list ConnectionKey) (current_conns : gmap Connection Z)
  | PNamed (h : CacheHandle) (key : ConnectionKey) (throughput : Z) (client_workload : option Workload)
      (keys_to_remove : list ConnectionKey) (current_conns : gmap Connection Z)
  | PDone (current_conns : gmap Connection Z).

(** The archive as a poll under the read lock has cloned it. *)
Definition reading (p : Poller) : option (gmap Connection Z) :=
  match p with PRead _ past _ _ | PClient _ past _ _ _ _ _ => Some past | _ => None end.
Definition reads (p : Poller) : bool := bool_decide (is_Some (reading p)).
Definition writes (p : Poller) : bool :=
  match p with PWrite _ _ _ | PTook _ _ _ _ _ | PGone _ _ _ _ _ | PNamed _ _ _ _ _ _ => true | _ => false end.
Definition returns (p : Poller) : bool :=
  match p with PRead _ _ _ _ | PDone _ => true | _ => false end.
Definition took (p : Poller) : option (ConnectionKey * Z) :=
  match p with PTook _ key t _ _ => Some (key, t) | _ => None end.
(** The entry a poll has removed and not yet archived. *)
Definition in_hand (p : Poller) : option (ConnectionKey * Z) :=
  match p with PGone _ key t _ _ | PNamed _ key t _ _ _ => Some (key, t) | _ => None end.

(** What became of a key that left the map: the kernel evicted it; a poll removed it
    and has it in hand, has archived it, or could not name it. *)
Inductive Fate := Evicted | Removed | Archived (c : Connection) (throughput : Z) | Unresolved.
Global Instance Fate_eq_dec : EqDecision Fate.
Proof. solve_decision. Defined.

(** The node: the CPUs with the two maps, the program's data, the contents of the
    cache managers, the polls in progress, and the history. *)
Record Node := {
  n_cpus : Cpus; n_inner : Inner; n_tables : CacheHandle → CacheManager; n_pollers : gmap nat Poller;
  n_written : gmap ConnectionKey ConnectionStats; n_left : gmap ConnectionKey Fate }.

Definition conns (n : Node) : gmap ConnectionKey ConnectionStats := CONNECTIONS (c_maps (n_cpus n)).

Definition set_conns (m : gmap ConnectionKey ConnectionStats) (cp : Cpus) : Cpus :=
  {| c_maps := set_CONNECTIONS m (c_maps cp); c_cpus := c_cpus cp;
     c_started := c_started cp; c_log := c_log cp |}.

Definition set_poller (i : nat) (p : Poller) (n : Node) : Node :=
  {| n_cpus := n_cpus n; n_inner := n_inner n; n_tables := n_tables n; n_pollers := <[i := p]> (n_pollers n);
     n_written := n_written n; n_left := n_left n |}.
Definition set_fate (key : ConnectionKey) (f : Fate) (n : Node) : Node :=
  {| n_cpus := n_cpus n; n_inner := n_inner n; n_tables := n_tables n; n_pollers := n_pollers n;
     n_written := n_written n; n_left := <[key := f]> (n_left n) |}.

(** After the kernel has turned the map into [m']: what it wrote replaces the last entry
    of its key, what it wrote or kept is in the map, what it dropped is evicted. *)
Definition left_after (m m' : gmap ConnectionKey ConnectionStats) (left : gmap ConnectionKey Fate) :
    gmap ConnectionKey Fate :=
  filter (λ p, m' !! p.1 = None) ((const Evicted <$> m) ∪ left).

(** [Ok(stats) => stats.bytes_sent, Err(_) => 0] *)
Definition throughput_of (m : gmap ConnectionKey ConnectionStats) (key : ConnectionKey) : Z :=
  match m !! key with Some stats => bytes_sent stats | None => 0 end.

(** [build_connection] once the two addresses have been looked up. *)
Definition connection_of (key : ConnectionKey) (client_workload server_workload : option Workload) :
    option Connection :=
  match client_workload, server_workload with
  | Some c, Some s =>
      if decide (ck_role key = CONNECTION_ROLE_CLIENT) then
        Some {| client := c; server := s; role := ck_role key; server_port := dest_port key |}
      else if decide (ck_role key = CONNECTION_ROLE_SERVER) then
        Some {| client := s; server := c; role := ck_role key; server_port := src_port key |}
      else None
  | _, _ => None
  end.

Lemma build_connection_of cm key c :
  build_connection cm key = Ok c ↔
  connection_of key (resolve_ip cm (src_addr key)) (resolve_ip cm (dest_addr key)) = Some c.
Proof.
  unfold build_connection, connection_of, mbind, result_bind.
  destruct (resolve_ip cm (src_addr key)), (resolve_ip cm (dest_addr key)); simpl; try done.
  repeat case_decide; simpl; naive_solver.
Qed.

Section steps.
Context {BS : BpfMap Z SockInfo} {BC : BpfMap ConnectionKey ConnectionStats} `{HI : HashIter}.

(** What the loop does with an item before it resolves addresses: [Some keys] if it goes
    on to the next item with these keys to remove. *)
Definition item_skipped (key : ConnectionKey) (stats : ConnectionStats) (keys : list ConnectionKey) :
    option (list ConnectionKey) :=
  if negb (is_active stats =? 1) then Some (keys ++ [key])
  else if (src_addr key =? dest_addr key) || is_loopback_address (dest_addr key) then Some keys
  else if ck_role key =? CONNECTION_ROLE_UNKNOWN then Some keys
  else None.

Definition add_named (c : option Connection) (bytes : Z) (m : gmap Connection Z) : gmap Connection Z :=
  match c with Some c => add_bytes m (c, bytes) | None => m end.

(** [remove(&key)?] *)
Definition remove_entry (i : nat) (h : CacheHandle) (key : ConnectionKey) (throughput : Z)
    (keys : list ConnectionKey) (cur : gmap Connection Z) (n : Node) : Node :=
  match bpf_delete (conns n) key with
  | Err _ => set_poller i (PWrite h keys cur) n
  | Ok m =>
      set_poller i (PGone h key throughput keys cur)
        {| n_cpus := set_conns m (n_cpus n); n_inner := n_inner n; n_tables := n_tables n;
           n_pollers := n_pollers n; n_written := n_written n; n_left := <[key := Removed]> (n_left n) |}
  end.

(** [build_connection(key, cache_mgr_ref)?] at its second address, and the archive. *)
Definition archive_entry (key : ConnectionKey) (throughput : Z) (connection : option Connection)
    (n : Node) : Node :=
  match connection with
  | None => set_fate key Unresolved n
  | Some c => set_fate key (Archived c throughput)
      {| n_cpus := n_cpus n; n_inner := set_past (add_bytes (past_conns_map (n_inner n)) (c, throughput)) (n_inner n);
         n_tables := n_tables n; n_pollers := n_pollers n; n_written := n_written n; n_left := n_left n |}
  end.

Inductive nstep : Node → Node → Prop :=
  (** a step of the probes *)
  | n_kernel cp n : cstep (n_cpus n) cp →
      nstep n {| n_cpus := cp; n_inner := n_inner n; n_tables := n_tables n; n_pollers := n_pollers n;
                 n_written := CONNECTIONS (c_maps cp) ∪ n_written n;
                 n_left := left_after (conns n) (CONNECTIONS (c_maps cp)) (n_left n) |}
  (** the watchers of a cache manager write its tables *)
  | n_watch tables n :
      nstep n {| n_cpus := n_cpus n; n_inner := n_inner n; n_tables := tables; n_pollers := n_pollers n;
                 n_written := n_written n; n_left := n_left n |}
  (** [self.inner.read()]: nobody holds the write lock *)
  | n_begin i fd h n : n_pollers n !! i = None → map_Forall (λ _ p, writes p = false) (n_pollers n) →
      current_conns_map (n_inner n) = Some fd → cache_mgr (n_inner n) = Some h →
      nstep n (set_poller i (PRead h (past_conns_map (n_inner n)) [] ∅) n)
  (** one item of the iterator: it is skipped, *)
  | n_skip i h past keys cur key stats keys' n :
      n_pollers n !! i = Some (PRead h past keys cur) → conns n !! key = Some stats →
      item_skipped key stats keys = Some keys' →
      nstep n (set_poller i (PRead h past keys' cur) n)
  (** or its addresses are looked up, one after the other *)
  | n_client i h past keys cur key stats n :
      n_pollers n !! i = Some (PRead h past keys cur) → conns n !! key = Some stats →
      item_skipped key stats keys = None →
      nstep n (set_poller i (PClient h past keys cur key stats (resolve_ip (n_tables n h) (src_addr key))) n)
  | n_server i h past keys cur key stats w n :
      n_pollers n !! i = Some (PClient h past keys cur key stats w) →
      nstep n (set_poller i (PRead h past keys
                 (add_named (connection_of key w (resolve_ip (n_tables n h) (dest_addr key))) (bytes_sent stats) cur)) n)
  (** [drop(inner)] *)
  | n_release i h past keys cur n : n_pollers n !! i = Some (PRead h past keys cur) →
      nstep n (set_poller i (PWait h keys (foldl add_bytes cur (hm_iter past))) n)
  (** [self.inner.write()]: nobody holds either lock *)
  | n_lock i h keys cur n : n_pollers n !! i = Some (PWait h keys cur) →
      map_Forall (λ _ p, reads p = false ∧ writes p = false) (n_pollers n) →
      nstep n (set_poller i (PWrite h keys cur) n)
  (** [get(&key, 0)] *)
  | n_get i h key keys cur n : n_pollers n !! i = Some (PWrite h (key :: keys) cur) →
      nstep n (set_poller i (PTook h key (throughput_of (conns n) key) keys cur) n)
  | n_remove i h key t keys cur n : n_pollers n !! i = Some (PTook h key t keys cur) →
      nstep n (remove_entry i h key t keys cur n)
  (** the addresses of the removed entry, one after the other *)
  | n_name i h key t keys cur n : n_pollers n !! i = Some (PGone h key t keys cur) →
      nstep n (set_poller i (PNamed h key t (resolve_ip (n_tables n h) (src_addr key)) keys cur) n)
  | n_archive i h key t w keys cur n : n_pollers n !! i = Some (PNamed h key t w keys cur) →
      nstep n (set_poller i (PWrite h keys cur)
                 (archive_entry key t (connection_of key w (resolve_ip (n_tables n h) (dest_addr key))) n))
  | n_return i h cur n : n_pollers n !! i = Some (PWrite h [] cur) →
      nstep n (set_poller i (PDone cur) n)
  (** [item?] with an error, or the end of a poll *)
  | n_forget i p n : n_pollers n !! i = Some p → returns p = true →
      nstep n {| n_cpus := n_cpus n; n_inner := n_inner n; n_tables := n_tables n;
                 n_pollers := delete i (n_pollers n); n_written := n_written n; n_left := n_left n |}.
End steps.

(** The condition on the kernel: it writes no key that a poll has removed or has
    read and is about to remove.  It may write a key again that it has evicted. *)
Definition writes_fresh (n n' : Node) : Prop := ∀ key st,
  conns n' !! key = Some st → conns n !! key ≠ Some st →
  (∀ f, n_left n !! key = Some f → f = Evicted) ∧
  ∀ i p t, n_pollers n !! i = Some p → took p ≠ Some (key, t).

Definition dstep {BS : BpfMap Z SockInfo} {BC : BpfMap ConnectionKey ConnectionStats} `{HI : HashIter}
    (n n' : Node) : Prop :=
  nstep n n' ∧ writes_fresh n n'.

(** ** The archive, per connection *)

Definition archived_fate (f : Fate) : option (Connection * Z) :=
  match f with Archived c t => Some (c, t) | _ => None end.

(** The archived bytes of a connection according to the history. *)
Definition archived_for (c : Connection) (left : gmap ConnectionKey Fate) : Z :=
  sum_for c (map_to_list (omap archived_fate left)).*2.

Definition fate_bytes (f : Fate) (c : Connection) : Z :=
  match f with Archived c' t => if decide (c' = c) then t else 0 | _ => 0 end.

Lemma archived_insert left c key f : left !! key = None →
  archived_for c (<[key := f]> left) = fate_bytes f c + archived_for c left.
Proof.
  intros Hk. unfold archived_for.
  destruct (archived_fate f) as [[c' t]|] eqn:Hf.
  - rewrite (omap_insert_Some _ _ _ _ (c', t)), map_to_list_insert by (done || by rewrite lookup_omap, Hk).
    rewrite fmap_cons, sum_for_cons. destruct f; simplify_eq/=. by case_decide.
  - rewrite omap_insert_None, delete_id by (done || by rewrite lookup_omap, Hk).
    destruct f; simplify_eq/=; lia.
Qed.

Lemma archived_replace left c key f g : left !! key = Some g → fate_bytes g c = 0 →
  archived_for c (<[key := f]> left) = fate_bytes f c + archived_for c left.
Proof.
  intros Hk Hg. rewrite <- (insert_delete_id left key g Hk) at 2.
  rewrite <- insert_delete_eq, !archived_insert by apply lookup_delete_eq. lia.
Qed.

Lemma archived_same left left' c :
  (∀ key, (left' !! key ≫= archived_fate) = (left !! key ≫= archived_fate)) →
  archived_for c left' = archived_for c left.
Proof.
  intros Hsame. unfold archived_for. do 3 f_equal. apply map_eq. intros key. by rewrite !lookup_omap.
Qed.

Lemma add_bytes_mod m p c :
  as_u64 (default 0 (add_bytes m p !! c)) = as_u64 (default 0 (m !! c) + if decide (p.1 = c) then p.2 else 0).
Proof.
  unfold add_bytes. case_decide as Hd; [subst|].
  - destruct (m !! p.1) eqn:E; rewrite lookup_insert_eq; simpl; [|done].
    apply wrapu_id, wrapu_range. lia.
  - destruct (m !! p.1); rewrite lookup_insert_ne by done; by rewrite Z.add_0_r.
Qed.

(** ** The invariant *)

Record counted (n : Node) : Prop := {
  ct_sub : conns n ⊆ n_written n;
  ct_left key : is_Some (n_left n !! key) → conns n !! key = None;
  ct_cover key : is_Some (n_written n !! key) → conns n !! key = None → is_Some (n_left n !! key);
  ct_named key c t : n_left n !! key = Some (Archived c t) →
    (∃ st, n_written n !! key = Some st ∧ t = bytes_sent st) ∧ ∃ w1 w2, connection_of key w1 w2 = Some c;
  ct_removed key : n_left n !! key = Some Removed →
    ∃ i p t, n_pollers n !! i = Some p ∧ in_hand p = Some (key, t);
  ct_hand i p key t : n_pollers n !! i = Some p → in_hand p = Some (key, t) →
    n_left n !! key = Some Removed ∧ ∃ st, n_written n !! key = Some st ∧ t = bytes_sent st;
  ct_took i p key t st : n_pollers n !! i = Some p → took p = Some (key, t) →
    conns n !! key = Some st → t = bytes_sent st;
  ct_lock i p : n_pollers n !! i = Some p → writes p = true →
    ∀ j q, n_pollers n !! j = Some q → j ≠ i → reads q = false ∧ writes q = false;
  ct_past i p past : n_pollers n !! i = Some p → reading p = Some past → past = past_conns_map (n_inner n);
  ct_sum c : as_u64 (default 0 (past_conns_map (n_inner n) !! c)) = as_u64 (archived_for c (n_left n)) }.

(** A change of a poll's own variables under the locks it has. *)
Lemma counted_poller n i p p' :
  counted n → n_pollers n !! i = Some p → in_hand p' = in_hand p →
  (writes p' = true → writes p = true) → (reads p' = true → reads p = true) →
  (∀ past, reading p' = Some past → reading p = Some past) →
  (∀ key t st, took p' = Some (key, t) → conns n !! key = Some st → t = bytes_sent st) →
  counted (set_poller i p' n).
Proof.
  intros [] Hp Hh Hw Hr Hpast Ht. split; simpl; try done.
  - intros key Hk. destruct (ct_removed0 key Hk) as (j & q & t & Hq & Hhq).
    destruct (decide (j = i)) as [->|Hne].
    + exists i, p', t. rewrite lookup_insert_eq. split; [done|]. congruence.
    + exists j, q, t. by rewrite lookup_insert_ne.
  - intros j q key t [[<- <-]|[_ Hq]]%lookup_insert_Some Hhq; [|by eapply ct_hand0].
    rewrite Hh in Hhq. by eapply ct_hand0.
  - intros j q key t st [[<- <-]|[_ Hq]]%lookup_insert_Some; [apply Ht|by eapply ct_took0].
  - intros j q [[<- <-]|[Hji Hq]]%lookup_insert_Some Hwq j' q' [[<- <-]|[Hji' Hq']]%lookup_insert_Some Hne;
      [done|exact (ct_lock0 i p Hp (Hw Hwq) j' q' Hq' Hne)| |exact (ct_lock0 j q Hq Hwq j' q' Hq' Hne)].
    destruct (ct_lock0 j q Hq Hwq i p Hp Hne) as [Hrp Hwp].
    split; apply not_true_is_false; [intros ?%Hr|intros ?%Hw]; congruence.
  - intros j q past [[<- <-]|[_ Hq]]%lookup_insert_Some Hpq; [|by eapply ct_past0].
    eapply ct_past0; [exact Hp|auto].
Qed.

Lemma counted_begin n i h :
  counted n → n_pollers n !! i = None → map_Forall (λ _ p, writes p = false) (n_pollers n) →
  counted (set_poller i (PRead h (past_conns_map (n_inner n)) [] ∅) n).
Proof.
  intros [] Hi Hw. split; simpl; try done.
  - intros key Hk. destruct (ct_removed0 key Hk) as (j & q & t & Hq & Hhq).
    exists j, q, t. rewrite lookup_insert_ne by congruence. done.
  - intros j q key t [[<- <-]|[_ Hq]]%lookup_insert_Some; [done|by eapply ct_hand0].
  - intros j q key t st [[<- <-]|[_ Hq]]%lookup_insert_Some; [done|by eapply ct_took0].
  - intros j q [[<- <-]|[_ Hq]]%lookup_insert_Some; [done|]. intros Hwq. by rewrite (Hw j q Hq) in Hwq.
  - intros j q past [[<- <-]|[_ Hq]]%lookup_insert_Some; [by intros [= <-]|by eapply ct_past0].
Qed.

Lemma counted_lock n i h keys cur p :
  counted n → n_pollers n !! i = Some p → in_hand p = None →
  map_Forall (λ _ p, reads p = false ∧ writes p = false) (n_pollers n) →
  counted (set_poller i (PWrite h keys cur) n).
Proof.
  intros [] Hi Hh Hw. split; simpl; try done.
  - intros key Hk. destruct (ct_removed0 key Hk) as (j & q & t & Hq & Hhq).
    exists j, q, t. rewrite lookup_insert_ne by congruence. done.
  - intros j q key t [[<- <-]|[_ Hq]]%lookup_insert_Some; [done|by eapply ct_hand0].
  - intros j q key t st [[<- <-]|[_ Hq]]%lookup_insert_Some; [done|by eapply ct_took0].
  - intros j q [[<- <-]|[_ Hq]]%lookup_insert_Some.
    + intros _ j q [[<- <-]|[_ Hq]]%lookup_insert_Some Hne; [done|]. by apply (Hw j).
    + intros Hwq. destruct (Hw j q Hq). congruence.
  - intros j q past [[<- <-]|[_ Hq]]%lookup_insert_Some; [done|by eapply ct_past0].
Qed.

Lemma counted_forget n i p :
  counted n → n_pollers n !! i = Some p → in_hand p = None →
  counted {| n_cpus := n_cpus n; n_inner := n_inner n; n_tables := n_tables n;
             n_pollers := delete i (n_pollers n); n_written := n_written n; n_left := n_left n |}.
Proof.
  intros [] Hp Hh. split; simpl; try done.
  - intros key Hk. destruct (ct_removed0 key Hk) as (j & q & t & Hq & Hhq).
    exists j, q, t. rewrite lookup_delete_ne by congruence. done.
  - intros j q key t [_ Hq]%lookup_delete_Some. by eapply ct_hand0.
  - intros j q key t st [_ Hq]%lookup_delete_Some. by eapply ct_took0.
  - intros j q [_ Hq]%lookup_delete_Some Hwq j' q' [_ Hq']%lookup_delete_Some. exact (ct_lock0 j q Hq Hwq j' q' Hq').
  - intros j q past [_ Hq]%lookup_delete_Some. by eapply ct_past0.
Qed.

(** What the kernel's step leaves of the fates. *)
Lemma left_after_lookup m m' left key :
  left_after m m' left !! key =
    match m' !! key with
    | Some _ => None
    | None => match m !! key with Some _ => Some Evicted | None => left !! key end
    end.
Proof.
  unfold left_after. destruct (m' !! key) as [st|] eqn:E'.
  { apply map_lookup_filter_None. right. intros f _. simpl. by rewrite E'. }
  destruct (m !! key) as [st|] eqn:E.
  - apply map_lookup_filter_Some. split; [|done]. apply lookup_union_Some_l. by rewrite lookup_fmap, E.
  - destruct (left !! key) as [f|] eqn:Ef.
    + apply map_lookup_filter_Some. split; [|done]. rewrite lookup_union_r; [done|by rewrite lookup_fmap, E].
    + apply map_lookup_filter_None. left. apply lookup_union_None. by rewrite lookup_fmap, E.
Qed.

Lemma counted_kernel n cp :
  counted n →
  let n' := {| n_cpus := cp; n_inner := n_inner n; n_tables := n_tables n; n_pollers := n_pollers n;
               n_written := CONNECTIONS (c_maps cp) ∪ n_written n;
               n_left := left_after (conns n) (CONNECTIONS (c_maps cp)) (n_left n) |} in
  writes_fresh n n' → counted n'.
Proof.
  intros [] n' Hf.
  (* a key that polls removed stays out of the map, its last entry and its fate as they are *)
  assert (∀ key f, n_left n !! key = Some f → f ≠ Evicted →
    conns n' !! key = None ∧ n_left n' !! key = Some f ∧ n_written n' !! key = n_written n !! key) as Hkeep.
  { intros key f Hk Hne. pose proof (ct_left0 key (ex_intro _ f Hk)) as Hm.
    assert (conns n' !! key = None) as Hm'.
    { destruct (conns n' !! key) as [st|] eqn:E; [|done].
      destruct (Hf key st E) as [Hev _]; [by rewrite Hm|]. by destruct Hne; apply Hev. }
    split_and!; [done| |by apply lookup_union_r].
    unfold n'. cbn [n_left]. rewrite left_after_lookup. change (CONNECTIONS _) with (conns n'). by rewrite Hm', Hm. }
  assert (∀ key f, n_left n' !! key = Some f → f ≠ Evicted → n_left n !! key = Some f) as Hback.
  { intros key f Hk Hne. unfold n' in Hk. cbn [n_left] in Hk. rewrite left_after_lookup in Hk.
    repeat case_match; congruence. }
  split; try done.
  - apply map_union_subseteq_l.
  - intros key [f Hk]. unfold n' in Hk. cbn [n_left] in Hk. rewrite left_after_lookup in Hk.
    by destruct (CONNECTIONS (c_maps cp) !! key) eqn:E.
  - intros key Hs Hn. unfold n'. cbn [n_left]. rewrite left_after_lookup. change (CONNECTIONS _) with (conns n').
    rewrite Hn. destruct (conns n !! key) eqn:E; [done|]. apply ct_cover0; [|done].
    unfold n' in Hs. cbn [n_written] in Hs. by rewrite lookup_union_r in Hs.
  - intros key c t Hk. apply Hback in Hk; [|done]. destruct (Hkeep _ _ Hk) as (_ & _ & ->); [done|]. by apply ct_named0.
  - intros key Hk. apply Hback in Hk; [|done]. by apply ct_removed0.
  - intros i p key t Hp Hh. destruct (ct_hand0 i p key t Hp Hh) as [Hk Hw].
    destruct (Hkeep _ _ Hk) as (_ & -> & ->); done.
  - intros i p key t st Hp Ht Hst.
    destruct (decide (conns n !! key = Some st)) as [|Hne]; [by eapply ct_took0|].
    destruct (Hf key st Hst Hne) as [_ Hno]. by destruct (Hno i p t Hp).
  - intros c. change (n_inner n') with (n_inner n). rewrite ct_sum0. f_equal. symmetry.
    apply archived_same. intros key. destruct (n_left n !! key) as [f|] eqn:Hk.
    + destruct (decide (f = Evicted)) as [->|Hne].
      * destruct (n_left n' !! key) as [f|] eqn:Hk'; [|done].
        destruct f; try done. apply Hback in Hk'; [|done]. congruence.
      * destruct (Hkeep key f Hk Hne) as (_ & -> & _). done.
    + destruct (n_left n' !! key) as [f|] eqn:Hk'; [|done].
      destruct f; try done. apply Hback in Hk'; [|done]. congruence.
Qed.

(** A poll archives or gives up the entry it has in hand. *)
Lemma counted_archive n i p h key t keys cur c :
  counted n → n_pollers n !! i = Some p → in_hand p = Some (key, t) → writes p = true →
  (∀ c', c = Some c' → ∃ w1 w2, connection_of key w1 w2 = Some c') →
  counted (set_poller i (PWrite h keys cur) (archive_entry key t c n)).
Proof.
  intros [] Hp Hh Hwp Hname. destruct (ct_hand0 i p key t Hp Hh) as [Hfate Hw].
  assert (∀ c', fate_bytes Removed c' = 0) as Hzero by done.
  assert (∀ j q k t', n_pollers n !! j = Some q → in_hand q = Some (k, t') → j ≠ i → False) as Honly.
  { intros j q k t' Hq Hhq Hne. destruct (ct_lock0 i p Hp Hwp j q Hq Hne) as [_ Hwq]. by destruct q. }
  set (f := match c with Some c' => Archived c' t | None => Unresolved end).
  assert (n_left (archive_entry key t c n) = <[key := f]> (n_left n)) as Hleft by (by destruct c).
  assert (conns (archive_entry key t c n) = conns n) as Hconns by (by destruct c).
  assert (n_written (archive_entry key t c n) = n_written n) as Hwr by (by destruct c).
  assert (n_pollers (archive_entry key t c n) = n_pollers n) as Hpo by (by destruct c).
  split; change (conns (set_poller i (PWrite h keys cur) (archive_entry key t c n)))
    with (conns (archive_entry key t c n)); cbn [set_poller n_pollers n_written n_left n_inner];
    rewrite ?Hleft, ?Hconns, ?Hwr, ?Hpo.
  - done.
  - intros k [f' Hf']. apply ct_left0. apply lookup_insert_Some in Hf' as [[<- _]|[_ Hf']]; by eexists.
  - intros k Hs Hn. destruct (decide (k = key)) as [->|Hne]; [by rewrite lookup_insert_eq|].
    rewrite lookup_insert_ne by done. auto.
  - intros k c' t' [[<- Hf]|[_ Hk]]%lookup_insert_Some; [|by apply ct_named0].
    unfold f in Hf. destruct c as [c''|]; simplify_eq. split; [done|]. by apply Hname.
  - intros k [[<- Hf]|[Hne Hk]]%lookup_insert_Some; [unfold f in Hf; by destruct c|].
    destruct (ct_removed0 k Hk) as (j & q & t' & Hq & Hhq).
    destruct (decide (j = i)) as [->|Hji]; [|by destruct (Honly j q k t')]. simplify_eq.
  - intros j q k t' [[<- <-]|[Hne Hq]]%lookup_insert_Some Hhq; [done|].
    by destruct (Honly j q k t').
  - intros j q k t' st [[<- <-]|[_ Hq]]%lookup_insert_Some; [done|]. by eapply ct_took0.
  - intros j q [[<- <-]|[Hji Hq]]%lookup_insert_Some Hwq j' q' [[<- <-]|[_ Hq']]%lookup_insert_Some Hne;
      [done|exact (ct_lock0 i p Hp Hwp j' q' Hq' Hne)| |exact (ct_lock0 j q Hq Hwq j' q' Hq' Hne)].
    destruct (ct_lock0 i p Hp Hwp j q Hq) as [_ ?]; congruence.
  - intros j q past [[<- <-]|[Hji Hq]]%lookup_insert_Some Hr; [done|].
    destruct (ct_lock0 i p Hp Hwp j q Hq) as [Hrq _]; [done|]. unfold reads in Hrq.
    rewrite Hr in Hrq. by rewrite bool_decide_eq_true_2 in Hrq by eauto.
  - intros c'. rewrite (archived_replace _ _ _ _ Removed) by done. unfold f. destruct c as [c''|]; simpl.
    + rewrite (add_bytes_mod (past_conns_map (n_inner n)) (c'', t) c'). cbn [fst snd].
      rewrite <- wrapu_add_l, ct_sum0, wrapu_add_l. f_equal. lia.
    + by rewrite ct_sum0.
Qed.

Section balance.
Context {BS : BpfMap Z SockInfo} {BC : BpfMap ConnectionKey ConnectionStats} `{HI : HashIter}.
Context (cap : nat) `{!RoomLaws BC cap}.

Lemma counted_remove n i p h key t keys cur :
  counted n → n_pollers n !! i = Some p → took p = Some (key, t) → writes p = true →
  counted (remove_entry i h key t keys cur n).
Proof.
  intros Hct Hp Ht Hwp. unfold remove_entry.
  assert (in_hand p = None) as Hh by (by destruct p). assert (reads p = false) as Hrp by (by destruct p).
  destruct (conns n !! key) as [st|] eqn:Hk.
  2: { rewrite room_delete_absent by done. by apply (counted_poller n i p). }
  rewrite room_delete_present by eauto. pose proof Hct as [].
  assert (n_left n !! key = None) as Hfate.
  { destruct (n_left n !! key) as [f|] eqn:E; [|done]. rewrite ct_left0 in Hk; [done|eauto]. }
  assert (n_written n !! key = Some st) as Hw by (by eapply lookup_weaken).
  specialize (ct_took0 i p key t st Hp Ht Hk) as Htst.
  assert (∀ j q k t', n_pollers n !! j = Some q → in_hand q = Some (k, t') → j ≠ i → False) as Honly.
  { intros j q k t' Hq Hhq Hne. destruct (ct_lock0 i p Hp Hwp j q Hq Hne) as [_ Hwq]. by destruct q. }
  split; unfold conns; cbn [set_poller set_conns set_CONNECTIONS n_cpus c_maps CONNECTIONS n_pollers n_written n_left n_inner];
    fold (conns n).
  - etrans; [apply delete_subseteq|done].
  - intros k [f Hf]. apply lookup_delete_None. destruct (decide (k = key)) as [->|Hne]; [by left|right].
    rewrite lookup_insert_ne in Hf by done. apply ct_left0. eauto.
  - intros k Hs Hn. destruct (decide (k = key)) as [->|Hne]; [by rewrite lookup_insert_eq|].
    rewrite lookup_insert_ne by done. rewrite lookup_delete_ne in Hn by done. auto.
  - intros k c' t' [[<- Hf]|[_ Hf]]%lookup_insert_Some; [done|by apply ct_named0].
  - intros k [[<- _]|[Hne Hf]]%lookup_insert_Some.
    + exists i. eexists _, t. by rewrite lookup_insert_eq.
    + destruct (ct_removed0 k Hf) as (j & q & t' & Hq & Hhq).
      destruct (decide (j = i)) as [->|Hji]; [|by destruct (Honly j q k t')]. congruence.
  - intros j q k t' [[<- <-]|[Hne Hq]]%lookup_insert_Some Hhq; [|by destruct (Honly j q k t')].
    injection Hhq as <- <-. rewrite lookup_insert_eq. split; [done|eauto].
  - intros j q k t' st' [[<- <-]|[_ Hq]]%lookup_insert_Some; [done|]. intros Htq [_ Hst]%lookup_delete_Some.
    by eapply ct_took0.
  - intros j q [[<- <-]|[Hji Hq]]%lookup_insert_Some Hwq j' q' [[<- <-]|[_ Hq']]%lookup_insert_Some Hne;
      [done|exact (ct_lock0 i p Hp Hwp j' q' Hq' Hne)| |exact (ct_lock0 j q Hq Hwq j' q' Hq' Hne)].
    destruct (ct_lock0 i p Hp Hwp j q Hq) as [_ ?]; congruence.
  - intros j q past [[<- <-]|[_ Hq]]%lookup_insert_Some; [done|]. by eapply ct_past0.
  - intros c. rewrite archived_insert by done. by rewrite ct_sum0.
Qed.

Lemma dstep_counted n n' : dstep n n' → counted n → counted n'.
Proof.
  intros [Hst Hfresh] Hct. pose proof Hct as [].
  destruct Hst as [cp n Hk|tables n|i fd h n Hn Hw Hfd Hh|i h past keys cur key stats keys' n Hp Hk Hs
    |i h past keys cur key stats n Hp Hk Hs|i h past keys cur key stats w n Hp|i h past keys cur n Hp
    |i h keys cur n Hp Hl|i h key keys cur n Hp|i h key t keys cur n Hp|i h key t keys cur n Hp
    |i h key t w keys cur n Hp|i h cur n Hp|i p n Hp Hr].
  - by apply counted_kernel.
  - by split.
  - by eapply counted_begin.
  - by eapply counted_poller.
  - by eapply counted_poller.
  - by eapply counted_poller.
  - by eapply counted_poller.
  - by eapply counted_lock.
  - eapply counted_poller; try done. intros k t st [= <- <-] Hst. unfold throughput_of.
    by change (conns n !! key = Some st) in Hst; rewrite Hst.
  - by eapply counted_remove.
  - by eapply counted_poller.
  - eapply counted_archive; [done|done|done|done|]. eauto.
  - by eapply counted_poller.
  - eapply counted_forget; [done|done|]. by destruct p.
Qed.

(** A node whose program has just been initialised. *)
Definition Node_start (cp : Cpus) (tables : CacheHandle → CacheManager) (i : Inner) : Node :=
  {| n_cpus := cp; n_inner := i; n_tables := tables; n_pollers := ∅;
     n_written := CONNECTIONS (c_maps cp); n_left := ∅ |}.

Lemma start_counted cp tables i : past_conns_map i = ∅ → counted (Node_start cp tables i).
Proof.
  intros Hp. split; simpl; try done.
  - intros key [f Hf]. by rewrite lookup_empty in Hf.
  - intros key [st Hst] Hn. change (conns _) with (CONNECTIONS (c_maps cp)) in Hn. congruence.
  - intros c. rewrite Hp, lookup_empty. done.
Qed.

(** C10: with any number of polls in progress at once, the probes writing the map and
    the watchers changing the address tables between any two of their steps, each
    connection is archived at most once and with its last counter.  For every
    [Connection] the archive is, modulo 2^64, the sum of the counters archived for
    it; and every key the kernel has ever written is in exactly one place: in the map
    with its last entry, evicted by the kernel, in the hands of the poll that has
    removed it, archived under a connection with its role and port, or lost, because
    its addresses did not resolve when it was removed; what is archived or in hand is
    the counter of the last entry written.  A poll that is reading has the archive as
    it is now.  This holds as long as the kernel writes no key again that a poll has
    removed or is just removing, and the program is not stopped. *)
Theorem bytes_counted_once cp tables i n :
  past_conns_map i = ∅ → rtc dstep (Node_start cp tables i) n →
  (∀ c, as_u64 (default 0 (past_conns_map (n_inner n) !! c)) = as_u64 (archived_for c (n_left n))) ∧
  (∀ key st, n_written n !! key = Some st →
     match n_left n !! key with
     | None => conns n !! key = Some st
     | Some f => conns n !! key = None ∧
         match f with
         | Evicted | Unresolved => True
         | Removed => ∃ i p, n_pollers n !! i = Some p ∧ in_hand p = Some (key, bytes_sent st)
         | Archived c t => t = bytes_sent st ∧ ∃ w1 w2, connection_of key w1 w2 = Some c
         end
     end) ∧
  (∀ key, is_Some (conns n !! key) → is_Some (n_written n !! key)) ∧
  (∀ i p past, n_pollers n !! i = Some p → reading p = Some past → past = past_conns_map (n_inner n)).
Proof.
  intros Hp Hr. assert (counted n) as [].
  { pose proof (start_counted cp tables i Hp) as Hct. revert Hct.
    induction Hr as [n|n1 n2 n3 Hstep _ IH]; [done|]. intros Hct. by eapply IH, dstep_counted. }
  split_and!; [done| |intros key [st Hst]; exists st; by eapply lookup_weaken|done].
  intros key st Hst. destruct (n_left n !! key) as [f|] eqn:Hf.
  - split; [eauto|]. destruct f as [| |c t|]; try done.
    + destruct (ct_removed0 key Hf) as (j & p & t & Hj & Hh). exists j, p. split; [done|].
      destruct (ct_hand0 j p key t Hj Hh) as [_ (st' & Hst' & ->)]. congruence.
    + destruct (ct_named0 key c t Hf) as [(st' & Hst' & ->) Hn]. split; [congruence|done].
  - destruct (conns n !! key) as [st'|] eqn:Hk.
    + pose proof (lookup_weaken _ _ _ _ Hk ct_sub0). congruence.
    + destruct (ct_cover0 key) as [f Hf']; [eauto|done|congruence].
Qed.
End balance.

(** ** Without interruption, the steps are [poll] *)

(** The state [poll] works on, seen from a node whose map is the one at [fd]. *)
Definition views (fd : MapFd) (s : SM) (n : Node) : Prop :=
  inner s = n_inner n ∧ kmaps s fd = conns n.

Section uninterrupted.
Context {BS : BpfMap Z SockInfo} {BC : BpfMap ConnectionKey ConnectionStats} `{HI : HashIter}.
Context (aya_iter : gmap ConnectionKey ConnectionStats →
                    list (result Z (ConnectionKey * ConnectionStats))).
Context (caches : CacheHandle → CacheManager).

Lemma set_poller_twice i p q n : set_poller i q (set_poller i p n) = set_poller i q n.
Proof. unfold set_poller. simpl. by rewrite insert_insert_eq. Qed.

Lemma set_poller_archive i p key t c n :
  set_poller i p (archive_entry key t c n) = archive_entry key t c (set_poller i p n).
Proof. by destruct c. Qed.

(** Removing one entry under the write lock. *)
Lemma remove_steps i fd h key keys cur s n :
  current_conns_map (inner s) = Some fd → views fd s n → n_tables n = caches →
  ∃ s' n', ignore_fail (handle_inactive_connection (caches h) key) s = (Ok (), s') ∧
    views fd s' n' ∧ n_tables n' = caches ∧ current_conns_map (inner s') = Some fd ∧
    rtc nstep (set_poller i (PWrite h (key :: keys) cur) n) (set_poller i (PWrite h keys cur) n').
Proof.
  intros Hfd [Hi Hk] Ht. unfold ignore_fail, handle_inactive_connection. rewrite Hfd, Hk.
  assert (∀ n', nstep (set_poller i (PTook h key (throughput_of (conns n) key) keys cur) n) n' →
    rtc nstep (set_poller i (PWrite h (key :: keys) cur) n) n') as Hget.
  { intros n' Hst. eapply rtc_l; [apply (n_get i h key keys cur), lookup_insert_eq|].
    rewrite set_poller_twice. by apply rtc_once. }
  pose proof (n_remove i h key (throughput_of (conns n) key) keys cur _ (lookup_insert_eq _ _ _) : nstep
    (set_poller i (PTook h key (throughput_of (conns n) key) keys cur) n) _) as Hrem.
  unfold remove_entry in Hrem. change (conns (set_poller i _ n)) with (conns n) in Hrem.
  fold (throughput_of (conns n) key). destruct (bpf_delete (conns n) key) as [m|e].
  2: { rewrite set_poller_twice in Hrem. eexists s, n. split_and!; [done|by split|done|done|by apply Hget]. }
  set (n1 := {| n_cpus := set_conns m (n_cpus n); n_inner := n_inner n; n_tables := n_tables n;
                n_pollers := n_pollers n; n_written := n_written n; n_left := <[key := Removed]> (n_left n) |}).
  assert (nstep (set_poller i (PTook h key (throughput_of (conns n) key) keys cur) n)
    (set_poller i (PGone h key (throughput_of (conns n) key) keys cur) n1)) as Hrem1.
  { revert Hrem. unfold set_poller. simpl. by rewrite insert_insert_eq. }
  assert (∀ c, connection_of key (resolve_ip (caches h) (src_addr key)) (resolve_ip (caches h) (dest_addr key)) = c →
    rtc nstep (set_poller i (PWrite h (key :: keys) cur) n)
      (set_poller i (PWrite h keys cur) (archive_entry key (throughput_of (conns n) key) c n1))) as Hrun.
  { intros c Hc. etrans; [by apply Hget|].
    eapply rtc_l; [eapply n_name, lookup_insert_eq|]. rewrite set_poller_twice.
    eapply rtc_l; [eapply n_archive, lookup_insert_eq|].
    rewrite set_poller_archive, set_poller_twice. simpl. rewrite Ht, Hc, <- set_poller_archive. apply rtc_refl. }
  destruct (build_connection (caches h) key) as [c|e] eqn:Hb.
  - apply build_connection_of in Hb. eexists _, (archive_entry key (throughput_of (conns n) key) (Some c) n1).
    split_and!; [done| |done|done|by apply Hrun]. split; simpl; [by rewrite Hi|by rewrite decide_True].
  - eexists _, (archive_entry key (throughput_of (conns n) key) None n1).
    split_and!; [done| |done|done|apply Hrun].
    + split; simpl; [done|by rewrite decide_True].
    + destruct (connection_of _ _ _) as [c|] eqn:Hc; [|done]. apply build_connection_of in Hc. congruence.
Qed.

Lemma write_steps i fd h keys cur s n :
  current_conns_map (inner s) = Some fd → views fd s n → n_tables n = caches →
  ∃ s' n', poll_write (caches h) keys s = (Ok (), s') ∧ views fd s' n' ∧
    rtc nstep (set_poller i (PWrite h keys cur) n) (set_poller i (PWrite h [] cur) n').
Proof.
  revert s n. induction keys as [|key keys IH]; intros s n Hfd Hv Ht.
  - exists s, n. split_and!; [done..|apply rtc_refl].
  - destruct (remove_steps i fd h key keys cur s n Hfd Hv Ht) as (s1 & n1 & Hrun & Hv1 & Ht1 & Hfd1 & Hr1).
    destruct (IH s1 n1 Hfd1 Hv1 Ht1) as (s' & n' & Hw & Hv' & Hr). exists s', n'. split_and!; [|done|by etrans].
    cbn [poll_write]. unfold mbind, M_bind. by rewrite Hrun.
Qed.

(** One item of the iterator, its two addresses looked up in the same tables. *)
Lemma item_steps i h past key st keys cur keys' cur' n :
  conns n !! key = Some st → n_tables n = caches →
  poll_items (caches h) [Ok (key, st)] keys cur = Ok (keys', cur') →
  rtc nstep (set_poller i (PRead h past keys cur) n) (set_poller i (PRead h past keys' cur') n).
Proof.
  intros Hk Ht Hit. destruct (item_skipped key st keys) as [ks|] eqn:Hs.
  - assert (keys' = ks ∧ cur' = cur) as [-> ->].
    { unfold item_skipped in Hs. simpl in Hit. repeat case_match; by simplify_eq/=. }
    eapply rtc_l; [by eapply (n_skip i h past keys cur key st ks), Hs; [apply lookup_insert_eq|]|].
    rewrite set_poller_twice. apply rtc_refl.
  - eapply rtc_l; [by eapply (n_client i h past keys cur key st), Hs; [apply lookup_insert_eq|]|].
    rewrite set_poller_twice. eapply rtc_l; [eapply n_server, lookup_insert_eq|].
    rewrite set_poller_twice. simpl. rewrite Ht.
    assert (keys' = keys ∧ cur' = add_named (connection_of key (resolve_ip (caches h) (src_addr key))
      (resolve_ip (caches h) (dest_addr key))) (bytes_sent st) cur) as [-> ->]; [|apply rtc_refl].
    unfold item_skipped in Hs. simpl in Hit. destruct (negb (is_active st =? 1)); [done|].
    destruct (_ || _); [done|]. destruct (_ =? _); [done|].
    destruct (build_connection (caches h) key) as [c|e] eqn:Hb.
    + apply build_connection_of in Hb. rewrite Hb. by simplify_eq/=.
    + destruct (connection_of _ _ _) as [c|] eqn:Hc; [|by simplify_eq/=].
      apply build_connection_of in Hc. congruence.
Qed.

Lemma read_steps i h past l keys cur keys' cur' n :
  (∀ p, p ∈ l → conns n !! p.1 = Some p.2) → n_tables n = caches →
  poll_items (caches h) (Ok <$> l) keys cur = Ok (keys', cur') →
  rtc nstep (set_poller i (PRead h past keys cur) n) (set_poller i (PRead h past keys' cur') n).
Proof.
  revert keys cur. induction l as [|[key st] l IH]; intros keys cur Hl Ht.
  - intros [= <- <-]. apply rtc_refl.
  - rewrite fmap_cons.
    assert (∃ k1 c1, poll_items (caches h) [Ok (key, st)] keys cur = Ok (k1, c1) ∧
              poll_items (caches h) (Ok (key, st) :: (Ok <$> l)) keys cur = poll_items (caches h) (Ok <$> l) k1 c1)
      as (k1 & c1 & E1 & ->) by (simpl; repeat case_match; eauto).
    intros Hrest. etrans; [eapply item_steps; [apply (Hl (key, st)); by left|done|exact E1]|].
    apply IH; [|done..]. intros p Hp. apply Hl. by right.
Qed.

(** A poll whose steps nothing interrupts returns what [poll] returns and leaves
    the program and the map as [poll] does. *)
Lemma poll_uninterrupted i fd h s n :
  attached s fd h → aya_lists aya_iter (kmaps s fd) → views fd s n →
  n_pollers n = ∅ → n_tables n = caches →
  ∃ m s' n', poll aya_iter caches s = (Ok m, s') ∧ views fd s' n' ∧
    rtc nstep n (set_poller i (PDone m) n').
Proof.
  intros [Hfd Hh] (l & Hit & Hl) Hv Hp Ht. pose proof Hv as [Hi Hk].
  set (keys := (filter (λ p, ¬ active p) l).*1).
  set (cur := foldl add_bytes (foldl add_bytes ∅ (omap (reported (caches h)) l))
                (hm_iter (past_conns_map (inner s)))).
  destruct (write_steps i fd h keys cur s n Hfd Hv Ht) as (s' & n' & Hw & Hv' & Hr).
  exists cur, s', n'. split_and!; [|done|].
  - unfold poll, poll_read, mbind, result_bind. rewrite Hfd, Hh. cbn [ok_or].
    rewrite Hit, poll_items_ok. unfold M_bind. cbn [app]. fold keys cur. by rewrite Hw.
  - eapply rtc_l; [apply (n_begin i fd h)|].
    { by rewrite Hp, lookup_empty. } { rewrite Hp. apply map_Forall_empty. }
    { congruence. } { congruence. }
    etrans.
    { eapply (read_steps i h _ l [] ∅ keys); [|done|by rewrite poll_items_ok].
      intros [k st] Hin. rewrite Hl in Hin. apply elem_of_map_to_list in Hin. simpl. congruence. }
    eapply rtc_l; [by apply n_release, lookup_insert_eq|]. rewrite set_poller_twice, <- Hi. fold cur.
    eapply rtc_l; [apply n_lock; [apply lookup_insert_eq|]|].
    { simpl. rewrite Hp. apply map_Forall_insert_2; [done|apply map_Forall_empty]. }
    rewrite set_poller_twice. etrans; [exact Hr|].
    eapply rtc_l; [by apply (n_return i h), lookup_insert_eq|].
    rewrite set_poller_twice. apply rtc_refl.
Qed.
End uninterrupted.

(** ** What is counted twice *)

Section twice.
Context {BS : BpfMap Z SockInfo} {BC : BpfMap ConnectionKey ConnectionStats}.
Context `{!LruLaws BS} `{!LruLaws BC} `{!HashLaws BC} `{HI : HashIter}.
Context (aya_iter : gmap ConnectionKey ConnectionStats → list (result Z (ConnectionKey * ConnectionStats))).
Context (caches : CacheHandle → CacheManager) (Hiter : ∀ m, aya_lists aya_iter m).

(** A poll of one active entry and one archived sum of the same pair. *)
Lemma poll_active_and_past s fd h key st c past :
  attached s fd h → kmaps s fd = {[ key := st ]} → in_u 64 (bytes_sent st) →
  reported (caches h) (key, st) = Some (c, bytes_sent st) →
  past_conns_map (inner s) = {[ c := past ]} → in_u 64 past →
  ∃ s', poll aya_iter caches s = (Ok {[ c := as_u64 (past + bytes_sent st) ]}, s') ∧
    inner s' = inner s ∧ kmaps s' fd = kmaps s fd.
Proof.
  intros Hat Hk Hst Hrep Hpast Hp.
  assert (active (key, st)) as Hact.
  { unfold reported in Hrep. simpl in Hrep. unfold active. simpl.
    destruct (Z.eqb_spec (is_active st) 1); [done|]. by simpl in Hrep. }
  destruct (poll_run aya_iter caches s fd h Hat (Hiter _)) as (l & s' & Hl & Hrun & Hin & Hkm & _).
  rewrite Hk, map_to_list_singleton in Hl. apply Permutation_singleton_r in Hl as ->.
  exists s'. cbn [omap list_omap] in Hrun, Hin. rewrite Hrep in Hrun. cbn [foldl] in Hrun. split_and!.
  - rewrite Hrun. do 2 f_equal. rewrite Hpast. apply map_eq. intros c'.
    rewrite foldl_add_bytes_perm with (l' := map_to_list {[ c := past ]}) by
      (apply hm_iter_perm || (apply past_ok_list; by apply map_Forall_singleton)).
    rewrite map_to_list_singleton. cbn [fmap list_fmap fst]. rewrite sum_for_cons. simpl.
    unfold add_bytes. simpl. rewrite lookup_empty. destruct (decide (c' = c)) as [->|Hne].
    + rewrite (decide_True (P := c ∈ _)) by set_solver. rewrite decide_True, !lookup_singleton_eq by done.
      simpl. do 2 f_equal. rewrite lookup_insert_eq. unfold sum_for. simpl. lia.
    + rewrite decide_False by set_solver. by rewrite lookup_insert_ne, lookup_singleton_ne.
  - rewrite Hin. rewrite filter_cons, decide_False by tauto. simpl. by destruct (inner s).
  - rewrite Hkm, Hk. apply map_filter_singleton_True. done.
Qed.
Lemma parse_sent_range k sk ck st : kernel_ok k → parse_sock_data k sk = Ok (ck, st) → in_u 64 (bytes_sent st).
Proof.
  intros [Hs _]. unfold parse_sock_data, mbind, result_bind.
  repeat case_match; intros; simplify_eq/=. eauto.
Qed.

(** Bytes that a poll archives from an entry it finds under the write lock. *)
Lemma poll_write_one s fd h key st c :
  attached s fd h → kmaps s fd = {[ key := st ]} → past_conns_map (inner s) = ∅ →
  archived (caches h) (key, st) = Some (c, bytes_sent st) →
  ∃ s', poll_write (caches h) [key] s = (Ok (), s') ∧ attached s' fd h ∧ kmaps s' fd = ∅ ∧
    past_conns_map (inner s') = {[ c := bytes_sent st ]}.
Proof.
  intros [Hfd Hh] Hk Hp Ha.
  destruct (poll_write_ok (caches h) [(key, st)] s fd) as (s' & Hw & Hin & Hkm & _); [done|apply NoDup_singleton| |].
  - intros p ->%list_elem_of_singleton. rewrite Hk. apply lookup_singleton_eq.
  - exists s'. split_and!; [done| | |].
    + split; by rewrite Hin.
    + rewrite Hkm, Hk. simpl. apply delete_singleton_eq.
    + rewrite Hin, Hp. cbn [omap list_omap]. rewrite Ha. reflexivity.
Qed.

Definition accepted_info (k : Kernel) : SockInfo :=
  {| si_id := get_unique_id k; si_pid := 0; si_is_active := 1; si_role := CONNECTION_ROLE_SERVER |}.

(** C19: the first bytes of an accepted connection can be counted twice.  SYN_RECV
    records the connection as inactive; a poll that has seen it so and is between
    its two locks when the first data arrives archives the bytes of the data event
    and removes the entry; the next data event records the connection again with
    its whole count, and from then on the polls report the sum of both. *)
Theorem accepted_connection_counted_twice k0 k1 k2 sk ck st0 st1 st2 ms1 ms2 ms3 r0 r1 r2 s fd h c :
  parse_sock_data k0 sk = Ok (ck, st0) → parse_sock_data k1 sk = Ok (ck, st1) →
  parse_sock_data k2 sk = Ok (ck, st2) → kernel_ok k1 → kernel_ok k2 → dest_addr ck ≠ 0 →
  reported (caches h) (with_info ck (accepted_info k0), with_active st2 1) = Some (c, bytes_sent st2) →
  attached s fd h → past_conns_map (inner s) = ∅ → kmaps s fd = CONNECTIONS ms1 →
  try_state_tracer k0 (Ok sk) (Ok TCP_SYN_RECV) Maps_empty = (Ok r0, ms1) →
  try_sock_conn_tracer k1 (Some sk) ms1 = (Ok r1, ms2) →
  ∃ keys cur s1,
    poll_read aya_iter caches s = Ok (caches h, keys, cur) ∧
    poll_write (caches h) keys (set_kmap fd (CONNECTIONS ms2) s) = (Ok (), s1) ∧
    (try_sock_conn_tracer k2 (Some sk) (set_CONNECTIONS (kmaps s1 fd) ms2) = (Ok r2, ms3) →
     ∃ s', poll aya_iter caches (set_kmap fd (CONNECTIONS ms3) s1) =
       (Ok {[ c := as_u64 (bytes_sent st1 + bytes_sent st2) ]}, s')).
Proof.
  intros Hp0 Hp1 Hp2 Hk1 Hk2 Hd Hrep Hat Hpast Hm H0 H1.
  set (i := accepted_info k0) in *. set (key := with_info ck i) in *.
  change (handle_tcp_syn_recv k0 sk Maps_empty = (Ok r0, ms1)) in H0.
  pose proof (syn_recv_only _ _ _ _ _ _ _ Hp0 Hd (λ k _, lookup_empty k) H0) as Hon.
  apply (syn_recv_ok _ _ _ _ _ _ _ Hp0 Hd) in H0 as [Hc Hs1]. fold i in Hon, Hc, Hs1. fold key in Hon, Hc.
  assert (CONNECTIONS ms1 = {[ key := with_active st0 0 ]}) as Hms1.
  { apply map_eq. intros k. destruct (decide (k = key)) as [->|Hne].
    - by rewrite lookup_singleton_eq. - rewrite lookup_singleton_ne by done. by apply Hon. }
  pose proof (data_only _ _ _ _ _ _ _ _ Hp1 Hs1 eq_refl Hd Hon H1) as Hms2.
  assert (SOCKETS ms2 !! sk = Some i) as Hs2.
  { apply (data_found _ _ _ _ _ _ _ _ Hp1 Hs1 eq_refl) in H1 as [_ ->]; [done|].
    by rewrite (proj2 (Z.eqb_neq _ _) Hd). }
  assert (build_connection (caches h) key = Ok c) as Hbc.
  { unfold reported in Hrep. simpl in Hrep. by repeat case_match; simplify_eq. }
  pose proof (parse_sent_range _ _ _ _ Hk1 Hp1) as Hu1. pose proof (parse_sent_range _ _ _ _ Hk2 Hp2) as Hu2.
  destruct (poll_write_one (set_kmap fd (CONNECTIONS ms2) s) fd h key (with_active st1 1) c)
    as (s1 & Hw & Hat1 & Hk1' & Hpast1); [done| |done| |].
  { simpl. by rewrite decide_True. } { unfold archived. simpl. by rewrite Hbc. }
  destruct (Hiter (kmaps s fd)) as (l & Hit & Hl).
  rewrite Hm, Hms1, map_to_list_singleton in Hl. apply Permutation_singleton_r in Hl as ->.
  eexists [key], _, s1. split_and!; [|done|].
  - unfold poll_read, mbind, result_bind. destruct Hat as [-> ->]. cbn [ok_or].
    rewrite Hit, poll_items_ok. reflexivity.
  - intros H2.
    assert (CONNECTIONS ms3 = {[ key := with_active st2 1 ]}) as Hms3.
    { refine (data_only _ _ _ _ i _ _ _ Hp2 _ _ Hd _ H2); [done|done|].
      intros k' _. simpl. by rewrite Hk1', lookup_empty. }
    destruct (poll_active_and_past (set_kmap fd (CONNECTIONS ms3) s1) fd h key (with_active st2 1) c (bytes_sent st1))
      as (s' & Hrun & _); [done| |done|done|done|done|eauto].
    simpl. by rewrite decide_True.
Qed.
Lemma build_connection_role cm ck i i' : si_role i' = si_role i →
  build_connection cm (with_info ck i') = build_connection cm (with_info ck i).
Proof. intros Hr. unfold build_connection, with_info. cbn [src_addr dest_addr ck_role dest_port src_port]. by rewrite Hr. Qed.

Lemma close_untracked k sk ck st s r s' :
  parse_sock_data k sk = Ok (ck, st) → SOCKETS s !! sk = None →
  handle_tcp_close k sk s = (Ok r, s') →
  CONNECTIONS s' = <[with_info ck {| si_id := get_unique_id k; si_pid := 0; si_is_active := 0;
                                     si_role := get_sock_role k sk |} := with_active st 0]> (CONNECTIONS s).
Proof.
  intros Hp Hn Hrun. unfold handle_tcp_close in Hrun. run_inv. rewrite Hn in *. run_inv.
  match goal with H : connections_insert _ _ _ = _ |- _ => unfold connections_insert in H; rename H into Hi end.
  destruct (bpf_update _ _ _) as [m|] eqn:Hu; simplify_eq/=. by apply hash_update_ok in Hu.
Qed.

(** The first poll after the close archives the closed entry. *)
Lemma poll_archives_other s fd h key key' st st' c :
  attached s fd h → key' ≠ key → kmaps s fd = <[key' := with_active st' 0]> {[ key := with_active st 1 ]} →
  past_conns_map (inner s) = ∅ → build_connection (caches h) key' = Ok c →
  ∃ m s', poll aya_iter caches s = (Ok m, s') ∧ attached s' fd h ∧
    kmaps s' fd = {[ key := with_active st 1 ]} ∧ past_conns_map (inner s') = {[ c := bytes_sent st' ]}.
Proof.
  intros Hat Hne Hk Hp Hb.
  destruct (poll_run aya_iter caches s fd h Hat (Hiter _)) as (l & s' & Hl & Hrun & Hin & Hkm & _).
  eexists _, s'. split_and!; [exact Hrun| | |].
  - destruct Hat. split; by rewrite Hin.
  - rewrite Hkm, Hk, map_filter_insert_False by (unfold active; simpl; lia).
    rewrite delete_id by (by rewrite lookup_singleton_ne). by apply map_filter_singleton_True.
  - rewrite Hin, Hp. simpl.
    assert (filter (λ p, ¬ active p) l = [(key', with_active st' 0)]) as ->.
    { apply Permutation_singleton_r. rewrite Hl, Hk, map_to_list_insert, map_to_list_singleton
        by (by rewrite lookup_singleton_ne).
      rewrite filter_cons, decide_True, filter_cons, decide_False; [done|..];
        unfold active; simpl; [tauto|lia]. }
    cbn [omap list_omap]. unfold archived. simpl. by rewrite Hb.
Qed.

(** C20: a connection whose socket has been evicted from the LRU map is counted twice
    for ever.  Its close finds no identity and marks a new key inactive; the entry
    under the old key stays active, and every poll from the second on reports its
    bytes on top of the archived ones of the new key. *)
Theorem evicted_socket_counted_twice k sk ck st1 st2 i ms ms' r s fd h c :
  parse_sock_data k sk = Ok (ck, st2) → kernel_ok k → in_u 64 (bytes_sent st1) →
  SOCKETS ms !! sk = None → CONNECTIONS ms = {[ with_info ck i := with_active st1 1 ]} →
  get_unique_id k ≠ si_id i → get_sock_role k sk = si_role i →
  reported (caches h) (with_info ck i, with_active st1 1) = Some (c, bytes_sent st1) →
  try_state_tracer k (Ok sk) (Ok TCP_CLOSE) ms = (Ok r, ms') →
  attached s fd h → past_conns_map (inner s) = ∅ → kmaps s fd = CONNECTIONS ms' →
  ∃ m s1 s2, poll aya_iter caches s = (Ok m, s1) ∧
    poll aya_iter caches s1 = (Ok {[ c := as_u64 (bytes_sent st2 + bytes_sent st1) ]}, s2) ∧
    inner s2 = inner s1 ∧ kmaps s2 fd = kmaps s1 fd.
Proof.
  intros Hp Hk Hu1 Hn Hms Hid Hrole Hrep Hrun Hat Hpast Hkm.
  change (handle_tcp_close k sk ms = (Ok r, ms')) in Hrun.
  pose proof (close_untracked _ _ _ _ _ _ _ Hp Hn Hrun) as Hms'. rewrite Hms in Hms'.
  pose proof (parse_sent_range _ _ _ _ Hk Hp) as Hu2.
  assert (build_connection (caches h) (with_info ck i) = Ok c) as Hbc.
  { unfold reported in Hrep. simpl in Hrep. by repeat case_match; simplify_eq. }
  rewrite <- (build_connection_role (caches h) ck i
    {| si_id := get_unique_id k; si_pid := 0; si_is_active := 0; si_role := get_sock_role k sk |}) in Hbc by done.
  rewrite Hms' in Hkm.
  edestruct (poll_archives_other s fd h) as (m & s1 & Hrun1 & Hat1 & Hkm1 & Hpast1);
    [exact Hat| |exact Hkm|exact Hpast|exact Hbc|]; [by intros ?%(f_equal ck_id)|].
  destruct (poll_active_and_past s1 fd h _ _ c _ Hat1 Hkm1 Hu1 Hrep Hpast1 Hu2) as (s2 & Hrun2 & Hin2 & Hkm2).
  exists m, s1, s2. split_and!; done.
Qed.
End twice.

(** ** Witnesses *)

Section witnesses.
#[local] Existing Instance ex_BS.
#[local] Existing Instance ex_BC.
#[local] Existing Instance hm_iter_default.
Definition pc_tables : CacheHandle → CacheManager := λ _, ex_tables.

(** A closed connection that a poll archives, one that it removes while its addresses are
    unknown, and an active one. *)
Definition pc_key : ConnectionKey := ex_ckey 5.
Definition pc_map : gmap ConnectionKey ConnectionStats := <[pc_key := ex_cstats 7 0]> ex_map.
Definition pc_start : Node := Node_start (Cpus_idle {| SOCKETS := ∅; CONNECTIONS := pc_map |}) pc_tables (inner (ex_sm ∅)).
Definition pc_cur : gmap Connection Z := foldl add_bytes ∅ (hm_iter ∅).
(** The removal of the first key, up to its archive. *)
Definition pc_took1 : Node := set_poller 0 (PTook 0%nat (ex_ckey 2) 40 [pc_key] pc_cur) pc_start.
Definition pc_gone1 : Node := remove_entry 0 0%nat (ex_ckey 2) 40 [pc_key] pc_cur pc_took1.
Definition pc_named1 : Node :=
  set_poller 0 (PNamed 0%nat (ex_ckey 2) 40 (resolve_ip ex_tables 167772161) [pc_key] pc_cur) pc_gone1.
Definition pc_past1 : Node := set_poller 0 (PWrite 0%nat [pc_key] pc_cur)
  (archive_entry (ex_ckey 2) 40 (connection_of (ex_ckey 2) (resolve_ip ex_tables 167772161) (resolve_ip ex_tables 167772162)) pc_named1).
(** The removal of the second; the tables become empty before its addresses are looked up. *)
Definition pc_took2 : Node := set_poller 0 (PTook 0%nat pc_key 7 [] pc_cur) pc_past1.
Definition pc_gone2 : Node := remove_entry 0 0%nat pc_key 7 [] pc_cur pc_took2.
Definition pc_watch : Node :=
  {| n_cpus := n_cpus pc_gone2; n_inner := n_inner pc_gone2; n_tables := λ _, ex_cm; n_pollers := n_pollers pc_gone2;
     n_written := n_written pc_gone2; n_left := n_left pc_gone2 |}.
Definition pc_named2 : Node := set_poller 0 (PNamed 0%nat pc_key 7 None [] pc_cur) pc_watch.
Definition pc_end : Node := set_poller 0 (PWrite 0%nat [] pc_cur) (archive_entry pc_key 7 None pc_named2).

Lemma dstep_poll n n' : nstep n n' → conns n' ⊆ conns n → dstep n n'.
Proof.
  intros Hst Hsub. split; [done|]. intros key st Hk Hne. by destruct (Hne (lookup_weaken _ _ _ _ Hk Hsub)).
Qed.

(** Up to the write lock. *)
Lemma pc_begin : rtc dstep pc_start (set_poller 0 (PWrite 0%nat [ex_ckey 2; pc_key] pc_cur) pc_start).
Proof.
  eapply rtc_l; [apply dstep_poll|].
  { by apply (n_begin 0%nat 3 0%nat); [|apply map_Forall_empty|..]. } { done. }
  eapply rtc_l; [apply dstep_poll|].
  { eapply (n_skip 0%nat 0%nat ∅ [] ∅ (ex_ckey 2) (ex_cstats 40 0)); [apply lookup_insert_eq|reflexivity..]. } { done. }
  rewrite set_poller_twice. eapply rtc_l; [apply dstep_poll|].
  { eapply (n_skip 0%nat 0%nat ∅ _ ∅ pc_key (ex_cstats 7 0)); [apply lookup_insert_eq|reflexivity..]. } { done. }
  rewrite set_poller_twice. eapply rtc_l; [apply dstep_poll|]. { apply n_release, lookup_insert_eq. } { done. }
  rewrite set_poller_twice. eapply rtc_l; [apply dstep_poll|].
  { apply n_lock; [apply lookup_insert_eq|]. by apply map_Forall_insert_2; [|apply map_Forall_empty]. } { done. }
  rewrite set_poller_twice. apply rtc_refl.
Qed.

Lemma pc_run : rtc dstep pc_start pc_end.
Proof.
  etrans; [exact pc_begin|].
  eapply rtc_l; [apply dstep_poll; [apply n_get, lookup_insert_eq|done]|]. rewrite set_poller_twice.
  change (set_poller 0 _ pc_start) with pc_took1.
  eapply rtc_l; [apply dstep_poll; [apply n_remove, lookup_insert_eq|apply delete_subseteq]|]. fold pc_gone1.
  eapply rtc_l; [apply dstep_poll; [apply (n_name 0%nat 0%nat (ex_ckey 2) 40 [pc_key] pc_cur); reflexivity|done]|].
  change (set_poller 0 _ pc_gone1) with pc_named1.
  eapply rtc_l; [apply dstep_poll; [apply n_archive, lookup_insert_eq|done]|]. 
  change (set_poller 0 _ (archive_entry _ _ _ _)) with pc_past1.
  eapply rtc_l; [apply dstep_poll; [apply n_get, lookup_insert_eq|done]|].
  change (set_poller 0 _ pc_past1) with pc_took2.
  eapply rtc_l; [apply dstep_poll; [apply n_remove, lookup_insert_eq|apply delete_subseteq]|]. fold pc_gone2.
  eapply rtc_l; [apply dstep_poll; [apply (n_watch (λ _, ex_cm))|done]|]. fold pc_watch.
  eapply rtc_l; [apply dstep_poll; [apply (n_name 0%nat 0%nat pc_key 7 [] pc_cur); reflexivity|done]|].
  change (set_poller 0 _ pc_watch) with pc_named2.
  eapply rtc_l; [apply dstep_poll; [apply n_archive, lookup_insert_eq|done]|]. apply rtc_refl.
Qed.

(** 40 bytes are archived, 7 are lost, and the active connection is in the map. *)
Lemma bytes_counted_once_witness :
  past_conns_map (n_inner pc_end) !! ex_conn = Some 40 ∧ as_u64 (archived_for ex_conn (n_left pc_end)) = 40 ∧
  n_left pc_end !! pc_key = Some Unresolved ∧ conns pc_end !! pc_key = None ∧
  conns pc_end !! ex_ckey 1 = Some (ex_cstats 100 1).
Proof.
  destruct (bytes_counted_once 16 (RoomLaws0 := bounded_hash_room 16)
    (Cpus_idle {| SOCKETS := ∅; CONNECTIONS := pc_map |}) pc_tables (inner (ex_sm ∅)) pc_end eq_refl pc_run)
    as (Hsum & Hplace & _).
  assert (past_conns_map (n_inner pc_end) !! ex_conn = Some 40) as Hpast by (vm_compute; reflexivity).
  assert (n_left pc_end !! pc_key = Some Unresolved) as Hlost by (vm_compute; reflexivity).
  specialize (Hsum ex_conn). rewrite Hpast in Hsum.
  pose proof (Hplace pc_key (ex_cstats 7 0) ltac:(vm_compute; reflexivity)) as H5. rewrite Hlost in H5.
  pose proof (Hplace (ex_ckey 1) (ex_cstats 100 1) ltac:(vm_compute; reflexivity)) as H1.
  assert (n_left pc_end !! ex_ckey 1 = None) as Hno by (vm_compute; reflexivity). rewrite Hno in H1.
  split; [exact Hpast|]. split; [exact (eq_sym Hsum)|]. split; [exact Hlost|]. split; [exact (proj1 H5)|exact H1].
Defined.

Definition tw_key : ConnectionKey := with_info ConnTracer.ex_key (accepted_info (ex_kernel 0)).
Definition tw_conn : Connection := {|
  client := ex_wl "db" "StatefulSet"; server := ex_wl "cart" "Deployment";
  role := CONNECTION_ROLE_SERVER; server_port := 80 |}.
Definition tw_keys : list ConnectionKey :=
  match poll_read ex_iter pc_tables (ex_sm (CONNECTIONS ex_r1)) with Ok (_, keys, _) => keys | Err _ => [] end.
Definition tw_sm : SM :=
  (poll_write (pc_tables 0%nat) tw_keys (set_kmap 3 (CONNECTIONS ex_r2) (ex_sm (CONNECTIONS ex_r1)))).2.
Definition tw_ms3 : Maps :=
  (try_sock_conn_tracer (ex_kernel 250) (Some 7) (set_CONNECTIONS (kmaps tw_sm 3) ex_r2)).2.

Lemma tw_parse :
  (parse_sock_data (ex_kernel 0) 7 = Ok (ConnTracer.ex_key, ex_stats 0) ∧
   parse_sock_data (ex_kernel 100) 7 = Ok (ConnTracer.ex_key, ex_stats 100) ∧
   parse_sock_data (ex_kernel 250) 7 = Ok (ConnTracer.ex_key, ex_stats 250)) ∧
  dest_addr ConnTracer.ex_key ≠ 0 ∧
  reported (pc_tables 0%nat) (tw_key, with_active (ex_stats 250) 1) = Some (tw_conn, 250).
Proof. split_and!; vm_compute; [reflexivity..|discriminate|reflexivity]. Qed.

Lemma tw_runs :
  try_state_tracer (ex_kernel 0) (Ok 7) (Ok TCP_SYN_RECV) Maps_empty = (Ok 0, ex_r1) ∧
  try_sock_conn_tracer (ex_kernel 100) (Some 7) ex_r1 = (Ok 0, ex_r2) ∧
  try_sock_conn_tracer (ex_kernel 250) (Some 7) (set_CONNECTIONS (kmaps tw_sm 3) ex_r2) = (Ok 0, tw_ms3).
Proof.
  split_and!; refine (eq_trans (surjective_pairing _) (f_equal (λ r, (r, _)) _)); vm_compute; reflexivity.
Qed.

Lemma tw_sum : as_u64 (100 + 250) = 350.
Proof. reflexivity. Qed.

(** 100 bytes at the first data event and 250 at the second are reported as 350. *)
Lemma accepted_counted_twice_witness :
  ∃ s s', poll ex_iter pc_tables s = (Ok {[ tw_conn := 350 ]}, s').
Proof.
  destruct tw_parse as ((Hp0 & Hp1 & Hp2) & Hd & Hrep). destruct tw_runs as (H0 & H1 & H2).
  destruct (accepted_connection_counted_twice (LruLaws0 := bounded_hash_lru 16) (LruLaws1 := bounded_hash_lru 16)
    (HashLaws0 := bounded_hash_laws 16) ex_iter pc_tables ex_iter_lists
    (ex_kernel 0) (ex_kernel 100) (ex_kernel 250) 7 ConnTracer.ex_key (ex_stats 0) (ex_stats 100) (ex_stats 250)
    ex_r1 ex_r2 tw_ms3 0 0 0 (ex_sm (CONNECTIONS ex_r1)) 3 0%nat tw_conn
    Hp0 Hp1 Hp2 (ex_kernel_ok 100) (ex_kernel_ok 250) Hd Hrep (ex_attached _) eq_refl eq_refl H0 H1)
    as (keys & cur & s1 & Hr & Hw & H).
  assert (keys = tw_keys) as Hk by (unfold tw_keys; by rewrite Hr).
  rewrite Hk in Hw. apply (f_equal snd) in Hw. fold tw_sm in Hw. cbn [snd] in Hw. rewrite <- Hw in H.
  destruct (H H2) as [s' Hs]. cbn [bytes_sent ex_stats] in Hs. rewrite tw_sum in Hs. eauto.
Defined.

Definition ev_info : SockInfo :=
  {| si_id := 1; si_pid := 0; si_is_active := 1; si_role := CONNECTION_ROLE_CLIENT |}.
Definition ev_ms : Maps :=
  {| SOCKETS := ∅; CONNECTIONS := {[ with_info ConnTracer.ex_key ev_info := with_active (ex_stats 100) 1 ]} |}.
Definition ev_ms' : Maps := (try_state_tracer (ex_kernel 250) (Ok 7) (Ok TCP_CLOSE) ev_ms).2.
Definition ev_conn : Connection := {|
  client := ex_wl "cart" "Deployment"; server := ex_wl "db" "StatefulSet";
  role := CONNECTION_ROLE_CLIENT; server_port := 8080 |}.

Lemma ev_facts :
  SOCKETS ev_ms !! 7 = None ∧ get_unique_id (ex_kernel 250) ≠ si_id ev_info ∧
  get_sock_role (ex_kernel 250) 7 = si_role ev_info ∧
  reported (pc_tables 0%nat) (with_info ConnTracer.ex_key ev_info, with_active (ex_stats 100) 1) = Some (ev_conn, 100).
Proof. split_and!; vm_compute; [reflexivity|discriminate|reflexivity..]. Qed.

Lemma ev_run : try_state_tracer (ex_kernel 250) (Ok 7) (Ok TCP_CLOSE) ev_ms = (Ok 0, ev_ms').
Proof. refine (eq_trans (surjective_pairing _) (f_equal (λ r, (r, _)) _)). vm_compute. reflexivity. Qed.

(** 100 bytes when it was last seen and 250 at its close are reported as 350. *)
Lemma evicted_counted_twice_witness :
  ∃ s s', poll ex_iter pc_tables s = (Ok {[ ev_conn := 350 ]}, s').
Proof.
  destruct tw_parse as ((_ & _ & Hp) & _). destruct ev_facts as (Hn & Hid & Hrole & Hrep).
  destruct (evicted_socket_counted_twice (LruLaws0 := bounded_hash_lru 16) (LruLaws1 := bounded_hash_lru 16)
    (HashLaws0 := bounded_hash_laws 16) ex_iter pc_tables ex_iter_lists
    (ex_kernel 250) 7 ConnTracer.ex_key (ex_stats 100) (ex_stats 250) ev_info ev_ms ev_ms' 0
    (ex_sm (CONNECTIONS ev_ms')) 3 0%nat ev_conn Hp (ex_kernel_ok 250) ltac:(unfold in_u; simpl; lia) Hn eq_refl Hid Hrole Hrep ev_run
    (ex_attached _) eq_refl eq_refl) as (m & s1 & s2 & _ & H & _).
  cbn [bytes_sent ex_stats] in H. exists s1, s2. exact H.
Defined.
End witnesses.
