(* ===== verification/BuildTasks.v ===== *)
(** * Build tasks

    The [xtask] programs: [xtask/src] of the workspace and
    [ebpf/{conn,socket}-tracer/xtask/src].  The processes they start are a
    parameter, the exit of each command; the state is the list of the commands
    that were started. *)
From S2P Require Import Prelude AgentApi Program.
From stdpp Require Import base strings list.
From Stdlib Require Import ZArith Lia Ascii.

(** ** [build_ebpf.rs]: the target *)

Inductive Architecture := BpfEl | BpfEb.

Definition Architecture_from_str (s : string) : result string Architecture :=
  if decide (s = "bpfel-unknown-none") then Ok BpfEl
  else if decide (s = "bpfeb-unknown-none") then Ok BpfEb
  else Err "invalid target".

Definition Architecture_fmt (a : Architecture) : string :=
  match a with BpfEl => "bpfel-unknown-none" | BpfEb => "bpfeb-unknown-none" end.

Record BuildOptions := { target : Architecture; bo_release : bool }.

(** ** Commands *)

Record Cmd := { c_program : string; c_args : list string; c_dir : option string;
                c_env_remove : list string }.

(** [status()]: whether the process could be started, and whether it succeeded. *)
Definition Exit : Type := result string bool.

Definition succeeded (r : Exit) : bool := match r with Ok true => true | _ => false end.

Section tasks.
Context (exits : Cmd → Exit).

Definition status (c : Cmd) : M (list Cmd) Failure Exit := λ tr, (Ok (exits c), tr ++ [c]).

(** [.status().expect(msg)] and [assert!(status.success())]. *)
Definition must_succeed (msg : string) (c : Cmd) : M (list Cmd) Failure unit :=
  r ← status c;
  match r with
  | Err _ => throw (Panic msg)
  | Ok true => mret ()
  | Ok false => throw (Panic "assertion failed: status.success()")
  end.

(** The crate of a tracer ([conn-tracer] or [socket-tracer]). *)
Definition ebpf_command (crate : string) (opts : BuildOptions) : Cmd := {|
  c_program := "cargo";
  c_args := ["build"; "--target=" +:+ Architecture_fmt (target opts); "-Z"; "build-std=core"] ++
            (if bo_release opts then ["--release"] else []);
  c_dir := Some (crate +:+ "-ebpf");
  c_env_remove := ["RUSTUP_TOOLCHAIN"] |}.

Definition build_ebpf (crate : string) (opts : BuildOptions) : M (list Cmd) Failure unit :=
  must_succeed "failed to build bpf program" (ebpf_command crate opts).

(** ** [run.rs] *)

Record RunOptions := {
  bpf_target : Architecture; release : bool; runner : string; run_args : list string }.

Definition build_command (opts : RunOptions) : Cmd := {|
  c_program := "cargo"; c_args := "build" :: (if release opts then ["--release"] else []);
  c_dir := None; c_env_remove := [] |}.

Definition build (opts : RunOptions) : M (list Cmd) Failure unit :=
  must_succeed "failed to build userspace" (build_command opts).

Definition profile (opts : RunOptions) : string := if release opts then "release" else "debug".

(** [str::trim] on ASCII white space. *)
Definition is_space (c : ascii) : bool :=
  let n := nat_of_ascii c in ((9 <=? n) && (n <=? 13))%nat || (n =? 32)%nat.

Fixpoint trim_start (s : string) : string :=
  match s with
  | EmptyString => EmptyString
  | String c s' => if is_space c then trim_start s' else s
  end.
Fixpoint trim_end (s : string) : string :=
  match s with
  | EmptyString => EmptyString
  | String c s' =>
      match trim_end s' with
      | EmptyString => if is_space c then EmptyString else String c EmptyString
      | t => String c t
      end
  end.
Definition trim (s : string) : string := trim_end (trim_start s).

(** [split_terminator(' ')]: an empty last piece is dropped. *)
Fixpoint split_space (s : string) : list string :=
  match s with
  | EmptyString => [""]
  | String c s' =>
      if decide (c = " "%char) then "" :: split_space s'
      else match split_space s' with
           | w :: ws => String c w :: ws
           | [] => [String c ""]
           end
  end.
Definition split_terminator (s : string) : list string :=
  let ws := split_space s in
  match last ws with Some "" => removelast ws | _ => ws end.

(** The command line: the words of the runner, the binary, the arguments. *)
Definition command_line (bin_path : string) (opts : RunOptions) : list string :=
  split_terminator (trim (runner opts)) ++ bin_path :: run_args opts.

Definition app_command (bin_path : string) (opts : RunOptions) : Cmd := {|
  c_program := default "" (head (command_line bin_path opts));
  c_args := tail (command_line bin_path opts); c_dir := None; c_env_remove := [] |}.

Definition tracer_bin (crate : string) (opts : RunOptions) : string :=
  "target/" +:+ profile opts +:+ "/" +:+ crate.

(** [run] of the tracers. *)
Definition tracer_run (crate : string) (opts : RunOptions) : M (list Cmd) Failure unit :=
  build_ebpf crate {| target := bpf_target opts; bo_release := release opts |};;
  build opts;;
  r ← status (app_command (tracer_bin crate opts) opts);
  match r with
  | Err _ => throw (Panic "failed to run the command")
  | Ok true => mret ()
  | Ok false => throw (Fail (Msg ("Failed to run `" +:+
                  String.concat " " (command_line (tracer_bin crate opts) opts) +:+ "`")))
  end.

(** The two tracers. *)
Definition conn_tracer_build_ebpf : BuildOptions → M (list Cmd) Failure unit := build_ebpf "conn-tracer".
Definition socket_tracer_build_ebpf : BuildOptions → M (list Cmd) Failure unit := build_ebpf "socket-tracer".
Definition conn_tracer_run : RunOptions → M (list Cmd) Failure unit := tracer_run "conn-tracer".
Definition socket_tracer_run : RunOptions → M (list Cmd) Failure unit := tracer_run "socket-tracer".

(** The task that was asked for, of a tracer. *)
Inductive Command := BuildEbpf (opts : BuildOptions) | Run (opts : RunOptions).
Definition conn_tracer_main (c : Command) : M (list Cmd) Failure unit :=
  match c with BuildEbpf opts => conn_tracer_build_ebpf opts | Run opts => conn_tracer_run opts end.
Definition socket_tracer_main (c : Command) : M (list Cmd) Failure unit :=
  match c with BuildEbpf opts => socket_tracer_build_ebpf opts | Run opts => socket_tracer_run opts end.

(** [run] of the workspace: [exec] returns only if it fails, [None] otherwise. *)
Definition agent_run (opts : RunOptions) (exec : Cmd → option string) :
    M (list Cmd) Failure (option unit) := λ tr,
  let c := app_command ("target/" +:+ profile opts +:+ "/agent") opts in
  match exec c with
  | None => (Ok None, tr ++ [c])
  | Some _ => (Err (Fail (Msg ("Failed to run `" +:+
                 String.concat " " (command_line ("target/" +:+ profile opts +:+ "/agent") opts) +:+ "`"))),
               tr ++ [c])
  end.
End tasks.

(** ** [xtask/src/protobuf.rs] and [main.rs] of the workspace *)

(** [output()] of a command: its status, and its output as a string if it is one. *)
Record Output := { o_success : bool; o_stdout : option string }.

(** [Path::join] with a relative path. *)
Definition path_join (root rel : string) : string :=
  if decide (String.substring (String.length root - 1) 1 root = "/") then root +:+ rel
  else root +:+ "/" +:+ rel.

Definition metadata_command : Cmd :=
  {| c_program := "cargo"; c_args := ["metadata"]; c_dir := None; c_env_remove := [] |}.

Definition unwrap_failed : Failure := Panic "called `Result::unwrap()` on an `Err` value".

Section protobuf.
(** The processes; [serde_json]: the text parsed, and its [workspace_root] if that
    is a string; the compiler of [tonic_build]: directory, files and includes. *)
Context (outputs : Cmd → result string Output) (json_root : string → result string (option string)).
Context (compile : string → list string → list string → result Error unit).

Definition workspace_root : M (list Cmd) Failure string := λ tr,
  (match outputs metadata_command with
   | Err _ => Err unwrap_failed
   | Ok o =>
       if negb (o_success o) then Err (Panic "unable to run cargo metadata")
       else match o_stdout o with
            | None => Err unwrap_failed
            | Some text =>
                match json_root text with
                | Err _ => Err unwrap_failed
                | Ok None => Err (Panic "called `Option::unwrap()` on a `None` value")
                | Ok (Some root) => Ok root
                end
            end
   end, tr ++ [metadata_command]).

Definition build_agent : M (list Cmd) Failure unit :=
  root ← workspace_root;
  lift (map_err Fail (compile (path_join root "agent-api/src") ["agent.proto"] [path_join root "proto"])).

Definition build_proto : M (list Cmd) Failure unit := build_agent;; mret ().

Inductive AgentCommand := BuildProto | RunAgent (opts : RunOptions).

(** The exit status: an error is printed and ends the process with 1, a panic with
    101; [None] when the process was replaced by the agent. *)
Definition xtask_main (exec : Cmd → option string) (command : AgentCommand) : list Cmd → option Z * list Cmd := λ tr,
  let '(r, tr') := match command with
                   | BuildProto => (build_proto;; mret (Some ())) tr
                   | RunAgent opts => agent_run opts exec tr
                   end in
  (match r with
   | Ok (Some _) => Some 0%Z
   | Ok None => None
   | Err (Fail _) => Some 1%Z
   | Err (Panic _) => Some 101%Z
   end, tr').
End protobuf.

(** ** Lemmas *)

Lemma Architecture_roundtrip a s :
  Architecture_from_str (Architecture_fmt a) = Ok a ∧
  (Architecture_from_str s = Ok a → s = Architecture_fmt a).
Proof.
  split; [by destruct a|]. unfold Architecture_from_str.
  repeat case_decide; intros [= <-]; done.
Qed.

(** Words without white space. *)
Fixpoint no_space (s : string) : bool :=
  match s with EmptyString => true | String c s' => negb (is_space c) && no_space s' end.
Definition word (w : string) : Prop := w ≠ "" ∧ no_space w = true.

Lemma split_space_word w s : no_space w = true → split_space (w +:+ String " " s) = w :: split_space s.
Proof.
  induction w as [|c w IH]; [done|]. cbn [no_space String.append split_space].
  intros [Hc Hw]%andb_prop. rewrite (IH Hw), decide_False; [done|]. by intros ->.
Qed.

Lemma split_space_last w : no_space w = true → split_space w = [w].
Proof.
  induction w as [|c w IH]; [done|]. cbn [no_space split_space].
  intros [Hc Hw]%andb_prop. rewrite (IH Hw), decide_False; [done|]. by intros ->.
Qed.

Lemma concat_cons w w' ws :
  String.concat " " (w :: w' :: ws) = w +:+ String " " (String.concat " " (w' :: ws)).
Proof. done. Qed.

Lemma split_space_concat w ws : Forall word (w :: ws) → split_space (String.concat " " (w :: ws)) = w :: ws.
Proof.
  revert w. induction ws as [|w' ws IH]; intros w Hw.
  - apply Forall_cons in Hw as [[_ Hw] _]. by apply split_space_last.
  - apply Forall_cons in Hw as [[_ Hw] Hws]. rewrite concat_cons, split_space_word by done.
    by rewrite IH.
Qed.

Lemma trim_end_cons c s : trim_end s = s → s ≠ "" → trim_end (String c s) = String c s.
Proof. intros Hs Hne. cbn [trim_end]. rewrite Hs. by destruct s. Qed.

Lemma trim_end_word w : word w → trim_end w = w.
Proof.
  intros [Hne Hw]. induction w as [|c w IH]; [done|]. cbn [no_space] in Hw.
  apply andb_prop in Hw as [Hc Hw]. destruct w as [|d w].
  - cbn [trim_end]. by destruct (is_space c).
  - apply trim_end_cons; [by apply IH|done].
Qed.

Lemma trim_end_app s t : trim_end t = t → t ≠ "" → trim_end (s +:+ t) = s +:+ t ∧ s +:+ t ≠ "".
Proof.
  intros Ht Hne. induction s as [|c s [IH1 IH2]]; [done|]. cbn [String.append].
  split; [by apply trim_end_cons|done].
Qed.

Lemma trim_end_concat w ws : Forall word (w :: ws) →
  trim_end (String.concat " " (w :: ws)) = String.concat " " (w :: ws) ∧ String.concat " " (w :: ws) ≠ "".
Proof.
  revert w. induction ws as [|w' ws IH]; intros w Hw; apply Forall_cons in Hw as [Hw Hws].
  - split; [by apply trim_end_word|apply Hw].
  - rewrite concat_cons. destruct (IH w' Hws) as [H1 H2].
    apply trim_end_app; [|done]. by apply trim_end_cons.
Qed.

(** The words of a runner that is written with single spaces. *)
Lemma runner_words ws : Forall word ws → split_terminator (trim (String.concat " " ws)) = ws.
Proof.
  destruct ws as [|w ws]; [done|]. intros Hw. unfold trim.
  assert (trim_start (String.concat " " (w :: ws)) = String.concat " " (w :: ws)) as ->.
  { apply Forall_cons in Hw as [[Hne Hw] _]. destruct w as [|c w]; [done|]. cbn [no_space] in Hw.
    apply andb_prop in Hw as [Hc _]. apply negb_true_iff in Hc.
    destruct ws as [|w' ws]; [cbn [String.concat trim_start]; by rewrite Hc|].
    rewrite concat_cons. cbn [String.append trim_start]. by rewrite Hc. }
  rewrite (proj1 (trim_end_concat w ws Hw)). unfold split_terminator. rewrite split_space_concat by done.
  destruct (last (w :: ws)) as [[|c l]|] eqn:Hl; try done.
  apply last_Some_elem_of in Hl. by destruct (proj1 (Forall_forall _ _) Hw _ Hl).
Qed.

Lemma must_succeed_run exits msg c tr :
  must_succeed exits msg c tr =
    (match exits c with
     | Ok true => Ok ()
     | Ok false => Err (Panic "assertion failed: status.success()")
     | Err _ => Err (Panic msg)
     end, tr ++ [c]).
Proof. unfold must_succeed, status, mbind, M_bind. by destruct (exits c) as [[]|]. Qed.

(** ** Properties *)

(** [run] of a tracer builds the eBPF program, then the user space, then starts
    the application, each only if what comes before succeeded, and returns [Ok]
    exactly when all three did; the application's command line is the words of
    the runner, the binary of the profile and the given arguments, unchanged. *)
Lemma tracer_run_order exits crate opts ws :
  Forall word ws → runner opts = String.concat " " ws →
  let e := ebpf_command crate {| target := bpf_target opts; bo_release := release opts |} in
  let b := build_command opts in
  let a := app_command (tracer_bin crate opts) opts in
  let '(r, tr) := tracer_run exits crate opts [] in
  c_program a :: c_args a = ws ++ tracer_bin crate opts :: run_args opts ∧
  (r = Ok () ↔ succeeded (exits e) && succeeded (exits b) && succeeded (exits a) = true) ∧
  tr = (if succeeded (exits e) then if succeeded (exits b) then [e; b; a] else [e; b] else [e]).
Proof.
  intros Hws Hr e b a. unfold tracer_run, build_ebpf, build, mbind, M_bind.
  rewrite must_succeed_run. fold e b a.
  assert (c_program a :: c_args a = ws ++ tracer_bin crate opts :: run_args opts) as Ha.
  { subst a. unfold app_command, command_line. cbn [c_program c_args]. rewrite Hr, runner_words by done.
    by destruct ws. }
  destruct (exits e) as [[]|] eqn:He; cbn [app]; rewrite ?must_succeed_run; fold b;
    [|split_and!; done..].
  destruct (exits b) as [[]|] eqn:Hb; cbn [app]; [|split_and!; done..].
  unfold status. fold a. destruct (exits a) as [[]|] eqn:Hx; split_and!; done.
Qed.

(** [run] of the workspace starts the agent and nothing else, built or not. *)
Lemma agent_run_builds_nothing opts exec :
  (agent_run opts exec []).2 = [app_command ("target/" +:+ profile opts +:+ "/agent") opts].
Proof. unfold agent_run. by destruct (exec _). Qed.

(** [build-proto] succeeds exactly when cargo names the root of the workspace and the
    compiler accepts the one description in its [proto], for the crate
    [agent-api]; it starts one process. *)
Lemma build_proto_status outputs json_root compile exec :
  let '(st, tr) := xtask_main outputs json_root compile exec BuildProto [] in
  tr = [metadata_command] ∧
  (st = Some 0%Z ↔ ∃ o text root, outputs metadata_command = Ok o ∧ o_success o = true ∧ o_stdout o = Some text ∧
     json_root text = Ok (Some root) ∧
     compile (path_join root "agent-api/src") ["agent.proto"] [path_join root "proto"] = Ok ()).
Proof.
  unfold xtask_main, build_proto, build_agent, workspace_root, mbind, M_bind, lift. cbn -[path_join].
  destruct (outputs metadata_command) as [[[] [text|]]|e] eqn:Ho; cbn -[path_join]; try (split; [done|naive_solver]).
  destruct (json_root text) as [[root|]|e] eqn:Hj; cbn -[path_join]; try (split; [done|naive_solver]).
  destruct (compile _ _ _) as [[]|e] eqn:Hc; cbn -[path_join]; (split; [done|]); split; try done.
  - intros _. exists {| o_success := true; o_stdout := Some text |}, text, root. done.
  - intros (o & text' & root' & [= <-] & _ & [= <-] & [= <-]%(eq_trans (eq_sym Hj)) & Hc'). congruence.
  - split; [done|]. split; [done|]. intros (o & text' & root' & [= <-] & _ & [= <-] & Hj' & _). congruence.
  - split; [done|]. split; [done|]. intros (o & text' & root' & [= <-] & _ & [= <-] & Hj' & _). congruence.
Qed.

(** ** Witnesses *)

Definition ex_opts : RunOptions :=
  {| bpf_target := BpfEl; release := true; runner := "sudo -E"; run_args := ["--all"] |}.

Lemma tracer_run_witness :
  (tracer_run (λ c, Ok (bool_decide (c_dir c = None))) "conn-tracer" ex_opts []).2 =
    [ebpf_command "conn-tracer" {| target := BpfEl; bo_release := true |}].
Proof.
  pose proof (tracer_run_order (λ c, Ok (bool_decide (c_dir c = None))) "conn-tracer" ex_opts ["sudo"; "-E"]
    ltac:(repeat constructor; discriminate) eq_refl) as H.
  destruct (tracer_run _ _ _ _) as [r tr]. destruct H as (_ & _ & ->). reflexivity.
Defined.
