(* ===== verification/Startup.v ===== *)
(** * Start-up of the agent and of the connection tracer's user space

    [agent/src/main.rs] (the arguments), [agent/src/utils.rs] (the environment:
    resource limit, runtime directory and its permissions), [managers/image.rs],
    and [ebpf/conn-tracer/conn-tracer/src/main.rs], which loads the two probes of
    the connection tracer and keeps them attached until it is interrupted.  The
    system calls and the aya crate are parameters. *)
From S2P Require Import Prelude AgentApi Bpf ConnTracer Program.
From stdpp Require Import base gmap strings list.
From Stdlib Require Import ZArith Lia.

Local Open Scope Z_scope.

(** ** [main.rs] and [utils.rs] of the agent *)

Record Args := {
  metrics_addr : string; metrics_path : string; agent_socket_path : string;
  bpfman_socket_path : string }.

Definition Args_default : Args := {|
  metrics_addr := "0.0.0.0:8080"; metrics_path := "/metrics";
  agent_socket_path := "/run/eva/agent.sock";
  bpfman_socket_path := "/run/bpfman-sock/bpfman.sock" |}.

(** [constants::directories]: 0o6770 *)
Definition RTDIR : string := "/run/eva".
Definition RTDIR_MODE : Z := 3576.

(** The memory lock limit, the directories and the modes of the files. *)
Record Os := {
  memlock_unlimited : bool;
  dirs : gset string;
  modes : gmap string Z }.

(** What the system answers: the two calls, and the entries of a directory, each
    readable or not; [None] if the directory cannot be read. *)
Record Sys := {
  setrlimit : bool;
  create_dir_all : result Error unit;
  read_dir : option (list (result Error string)) }.

(** [set_file_permissions] of bpfman: its effect on the system, and what it is
    documented to do. *)
Definition Permissions : Type := string → Z → Os → Os.
Definition sets_mode (set_file_permissions : Permissions) : Prop := ∀ path mode s,
  set_file_permissions path mode s =
    {| memlock_unlimited := memlock_unlimited s; dirs := dirs s; modes := <[path := mode]> (modes s) |}.

Section agent.
Context (set_file_permissions : Permissions) (sys : Sys).

Fixpoint set_each (mode : Z) (entries : list (result Error string)) : M Os Failure unit :=
  match entries with
  | [] => mret ()
  | Ok path :: rest => modify (set_file_permissions path mode);; set_each mode rest
  | Err _ :: rest => set_each mode rest
  end.

Definition set_dir_permissions (mode : Z) : M Os Failure unit :=
  match read_dir sys with
  | None => throw (Panic "called `Result::unwrap()` on an `Err` value")
  | Some entries => set_each mode entries
  end.

Definition init_env : M Os Failure unit :=
  (if setrlimit sys then
     modify (λ s, {| memlock_unlimited := true; dirs := dirs s; modes := modes s |})
   else throw (Panic "called `Result::unwrap()` on an `Err` value"));;
  lift (map_err (λ _, Fail (Msg "unable to create runtime directory")) (create_dir_all sys));;
  modify (λ s, {| memlock_unlimited := memlock_unlimited s; dirs := {[ RTDIR ]} ∪ dirs s;
                  modes := modes s |});;
  set_dir_permissions RTDIR_MODE.

(** [main]: the environment, then the server. *)
Definition agent_main (serve : M Os Failure unit) : M Os Failure unit := init_env;; serve.
End agent.

(** ** [image.rs]: there is nothing in it yet *)

Record ImageManager := {}.
Definition ImageManager_new : ImageManager := Build_ImageManager.

(** ** The connection tracer's user space *)

Inductive ProgKind := KProbe | TracePoint.
Inductive Point := Function (name : string) | Event (category name : string).

(** What aya answers: the programs of the object, and loading and attaching one. *)
Record AyaConn := {
  ebpf_load : result Error (list (string * ProgKind));
  prog_load : string → result Error unit;
  prog_attach : string → Point → result Error unit;
  ctrl_c : result Error unit }.

Section conn_tracer_main.
Context (aya : AyaConn).

(** [program_mut(name).unwrap().try_into()?], [load()?] and [attach(point)?]. *)
Definition attach_program (progs : list (string * ProgKind)) (name : string) (kind : ProgKind)
    (point : Point) : M (list (string * Point)) Failure unit :=
  match (list_to_map progs : gmap string ProgKind) !! name with
  | None => throw (Panic "called `Option::unwrap()` on a `None` value")
  | Some k =>
      match k, kind with
      | KProbe, KProbe | TracePoint, TracePoint =>
          lift (map_err Fail (prog_load aya name));;
          lift (map_err Fail (prog_attach aya name point));;
          modify (λ links, links ++ [(name, point)])
      | _, _ => throw (Fail (Msg "unexpected program type"))
      end
  end.

(** Up to the wait for Ctrl-C; the limit on locked memory and the logger may fail. *)
Definition conn_setup : M (list (string * Point)) Failure unit :=
  progs ← lift (map_err Fail (ebpf_load aya));
  attach_program progs "sock_conn_tracer" KProbe (Function "tcp_data_queue");;
  attach_program progs "sock_state_tracer" TracePoint (Event "sock" "inet_sock_set_state").

(** The links are dropped, and the probes detached, when [main] returns. *)
Definition conn_main : M (list (string * Point)) Failure unit := λ links,
  match conn_setup links with
  | (Ok _, _) => (map_err Fail (ctrl_c aya), [])
  | (Err e, _) => (Err e, [])
  end.
End conn_tracer_main.

(** A probe runs for an event of the kernel if it is attached to it. *)
Global Instance Point_eq_dec : EqDecision Point.
Proof. solve_decision. Defined.

Definition point_of (ev : ConnTracer.Event) : string * Point :=
  match ev with
  | TcpDataQueue _ => ("sock_conn_tracer", Function "tcp_data_queue")
  | InetSockSetState _ _ => ("sock_state_tracer", Event "sock" "inet_sock_set_state")
  end.

Definition fire {BS : BpfMap Z SockInfo} {BC : BpfMap ConnectionKey ConnectionStats}
    (links : list (string * Point)) (k : Kernel) (ev : ConnTracer.Event) (s : Maps) : Maps :=
  if decide (point_of ev ∈ links) then run_event k ev s else s.

(** ** Lemmas *)

Definition attaches (aya : AyaConn) (progs : list (string * ProgKind)) (name : string) (kind : ProgKind)
    (point : Point) : Prop :=
  (list_to_map progs : gmap string ProgKind) !! name = Some kind ∧
  is_ok (prog_load aya name) = true ∧ is_ok (prog_attach aya name point) = true.

Lemma attach_program_ok aya progs name kind point links :
  (attaches aya progs name kind point ∧
   attach_program aya progs name kind point links = (Ok (), links ++ [(name, point)])) ∨
  (¬ attaches aya progs name kind point ∧
   ∃ e, attach_program aya progs name kind point links = (Err e, links)).
Proof.
  unfold attach_program, attaches.
  destruct (list_to_map progs !! name) as [k|]; [|right; naive_solver].
  destruct k, kind; try (right; naive_solver);
    unfold mbind, M_bind, lift, modify;
    (destruct (prog_load aya name); [|right; naive_solver]);
    (destruct (prog_attach aya name point); [|right; naive_solver]);
    left; naive_solver.
Qed.

Lemma set_each_modes perm mode entries s : sets_mode perm →
  ∃ s', set_each perm mode entries s = (Ok (), s') ∧
    memlock_unlimited s' = memlock_unlimited s ∧ dirs s' = dirs s ∧
    ∀ path, modes s' !! path = if decide (path ∈ omap ok entries) then Some mode else modes s !! path.
Proof.
  intros Hperm. revert s. induction entries as [|[p|e] entries IH]; intros s; cbn [set_each].
  - exists s. done.
  - unfold mbind, M_bind, modify. rewrite Hperm. destruct (IH {|
      memlock_unlimited := memlock_unlimited s; dirs := dirs s; modes := <[p := mode]> (modes s) |})
      as (s' & Hr & H1 & H2 & H3). exists s'. split_and!; try done. intros path. rewrite H3. cbn [modes].
    destruct (decide (path ∈ omap ok entries)) as [Hin|Hn].
    + by rewrite decide_True by (by constructor).
    + destruct (decide (path = p)) as [->|Hne].
      * by rewrite lookup_insert_eq, decide_True by constructor.
      * rewrite lookup_insert_ne, decide_False; [done| |done].
        intros [->|?]%elem_of_cons; done.
  - destruct (IH s) as (s' & Hr & H1 & H2 & H3). by exists s'.
Qed.

(** ** Properties *)

(** The agent's environment: [init_env] returns [Ok] exactly when the limit is
    raised, the runtime directory is created and it can be listed; then every
    readable entry of it has the directory's mode, and the directory itself the
    mode it had. *)
Lemma init_env_spec perm sys s : sets_mode perm →
  (is_ok (init_env perm sys s).1 = true ↔
     setrlimit sys = true ∧ is_ok (create_dir_all sys) = true ∧ is_Some (read_dir sys)) ∧
  ∀ s' entries, init_env perm sys s = (Ok (), s') → read_dir sys = Some entries →
    memlock_unlimited s' = true ∧ RTDIR ∈ dirs s' ∧
    ∀ path, modes s' !! path = if decide (path ∈ omap ok entries) then Some RTDIR_MODE else modes s !! path.
Proof.
  intros Hperm. unfold init_env, set_dir_permissions, mbind, M_bind, lift, modify, throw.
  destruct (setrlimit sys); [|split; [naive_solver|done]].
  destruct (create_dir_all sys) as [[]|e]; cbn [map_err]; [|split; [naive_solver|done]].
  destruct (read_dir sys) as [entries|].
  2: { split; [|done]. split; [done|]. by intros (_ & _ & [? ?]). }
  match goal with |- context [set_each _ _ _ ?st] =>
    destruct (set_each_modes perm RTDIR_MODE entries st Hperm) as (s1 & Hr & H1 & H2 & H3) end.
  rewrite Hr. split; [naive_solver|]. intros s' entries' [= <-] [= <-].
  rewrite H1, H2. split_and!; [done|set_solver|exact H3].
Qed.

(** The connection tracer's user space waits with both probes attached exactly
    when the object loads, holds the two programs with their types, and each can
    be loaded and attached; from then on every event of the kernel that the
    probes are written for runs its probe.  Otherwise nothing stays attached. *)
Lemma conn_tracer_attached {BS : BpfMap Z SockInfo} {BC : BpfMap ConnectionKey ConnectionStats} aya :
  (is_ok (conn_setup aya []).1 = true ↔
     ∃ progs, ebpf_load aya = Ok progs ∧
       attaches aya progs "sock_conn_tracer" KProbe (Function "tcp_data_queue") ∧
       attaches aya progs "sock_state_tracer" TracePoint (Event "sock" "inet_sock_set_state")) ∧
  (is_ok (conn_setup aya []).1 = true →
     ∀ k ev s, fire (conn_setup aya []).2 k ev s = run_event k ev s) ∧
  (conn_main aya []).2 = [].
Proof.
  split_and!.
  - unfold conn_setup, mbind, M_bind, lift. destruct (ebpf_load aya) as [progs|e]; cbn [map_err];
      [|split; [done|by intros (? & ? & _)]].
    destruct (attach_program_ok aya progs "sock_conn_tracer" KProbe (Function "tcp_data_queue") [])
      as [[H1 ->]|[H1 [e ->]]]; [|split; [done|naive_solver]].
    destruct (attach_program_ok aya progs "sock_state_tracer" TracePoint
                (Event "sock" "inet_sock_set_state") ([] ++ [("sock_conn_tracer", Function "tcp_data_queue")]))
      as [[H2 ->]|[H2 [e ->]]]; naive_solver.
  - unfold conn_setup, mbind, M_bind, lift. destruct (ebpf_load aya) as [progs|e]; cbn [map_err]; [|done].
    destruct (attach_program_ok aya progs "sock_conn_tracer" KProbe (Function "tcp_data_queue") [])
      as [[H1 ->]|[H1 [e ->]]]; [|done].
    destruct (attach_program_ok aya progs "sock_state_tracer" TracePoint
                (Event "sock" "inet_sock_set_state") ([] ++ [("sock_conn_tracer", Function "tcp_data_queue")]))
      as [[H2 ->]|[H2 [e ->]]]; [|done].
    intros _ k ev s. unfold fire. destruct ev; reflexivity.
  - unfold conn_main. by destruct (conn_setup aya []) as [[]].
Qed.

Example conn_tracer_waits :
  (conn_setup {| ebpf_load := Ok [("sock_state_tracer", TracePoint); ("sock_conn_tracer", KProbe)];
                 prog_load := λ _, Ok (); prog_attach := λ _ _, Ok (); ctrl_c := Ok () |} []).2 =
  [("sock_conn_tracer", Function "tcp_data_queue");
   ("sock_state_tracer", Event "sock" "inet_sock_set_state")].
Proof. reflexivity. Qed.
